(* ===== verification/_CoqProject ===== *)
-Q . S2P
Prelude.v
Crc8.v
Configs.v
LumenHeader.v
LumenPacket.v
Asio.v
ReliabilityManager.v
Retransmission.v
UdpServer.v
UdpClient.v
Libraries.v
Messages.v
LumenProtocol.v
ProtocolFacts.v
Framing.v
Delivery.v
MessageManager.v
Doubles.v
Decimals.v
BaseStation.v
BaseSession.v
Discovery.v
Rover.v
RoverEffects.v
RoverSession.v
RoverRecovery.v
Handshake.v
Receiving.v
Coordinates.v
Meeting.v
Movement.v
