(* ===== verification/Prelude.v ===== *)
(** * Lumen: a reliable, message-oriented protocol between rovers and a base station

    This library models the C++ program under [src/] and proves what its layers
    promise.  A reader of the program finds in it one file per component, with one
    definition per function; the files of theorems follow.

    ** The program and its parts

    Two programs share the layers below.  A _base station_ owns a UDP server socket, a
    _rover_ a UDP client socket; each runs on the one thread of an [io_context], so
    every function and every handler is one step, and what happens in between are
    events: the completion of a receive or a timer, a posted handler, a call of a
    public function.  From the wire up:

    - packets: [LumenHeader] (header and its codecs), [Crc8] ([calculate_crc8]) and
      [LumenPacket] (packets), for [src/common/lumen_header.cpp], [lumen_packet.cpp];
    - sockets: [UdpServer] for [src/base/udp_server.cpp], [UdpClient] for
      [src/rover/udp_client.cpp], [Discovery] for the scans of the subnet;
    - reliability: [ReliabilityManager] for [src/common/reliability_manager.cpp]:
      packets waiting for an ACK, retransmission with backoff, gaps and NAKs;
    - the protocol: [LumenProtocol] for [src/common/lumen_protocol.cpp]: numbering,
      the frame buffers, ACKs and NAKs, raw datagrams;
    - messages: [Messages] for [src/common/message.cpp], [timepoint_utils.cpp] and the
      message classes of [include/common], [MessageManager] for [message_manager.cpp];
    - the nodes: [BaseStation] for [src/base/base_station.cpp] and [Rover] for
      [src/rover/rover.cpp]: the session, its timers, storing while the session is
      lost, low power mode, discovery, movement.

    [Configs] holds the constants of [include/common/configs.hpp].  [Asio], [Libraries]
    and [Doubles] hold what is used of Boost.Asio, of nlohmann::json and [std::chrono],
    and of [double] with its input and output.

    ** How the state corresponds to the code

    A class is a [Record] with the members of the class under their names; a mutex has
    no field, a callback is a flag that it is set, and the code it runs is a parameter.
    A function of a leaf class is a function on its record, with the readings of the
    clocks it makes as arguments, and what it asks of others as results: datagrams for
    the socket, calls of its callbacks ([rm_call]).  From [LumenProtocol] up the state
    is [World U]: the transport, the protocol object with its reliability manager, the
    datagrams sent so far ([sent_], in order), the two clocks, and the state [U] of the
    layers above.  Functions are programs of the monad [M] below, over the state and
    exceptions ([exn]); [try_catch] is a handler for all exceptions, [try_runtime] one
    for [std::runtime_error].  What is handed to [boost::asio::post] is a queue of the
    state ([posted_]), whose handlers are run by events.  A timer is the expiry that was set and
    whether a wait is outstanding.  Integers are [Z], wrapped where a type does it
    ([u8], [u16], [u32]); bytes are [list Z]; a [std::map] is a [gmap], iterated in the
    order of its keys where the program does it.

    [HasManager] is the interface between the message manager and the node it is part
    of; [AsioAddress], [Json] and [Chrono] are those of the libraries, each with a class
    of laws stating documented behaviour and an instance to evaluate on.  [NoThrow],
    [Commutes], [Preserves] and [Stable] are the properties of programs which proofs
    compose by instance search.

    ** What is proved

    - [LumenPacket], [Crc8]: the packet codec is inverse to itself in both directions,
      detects the corruptions a CRC-8 detects, reads inside its argument; what happens
      to payloads of more than sixteen bits of length.
    - [Retransmission]: the manager as a machine over its calls and timer events: its
      invariant, how often a packet is retransmitted, when, and when it is given up, the
      report of missing numbers, the record of acknowledged ones.
    - [Framing]: the frame loop ends, and refines [deframes], a grammar of the stream
      stated on what the encoders write; what becomes of packets split over datagrams.
    - [Delivery], [MessageManager], [Messages]: numbering; a message and its ACK between
      two nodes, through their sockets, and what happens to one that does not fit into the
      receive buffer; what a base station passes up over a session with its timers, by a
      ledger; NAKs and their answers; messages read back as they were written; JSON and
      text datagrams.
    - [BaseSession]: an abstract session and the refinement of the session commands,
      the invariant of every run, who is heard, which commands leave.
    - [RoverEffects], [RoverSession], [RoverRecovery]: every handler of the rover as a
      function on its state; in every reachable state what comes next is scheduled; the
      session refines an abstract machine; retries, the loss of the base and its probes,
      stored messages, low power.
    - [Handshake], [Coordinates], [Meeting]: two nodes together, datagram by datagram,
      each arriving at the socket of the other: the handshake ends with both sessions
      active, a target set at the base is the one the rover moves to, a scan finds the
      rovers that answer.
    - [Movement]: a rover with a target moves until it is there, unless it is stopped.
    - [Receiving]: over any run a node that is up has a receive outstanding, or the timer
      armed that starts the next; a node that was stopped cannot be started again.
    - [Decimals]: [std::stod] reads back what [std::fixed] with six digits writes.

    ** Fuel and bounds

    The loop of [process_frame_buffer] takes one more than the length of its buffer as
    fuel; every iteration removes a byte, and [frame_loop_terminates] shows that the
    loop ends by itself.  Every other loop is structural.  Keys of the reliability
    manager are [uint8_t]: iterating from 0 to 255 visits all of them.  [fires n] is a
    timer that completes [n] times, for every [n].

    A receive hands its handler at most the 1024 bytes of its buffer ([received_data]):
    the rest of a longer datagram is lost without an error, as on POSIX systems.  The
    theorems on arrivals through a socket ([server_receive], [client_receive]) say which
    packets fit, the twelve bytes around a payload included.

    ** What is not modelled

    The two interactive programs ([test_base_main.cpp], [test_rover_main.cpp]), logging,
    destructors, and the mutexes: with one thread they are never contended.  Not the
    lifetime of the buffers handed to the socket for sending, and not the socket itself: a datagram
    handed to it is recorded, and which datagrams arrive is up to the events of a run.
    Name resolution and the parsing of address literals are arguments.  The text of an
    exception is kept only where it is the program's own. *)
From Stdlib Require Export ZArith Lia.
From Stdlib Require Import Ascii String.
From stdpp Require Export base tactics numbers list list_numbers strings gmap fin_maps sets.

Open Scope Z_scope.

Create HintDb lumen.

(** ** Machine-width integers *)

(** The unsigned integer types of the sources.  A value of type [uintN_t] is a
    [Z]; a conversion to the type reduces modulo [2^N]. *)
Definition u8 (z : Z) : Z := z mod 256.
Definition u16 (z : Z) : Z := z mod 65536.
Definition u32 (z : Z) : Z := z mod 4294967296.

Definition is_u8 (z : Z) : Prop := 0 <= z < 256.
Definition is_u16 (z : Z) : Prop := 0 <= z < 65536.
Definition is_u32 (z : Z) : Prop := 0 <= z < 4294967296.

#[export] Instance is_u8_dec z : Decision (is_u8 z).
Proof. unfold is_u8. apply _. Defined.
#[export] Instance is_u16_dec z : Decision (is_u16 z).
Proof. unfold is_u16. apply _. Defined.
#[export] Instance is_u32_dec z : Decision (is_u32 z).
Proof. unfold is_u32. apply _. Defined.

(** A [std::vector<uint8_t>]. *)
Abbreviation bytes := (list Z).

Definition bytes_ok (bs : bytes) : Prop := Forall is_u8 bs.

#[export] Instance bytes_ok_dec bs : Decision (bytes_ok bs).
Proof. unfold bytes_ok. apply _. Defined.

(** [v.size()] as a [size_t]; the vectors of the program are far below the
    range of the type. *)
Definition vec_size (bs : bytes) : Z := Z.of_nat (length bs).

(** [v\[i\]], with the value [oob] where C++ leaves the read undefined.  The
    parsers are stated for every [oob] and proved independent of it. *)
Definition vec_at (oob : Z) (bs : bytes) (i : Z) : Z :=
  default oob (bs !! Z.to_nat i).

(** [v\[i\] = b] *)
Definition vec_set (i b : Z) (bs : bytes) : bytes := <[Z.to_nat i := b]> bs.

(** The range [\[first, last)] of a vector, as the iterator-pair constructor
    and [insert]/[erase] use it. *)
Definition vec_range (bs : bytes) (first last : Z) : bytes :=
  take (Z.to_nat (last - first)) (drop (Z.to_nat first) bs).

(** [std::vector<uint8_t>(s.begin(), s.end())] and [std::string(v.begin(), v.end())]. *)
Definition string_to_binary (s : string) : bytes :=
  (fun c => Z.of_N (N_of_ascii c)) <$> list_ascii_of_string s.
Definition binary_to_string (bs : bytes) : string :=
  string_of_list_ascii ((fun b => ascii_of_N (Z.to_N (u8 b))) <$> bs).

Ltac unfold_ints := unfold u8, u16, u32, is_u8, is_u16, is_u32 in *.

(** [lia] after the integer types are unfolded. *)
Ltac ilia := unfold_ints; Z.to_euclidean_division_equations; lia.

Lemma u8_range z : is_u8 (u8 z).
Proof. ilia. Qed.
Lemma u16_range z : is_u16 (u16 z).
Proof. ilia. Qed.
Lemma u32_range z : is_u32 (u32 z).
Proof. ilia. Qed.

Lemma u8_small z : is_u8 z -> u8 z = z.
Proof. ilia. Qed.
Lemma u16_small z : is_u16 z -> u16 z = z.
Proof. ilia. Qed.
Lemma u32_small z : is_u32 z -> u32 z = z.
Proof. ilia. Qed.

#[export] Hint Resolve u8_range u16_range u32_range u8_small u16_small u32_small : lumen.

(** *** Vectors of bytes *)

Lemma bytes_ok_app bs1 bs2 : bytes_ok (bs1 ++ bs2) <-> bytes_ok bs1 /\ bytes_ok bs2.
Proof. apply Forall_app. Qed.

Lemma bytes_ok_cons b bs : bytes_ok (b :: bs) <-> is_u8 b /\ bytes_ok bs.
Proof. apply Forall_cons. Qed.

Lemma bytes_ok_nil : bytes_ok [].
Proof. constructor. Qed.

Lemma bytes_ok_take n bs : bytes_ok bs -> bytes_ok (take n bs).
Proof. apply Forall_take. Qed.

Lemma bytes_ok_drop n bs : bytes_ok bs -> bytes_ok (drop n bs).
Proof. apply Forall_drop. Qed.

Lemma bytes_ok_lookup bs i b : bytes_ok bs -> bs !! i = Some b -> is_u8 b.
Proof. intros H1 H2. eapply Forall_lookup_1; eauto. Qed.

#[export] Hint Resolve bytes_ok_nil bytes_ok_take bytes_ok_drop : lumen.

Lemma vec_size_app bs1 bs2 : vec_size (bs1 ++ bs2) = vec_size bs1 + vec_size bs2.
Proof. unfold vec_size. rewrite length_app. lia. Qed.

Lemma vec_size_nonneg bs : 0 <= vec_size bs.
Proof. unfold vec_size. lia. Qed.

Lemma vec_at_lookup oob bs i b : bs !! Z.to_nat i = Some b -> vec_at oob bs i = b.
Proof. unfold vec_at. intros ->. done. Qed.

(** A read inside the vector does not depend on [oob]. *)
Lemma vec_at_in_range oob1 oob2 bs i :
  0 <= i < vec_size bs -> vec_at oob1 bs i = vec_at oob2 bs i.
Proof.
  unfold vec_at, vec_size. intros H.
  destruct (bs !! Z.to_nat i) eqn:E; [done|].
  apply lookup_ge_None in E. lia.
Qed.

Lemma string_to_binary_ok s : bytes_ok (string_to_binary s).
Proof.
  apply Forall_fmap, Forall_true. intros c. unfold is_u8; simpl.
  pose proof (N_ascii_bounded c). lia.
Qed.

Lemma binary_to_string_to_binary s : binary_to_string (string_to_binary s) = s.
Proof.
  unfold binary_to_string, string_to_binary. rewrite <- list_fmap_compose.
  rewrite <- (string_of_list_ascii_of_string s) at 2. f_equal.
  etransitivity; [|apply list_fmap_id]. apply list_fmap_ext. intros _ c _. simpl.
  rewrite u8_small by (pose proof (N_ascii_bounded c); unfold is_u8; lia).
  by rewrite N2Z.id, ascii_N_embedding.
Qed.

Lemma string_to_binary_to_string bs : bytes_ok bs -> string_to_binary (binary_to_string bs) = bs.
Proof.
  intros Hbs. unfold binary_to_string, string_to_binary.
  rewrite list_ascii_of_string_of_list_ascii, <- list_fmap_compose.
  etransitivity; [|apply list_fmap_id]. apply list_fmap_ext. intros i b Hb. simpl.
  apply (bytes_ok_lookup _ _ _ Hbs) in Hb. rewrite u8_small by done.
  unfold is_u8 in Hb. rewrite N_ascii_embedding by lia. lia.
Qed.
#[export] Hint Resolve string_to_binary_ok : lumen.

(** Induction on the length of a vector, the measure of the parsing loops. *)
Lemma bytes_len_ind (P : bytes -> Prop) :
  (forall bs, (forall bs', (length bs' < length bs)%nat -> P bs') -> P bs) ->
  forall bs, P bs.
Proof.
  intros H bs. remember (length bs) as n eqn:E. revert bs E.
  induction (lt_wf n) as [n _ IH]. intros bs ->. apply H. intros bs' Hlt.
  by apply (IH (length bs')).
Qed.

(** *** Exclusive or *)

Lemma lxor_u8 a b : is_u8 a -> is_u8 b -> is_u8 (Z.lxor a b).
Proof.
  unfold is_u8. intros Ha Hb. split.
  - apply Z.lxor_nonneg. lia.
  - destruct (Z.eq_dec (Z.lxor a b) 0) as [->|Hn]; [lia|].
    assert (0 <= Z.lxor a b) by (apply Z.lxor_nonneg; lia).
    apply (Z.log2_lt_pow2 _ 8); [lia|].
    eapply Z.le_lt_trans; [apply Z.log2_lxor; lia|].
    apply Z.max_lub_lt; (destruct (Z.eq_dec a 0) as [->|]; destruct (Z.eq_dec b 0) as [->|];
      try (simpl; lia); apply Z.log2_lt_pow2; lia).
Qed.
#[export] Hint Resolve lxor_u8 : lumen.

(** Equations between exclusive ors, bit by bit. *)
Ltac lxor_solve :=
  apply Z.bits_inj'; intros ?n _; rewrite ?Z.lxor_spec, ?Z.bits_0;
  repeat match goal with |- context [Z.testbit ?a ?i] => destruct (Z.testbit a i) end;
  done.

(** The shifts and ors of a big-endian integer as arithmetic. *)
Lemma lor_shiftl_add a b k : 0 <= k -> 0 <= b < 2 ^ k -> Z.lor (Z.shiftl a k) b = a * 2 ^ k + b.
Proof.
  intros Hk Hb. rewrite <- Z.shiftl_mul_pow2 by done.
  assert (Z.land (Z.shiftl a k) b = 0) as Hland.
  { apply Z.bits_inj'. intros n Hn. rewrite Z.land_spec, Z.bits_0.
    destruct (Z.lt_ge_cases n k).
    - by rewrite Z.shiftl_spec_low.
    - assert (Z.testbit b n = false) as ->; [|by rewrite andb_false_r].
      destruct (Z.eq_dec b 0) as [->|]; [apply Z.bits_0|].
      apply Z.bits_above_log2; [lia|]. apply Z.lt_le_trans with k; [|done].
      apply Z.log2_lt_pow2; lia. }
  pose proof (Z.add_lor_land (Z.shiftl a k) b). lia.
Qed.

Lemma land_FF z : Z.land z 0xFF = z mod 256.
Proof. change 0xFF with (Z.ones 8). by rewrite Z.land_ones by lia. Qed.

(** A boolean property of a [uint8_t], checked on the 256 values. *)
Lemma u8_forall (P : Z -> bool) :
  forallb P (seqZ 0 256) = true -> forall c, is_u8 c -> P c = true.
Proof.
  intros H c Hc. rewrite forallb_forall in H. apply H.
  apply list_elem_of_In, elem_of_seqZ. unfold is_u8 in Hc. lia.
Qed.

(** ** Exceptions, state and effects *)

(** The exception classes the program throws or lets through, with the part of
    the class hierarchy its [catch] clauses distinguish: every one derives from
    [std::exception], and [RuntimeError] alone from [std::runtime_error]. *)
Inductive exn : Type :=
| RuntimeError (what : string)
| JsonParseError
| JsonTypeError
| StdException (what : string).

Definition is_runtime_error (e : exn) : bool :=
  match e with RuntimeError _ => true | _ => false end.

#[export] Instance exn_eq_dec : EqDecision exn.
Proof. solve_decision. Defined.

(** A C++ function over the state [W]: it returns or throws, and what it wrote
    before it threw stays written. *)
Inductive result (A : Type) : Type :=
| Ok (a : A)
| Throw (e : exn).
Arguments Ok {A} a.
Arguments Throw {A} e.

#[export] Instance result_ret : MRet result := fun A => @Ok A.
#[export] Instance result_bind : MBind result := fun A B f r =>
  match r with Ok a => f a | Throw e => Throw e end.

(** [catch (const std::exception &e)] around a function without state. *)
Definition result_catch {A} (r : result A) (h : exn -> result A) : result A :=
  match r with Ok a => Ok a | Throw e => h e end.

Definition M (W A : Type) : Type := W -> result A * W.

#[export] Instance M_ret W : MRet (M W) := fun A a w => (Ok a, w).
#[export] Instance M_bind W : MBind (M W) := fun A B f m w =>
  match m w with
  | (Ok a, w') => f a w'
  | (Throw e, w') => (Throw e, w')
  end.

Definition throw {W A} (e : exn) : M W A := fun w => (Throw e, w).
Definition gets {W A} (f : W -> A) : M W A := fun w => (Ok (f w), w).
Definition modify {W} (f : W -> W) : M W unit := fun w => (Ok tt, f w).

(** [try { m } catch (const std::exception &e) { h e }] *)
Definition try_catch {W A} (m : M W A) (h : exn -> M W A) : M W A := fun w =>
  match m w with
  | (Ok a, w') => (Ok a, w')
  | (Throw e, w') => h e w'
  end.

(** [try { m } catch (const std::runtime_error &e) { h e }] *)
Definition try_runtime {W A} (m : M W A) (h : exn -> M W A) : M W A :=
  try_catch m (fun e => if is_runtime_error e then h e else throw e).

(** [if (b) m;] *)
Definition when {W} (b : bool) (m : M W unit) : M W unit := if b then m else mret tt.

(** [for (x : xs) f x;] *)
Fixpoint for_each {W A} (f : A -> M W unit) (xs : list A) : M W unit :=
  match xs with
  | [] => mret tt
  | x :: xs' => f x ;; for_each f xs'
  end.

(** A computation that reads and writes no state. *)
Definition of_result {W A} (r : result A) : M W A := fun w => (r, w).

Definition run_state {W A} (m : M W A) (w : W) : W := snd (m w).
Definition run_result {W A} (m : M W A) (w : W) : result A := fst (m w).

Section Monad.
Context {W : Type}.

Lemma run_ret {A} (a : A) (w : W) : (mret a : M W A) w = (Ok a, w).
Proof. done. Qed.

Lemma run_bind {A B} (m : M W A) (f : A -> M W B) w :
  (m ≫= f) w = match m w with (Ok a, w') => f a w' | (Throw e, w') => (Throw e, w') end.
Proof. done. Qed.

Lemma run_bind_ok {A B} (m : M W A) (f : A -> M W B) w a w' :
  m w = (Ok a, w') -> (m ≫= f) w = f a w'.
Proof. rewrite run_bind. by intros ->. Qed.

Lemma run_bind_throw {A B} (m : M W A) (f : A -> M W B) w e w' :
  m w = (Throw e, w') -> (m ≫= f) w = (Throw e, w').
Proof. rewrite run_bind. by intros ->. Qed.

Lemma run_gets {A} (f : W -> A) w : gets f w = (Ok (f w), w).
Proof. done. Qed.

Lemma run_modify (f : W -> W) w : modify f w = (Ok tt, f w).
Proof. done. Qed.

Lemma run_for_each_app {A} (f : A -> M W unit) xs ys w :
  for_each f (xs ++ ys) w = (for_each f xs ;; for_each f ys) w.
Proof.
  revert w. induction xs as [|x xs IH]; intros w; [done|]. cbn [for_each app].
  rewrite !run_bind. destruct (f x w) as [[[]|e] w']; [apply IH|done].
Qed.
End Monad.

(** *** Functions that return, and functions that do not look at part of the state *)

(** [m] never throws. *)
Class NoThrow {W A} (m : M W A) : Prop := no_throw w : exists a, run_result m w = Ok a.

(** [m] neither reads nor writes what the change [T] of the state changes. *)
Class Commutes {W A} (T : W -> W) (m : M W A) : Prop :=
  commutes w : m (T w) = (run_result m w, T (run_state m w)).

(** [m] preserves [I]. *)
Class Preserves {W A} (I : W -> Prop) (m : M W A) : Prop := preserves w : I w -> I (run_state m w).

Section Classes.
Context {W : Type}.

#[global] Instance no_throw_ret {A} (a : A) : NoThrow (mret a : M W A).
Proof. intros w. by exists a. Qed.
#[global] Instance no_throw_gets {A} (f : W -> A) : NoThrow (gets f).
Proof. intros w. by eexists. Qed.
#[global] Instance no_throw_modify (f : W -> W) : NoThrow (modify f).
Proof. intros w. by eexists. Qed.
#[global] Instance no_throw_bind {A B} (m : M W A) (f : A -> M W B) :
  NoThrow m -> (forall a, NoThrow (f a)) -> NoThrow (m ≫= f).
Proof.
  intros Hm Hf w. unfold run_result. rewrite run_bind. destruct (Hm w) as [a Ha].
  unfold run_result in Ha. destruct (m w) as [r w']. simpl in Ha. subst r. apply Hf.
Qed.
#[global] Instance no_throw_try {A} (m : M W A) h :
  (forall e, NoThrow (h e)) -> NoThrow (try_catch m h).
Proof.
  intros Hh w. unfold run_result, try_catch. destruct (m w) as [[a|e] w']; [by exists a|apply Hh].
Qed.
#[global] Instance no_throw_when b (m : M W unit) : NoThrow m -> NoThrow (when b m).
Proof. intros Hm. destruct b; [exact Hm|apply no_throw_ret]. Qed.
#[global] Instance no_throw_for_each {A} (f : A -> M W unit) xs :
  (forall x, NoThrow (f x)) -> NoThrow (for_each f xs).
Proof. intros Hf. induction xs; [apply no_throw_ret|by apply no_throw_bind]. Qed.

Lemma no_throw_run {A} (m : M W A) `{!NoThrow m} w : exists a, m w = (Ok a, run_state m w).
Proof.
  destruct (no_throw w) as [a Ha]. exists a. unfold run_result, run_state in *.
  destruct (m w). simpl in *. by subst.
Qed.

Lemma no_throw_unit (m : M W unit) `{!NoThrow m} w : m w = (Ok tt, run_state m w).
Proof. destruct (no_throw_run m w) as [[] H]. exact H. Qed.

Lemma run_state_then {B} (m : M W unit) `{!NoThrow m} (m' : M W B) w :
  run_state (m ;; m') w = run_state m' (run_state m w).
Proof. unfold run_state at 1. by rewrite run_bind, no_throw_unit. Qed.

Context (T : W -> W).

Lemma run_state_commutes {A} (m : M W A) `{!Commutes T m} w :
  run_state m (T w) = T (run_state m w).
Proof. unfold run_state at 1. by rewrite commutes. Qed.

#[global] Instance commutes_ret {A} (a : A) : Commutes T (mret a : M W A).
Proof. by intros w. Qed.
#[global] Instance commutes_throw {A} e : Commutes T (throw e : M W A).
Proof. by intros w. Qed.
#[global] Instance commutes_of_result {A} (r : result A) : Commutes T (of_result r).
Proof. by intros w. Qed.
Lemma commutes_gets {A} (f : W -> A) : (forall w, f (T w) = f w) -> Commutes T (gets f).
Proof. intros Hf w. unfold gets. by rewrite Hf. Qed.
Lemma commutes_modify f : (forall w, f (T w) = T (f w)) -> Commutes T (modify f).
Proof. intros Hf w. unfold modify. by rewrite Hf. Qed.
#[global] Instance commutes_bind {A B} (m : M W A) (f : A -> M W B) :
  Commutes T m -> (forall a, Commutes T (f a)) -> Commutes T (m ≫= f).
Proof.
  intros Hm Hf w. rewrite run_bind, Hm. unfold run_result, run_state. rewrite run_bind.
  destruct (m w) as [[a|e] w']; [apply Hf|done].
Qed.
#[global] Instance commutes_try {A} (m : M W A) h :
  Commutes T m -> (forall e, Commutes T (h e)) -> Commutes T (try_catch m h).
Proof.
  intros Hm Hh w. unfold run_result, run_state, try_catch. rewrite Hm.
  unfold run_result, run_state. destruct (m w) as [[a|e] w']; [done|apply Hh].
Qed.
#[global] Instance commutes_try_runtime {A} (m : M W A) h :
  Commutes T m -> (forall e, Commutes T (h e)) -> Commutes T (try_runtime m h).
Proof.
  intros Hm Hh. apply commutes_try; [done|]. intros e.
  destruct (is_runtime_error e); [apply Hh|apply commutes_throw].
Qed.
#[global] Instance commutes_when b (m : M W unit) : Commutes T m -> Commutes T (when b m).
Proof. intros Hm. destruct b; [exact Hm|apply commutes_ret]. Qed.
#[global] Instance commutes_for_each {A} (f : A -> M W unit) xs :
  (forall x, Commutes T (f x)) -> Commutes T (for_each f xs).
Proof. intros Hf. induction xs; [apply commutes_ret|by apply commutes_bind]. Qed.

Context (I : W -> Prop).

#[global] Instance preserves_ret {A} (a : A) : Preserves I (mret a : M W A).
Proof. by intros w. Qed.
#[global] Instance preserves_throw {A} e : Preserves I (throw e : M W A).
Proof. by intros w. Qed.
#[global] Instance preserves_of_result {A} (r : result A) : Preserves I (of_result r).
Proof. by intros w. Qed.
#[global] Instance preserves_gets {A} (f : W -> A) : Preserves I (gets f).
Proof. by intros w. Qed.
Lemma preserves_modify f : (forall w, I w -> I (f w)) -> Preserves I (modify f).
Proof. intros Hf w. apply Hf. Qed.
#[global] Instance preserves_bind {A B} (m : M W A) (f : A -> M W B) :
  Preserves I m -> (forall a, Preserves I (f a)) -> Preserves I (m ≫= f).
Proof.
  intros Hm Hf w Hw. specialize (Hm w Hw). unfold run_state in *. rewrite run_bind.
  destruct (m w) as [[a|e] w']; simpl in *; [by apply Hf|done].
Qed.
#[global] Instance preserves_try {A} (m : M W A) h :
  Preserves I m -> (forall e, Preserves I (h e)) -> Preserves I (try_catch m h).
Proof.
  intros Hm Hh w Hw. specialize (Hm w Hw). unfold run_state, try_catch in *.
  destruct (m w) as [[a|e] w']; simpl in *; [done|by apply Hh].
Qed.
#[global] Instance preserves_try_runtime {A} (m : M W A) h :
  Preserves I m -> (forall e, Preserves I (h e)) -> Preserves I (try_runtime m h).
Proof.
  intros Hm Hh. apply preserves_try; [done|]. intros e.
  destruct (is_runtime_error e); [apply Hh|apply preserves_throw].
Qed.
#[global] Instance preserves_when b (m : M W unit) : Preserves I m -> Preserves I (when b m).
Proof. intros Hm. destruct b; [exact Hm|apply preserves_ret]. Qed.
#[global] Instance preserves_for_each {A} (f : A -> M W unit) xs :
  (forall x, Preserves I (f x)) -> Preserves I (for_each f xs).
Proof. intros Hf. induction xs; [apply preserves_ret|by apply preserves_bind]. Qed.

(** A read passes on what the invariant says of it. *)
Lemma preserves_gets_bind {A B} (g : W -> A) (f : A -> M W B) :
  (forall w, I w -> I (run_state (f (g w)) w)) -> Preserves I (gets g ≫= f).
Proof. intros H w Hw. by apply H. Qed.
End Classes.

(** Conditionals are followed into their branches; a read or a write is checked by
    computation. *)
#[export] Hint Extern 2 (NoThrow (match ?x with _ => _ end)) => destruct x : typeclass_instances.
#[export] Hint Extern 2 (Commutes _ (match ?x with _ => _ end)) => destruct x : typeclass_instances.
#[export] Hint Extern 1 (Commutes _ (gets _)) =>
  apply commutes_gets; intros; reflexivity : typeclass_instances.
#[export] Hint Extern 1 (Commutes _ (modify _)) =>
  apply commutes_modify; intros; reflexivity : typeclass_instances.
#[export] Hint Extern 2 (Preserves _ (match ?x with _ => _ end)) => destruct x : typeclass_instances.
#[export] Hint Extern 3 (Preserves _ (modify _)) =>
  (apply preserves_modify; intros ? H; exact H) : typeclass_instances.
