(* ===== verification/Crc8.v ===== *)
(** * The CRC-8 of the packets

    [LumenHeader::calculate_crc8] of [src/common/lumen_header.cpp], the textbook
    division by the generator polynomial it is meant to compute, the proof that
    they agree, and what the checksum detects. *)
From Stdlib Require Import Btauto.
From S2P Require Import Prelude.

(** ** The code *)

(** The body of the inner loop: one shift of the register. *)
Definition crc8_shift (crc : Z) : Z :=
  if negb (Z.land crc 0x80 =? 0)
  then u8 (Z.lxor (Z.shiftl crc 1) 0x07)
  else u8 (Z.shiftl crc 1).

(** The body of the outer loop: [crc ^= byte] and the eight shifts. *)
Definition crc8_byte (crc byte : Z) : Z :=
  Nat.iter 8 crc8_shift (u8 (Z.lxor crc byte)).

Definition calculate_crc8 (data : bytes) : Z :=
  foldl crc8_byte 0x00 data.

(** ** The reference: division of polynomials over GF(2)

    A polynomial is the [Z] whose bit [i] is the coefficient of [x^i]; the
    generator is [x^8 + x^2 + x + 1].  [poly_rem] is the remainder of the
    division of the message, read most significant bit first. *)
Definition generator : Z := 0x107.

Definition byte_bits (b : Z) : list bool :=
  (fun i => Z.testbit b i) <$> [7; 6; 5; 4; 3; 2; 1; 0].

Definition bits_of (bs : bytes) : list bool := bs ≫= byte_bits.

Definition poly_rem_step (r : Z) (b : bool) : Z :=
  let r' := Z.lxor (Z.shiftl r 1) (Z.b2z b) in
  if Z.testbit r' 8 then Z.lxor r' generator else r'.

Definition poly_rem (bits : list bool) : Z := foldl poly_rem_step 0 bits.

(** The checksum of a message is the remainder of the message times [x^8]. *)
Definition crc8_reference (data : bytes) : Z :=
  poly_rem (bits_of data ++ replicate 8 false).

(** The register fed one bit at a time, between the two. *)
Definition crc8_bit (crc : Z) (b : bool) : Z :=
  crc8_shift (Z.lxor crc (if b then 0x80 else 0)).

Definition crc8_bits (crc : Z) (bits : list bool) : Z := foldl crc8_bit crc bits.

(** Exclusive or of two messages, byte by byte: how a channel corrupts one. *)
Definition xor_bytes (a e : bytes) : bytes := zip_with Z.lxor a e.

(** The parity of a byte and of a message: the number of its 1 bits modulo 2. *)
Definition parity (b : Z) : bool := foldl xorb false (byte_bits b).
Definition parity_bytes (bs : bytes) : bool := foldl xorb false (bits_of bs).

(** Errors confined to eight consecutive bits. *)
Definition burst_error (e : bytes) : Prop :=
  exists i j burst, bits_of e = replicate i false ++ burst ++ replicate j false /\
    (length burst <= 8)%nat /\ true ∈ burst.

(** Two flipped bits, at most 126 bits apart. *)
Definition double_error (e : bytes) : Prop :=
  exists i j d, bits_of e =
    replicate i false ++ [true] ++ replicate d false ++ [true] ++ replicate j false /\
    (d < 126)%nat.

(** An odd number of flipped bits. *)
Definition odd_error (e : bytes) : Prop := parity_bytes e = true.

(** ** The register is linear *)

Lemma crc8_shift_u8 c : is_u8 (crc8_shift c).
Proof. unfold crc8_shift. case_match; apply u8_range. Qed.

Lemma crc8_iter_u8 n c : is_u8 c -> is_u8 (Nat.iter n crc8_shift c).
Proof. destruct n; [done|]. intros _. apply crc8_shift_u8. Qed.

#[export] Hint Resolve crc8_shift_u8 crc8_iter_u8 : lumen.

Lemma u8_lxor a b : u8 (Z.lxor a b) = Z.lxor (u8 a) (u8 b).
Proof.
  unfold u8. change 256 with (2 ^ 8). rewrite <- !Z.land_ones by lia.
  apply Z.bits_inj'. intros n _. rewrite !Z.land_spec, !Z.lxor_spec, !Z.land_spec.
  destruct (Z.testbit a n), (Z.testbit b n), (Z.testbit (Z.ones 8) n); done.
Qed.

Lemma land_80_testbit c : negb (Z.land c 0x80 =? 0) = Z.testbit c 7.
Proof.
  assert (Z.land c 0x80 = if Z.testbit c 7 then 0x80 else 0) as ->.
  { change 0x80 with (2 ^ 7). apply Z.bits_inj'. intros n Hn.
    rewrite Z.land_spec, Z.pow2_bits_eqb by lia.
    destruct (7 =? n) eqn:E.
    - apply Z.eqb_eq in E as <-. rewrite andb_true_r.
      destruct (Z.testbit c 7); [by rewrite Z.pow2_bits_true by lia|by rewrite Z.bits_0].
    - rewrite andb_false_r. apply Z.eqb_neq in E.
      destruct (Z.testbit c 7); [by rewrite Z.pow2_bits_false by lia|by rewrite Z.bits_0]. }
  by destruct (Z.testbit c 7).
Qed.

Lemma crc8_shift_alt c :
  crc8_shift c = Z.lxor (u8 (Z.shiftl c 1)) (if Z.testbit c 7 then 0x07 else 0).
Proof.
  unfold crc8_shift. rewrite land_80_testbit. destruct (Z.testbit c 7).
  - by rewrite u8_lxor.
  - by rewrite Z.lxor_0_r.
Qed.

Lemma crc8_shift_lxor a b :
  crc8_shift (Z.lxor a b) = Z.lxor (crc8_shift a) (crc8_shift b).
Proof.
  rewrite !crc8_shift_alt, Z.shiftl_lxor, u8_lxor, Z.lxor_spec.
  generalize (u8 (a ≪ 1)) (u8 (b ≪ 1)). intros x y.
  destruct (Z.testbit a 7), (Z.testbit b 7); simpl; lxor_solve.
Qed.

Lemma crc8_iter_lxor n a b :
  Nat.iter n crc8_shift (Z.lxor a b) =
  Z.lxor (Nat.iter n crc8_shift a) (Nat.iter n crc8_shift b).
Proof. induction n as [|n IH]; [done|]. by rewrite !Nat.iter_succ, IH, crc8_shift_lxor. Qed.

Lemma crc8_iter_0 n : Nat.iter n crc8_shift 0 = 0.
Proof. induction n as [|n IH]; [done|]. by rewrite Nat.iter_succ, IH. Qed.

Lemma crc8_byte_iter c b : is_u8 c -> is_u8 b ->
  crc8_byte c b = Nat.iter 8 crc8_shift (Z.lxor c b).
Proof. intros Hc Hb. unfold crc8_byte. rewrite u8_small; auto with lumen. Qed.

Lemma crc8_byte_u8 c b : is_u8 (crc8_byte c b).
Proof. apply (crc8_shift_u8). Qed.

Lemma foldl_crc8_u8 c bs : is_u8 c -> is_u8 (foldl crc8_byte c bs).
Proof.
  revert c. induction bs as [|b bs IH]; intros c Hc; [done|]. apply IH, crc8_byte_u8.
Qed.

Lemma calculate_crc8_u8 bs : is_u8 (calculate_crc8 bs).
Proof. by apply foldl_crc8_u8. Qed.
#[export] Hint Resolve crc8_byte_u8 foldl_crc8_u8 calculate_crc8_u8 : lumen.

(** The shift loses no information: the constant coefficient of the generator
    is 1. *)
Lemma crc8_shift_0 c : is_u8 c -> crc8_shift c = 0 -> c = 0.
Proof.
  intros Hc H. revert c Hc H.
  assert (forall c, is_u8 c -> (negb (crc8_shift c =? 0) || (c =? 0)) = true) as Hall.
  { apply u8_forall. by vm_compute. }
  intros c Hc H. specialize (Hall c Hc). rewrite H in Hall. simpl in Hall.
  by apply Z.eqb_eq in Hall.
Qed.

Lemma crc8_iter_eq_0 n c : is_u8 c -> Nat.iter n crc8_shift c = 0 -> c = 0.
Proof.
  intros Hc. induction n as [|n IH]; [done|]. rewrite Nat.iter_succ. intros H.
  apply IH, crc8_shift_0; [by apply crc8_iter_u8|done].
Qed.

(** ** Bytes and bits *)

Lemma crc8_bits_app c xs ys : crc8_bits c (xs ++ ys) = crc8_bits (crc8_bits c xs) ys.
Proof. apply foldl_app. Qed.

Lemma crc8_bits_lxor xs : forall a b,
  crc8_bits (Z.lxor a b) xs = Z.lxor (crc8_bits a xs) (Nat.iter (length xs) crc8_shift b).
Proof.
  induction xs as [|x xs IH]; intros a b; [done|].
  cbn [crc8_bits foldl length]. rewrite Nat.iter_succ_r. 
  transitivity (crc8_bits (Z.lxor (crc8_bit a x) (crc8_shift b)) xs); [|apply IH].
  unfold crc8_bits. f_equal. unfold crc8_bit. rewrite <- crc8_shift_lxor. f_equal.
  generalize (if x then 0x80 else 0). intros z. lxor_solve.
Qed.

Lemma crc8_byte_bits c b : is_u8 c -> is_u8 b -> crc8_byte c b = crc8_bits c (byte_bits b).
Proof.
  intros Hc Hb. rewrite crc8_byte_iter by done.
  transitivity (crc8_bits (Z.lxor 0 c) (byte_bits b)); [|by rewrite Z.lxor_0_l].
  rewrite crc8_bits_lxor, Z.lxor_comm, crc8_iter_lxor. f_equal.
  apply Z.eqb_eq. revert b Hb. apply u8_forall. by vm_compute.
Qed.

Lemma foldl_crc8_bits bs : forall c, is_u8 c -> bytes_ok bs ->
  foldl crc8_byte c bs = crc8_bits c (bits_of bs).
Proof.
  induction bs as [|b bs IH]; intros c Hc Hbs; [done|].
  apply bytes_ok_cons in Hbs as [Hb Hbs].
  unfold bits_of. cbn [foldl mbind list_bind]. fold (mbind byte_bits bs). 
  rewrite crc8_bits_app, <- crc8_byte_bits by done.
  apply IH; auto with lumen.
Qed.

Lemma calculate_crc8_bits bs : bytes_ok bs -> calculate_crc8 bs = crc8_bits 0 (bits_of bs).
Proof. intros H. by apply foldl_crc8_bits. Qed.

(** ** The code computes the remainder *)

Lemma poly_rem_step_shift r b : is_u8 r ->
  poly_rem_step r b = Z.lxor (crc8_shift r) (Z.b2z b).
Proof.
  intros Hr. apply Z.eqb_eq. revert r Hr. apply u8_forall. destruct b; by vm_compute.
Qed.

Lemma b2z_u8 b : is_u8 (Z.b2z b).
Proof. by destruct b. Qed.
#[local] Hint Resolve b2z_u8 : lumen.

Lemma poly_rem_step_u8 r b : is_u8 r -> is_u8 (poly_rem_step r b).
Proof. intros Hr. rewrite poly_rem_step_shift by done. auto with lumen. Qed.

Lemma poly_rem_u8 bits : forall r, is_u8 r -> is_u8 (foldl poly_rem_step r bits).
Proof.
  induction bits as [|b bits IH]; intros r Hr; [done|]. by apply IH, poly_rem_step_u8.
Qed.

Lemma crc8_bits_poly bits : forall r, is_u8 r ->
  crc8_bits (Nat.iter 8 crc8_shift r) bits =
  Nat.iter 8 crc8_shift (foldl poly_rem_step r bits).
Proof.
  induction bits as [|b bits IH]; intros r Hr; [done|].
  cbn [crc8_bits foldl]. rewrite <- IH by (by apply poly_rem_step_u8).
  unfold crc8_bits. f_equal. unfold crc8_bit.
  rewrite poly_rem_step_shift, crc8_iter_lxor, Nat.iter_swap, crc8_shift_lxor by done.
  f_equal. by destruct b.
Qed.

Lemma poly_rem_zeros n : forall r, is_u8 r ->
  foldl poly_rem_step r (replicate n false) = Nat.iter n crc8_shift r.
Proof.
  induction n as [|n IH]; intros r Hr; [done|]. cbn [replicate foldl].
  rewrite IH, Nat.iter_succ_r by (by apply poly_rem_step_u8). f_equal.
  rewrite poly_rem_step_shift by done. apply Z.lxor_0_r.
Qed.

Lemma crc8_bits_iter bits : crc8_bits 0 bits = Nat.iter 8 crc8_shift (poly_rem bits).
Proof. by apply (crc8_bits_poly bits 0). Qed.

(** The division loop and the textbook division agree on every message. *)
Theorem calculate_crc8_correct data :
  bytes_ok data -> calculate_crc8 data = crc8_reference data.
Proof.
  intros H. rewrite calculate_crc8_bits, crc8_bits_iter by done.
  unfold crc8_reference, poly_rem. rewrite foldl_app, poly_rem_zeros; [done|].
  by apply poly_rem_u8.
Qed.

(** ** Codewords and errors *)

Lemma calculate_crc8_app a b : calculate_crc8 (a ++ b) = foldl crc8_byte (calculate_crc8 a) b.
Proof. apply foldl_app. Qed.

Lemma calculate_crc8_snoc a c : is_u8 c ->
  calculate_crc8 (a ++ [c]) = Nat.iter 8 crc8_shift (Z.lxor (calculate_crc8 a) c).
Proof. intros Hc. rewrite calculate_crc8_app. apply crc8_byte_iter; auto with lumen. Qed.

(** A message followed by its checksum has checksum 0, and no other byte does. *)
Lemma crc8_codeword a c : is_u8 c ->
  calculate_crc8 (a ++ [c]) = 0 <-> c = calculate_crc8 a.
Proof.
  intros Hc. rewrite calculate_crc8_snoc by done. split; [|intros ->; by rewrite Z.lxor_nilpotent].
  intros H. apply crc8_iter_eq_0 in H; [|auto with lumen].
  by apply Z.lxor_eq in H.
Qed.

Lemma foldl_crc8_lxor a : forall e c d, length a = length e ->
  is_u8 c -> is_u8 d -> bytes_ok a -> bytes_ok e ->
  foldl crc8_byte (Z.lxor c d) (xor_bytes a e) =
  Z.lxor (foldl crc8_byte c a) (foldl crc8_byte d e).
Proof.
  induction a as [|x a IH]; intros [|y e] c d Hl Hc Hd Ha He; try done.
  apply bytes_ok_cons in Ha as [Hx Ha]. apply bytes_ok_cons in He as [Hy He].
  cbn [xor_bytes zip_with foldl]. rewrite <- IH by (auto with lumen || (simpl in Hl; lia)).
  unfold xor_bytes. f_equal. rewrite !crc8_byte_iter by auto with lumen.
  rewrite <- crc8_iter_lxor. f_equal. lxor_solve.
Qed.

(** The checksum is linear: an error adds its own checksum. *)
Lemma calculate_crc8_xor a e : length a = length e -> bytes_ok a -> bytes_ok e ->
  calculate_crc8 (xor_bytes a e) = Z.lxor (calculate_crc8 a) (calculate_crc8 e).
Proof. intros. by apply (foldl_crc8_lxor a e 0 0). Qed.

Lemma crc8_bits_zeros n c : crc8_bits c (replicate n false) = Nat.iter n crc8_shift c.
Proof.
  revert c. induction n as [|n IH]; intros c; [done|].
  cbn [replicate crc8_bits foldl]. rewrite Nat.iter_succ_r, <- IH.
  unfold crc8_bits, crc8_bit. by rewrite Z.lxor_0_r.
Qed.

Lemma crc8_bits_frame i j bits :
  crc8_bits 0 (replicate i false ++ bits ++ replicate j false) = 0 -> poly_rem bits = 0.
Proof.
  rewrite !crc8_bits_app, !crc8_bits_zeros, crc8_iter_0, crc8_bits_iter.
  intros H. assert (is_u8 (poly_rem bits)) by (by apply poly_rem_u8).
  by apply crc8_iter_eq_0, crc8_iter_eq_0 in H; auto with lumen.
Qed.

Lemma poly_rem_step_small r b : 0 <= r < 128 -> poly_rem_step r b = 2 * r + Z.b2z b.
Proof.
  intros Hr. assert (is_u8 r) as H8 by ilia.
  assert (forall c, is_u8 c ->
    ((poly_rem_step c b =? 2 * c + Z.b2z b) || (128 <=? c)) = true) as Hall.
  { apply u8_forall. destruct b; by vm_compute. }
  specialize (Hall r H8). apply orb_true_iff in Hall as [Hall|Hall]; lia.
Qed.

Lemma poly_rem_short bits : forall r, 0 <= r < 2 ^ (8 - Z.of_nat (length bits)) ->
  (length bits <= 8)%nat -> 0 < r \/ true ∈ bits -> 0 < foldl poly_rem_step r bits.
Proof.
  induction bits as [|b bits IH]; intros r Hr Hl Hpos; cbn [foldl].
  - destruct Hpos as [?|?%not_elem_of_nil]; [done|done].
  - cbn [length] in *.
    assert (2 ^ (8 - Z.of_nat (length bits)) = 2 * 2 ^ (8 - Z.of_nat (S (length bits)))) as Hp.
    { rewrite <- Z.pow_succ_r by lia. f_equal. lia. }
    assert (2 ^ (8 - Z.of_nat (S (length bits))) <= 2 ^ 7) by (apply Z.pow_le_mono_r; lia).
    rewrite poly_rem_step_small by lia.
    apply IH; [destruct b; simpl Z.b2z; lia|lia|].
    destruct Hpos as [?|[<-|?]%elem_of_cons]; [left; destruct b; simpl Z.b2z; lia|left; simpl Z.b2z; lia|by right].
Qed.

Lemma burst_error_crc8 e : bytes_ok e -> burst_error e -> calculate_crc8 e <> 0.
Proof.
  intros He (i & j & burst & Hb & Hl & Ht) H.
  rewrite calculate_crc8_bits, Hb in H by done. apply crc8_bits_frame in H.
  assert (0 < poly_rem burst); [|lia]. apply poly_rem_short; [|done|by right].
  split; [lia|]. apply Z.pow_pos_nonneg; lia.
Qed.

(** [x^d <> 1] modulo the generator for [0 < d < 127]. *)
Lemma shift_order d : (d < 126)%nat -> Nat.iter (S d) crc8_shift 1 <> 1.
Proof.
  intros Hd H.
  assert (forallb (fun n => negb (Nat.iter (S n) crc8_shift 1 =? 1)) (seq 0 126) = true) as Hall
    by (by vm_compute).
  rewrite forallb_forall in Hall. specialize (Hall d). rewrite in_seq, H in Hall.
  assert (negb (1 =? 1) = true) by (apply Hall; lia). done.
Qed.

Lemma double_error_crc8 e : bytes_ok e -> double_error e -> calculate_crc8 e <> 0.
Proof.
  intros He (i & j & d & Hb & Hd) H.
  rewrite calculate_crc8_bits, Hb in H by done.
  rewrite (app_assoc (replicate d false)), (app_assoc [true]) in H.
  apply crc8_bits_frame in H. unfold poly_rem in H. rewrite !foldl_app in H.
  cbn [foldl] in H. change (poly_rem_step 0 true) with 1 in H.
  rewrite poly_rem_zeros, poly_rem_step_shift in H by (done || by apply crc8_iter_u8).
  rewrite <- Nat.iter_succ in H. apply Z.lxor_eq in H. by apply (shift_order d).
Qed.

(** The generator has an even number of terms, so the register keeps the parity
    of what it was fed. *)
Lemma parity_xor a b : parity (Z.lxor a b) = xorb (parity a) (parity b).
Proof.
  unfold parity, byte_bits. cbn [fmap list_fmap foldl]. rewrite !Z.lxor_spec.
  btauto.
Qed.

Lemma parity_shift c : is_u8 c -> parity (crc8_shift c) = parity c.
Proof.
  intros Hc. apply eqb_prop. revert c Hc. apply (u8_forall (fun c => eqb _ _)). by vm_compute.
Qed.

Lemma parity_crc8_bits bits : forall c, is_u8 c ->
  parity (crc8_bits c bits) = foldl xorb (parity c) bits.
Proof.
  induction bits as [|b bits IH]; intros c Hc; [done|].
  cbn [crc8_bits foldl]. change (foldl crc8_bit ?x bits) with (crc8_bits x bits).
  rewrite IH by apply crc8_shift_u8. f_equal. unfold crc8_bit.
  rewrite parity_shift by (apply lxor_u8; [done|by destruct b]).
  rewrite parity_xor. by destruct b, (parity c).
Qed.

Lemma parity_calculate_crc8 e : bytes_ok e -> parity (calculate_crc8 e) = parity_bytes e.
Proof. intros He. rewrite calculate_crc8_bits by done. by apply parity_crc8_bits. Qed.

Lemma odd_error_crc8 e : bytes_ok e -> odd_error e -> calculate_crc8 e <> 0.
Proof.
  unfold odd_error. intros He Ho H. rewrite <- parity_calculate_crc8, H in Ho by done. done.
Qed.
