(* ===== verification/Configs.v ===== *)
(** * The constants of [include/common/configs.hpp]

    Sizes and offsets in bytes, durations in milliseconds. *)
From S2P Require Import Prelude.

Definition CLIENT_SOCK_BUF_SIZE : Z := 1024.
Definition SERVER_SOCK_BUF_SIZE : Z := 1024.

Definition LUMEN_STX : Z := 0x02.
Definition LUMEN_ETX : Z := 0x03.

Definition LUMEN_STX_POS : Z := 0.
Definition LUMEN_TYPE_POS : Z := 1.
Definition LUMEN_PRIO_POS : Z := 2.
Definition LUMEN_SEQ_POS : Z := 3.
Definition LUMEN_TIMESTAMP_POS : Z := 4.
Definition LUMEN_LEN_POS : Z := 8.
Definition LUMEN_PAYLOAD_POS : Z := 10.
Definition LUMEN_HEADER_SIZE : Z := 10.

Definition RELIABILITY_MAX_RETRIES : Z := 2.
Definition RELIABILITY_BASE_TIMEOUT : Z := 5000.
Definition RELIABILITY_CHECK_INTERVAL : Z := 1000.
Definition NAK_DEBOUNCE_TIME : Z := 1000.
Definition CLEANUP_INTERVAL : Z := 5000.
Definition SEQUENCE_RETAIN_TIME : Z := 30000.
Definition MAX_FRAME_BUFFER_SIZE : Z := 4096.
Definition CLIENT_RETRY_DELAY : Z := 4000.
