(* ===== verification/LumenHeader.v ===== *)
(** * The packet header: [include/common/lumen_header.hpp], [src/common/lumen_header.cpp]

    The record, its two codecs, and the proofs that they are inverse to each
    other on the ten bytes of a header. *)
From S2P Require Import Prelude Configs.

(** ** Data *)

Inductive MessageType := ACK | CMD | DATA | VIDEO | STATUS | NAK.

Inductive Priority := LOW | MEDIUM | HIGH.

#[export] Instance MessageType_eq_dec : EqDecision MessageType.
Proof. solve_decision. Defined.
#[export] Instance Priority_eq_dec : EqDecision Priority.
Proof. solve_decision. Defined.

(** [static_cast<uint8_t>] of the two enumerations. *)
Definition MessageType_val (t : MessageType) : Z :=
  match t with ACK => 0 | CMD => 1 | DATA => 2 | VIDEO => 3 | STATUS => 4 | NAK => 5 end.

Definition Priority_val (p : Priority) : Z :=
  match p with LOW => 0 | MEDIUM => 1 | HIGH => 2 end.

(** The enumerator with a given value, if the value has one. *)
Definition MessageType_of (v : Z) : option MessageType :=
  find (fun t => MessageType_val t =? v) [ACK; CMD; DATA; VIDEO; STATUS; NAK].

Definition Priority_of (v : Z) : option Priority :=
  find (fun p => Priority_val p =? v) [LOW; MEDIUM; HIGH].

Record LumenHeader := mkLumenHeader {
  type_ : MessageType;
  priority_ : Priority;
  sequence_ : Z;
  timestamp_ : Z;
  payload_length_ : Z;
}.

#[export] Instance LumenHeader_eq_dec : EqDecision LumenHeader.
Proof. solve_decision. Defined.

Definition set_sequence (seq : Z) (h : LumenHeader) : LumenHeader :=
  mkLumenHeader (type_ h) (priority_ h) seq (timestamp_ h) (payload_length_ h).
Definition set_timestamp (timestamp : Z) (h : LumenHeader) : LumenHeader :=
  mkLumenHeader (type_ h) (priority_ h) (sequence_ h) timestamp (payload_length_ h).
Definition set_payload_length (length : Z) (h : LumenHeader) : LumenHeader :=
  mkLumenHeader (type_ h) (priority_ h) (sequence_ h) (timestamp_ h) length.

(** The fields hold values of their C++ types. *)
Definition header_ok (h : LumenHeader) : Prop :=
  is_u8 (sequence_ h) /\ is_u32 (timestamp_ h) /\ is_u16 (payload_length_ h).

#[export] Instance header_ok_dec h : Decision (header_ok h).
Proof. unfold header_ok. apply _. Defined.

(** ** Codecs *)

(** [LumenHeader::from_bytes]; [None] is [std::nullopt]. *)
Definition from_bytes_oob (oob : Z) (bs : bytes) : option LumenHeader :=
  let at_ := vec_at oob bs in
  if vec_size bs <? LUMEN_HEADER_SIZE then None
  else if negb (at_ LUMEN_STX_POS =? LUMEN_STX) then None
  else
    let type := at_ LUMEN_TYPE_POS in
    let priority := at_ LUMEN_PRIO_POS in
    let sequence := at_ LUMEN_SEQ_POS in
    let timestamp := 0 in
    let timestamp := Z.lor timestamp (u32 (Z.shiftl (at_ LUMEN_TIMESTAMP_POS) 24)) in
    let timestamp := Z.lor timestamp (u32 (Z.shiftl (at_ (LUMEN_TIMESTAMP_POS + 1)) 16)) in
    let timestamp := Z.lor timestamp (u32 (Z.shiftl (at_ (LUMEN_TIMESTAMP_POS + 2)) 8)) in
    let timestamp := Z.lor timestamp (at_ (LUMEN_TIMESTAMP_POS + 3)) in
    let payload_length := 0 in
    let payload_length := u16 (Z.lor payload_length (Z.shiftl (at_ LUMEN_LEN_POS) 8)) in
    let payload_length := u16 (Z.lor payload_length (at_ (LUMEN_LEN_POS + 1))) in
    if 5 <? type then None
    else if 2 <? priority then None
    else
      t ← MessageType_of type;
      p ← Priority_of priority;
      Some (mkLumenHeader t p sequence timestamp payload_length).

Definition from_bytes (bs : bytes) : option LumenHeader := from_bytes_oob 0 bs.

(** [LumenHeader::to_bytes] *)
Definition to_bytes (h : LumenHeader) : bytes :=
  let bs := replicate (Z.to_nat LUMEN_HEADER_SIZE) 0 in
  let bs := vec_set LUMEN_STX_POS LUMEN_STX bs in
  let bs := vec_set LUMEN_TYPE_POS (MessageType_val (type_ h)) bs in
  let bs := vec_set LUMEN_PRIO_POS (Priority_val (priority_ h)) bs in
  let bs := vec_set LUMEN_SEQ_POS (sequence_ h) bs in
  let bs := vec_set LUMEN_TIMESTAMP_POS (Z.land (Z.shiftr (timestamp_ h) 24) 0xFF) bs in
  let bs := vec_set (LUMEN_TIMESTAMP_POS + 1) (Z.land (Z.shiftr (timestamp_ h) 16) 0xFF) bs in
  let bs := vec_set (LUMEN_TIMESTAMP_POS + 2) (Z.land (Z.shiftr (timestamp_ h) 8) 0xFF) bs in
  let bs := vec_set (LUMEN_TIMESTAMP_POS + 3) (Z.land (timestamp_ h) 0xFF) bs in
  let bs := vec_set LUMEN_LEN_POS (Z.land (Z.shiftr (payload_length_ h) 8) 0xFF) bs in
  vec_set (LUMEN_LEN_POS + 1) (Z.land (payload_length_ h) 0xFF) bs.

(** ** Enumerations *)

Lemma MessageType_of_val t : MessageType_of (MessageType_val t) = Some t.
Proof. by destruct t. Qed.

Lemma Priority_of_val p : Priority_of (Priority_val p) = Some p.
Proof. by destruct p. Qed.

Lemma MessageType_of_Some v t : MessageType_of v = Some t -> v = MessageType_val t.
Proof. intros [_ H]%find_some. by apply Z.eqb_eq in H. Qed.

Lemma Priority_of_Some v p : Priority_of v = Some p -> v = Priority_val p.
Proof. intros [_ H]%find_some. by apply Z.eqb_eq in H. Qed.

Lemma MessageType_val_range t : 0 <= MessageType_val t <= 5.
Proof. destruct t; simpl; lia. Qed.

Lemma Priority_val_range p : 0 <= Priority_val p <= 2.
Proof. destruct p; simpl; lia. Qed.

(** ** The big-endian fields *)

Definition be32 (b0 b1 b2 b3 : Z) : Z := b0 * 16777216 + b1 * 65536 + b2 * 256 + b3.
Definition be16 (b0 b1 : Z) : Z := b0 * 256 + b1.

Lemma timestamp_be32 b0 b1 b2 b3 : is_u8 b0 -> is_u8 b1 -> is_u8 b2 -> is_u8 b3 ->
  Z.lor (Z.lor (Z.lor (Z.lor 0 (u32 (Z.shiftl b0 24))) (u32 (Z.shiftl b1 16)))
    (u32 (Z.shiftl b2 8))) b3 = be32 b0 b1 b2 b3.
Proof.
  intros H0 H1 H2 H3. unfold be32, is_u8 in *.
  rewrite !u32_small by (rewrite Z.shiftl_mul_pow2 by lia; unfold is_u32; lia).
  rewrite Z.lor_0_l, lor_shiftl_add by (rewrite ?Z.shiftl_mul_pow2 by lia; lia).
  replace (b0 * 2 ^ 24 + _) with (Z.shiftl (b0 * 256 + b1) 16)
    by (rewrite !Z.shiftl_mul_pow2 by lia; lia).
  rewrite lor_shiftl_add by (rewrite ?Z.shiftl_mul_pow2 by lia; lia).
  replace (_ * 2 ^ 16 + _) with (Z.shiftl ((b0 * 256 + b1) * 256 + b2) 8)
    by (rewrite !Z.shiftl_mul_pow2 by lia; lia).
  rewrite lor_shiftl_add by lia. lia.
Qed.

Lemma length_be16 b0 b1 : is_u8 b0 -> is_u8 b1 ->
  u16 (Z.lor (u16 (Z.lor 0 (Z.shiftl b0 8))) b1) = be16 b0 b1.
Proof.
  intros H0 H1. unfold be16, is_u8 in *. rewrite Z.lor_0_l.
  rewrite (u16_small (Z.shiftl b0 8)) by (rewrite Z.shiftl_mul_pow2 by lia; unfold is_u16; lia).
  rewrite lor_shiftl_add by lia. apply u16_small. unfold is_u16. lia.
Qed.

Lemma be32_bytes t : is_u32 t ->
  be32 (Z.land (Z.shiftr t 24) 0xFF) (Z.land (Z.shiftr t 16) 0xFF)
    (Z.land (Z.shiftr t 8) 0xFF) (Z.land t 0xFF) = t.
Proof. intros H. rewrite !land_FF, !Z.shiftr_div_pow2 by lia. unfold be32. ilia. Qed.

Lemma be16_bytes n : is_u16 n ->
  be16 (Z.land (Z.shiftr n 8) 0xFF) (Z.land n 0xFF) = n.
Proof. intros H. rewrite !land_FF, !Z.shiftr_div_pow2 by lia. unfold be16. ilia. Qed.

Lemma be32_inv b0 b1 b2 b3 : is_u8 b0 -> is_u8 b1 -> is_u8 b2 -> is_u8 b3 ->
  let t := be32 b0 b1 b2 b3 in
  is_u32 t /\ Z.land (Z.shiftr t 24) 0xFF = b0 /\ Z.land (Z.shiftr t 16) 0xFF = b1 /\
  Z.land (Z.shiftr t 8) 0xFF = b2 /\ Z.land t 0xFF = b3.
Proof.
  intros H0 H1 H2 H3 t. subst t. rewrite !land_FF, !Z.shiftr_div_pow2 by lia.
  unfold be32. change (2 ^ 24) with 16777216. change (2 ^ 16) with 65536.
  change (2 ^ 8) with 256. repeat split; ilia.
Qed.

Lemma be16_inv b0 b1 : is_u8 b0 -> is_u8 b1 ->
  let n := be16 b0 b1 in
  is_u16 n /\ Z.land (Z.shiftr n 8) 0xFF = b0 /\ Z.land n 0xFF = b1.
Proof.
  intros H0 H1 n. subst n. rewrite !land_FF, !Z.shiftr_div_pow2 by lia.
  unfold be16. repeat split; ilia.
Qed.

(** ** The shape of a header *)

Lemma header_to_bytes_shape h : to_bytes h =
  [ LUMEN_STX; MessageType_val (type_ h); Priority_val (priority_ h); sequence_ h;
    Z.land (Z.shiftr (timestamp_ h) 24) 0xFF; Z.land (Z.shiftr (timestamp_ h) 16) 0xFF;
    Z.land (Z.shiftr (timestamp_ h) 8) 0xFF; Z.land (timestamp_ h) 0xFF;
    Z.land (Z.shiftr (payload_length_ h) 8) 0xFF; Z.land (payload_length_ h) 0xFF ].
Proof. reflexivity. Qed.

Lemma length_header_to_bytes h : length (to_bytes h) = 10%nat.
Proof. reflexivity. Qed.

Lemma land_FF_u8 z : is_u8 (Z.land z 0xFF).
Proof. rewrite land_FF. apply u8_range. Qed.

Lemma header_to_bytes_ok h : header_ok h -> bytes_ok (to_bytes h).
Proof.
  intros (Hs & _ & _). rewrite header_to_bytes_shape.
  pose proof (MessageType_val_range (type_ h)). pose proof (Priority_val_range (priority_ h)).
  repeat (apply bytes_ok_cons; split); auto using land_FF_u8 with lumen; unfold is_u8; try lia.
  done.
Qed.
#[export] Hint Resolve header_to_bytes_ok : lumen.

(** What the parser does on a vector of at least ten bytes. *)
Lemma header_from_bytes_shape oob b0 b1 b2 b3 b4 b5 b6 b7 b8 b9 rest :
  bytes_ok [b4; b5; b6; b7; b8; b9] ->
  from_bytes_oob oob ([b0; b1; b2; b3; b4; b5; b6; b7; b8; b9] ++ rest) =
  if negb (b0 =? LUMEN_STX) then None
  else if 5 <? b1 then None else if 2 <? b2 then None
  else t ← MessageType_of b1; p ← Priority_of b2;
       Some (mkLumenHeader t p b3 (be32 b4 b5 b6 b7) (be16 b8 b9)).
Proof.
  intros Hok. repeat (apply bytes_ok_cons in Hok as [? Hok]).
  rewrite <- timestamp_be32, <- length_be16 by done.
  unfold from_bytes_oob. rewrite vec_size_app.
  assert ((vec_size [b0; b1; b2; b3; b4; b5; b6; b7; b8; b9] + vec_size rest
    <? LUMEN_HEADER_SIZE) = false) as ->.
  { pose proof (vec_size_nonneg rest).
    change (vec_size [b0; b1; b2; b3; b4; b5; b6; b7; b8; b9]) with 10.
    unfold LUMEN_HEADER_SIZE. lia. }
  reflexivity.
Qed.

(** A vector that holds a header, split at its end. *)
Lemma header_split (bs : bytes) : (10 <= length bs)%nat ->
  exists b0 b1 b2 b3 b4 b5 b6 b7 b8 b9 rest,
    bs = [b0; b1; b2; b3; b4; b5; b6; b7; b8; b9] ++ rest.
Proof.
  intros H. do 10 (destruct bs as [|? bs]; [simpl in H; lia|]). by repeat eexists.
Qed.

Lemma header_from_bytes_short oob bs : (length bs < 10)%nat -> from_bytes_oob oob bs = None.
Proof.
  intros H. unfold from_bytes_oob.
  assert ((vec_size bs <? LUMEN_HEADER_SIZE) = true) as -> by
    (unfold vec_size, LUMEN_HEADER_SIZE; lia).
  done.
Qed.

(** ** Theorems *)

(** Every read of the parser is inside the vector. *)
Lemma header_from_bytes_no_oob oob bs : bytes_ok bs -> from_bytes_oob oob bs = from_bytes bs.
Proof.
  intros Hok. unfold from_bytes. destruct (decide (length bs < 10)%nat) as [Hl|Hl].
  - by rewrite !header_from_bytes_short.
  - destruct (header_split bs) as (?&?&?&?&?&?&?&?&?&?&rest&->); [lia|].
    apply bytes_ok_app in Hok as [Hok _].
    repeat (apply bytes_ok_cons in Hok as [? Hok]).
    rewrite !header_from_bytes_shape by (repeat (apply bytes_ok_cons; split); done || constructor).
    done.
Qed.

(** Parsing what was serialised gives the header back, whatever follows it. *)
Lemma header_from_to_bytes h rest : header_ok h -> from_bytes (to_bytes h ++ rest) = Some h.
Proof.
  intros (Hs & Ht & Hl). rewrite header_to_bytes_shape. unfold from_bytes.
  rewrite header_from_bytes_shape by
    (repeat (apply bytes_ok_cons; split; [apply land_FF_u8|]); constructor).
  rewrite be32_bytes, be16_bytes, MessageType_of_val, Priority_of_val by done.
  pose proof (MessageType_val_range (type_ h)). pose proof (Priority_val_range (priority_ h)).
  replace (5 <? _) with false by lia. replace (2 <? _) with false by lia.
  by destruct h.
Qed.

(** What parses is the serialisation of the result, and of nothing else. *)
Lemma header_from_bytes_inv bs h : bytes_ok bs -> from_bytes bs = Some h ->
  header_ok h /\ exists rest, bs = to_bytes h ++ rest.
Proof.
  intros Hok H. destruct (decide (length bs < 10)%nat) as [Hl|Hl].
  { unfold from_bytes in H. by rewrite header_from_bytes_short in H. }
  destruct (header_split bs) as (b0&b1&b2&b3&b4&b5&b6&b7&b8&b9&rest&->); [lia|].
  apply bytes_ok_app in Hok as [Hok _]. repeat (apply bytes_ok_cons in Hok as [? Hok]).
  unfold from_bytes in H.
  rewrite header_from_bytes_shape in H by (repeat (apply bytes_ok_cons; split); done || constructor).
  destruct (b0 =? LUMEN_STX) eqn:E0; [|done]. apply Z.eqb_eq in E0 as ->. simpl in H.
  destruct (5 <? b1); [done|]. destruct (2 <? b2); [done|].
  destruct (MessageType_of b1) as [t|] eqn:Et; [|done]. apply MessageType_of_Some in Et as ->.
  destruct (Priority_of b2) as [p|] eqn:Ep; [|done]. apply Priority_of_Some in Ep as ->.
  simpl in H. injection H as <-.
  destruct (be32_inv b4 b5 b6 b7) as (?&E4&E5&E6&E7); [done..|].
  destruct (be16_inv b8 b9) as (?&E8&E9); [done..|].
  split; [done|]. exists rest. rewrite header_to_bytes_shape. simpl.
  by rewrite E4, E5, E6, E7, E8, E9.
Qed.
