(* ===== verification/LumenPacket.v ===== *)
(** * Packets: [include/common/lumen_packet.hpp], [src/common/lumen_packet.cpp]

    A packet is a header, a payload, a CRC-8 over both and the end marker.  The
    codec is inverse to itself in both directions, rejects the corruptions the
    CRC detects, and reads only inside its argument. *)
From S2P Require Import Prelude Configs Crc8 LumenHeader.

(** ** The code *)

Record LumenPacket := mkLumenPacket {
  header_ : LumenHeader;
  payload_ : bytes;
}.

#[export] Instance LumenPacket_eq_dec : EqDecision LumenPacket.
Proof. solve_decision. Defined.

(** The constructor: the length field of the header is overwritten. *)
Definition make_packet (header : LumenHeader) (payload : bytes) : LumenPacket :=
  mkLumenPacket (LumenHeader.set_payload_length (u16 (vec_size payload)) header) payload.

(** [LumenPacket::from_bytes] *)
Definition from_bytes_oob (oob : Z) (bs : bytes) : option LumenPacket :=
  header ← LumenHeader.from_bytes_oob oob bs;
  let expected_size := LUMEN_HEADER_SIZE + payload_length_ header + 2 in
  if vec_size bs <? expected_size then None
  else if negb (vec_at oob bs (expected_size - 1) =? LUMEN_ETX) then None
  else
    let payload :=
      vec_range bs LUMEN_PAYLOAD_POS (LUMEN_PAYLOAD_POS + payload_length_ header) in
    let stored_crc := vec_at oob bs (expected_size - 2) in
    let data_for_crc := vec_range bs 0 (expected_size - 2) in
    let calculated_crc := calculate_crc8 data_for_crc in
    if negb (calculated_crc =? stored_crc) then None
    else Some (make_packet header payload).

Definition from_bytes (bs : bytes) : option LumenPacket := from_bytes_oob 0 bs.

Definition calculate_packet_crc (p : LumenPacket) : Z :=
  calculate_crc8 (LumenHeader.to_bytes (header_ p) ++ payload_ p).

(** [LumenPacket::to_bytes] *)
Definition to_bytes (p : LumenPacket) : bytes :=
  let packet_bytes := LumenHeader.to_bytes (header_ p) in
  let packet_bytes := packet_bytes ++ payload_ p in
  let packet_bytes := packet_bytes ++ [calculate_packet_crc p] in
  packet_bytes ++ [LUMEN_ETX].

Definition total_size (p : LumenPacket) : Z :=
  LUMEN_HEADER_SIZE + vec_size (payload_ p) + 2.

Definition get_crc_position (packet_data : bytes) : Z :=
  if vec_size packet_data <? 2 then 0 else vec_size packet_data - 2.

(** [LumenPacket::is_valid] *)
Definition is_valid (p : LumenPacket) : bool :=
  let packet_data := to_bytes p in
  if vec_size packet_data <? LUMEN_HEADER_SIZE + 2 then false
  else if negb (vec_at 0 packet_data (vec_size packet_data - 1) =? LUMEN_ETX) then false
  else
    let crc_pos := vec_size packet_data - 2 in
    calculate_crc8 (vec_range packet_data 0 crc_pos) =? vec_at 0 packet_data crc_pos.

(** ** Invariant *)

(** The fields are in range and the length field is the length of the payload. *)
Definition packet_ok (p : LumenPacket) : Prop :=
  header_ok (header_ p) /\ bytes_ok (payload_ p) /\
  payload_length_ (header_ p) = vec_size (payload_ p).

#[export] Instance packet_ok_dec p : Decision (packet_ok p).
Proof. unfold packet_ok. apply _. Defined.

(** What the checksum covers. *)
Definition packet_body (p : LumenPacket) : bytes :=
  LumenHeader.to_bytes (header_ p) ++ payload_ p.

(** An error the checksum is known to detect. *)
Definition detectable (e : bytes) : Prop := burst_error e \/ double_error e \/ odd_error e.

(** ** Lemmas *)

Lemma to_bytes_body p :
  to_bytes p = packet_body p ++ [calculate_crc8 (packet_body p); LUMEN_ETX].
Proof. unfold to_bytes, packet_body, calculate_packet_crc. by rewrite <- !app_assoc. Qed.

Lemma vec_size_body p : vec_size (packet_body p) = 10 + vec_size (payload_ p).
Proof. unfold packet_body. by rewrite vec_size_app. Qed.

Lemma vec_size_to_bytes p : vec_size (to_bytes p) = 12 + vec_size (payload_ p).
Proof.
  rewrite to_bytes_body, vec_size_app, vec_size_body.
  change (vec_size [_; _]) with 2. lia.
Qed.

Lemma total_size_to_bytes p : total_size p = vec_size (to_bytes p).
Proof. rewrite vec_size_to_bytes. unfold total_size, LUMEN_HEADER_SIZE. lia. Qed.

Lemma length_packet_to_bytes p : length (to_bytes p) = (12 + length (payload_ p))%nat.
Proof. pose proof (vec_size_to_bytes p). unfold vec_size in *. lia. Qed.

Lemma packet_body_ok p : packet_ok p -> bytes_ok (packet_body p).
Proof. intros (?&?&?). apply bytes_ok_app. auto with lumen. Qed.

Lemma packet_to_bytes_ok p : packet_ok p -> bytes_ok (to_bytes p).
Proof.
  intros H. rewrite to_bytes_body. apply bytes_ok_app. split; [by apply packet_body_ok|].
  repeat (apply bytes_ok_cons; split); [auto with lumen|done|constructor].
Qed.
#[export] Hint Resolve packet_body_ok packet_to_bytes_ok : lumen.

Lemma payload_bound p : packet_ok p -> vec_size (payload_ p) < 65536.
Proof. intros ((_&_&H)&_&E). rewrite E in H. unfold is_u16 in H. lia. Qed.

Lemma make_packet_ok h pl : header_ok h -> bytes_ok pl -> vec_size pl < 65536 ->
  packet_ok (make_packet h pl).
Proof.
  intros (?&?&?) ? ?. pose proof (vec_size_nonneg pl).
  unfold packet_ok, header_ok. split_and!; simpl; auto with lumen.
  apply u16_small. unfold is_u16. lia.
Qed.

Lemma make_packet_id p : packet_ok p -> make_packet (header_ p) (payload_ p) = p.
Proof.
  intros Hp. pose proof (payload_bound p Hp). destruct Hp as (_&_&E).
  pose proof (vec_size_nonneg (payload_ p)).
  unfold make_packet. rewrite u16_small by (unfold is_u16; lia). rewrite <- E.
  by destruct p as [[]].
Qed.

(** *** Reading a vector that starts with a packet *)

Lemma vec_at_app_size oob a b rest : vec_at oob (a ++ b :: rest) (vec_size a) = b.
Proof.
  apply vec_at_lookup. unfold vec_size. rewrite Nat2Z.id.
  by rewrite lookup_app_r, Nat.sub_diag by done.
Qed.

Lemma vec_at_app_size' oob a b c rest : vec_at oob (a ++ b :: c :: rest) (vec_size a + 1) = c.
Proof.
  replace (a ++ b :: c :: rest) with ((a ++ [b]) ++ c :: rest) by (by rewrite <- app_assoc).
  replace (vec_size a + 1) with (vec_size (a ++ [b])) by (by rewrite vec_size_app).
  apply vec_at_app_size.
Qed.

Lemma vec_range_app_l a rest : vec_range (a ++ rest) 0 (vec_size a) = a.
Proof.
  unfold vec_range, vec_size. rewrite Z.sub_0_r, Nat2Z.id.
  change (drop (Z.to_nat 0) (a ++ rest)) with (a ++ rest). apply take_app_length.
Qed.

Lemma vec_range_app_mid a b rest :
  vec_range (a ++ b ++ rest) (vec_size a) (vec_size a + vec_size b) = b.
Proof.
  unfold vec_range, vec_size. rewrite Z.add_simpl_l, !Nat2Z.id, drop_app_length.
  apply take_app_length.
Qed.

(** What the parser does on a header followed by a long enough vector. *)
Lemma from_bytes_header_app oob h pl c x rest :
  header_ok h -> payload_length_ h = vec_size pl ->
  bytes_ok pl -> is_u8 c -> is_u8 x -> bytes_ok rest ->
  from_bytes_oob oob (LumenHeader.to_bytes h ++ pl ++ c :: x :: rest) =
  if negb (x =? LUMEN_ETX) then None
  else if negb (calculate_crc8 (LumenHeader.to_bytes h ++ pl) =? c) then None
  else Some (make_packet h pl).
Proof.
  intros Hh Hl Hpl Hc Hx Hrest. unfold from_bytes_oob.
  rewrite LumenHeader.header_from_bytes_no_oob, header_from_to_bytes; [|done|].
  2: { apply bytes_ok_app. split; [auto with lumen|]. apply bytes_ok_app. split; [done|].
       repeat (apply bytes_ok_cons; split); done. }
  cbn [mbind option_bind]. rewrite Hl.
  set (body := LumenHeader.to_bytes h ++ pl).
  assert (LUMEN_HEADER_SIZE + vec_size pl + 2 = vec_size body + 2) as Hexp
    by (unfold body; rewrite vec_size_app; done).
  assert (LUMEN_PAYLOAD_POS = vec_size (LumenHeader.to_bytes h)) as Hpos by done.
  rewrite Hexp, Hpos, vec_range_app_mid. rewrite (app_assoc _ pl). fold body.
  replace (vec_size body + 2 - 1) with (vec_size body + 1) by lia.
  replace (vec_size body + 2 - 2) with (vec_size body) by lia.
  rewrite vec_at_app_size', vec_at_app_size, vec_range_app_l.
  assert ((vec_size (body ++ c :: x :: rest) <? vec_size body + 2) = false) as ->; [|done].
  rewrite vec_size_app. assert (2 <= vec_size (c :: x :: rest)); [|lia].
  unfold vec_size. cbn [length]. lia.
Qed.

(** Splitting a vector at the places the parser looks at. *)
Lemma packet_split h (bs : bytes) rest :
  bs = LumenHeader.to_bytes h ++ rest -> 0 <= payload_length_ h ->
  LUMEN_HEADER_SIZE + payload_length_ h + 2 <= vec_size bs ->
  exists pl c x rest', rest = pl ++ c :: x :: rest' /\ vec_size pl = payload_length_ h.
Proof.
  intros -> Hn Hs. rewrite vec_size_app in Hs.
  change (vec_size (LumenHeader.to_bytes h)) with 10 in Hs. unfold LUMEN_HEADER_SIZE in Hs.
  set (n := Z.to_nat (payload_length_ h)).
  assert (n + 2 <= length rest)%nat as Hlen by (unfold vec_size in Hs; lia).
  destruct (drop n rest) as [|c [|x rest']] eqn:E;
    try (apply (f_equal length) in E; rewrite length_drop in E; simpl in E; lia).
  exists (take n rest), c, x, rest'. rewrite <- E, take_drop. split; [done|].
  unfold vec_size. rewrite length_take. lia.
Qed.

(** ** Theorems *)

Lemma packet_from_to_bytes p rest : packet_ok p -> bytes_ok rest ->
  from_bytes (to_bytes p ++ rest) = Some p.
Proof.
  intros Hp Hrest. rewrite to_bytes_body. unfold packet_body. rewrite <- !app_assoc.
  unfold from_bytes. destruct Hp as (Hh & Hpl & Hl). cbn [app].
  rewrite from_bytes_header_app by (done || auto with lumen).
  rewrite !Z.eqb_refl. simpl. by rewrite make_packet_id.
Qed.

Lemma packet_from_bytes_inv bs p : bytes_ok bs -> from_bytes bs = Some p ->
  packet_ok p /\ exists rest, bs = to_bytes p ++ rest.
Proof.
  intros Hok H. assert (exists h, LumenHeader.from_bytes bs = Some h) as [h Hh].
  { unfold from_bytes, from_bytes_oob in H.
    change (LumenHeader.from_bytes_oob 0 bs) with (LumenHeader.from_bytes bs) in H.
    destruct (LumenHeader.from_bytes bs); [by eexists|done]. }
  pose proof (header_from_bytes_inv bs h Hok Hh) as [Hhok [rest Hbs]].
  assert (LUMEN_HEADER_SIZE + payload_length_ h + 2 <= vec_size bs) as Hsz.
  { unfold from_bytes, from_bytes_oob in H.
    change (LumenHeader.from_bytes_oob 0 bs) with (LumenHeader.from_bytes bs) in H.
    rewrite Hh in H. cbn [mbind option_bind] in H. case_match; [done|]. lia. }
  destruct (packet_split h bs rest Hbs) as (pl & c & x & rest' & -> & Hpl);
    [destruct Hhok as (_&_&?); unfold is_u16 in *; lia|done|].
  subst bs. apply bytes_ok_app in Hok as [_ Hok]. apply bytes_ok_app in Hok as [Hplok Hok].
  apply bytes_ok_cons in Hok as [Hc Hok]. apply bytes_ok_cons in Hok as [Hx Hok].
  unfold from_bytes in H. rewrite from_bytes_header_app in H by done.
  destruct (x =? LUMEN_ETX) eqn:Ex; [|done]. apply Z.eqb_eq in Ex as ->. simpl in H.
  destruct (_ =? c) eqn:Ec; [|done]. apply Z.eqb_eq in Ec as <-. simpl in H.
  injection H as <-.
  assert (packet_ok (mkLumenPacket h pl)) as Hpok by done.
  pose proof (make_packet_id _ Hpok) as E. cbn [header_ payload_] in E. rewrite E.
  split; [done|]. exists rest'. rewrite to_bytes_body. unfold packet_body. simpl.
  by rewrite <- !app_assoc.
Qed.

Lemma packet_from_bytes_no_oob oob bs : bytes_ok bs -> from_bytes_oob oob bs = from_bytes bs.
Proof.
  intros Hok. unfold from_bytes, from_bytes_oob.
  rewrite !LumenHeader.header_from_bytes_no_oob by done.
  destruct (LumenHeader.from_bytes bs) as [h|] eqn:Hh; [|done]. cbn [mbind option_bind].
  apply header_from_bytes_inv in Hh as [(_&_&Hl) _]; [|done]. unfold is_u16 in Hl.
  case_match; [done|]. unfold LUMEN_HEADER_SIZE in *.
  rewrite !(vec_at_in_range oob 0) by lia. done.
Qed.

(** A packet is at least twelve bytes long, so a successful parse leaves less. *)
Lemma from_bytes_total_size bs p : bytes_ok bs -> from_bytes bs = Some p ->
  12 <= total_size p <= vec_size bs.
Proof.
  intros Hok [_ [rest ->]]%packet_from_bytes_inv; [|done].
  rewrite total_size_to_bytes, vec_size_app, vec_size_to_bytes.
  pose proof (vec_size_nonneg (payload_ p)). pose proof (vec_size_nonneg rest). lia.
Qed.

(** *** Corruption *)

Lemma length_xor_bytes a e : length a = length e -> length (xor_bytes a e) = length a.
Proof. intros H. unfold xor_bytes. rewrite length_zip_with. lia. Qed.

Lemma xor_bytes_ok a : forall e, bytes_ok a -> bytes_ok e -> bytes_ok (xor_bytes a e).
Proof.
  induction a as [|x a IH]; intros [|y e] Ha He; try constructor;
    apply bytes_ok_cons in Ha as [? ?]; apply bytes_ok_cons in He as [? ?]; [auto with lumen|].
  by apply IH.
Qed.

Lemma xor_bytes_lookup_0 a e i x :
  a !! i = Some x -> e !! i = Some 0 -> xor_bytes a e !! i = Some x.
Proof.
  intros Ha He. unfold xor_bytes. rewrite lookup_zip_with, Ha, He. simpl. by rewrite Z.lxor_0_r.
Qed.

(** The bytes of the length field. *)
Lemma to_bytes_length_field p :
  to_bytes p !! 8%nat = Some (Z.land (Z.shiftr (payload_length_ (header_ p)) 8) 0xFF) /\
  to_bytes p !! 9%nat = Some (Z.land (payload_length_ (header_ p)) 0xFF).
Proof. done. Qed.

(** The part of a packet before the end marker, whose checksum is 0. *)
Definition codeword (p : LumenPacket) : bytes :=
  packet_body p ++ [calculate_crc8 (packet_body p)].

Lemma to_bytes_codeword p : to_bytes p = codeword p ++ [LUMEN_ETX].
Proof. rewrite to_bytes_body. unfold codeword. by rewrite <- app_assoc. Qed.

Lemma codeword_crc8 p : calculate_crc8 (codeword p) = 0.
Proof. apply crc8_codeword; auto with lumen. Qed.

Lemma codeword_ok p : packet_ok p -> bytes_ok (codeword p).
Proof.
  intros H. apply bytes_ok_app. split; [auto with lumen|].
  apply bytes_ok_cons. split; [auto with lumen|constructor].
Qed.

Lemma detectable_crc8 e : bytes_ok e -> detectable e -> calculate_crc8 e <> 0.
Proof.
  intros He [H|[H|H]];
    [by apply burst_error_crc8|by apply double_error_crc8|by apply odd_error_crc8].
Qed.

(** A corruption that keeps the length field and still parses is a codeword. *)
Lemma corrupted_parse p e rest q :
  packet_ok p -> bytes_ok e -> bytes_ok rest -> length e = length (to_bytes p) ->
  e !! 8%nat = Some 0 -> e !! 9%nat = Some 0 ->
  from_bytes (xor_bytes (to_bytes p) e ++ rest) = Some q ->
  xor_bytes (to_bytes p) e = to_bytes q.
Proof.
  intros Hp He Hrest Hlen H8 H9 Hq.
  apply packet_from_bytes_inv in Hq as [Hqok [rest' Heq]];
    [|apply bytes_ok_app; split; [apply xor_bytes_ok|]; auto with lumen].
  destruct (to_bytes_length_field p) as [P8 P9]. destruct (to_bytes_length_field q) as [Q8 Q9].
  assert (length (xor_bytes (to_bytes p) e) = length (to_bytes p)) as Hxl
    by (by apply length_xor_bytes).
  assert (forall i x, (i < 12)%nat -> to_bytes p !! i = Some x -> e !! i = Some 0 ->
    to_bytes q !! i = Some x) as Hsame.
  { intros i x Hi Hpi Hei. pose proof (xor_bytes_lookup_0 _ _ _ _ Hpi Hei) as Hxi.
    rewrite <- (lookup_app_l _ rest'), <- Heq by (rewrite length_packet_to_bytes; lia).
    rewrite lookup_app_l by (rewrite Hxl, length_packet_to_bytes; lia). done. }
  apply Hsame in P8; [|lia|done]. apply Hsame in P9; [|lia|done].
  rewrite Q8 in P8. rewrite Q9 in P9. injection P8 as P8. injection P9 as P9.
  destruct Hp as ((_&_&Hpl)&_&Epl). destruct Hqok as ((_&_&Hql)&_&Eql).
  assert (payload_length_ (header_ q) = payload_length_ (header_ p)) as El.
  { rewrite <- (be16_bytes _ Hql), <- (be16_bytes _ Hpl). by rewrite P8, P9. }
  apply (app_inj_1 _ _ _ _) in Heq as [? _]; [done|].
  rewrite Hxl, !length_packet_to_bytes. unfold vec_size in *. lia.
Qed.

Lemma corruption_detected p e rest :
  packet_ok p -> bytes_ok e -> bytes_ok rest -> length e = length (to_bytes p) ->
  e !! 8%nat = Some 0 -> e !! 9%nat = Some 0 ->
  detectable (take (length e - 1) e) ->
  from_bytes (xor_bytes (to_bytes p) e ++ rest) = None.
Proof.
  intros Hp He Hrest Hlen H8 H9 Hdet.
  destruct (from_bytes _) as [q|] eqn:Hq; [exfalso|done].
  pose proof (corrupted_parse p e rest q Hp He Hrest Hlen H8 H9 Hq) as Heq.
  apply packet_from_bytes_inv in Hq as [Hqok _];
    [|apply bytes_ok_app; split; [apply xor_bytes_ok|]; auto with lumen].
  destruct e as [|x e1 _] using rev_ind; [done|].
  rewrite length_app in Hdet. simpl length in Hdet. rewrite Nat.add_sub, take_app_length in Hdet.
  apply bytes_ok_app in He as [He1 _].
  rewrite !to_bytes_codeword in *. rewrite !length_app in Hlen. cbn [length] in Hlen.
  assert (length (codeword p) = length e1) as Hl1 by lia.
  unfold xor_bytes in Heq. rewrite zip_with_app in Heq by done.
  apply app_inj_2 in Heq as [Heq _]; [|done].
  apply (detectable_crc8 e1 He1 Hdet).
  assert (calculate_crc8 (xor_bytes (codeword p) e1) = 0) as H0
    by (unfold xor_bytes; rewrite Heq; apply codeword_crc8).
  rewrite calculate_crc8_xor, codeword_crc8, Z.lxor_0_l in H0; auto using codeword_ok.
Qed.

(** ** The claims *)

(** C1: [LumenPacket::from_bytes] and [LumenPacket::to_bytes] are inverse to each
    other on packets whose fields are in range and whose length field is the
    length of the payload: a serialised packet parses back to itself whatever
    bytes follow it, and whatever parses is exactly the serialisation of the
    result followed by the rest. *)
Theorem packet_codec :
  (forall p rest, packet_ok p -> bytes_ok rest -> from_bytes (to_bytes p ++ rest) = Some p) /\
  (forall bs p, bytes_ok bs -> from_bytes bs = Some p ->
    packet_ok p /\ exists rest, bs = to_bytes p ++ rest).
Proof. split; [apply packet_from_to_bytes|apply packet_from_bytes_inv]. Qed.

Definition sample_packet : LumenPacket :=
  make_packet (mkLumenHeader DATA MEDIUM 7 1234567 0) [72; 105].

Lemma packet_codec_witness :
  packet_ok sample_packet /\ from_bytes (to_bytes sample_packet ++ [2; 0]) = Some sample_packet.
Proof.
  assert (packet_ok sample_packet) as H by (by apply (bool_decide_eq_true_1 _); vm_compute).
  split; [exact H|]. apply (proj1 packet_codec); [exact H|].
  by apply (bool_decide_eq_true_1 _); vm_compute.
Defined.



(** [LumenPacket] reads only inside the vectors it is given: whatever value an
    out-of-range read would produce, [from_bytes] answers the same. *)
Theorem packet_reads_in_bounds oob bs :
  bytes_ok bs -> from_bytes_oob oob bs = from_bytes bs.
Proof. apply packet_from_bytes_no_oob. Qed.

Lemma packet_reads_in_bounds_witness : from_bytes_oob 99 [2; 2; 1] = from_bytes [2; 2; 1].
Proof.
  apply packet_reads_in_bounds. by apply (bool_decide_eq_true_1 _); vm_compute.
Defined.

(** C28: the constructor stores the length of the payload in sixteen bits, so a
    packet of 65536 bytes or more does not survive the wire. *)
Theorem oversized_packet_lost h pl :
  header_ok h -> bytes_ok pl -> 65536 <= vec_size pl ->
  from_bytes (to_bytes (make_packet h pl)) <> Some (make_packet h pl).
Proof.
  intros Hh Hpl Hsz [Hp _]%packet_from_bytes_inv.
  - apply payload_bound in Hp. simpl in Hp. lia.
  - rewrite to_bytes_body. unfold packet_body. destruct Hh as (?&?&?).
    repeat (apply bytes_ok_app; split); simpl; try done.
    + apply header_to_bytes_ok. unfold header_ok. simpl. auto with lumen.
    + repeat (apply bytes_ok_cons; split); [auto with lumen|done|constructor].
Qed.

Lemma oversized_packet_lost_witness :
  let p := make_packet (mkLumenHeader DATA LOW 0 0 0) (replicate (Z.to_nat 65536) 0) in
  from_bytes (to_bytes p) <> Some p.
Proof.
  intros p. apply oversized_packet_lost; [done|by apply Forall_replicate|].
  unfold vec_size. rewrite length_replicate. lia.
Defined.

(** [is_valid] holds of every packet object: it checks the bytes it has just
    produced, so it never rejects one. *)
Theorem is_valid_always p : is_valid p = true.
Proof.
  unfold is_valid. pose proof (vec_size_nonneg (payload_ p)).
  rewrite vec_size_to_bytes. unfold LUMEN_HEADER_SIZE.
  replace (12 + _ <? 10 + 2) with false by lia.
  replace (12 + vec_size (payload_ p) - 1) with (vec_size (packet_body p) + 1)
    by (rewrite vec_size_body; lia).
  replace (12 + vec_size (payload_ p) - 2) with (vec_size (packet_body p))
    by (rewrite vec_size_body; lia).
  rewrite to_bytes_body, vec_at_app_size', vec_at_app_size, vec_range_app_l.
  by rewrite !Z.eqb_refl.
Qed.
