(* ===== verification/Asio.v ===== *)
(** * What the program uses of Boost.Asio

    Addresses are the library's: a type with equality, a printer and the
    unspecified address, as a class whose laws state what its documentation
    says.  An endpoint is an address and a port.  A timer is what the program
    last asked of it: the expiry it set and whether a wait is outstanding; that
    a wait completes, and with which error code, is an event of the environment. *)
From Stdlib Require Import Ascii.
From stdpp Require Import pretty.
From S2P Require Import Prelude.

(** ** Addresses and endpoints *)

Class AsioAddress := {
  address : Type;
  address_eq_dec :: EqDecision address;
  address_to_string : address -> string;
  is_unspecified : address -> bool;
  address_any : address;
}.

(** The default address is the unspecified one, and distinct addresses print
    differently. *)
Class AsioAddressLaws (A : AsioAddress) := {
  address_any_unspecified : is_unspecified address_any = true;
  address_to_string_inj :: Inj (=) (=) address_to_string;
}.

Section Endpoint.
Context {A : AsioAddress}.

Record endpoint := mkEndpoint { ep_address : address; ep_port : Z }.

#[global] Instance endpoint_eq_dec : EqDecision endpoint.
Proof. solve_decision. Defined.

(** [udp::endpoint()] *)
Definition endpoint_default : endpoint := mkEndpoint address_any 0.

Definition ep_unspecified (e : endpoint) : bool := is_unspecified (ep_address e).

(** A port is an [unsigned short]. *)
Definition endpoint_ok (e : endpoint) : Prop := is_u16 (ep_port e).

(** [get_endpoint_key]: both copies, in [reliability_manager.cpp] and in
    [lumen_protocol.cpp], print the address, a colon and the port. *)
Definition get_endpoint_key (e : endpoint) : string :=
  address_to_string (ep_address e) +:+ ":" +:+ pretty (Z.to_N (ep_port e)).
End Endpoint.

(** ** Timers *)

(** Points in time are nanoseconds, the unit of the clocks; durations of the
    configuration are milliseconds. *)
Definition ms (n : Z) : Z := n * 1000000.

(** [duration_cast<milliseconds>(now - then)] *)
Definition elapsed_ms (now then_ : Z) : Z := Z.quot (now - then_) 1000000.

Record steady_timer := mkTimer { expiry : Z; pending : bool }.

Definition expires_at (t : Z) (_ : steady_timer) : steady_timer := mkTimer t false.
Definition async_wait (tm : steady_timer) : steady_timer := mkTimer (expiry tm) true.
Definition cancel (tm : steady_timer) : steady_timer := mkTimer (expiry tm) false.

(** ** Keys determine endpoints *)

Fixpoint has_char (c : ascii) (s : string) : bool :=
  match s with
  | EmptyString => false
  | String d s' => bool_decide (c = d) || has_char c s'
  end.

Lemma has_char_app c s1 s2 : has_char c (s1 +:+ s2) = has_char c s1 || has_char c s2.
Proof. induction s1 as [|d s1 IH]; [done|]. simpl. by rewrite IH, orb_assoc. Qed.

(** A string splits in one way at the last occurrence of a character. *)
Lemma string_split_inj c a1 : forall a2 b1 b2,
  a1 +:+ String c b1 = a2 +:+ String c b2 ->
  has_char c b1 = false -> has_char c b2 = false -> a1 = a2 /\ b1 = b2.
Proof.
  induction a1 as [|x a1 IH]; intros [|y a2] b1 b2 H H1 H2; simpl in H.
  - by injection H as ->.
  - injection H as -> ->. rewrite has_char_app in H1. simpl in H1. rewrite bool_decide_true in H1 by done.
    by rewrite orb_true_r in H1.
  - injection H as -> <-. rewrite has_char_app in H2. simpl in H2. rewrite bool_decide_true in H2 by done.
    by rewrite orb_true_r in H2.
  - injection H as -> H. by destruct (IH _ _ _ H H1 H2) as [-> ->].
Qed.

Lemma pretty_N_char_digit c x : has_char c "0123456789" = false -> c <> pretty_N_char x.
Proof.
  intros H ->. revert H. unfold pretty_N_char.
  repeat (case_match; try done).
Qed.

Lemma pretty_N_go_has_char c x s : has_char c "0123456789" = false ->
  has_char c s = false -> has_char c (pretty_N_go x s) = false.
Proof.
  intros Hc. revert s. induction (N.lt_wf_0 x) as [x _ IH]; intros s Hs.
  destruct (decide (x = 0%N)) as [->|Hx]; [by rewrite pretty_N_go_0|].
  rewrite pretty_N_go_step by lia. apply IH; [apply N.div_lt; lia|].
  simpl. rewrite Hs, bool_decide_false; [done|]. by apply pretty_N_char_digit.
Qed.

Lemma pretty_N_has_char c (n : N) : has_char c "0123456789" = false ->
  has_char c (pretty n) = false.
Proof.
  intros Hc. unfold pretty, pretty_N. case_decide; [|by apply pretty_N_go_has_char].
  simpl. rewrite bool_decide_false; [done|]. intros ->. done.
Qed.

Section Keys.
Context `{AL : AsioAddressLaws}.

Lemma get_endpoint_key_inj e1 e2 :
  endpoint_ok e1 -> endpoint_ok e2 -> get_endpoint_key e1 = get_endpoint_key e2 -> e1 = e2.
Proof.
  unfold endpoint_ok, is_u16, get_endpoint_key. intros H1 H2 H.
  apply (string_split_inj ":") in H as [Ha Hp]; try by apply pretty_N_has_char.
  apply (inj address_to_string) in Ha. apply (inj pretty) in Hp.
  destruct e1 as [a1 p1], e2 as [a2 p2]. simpl in *. f_equal; [done|lia].
Qed.
End Keys.

(** ** An address type: IPv4 in dotted decimal *)

Module Ipv4.
Definition t : Type := N * N * N * N.

Definition to_string (a : t) : string :=
  let '(a1, a2, a3, a4) := a in
  pretty a1 +:+ "." +:+ pretty a2 +:+ "." +:+ pretty a3 +:+ "." +:+ pretty a4.

#[export] Instance ipv4 : AsioAddress := {|
  address := t;
  address_to_string := to_string;
  is_unspecified a := bool_decide (a = (0, 0, 0, 0)%N);
  address_any := (0, 0, 0, 0)%N;
|}.

Lemma dot_inj (a1 a2 : N) s1 s2 :
  pretty a1 +:+ "." +:+ s1 = pretty a2 +:+ "." +:+ s2 -> a1 = a2 /\ s1 = s2.
Proof.
  assert (forall x y, has_char "." x = false -> has_char "." y = false ->
    x +:+ "." +:+ s1 = y +:+ "." +:+ s2 -> x = y /\ s1 = s2) as Hsplit.
  { induction x as [|c x IH]; intros [|d y] Hx Hy H; simpl in *.
    - injection H as H. split; [done|exact H].
    - by injection H as <- _.
    - by injection H as -> _.
    - injection H as -> H. apply orb_false_iff in Hx as [_ Hx]. apply orb_false_iff in Hy as [_ Hy].
      by destruct (IH _ Hx Hy H) as [-> ->]. }
  intros H. apply Hsplit in H as [H ->]; try by apply pretty_N_has_char.
  by apply (inj pretty) in H as ->.
Qed.

#[export] Instance ipv4_laws : AsioAddressLaws ipv4.
Proof.
  split; [done|]. intros [[[a1 a2] a3] a4] [[[b1 b2] b3] b4] H. simpl in H.
  apply dot_inj in H as [-> H]. apply dot_inj in H as [-> H]. apply dot_inj in H as [-> H].
  by apply (inj pretty) in H as ->.
Qed.

(** The base station of [test_rover_main.cpp] and a rover. *)
Definition base_ep : endpoint := mkEndpoint (10, 237, 0, 201)%N 9000.
Definition rover_ep : endpoint := mkEndpoint (10, 237, 0, 18)%N 40000.
End Ipv4.
