(* ===== verification/ReliabilityManager.v ===== *)
(** * Reliability: [include/common/reliability_manager.hpp], [src/common/reliability_manager.cpp]

    The state of the manager, one definition per member function and timer
    handler, and the theorems on retransmission, gap detection and duplicate
    bookkeeping.  Every function takes the reading of the steady clock it makes.

    The two callbacks ([retransmit_callback_], set by [LumenProtocol], and
    [timeout_callback_], set by [Rover]) do not re-enter the manager, which holds
    [sent_packets_mutex_] while it calls them; the functions return the calls
    they make, in order, and the client runs them. *)
From S2P Require Import Prelude Configs LumenHeader LumenPacket Asio.

(** ** State *)

Inductive Role := BASE_STATION | ROVER.

#[export] Instance Role_eq_dec : EqDecision Role.
Proof. solve_decision. Defined.

Section Reliability.
Context {A : AsioAddress}.

Record SentPacketInfo := mkSentPacketInfo {
  packet : LumenPacket;
  sent_time : Z;
  retry_count : Z;
  recipient : endpoint;
}.

(** The callbacks are recorded as set or not set. *)
Record ReliabilityManager := mkReliabilityManager {
  sent_packets_ : gmap Z SentPacketInfo;
  acked_sequences_ : gmap string (gset Z);
  received_sequences_ : gmap string (gmap Z Z);
  recent_naks_ : gmap Z Z;
  retransmit_timer_ : steady_timer;
  cleanup_timer_ : steady_timer;
  retransmit_callback_ : bool;
  running_ : bool;
  role_ : Role;
  last_ack_cleanup_time_ : Z;
  timeout_callback_ : bool;
  consecutive_timeouts_to_base_ : Z;
}.

(** A call of one of the two callbacks. *)
Inductive rm_call :=
| CallRetransmit (p : LumenPacket) (e : endpoint)
| CallTimeout (e : endpoint).

Definition WINDOW_SIZE : Z := 16.

(** *** Field updates *)

Definition set_sent (v : gmap Z SentPacketInfo) (r : ReliabilityManager) : ReliabilityManager :=
  mkReliabilityManager v (acked_sequences_ r) (received_sequences_ r) (recent_naks_ r)
    (retransmit_timer_ r) (cleanup_timer_ r) (retransmit_callback_ r) (running_ r) (role_ r)
    (last_ack_cleanup_time_ r) (timeout_callback_ r) (consecutive_timeouts_to_base_ r).
Definition set_acked (v : gmap string (gset Z)) (r : ReliabilityManager) : ReliabilityManager :=
  mkReliabilityManager (sent_packets_ r) v (received_sequences_ r) (recent_naks_ r)
    (retransmit_timer_ r) (cleanup_timer_ r) (retransmit_callback_ r) (running_ r) (role_ r)
    (last_ack_cleanup_time_ r) (timeout_callback_ r) (consecutive_timeouts_to_base_ r).
Definition set_received (v : gmap string (gmap Z Z)) (r : ReliabilityManager) : ReliabilityManager :=
  mkReliabilityManager (sent_packets_ r) (acked_sequences_ r) v (recent_naks_ r)
    (retransmit_timer_ r) (cleanup_timer_ r) (retransmit_callback_ r) (running_ r) (role_ r)
    (last_ack_cleanup_time_ r) (timeout_callback_ r) (consecutive_timeouts_to_base_ r).
Definition set_naks (v : gmap Z Z) (r : ReliabilityManager) : ReliabilityManager :=
  mkReliabilityManager (sent_packets_ r) (acked_sequences_ r) (received_sequences_ r) v
    (retransmit_timer_ r) (cleanup_timer_ r) (retransmit_callback_ r) (running_ r) (role_ r)
    (last_ack_cleanup_time_ r) (timeout_callback_ r) (consecutive_timeouts_to_base_ r).
Definition set_retransmit_timer (v : steady_timer) (r : ReliabilityManager) : ReliabilityManager :=
  mkReliabilityManager (sent_packets_ r) (acked_sequences_ r) (received_sequences_ r)
    (recent_naks_ r) v (cleanup_timer_ r) (retransmit_callback_ r) (running_ r) (role_ r)
    (last_ack_cleanup_time_ r) (timeout_callback_ r) (consecutive_timeouts_to_base_ r).
Definition set_cleanup_timer (v : steady_timer) (r : ReliabilityManager) : ReliabilityManager :=
  mkReliabilityManager (sent_packets_ r) (acked_sequences_ r) (received_sequences_ r)
    (recent_naks_ r) (retransmit_timer_ r) v (retransmit_callback_ r) (running_ r) (role_ r)
    (last_ack_cleanup_time_ r) (timeout_callback_ r) (consecutive_timeouts_to_base_ r).
Definition set_running (v : bool) (r : ReliabilityManager) : ReliabilityManager :=
  mkReliabilityManager (sent_packets_ r) (acked_sequences_ r) (received_sequences_ r)
    (recent_naks_ r) (retransmit_timer_ r) (cleanup_timer_ r) (retransmit_callback_ r) v (role_ r)
    (last_ack_cleanup_time_ r) (timeout_callback_ r) (consecutive_timeouts_to_base_ r).
Definition set_last_ack_cleanup (v : Z) (r : ReliabilityManager) : ReliabilityManager :=
  mkReliabilityManager (sent_packets_ r) (acked_sequences_ r) (received_sequences_ r)
    (recent_naks_ r) (retransmit_timer_ r) (cleanup_timer_ r) (retransmit_callback_ r)
    (running_ r) (role_ r) v (timeout_callback_ r) (consecutive_timeouts_to_base_ r).
Definition set_consecutive_timeouts (v : Z) (r : ReliabilityManager) : ReliabilityManager :=
  mkReliabilityManager (sent_packets_ r) (acked_sequences_ r) (received_sequences_ r)
    (recent_naks_ r) (retransmit_timer_ r) (cleanup_timer_ r) (retransmit_callback_ r)
    (running_ r) (role_ r) (last_ack_cleanup_time_ r) (timeout_callback_ r) v.

Definition set_retransmit_callback (r : ReliabilityManager) : ReliabilityManager :=
  mkReliabilityManager (sent_packets_ r) (acked_sequences_ r) (received_sequences_ r)
    (recent_naks_ r) (retransmit_timer_ r) (cleanup_timer_ r) true
    (running_ r) (role_ r) (last_ack_cleanup_time_ r) (timeout_callback_ r)
    (consecutive_timeouts_to_base_ r).
Definition set_timeout_callback (r : ReliabilityManager) : ReliabilityManager :=
  mkReliabilityManager (sent_packets_ r) (acked_sequences_ r) (received_sequences_ r)
    (recent_naks_ r) (retransmit_timer_ r) (cleanup_timer_ r) (retransmit_callback_ r)
    (running_ r) (role_ r) (last_ack_cleanup_time_ r) true
    (consecutive_timeouts_to_base_ r).

(** ** Operations *)

(** The constructor; the timers are created with an expiry and no wait. *)
Definition make_ReliabilityManager (now : Z) (is_base_station : bool) : ReliabilityManager := {|
  sent_packets_ := ∅;
  acked_sequences_ := ∅;
  received_sequences_ := ∅;
  recent_naks_ := ∅;
  retransmit_timer_ := mkTimer (now + ms RELIABILITY_CHECK_INTERVAL) false;
  cleanup_timer_ := mkTimer (now + ms CLEANUP_INTERVAL) false;
  retransmit_callback_ := false;
  running_ := false;
  role_ := if is_base_station then BASE_STATION else ROVER;
  last_ack_cleanup_time_ := 0;
  timeout_callback_ := false;
  consecutive_timeouts_to_base_ := 0;
|}.

(** [std::map<uint8_t, _>] iterates in ascending order of its keys. *)
Definition ordered_entries {V} (m : gmap Z V) : list (Z * V) :=
  omap (fun k => (fun v => (k, v)) <$> m !! k) (seqZ 0 256).

(** [add_send_packet]: [emplace] keeps an entry that is already there. *)
Definition add_send_packet (now seq : Z) (p : LumenPacket) (to : endpoint)
    (r : ReliabilityManager) : ReliabilityManager :=
  if negb (running_ r) then r
  else match sent_packets_ r !! seq with
       | Some _ => r
       | None => set_sent (<[seq := mkSentPacketInfo p now 0 to]> (sent_packets_ r)) r
       end.

Definition process_ack (seq : Z) (r : ReliabilityManager) : ReliabilityManager :=
  if negb (running_ r) || negb (bool_decide (role_ r = ROVER)) then r
  else match sent_packets_ r !! seq with
       | Some _ => set_sent (delete seq (sent_packets_ r)) (set_consecutive_timeouts 0 r)
       | None => r
       end.

Definition process_nak (seq : Z) (r : ReliabilityManager) : list rm_call :=
  if negb (running_ r) || negb (bool_decide (role_ r = BASE_STATION)) then []
  else match sent_packets_ r !! seq with
       | Some info =>
         if retransmit_callback_ r then [CallRetransmit (packet info) (recipient info)] else []
       | None => []
       end.

Definition record_received_sequence (now seq : Z) (sender : endpoint) (r : ReliabilityManager)
    : ReliabilityManager :=
  if negb (running_ r) then r
  else
    let key := get_endpoint_key sender in
    let sequence_map := default ∅ (received_sequences_ r !! key) in
    set_received (<[key := <[seq := now]> sequence_map]> (received_sequences_ r)) r.

(** The loop of [get_missing_sequences] over [i = 1 .. WINDOW_SIZE]. *)
Definition missing_in_window (highest_seq : Z) (sequence_map : gmap Z Z) : list Z :=
  filter (fun seq_to_check => sequence_map !! seq_to_check = None)
    ((fun i => u8 (highest_seq - i)) <$> seqZ 1 WINDOW_SIZE).

Definition get_missing_sequences (sender : endpoint) (r : ReliabilityManager) : list Z :=
  if negb (bool_decide (role_ r = ROVER)) then []
  else match received_sequences_ r !! get_endpoint_key sender with
       | None => []
       | Some sequence_map =>
         (* empty, or [rbegin()] is the entry with the highest key *)
         match last (ordered_entries sequence_map) with
         | None => []
         | Some (highest_seq, _) => missing_in_window highest_seq sequence_map
         end
       end.

Definition is_recently_naked (now seq : Z) (r : ReliabilityManager) : bool :=
  match recent_naks_ r !! seq with
  | None => false
  | Some t => elapsed_ms now t <? NAK_DEBOUNCE_TIME
  end.

Definition record_nak_sent (now seq : Z) (r : ReliabilityManager) : ReliabilityManager :=
  set_naks (<[seq := now]> (recent_naks_ r)) r.

(** One iteration of the loop of [get_packets_to_retransmit], on the entry of
    [seq]: what becomes of the entry, the packet queued, the callback called. *)
Definition retransmit_visit (role : Role) (timeout_cb : bool) (now : Z) (info : SentPacketInfo)
    : option SentPacketInfo * list (LumenPacket * endpoint) * list rm_call :=
  if bool_decide (role = BASE_STATION) then (Some info, [], [])
  else
    let elapsed := elapsed_ms now (sent_time info) in
    let timeout := RELIABILITY_BASE_TIMEOUT * Z.shiftl 1 (retry_count info) in
    if timeout <? elapsed then
      if RELIABILITY_MAX_RETRIES <=? retry_count info then
        let timeout_to_base := ep_port (recipient info) =? 9000 in
        (None, [],
          if timeout_to_base && timeout_cb then [CallTimeout (recipient info)] else [])
      else
        (Some (mkSentPacketInfo (packet info) now (retry_count info + 1) (recipient info)),
          [(packet info, recipient info)], [])
    else (Some info, [], []).

Definition retransmit_step (role : Role) (timeout_cb : bool) (now : Z)
    (acc : gmap Z SentPacketInfo * list (LumenPacket * endpoint) * list rm_call)
    (entry : Z * SentPacketInfo)
    : gmap Z SentPacketInfo * list (LumenPacket * endpoint) * list rm_call :=
  let '(sent, packets, calls) := acc in
  let '(seq, info) := entry in
  let '(info', queued, called) := retransmit_visit role timeout_cb now info in
  (partial_alter (fun _ => info') seq sent, packets ++ queued, calls ++ called).

Definition get_packets_to_retransmit (now : Z) (r : ReliabilityManager)
    : ReliabilityManager * list (LumenPacket * endpoint) * list rm_call :=
  let '(sent, packets, calls) :=
    foldl (retransmit_step (role_ r) (timeout_callback_ r) now)
      (sent_packets_ r, [], []) (ordered_entries (sent_packets_ r)) in
  (set_sent sent r, packets, calls).

Definition handle_retransmission_timer (now : Z) (r : ReliabilityManager)
    : ReliabilityManager * list rm_call :=
  if negb (running_ r) then (r, [])
  else
    let '(r, calls) :=
      if bool_decide (role_ r = ROVER) then
        let '(r', packets, timeouts) := get_packets_to_retransmit now r in
        (r', timeouts ++
          (if retransmit_callback_ r'
           then (fun pe => CallRetransmit (fst pe) (snd pe)) <$> packets else []))
      else (r, []) in
    if running_ r then
      (set_retransmit_timer (async_wait
        (expires_at (expiry (retransmit_timer_ r) + ms RELIABILITY_CHECK_INTERVAL)
          (retransmit_timer_ r))) r, calls)
    else (r, calls).

(** The completion handler of the wait. *)
Definition retransmit_timer_completed (now : Z) (error : bool) (r : ReliabilityManager)
    : ReliabilityManager * list rm_call :=
  if negb error && running_ r then handle_retransmission_timer now r else (r, []).

(** [cleanup_old_entries] *)
Definition cleanup_received (now : Z) (m : gmap Z Z) : gmap Z Z :=
  filter (fun kt => ~ SEQUENCE_RETAIN_TIME < elapsed_ms now (snd kt)) m.

Definition cleanup_naks (now : Z) (m : gmap Z Z) : gmap Z Z :=
  filter (fun kt => ~ NAK_DEBOUNCE_TIME * 2 < elapsed_ms now (snd kt)) m.

Definition cleanup_old_entries (now : Z) (r : ReliabilityManager) : ReliabilityManager :=
  let r := set_received (cleanup_received now <$> received_sequences_ r) r in
  let r := set_naks (cleanup_naks now (recent_naks_ r)) r in
  if last_ack_cleanup_time_ r + ms (CLEANUP_INTERVAL * 2) <? now
  then set_last_ack_cleanup now (set_acked ∅ r)
  else r.

Definition handle_cleanup_timer (now : Z) (r : ReliabilityManager) : ReliabilityManager :=
  if negb (running_ r) then r
  else
    let r := cleanup_old_entries now r in
    if running_ r then
      set_cleanup_timer (async_wait
        (expires_at (expiry (cleanup_timer_ r) + ms CLEANUP_INTERVAL) (cleanup_timer_ r))) r
    else r.

Definition cleanup_timer_completed (now : Z) (error : bool) (r : ReliabilityManager)
    : ReliabilityManager :=
  if negb error && running_ r then handle_cleanup_timer now r else r.

Definition record_acked_sequence (seq : Z) (e : endpoint) (r : ReliabilityManager)
    : ReliabilityManager :=
  if negb (bool_decide (role_ r = BASE_STATION)) then r
  else
    let key := get_endpoint_key e in
    let acked := default ∅ (acked_sequences_ r !! key) in
    set_acked (<[key := {[seq]} ∪ acked]> (acked_sequences_ r)) r.

Definition has_acked_sequence (seq : Z) (e : endpoint) (r : ReliabilityManager) : bool :=
  if negb (bool_decide (role_ r = BASE_STATION)) then false
  else match acked_sequences_ r !! get_endpoint_key e with
       | None => false
       | Some acked => bool_decide (seq ∈ acked)
       end.

Definition reset_state (r : ReliabilityManager) : ReliabilityManager :=
  let r := set_sent ∅ r in
  let r := set_received ∅ r in
  let r := set_naks ∅ r in
  let r := set_acked ∅ r in
  set_consecutive_timeouts 0 r.

Definition start (now : Z) (r : ReliabilityManager) : ReliabilityManager * list rm_call :=
  if running_ r then (r, [])
  else
    let r := set_running true r in
    let r := set_sent ∅ r in
    let r := set_consecutive_timeouts 0 r in
    let r := set_received ∅ r in
    let r := set_naks ∅ r in
    let r := set_acked ∅ r in
    let '(r, calls) := handle_retransmission_timer now r in
    (handle_cleanup_timer now r, calls).

Definition stop (r : ReliabilityManager) : ReliabilityManager :=
  if negb (running_ r) then r
  else
    let r := set_running false r in
    let r := set_retransmit_timer (cancel (retransmit_timer_ r)) r in
    set_cleanup_timer (cancel (cleanup_timer_ r)) r.
End Reliability.

(** ** Iteration over the maps *)

Section Ordered.
Context {V : Type}.
Implicit Types m : gmap Z V.

Lemma elem_of_ordered_entries m k v :
  (k, v) ∈ ordered_entries m <-> is_u8 k /\ m !! k = Some v.
Proof.
  unfold ordered_entries. rewrite list_elem_of_omap. split.
  - intros (k' & Hk' & H). apply elem_of_seqZ in Hk'.
    destruct (m !! k') eqn:E; simplify_eq/=. split; [unfold is_u8; lia|done].
  - intros [Hk Hm]. exists k. rewrite Hm. split; [|done].
    apply elem_of_seqZ. unfold is_u8 in Hk. lia.
Qed.

Lemma ordered_keys_sublist m l :
  (omap (fun k => (fun v => (k, v)) <$> m !! k) l).*1 `sublist_of` l.
Proof.
  induction l as [|k l IH]; [done|]. simpl. destruct (m !! k); simpl; by constructor.
Qed.

Lemma NoDup_ordered_keys m : NoDup (ordered_entries m).*1.
Proof. eapply sublist_NoDup; [apply NoDup_seqZ|apply ordered_keys_sublist]. Qed.

Lemma last_omap_seqZ m h t (n : Z) : 0 <= n ->
  last (omap (fun k => (fun v => (k, v)) <$> m !! k) (seqZ 0 n)) = Some (h, t) ->
  m !! h = Some t /\ 0 <= h < n /\ (forall k, 0 <= k < n -> is_Some (m !! k) -> k <= h).
Proof.
  intros Hn. rewrite <- (Z2Nat.id n) by done. generalize (Z.to_nat n). clear n Hn.
  intros n. induction n as [|n IH]; [done|].
  rewrite seqZ_S, omap_app. simpl. destruct (m !! (0 + Z.of_nat n)) as [v|] eqn:E; simpl.
  - rewrite last_snoc. intros [= <- <-]. split_and!; [done|lia..|]. intros; lia.
  - rewrite app_nil_r. intros (?&?&Hmax)%IH. split_and!; [done|lia..|].
    intros k Hk [x Hx]. apply Hmax; [|eauto].
    destruct (decide (k = Z.of_nat n)) as [->|]; [|lia].
    rewrite Z.add_0_l in E. congruence.
Qed.

(** [rbegin()] is the entry with the highest key. *)
Lemma last_ordered_entries m h t :
  last (ordered_entries m) = Some (h, t) ->
  m !! h = Some t /\ is_u8 h /\ (forall k, is_u8 k -> is_Some (m !! k) -> k <= h).
Proof. apply last_omap_seqZ. lia. Qed.

Lemma last_ordered_entries_None m k :
  last (ordered_entries m) = None -> is_u8 k -> m !! k = None.
Proof.
  intros H%last_None Hk. destruct (m !! k) as [v|] eqn:E; [|done].
  assert ((k, v) ∈ ordered_entries m) as Hin by (by apply elem_of_ordered_entries).
  rewrite H in Hin. by apply not_elem_of_nil in Hin.
Qed.
End Ordered.

(** ** The retransmission scan *)

Section Facts.
Context {A : AsioAddress}.
Implicit Types (r : ReliabilityManager) (info : SentPacketInfo).

(** The three results of a visit. *)
Definition visit_info role cb now info : option SentPacketInfo :=
  (retransmit_visit role cb now info).1.1.
Definition visit_queued role cb now info : list (LumenPacket * endpoint) :=
  (retransmit_visit role cb now info).1.2.
Definition visit_called role cb now info : list rm_call :=
  (retransmit_visit role cb now info).2.

Lemma retransmit_fold role cb now entries : forall sent ps cs,
  NoDup entries.*1 ->
  exists sent', foldl (retransmit_step role cb now) (sent, ps, cs) entries =
    (sent', ps ++ (entries ≫= fun e => visit_queued role cb now e.2),
            cs ++ (entries ≫= fun e => visit_called role cb now e.2)) /\
    (forall k info, (k, info) ∈ entries -> sent' !! k = visit_info role cb now info) /\
    (forall k, k ∉ entries.*1 -> sent' !! k = sent !! k).
Proof.
  induction entries as [|[k0 i0] entries IH]; intros sent ps cs Hnd.
  { exists sent. rewrite !app_nil_r. split_and!; [done| |done].
    by intros ? ? ?%not_elem_of_nil. }
  apply NoDup_cons in Hnd as [Hk0 Hnd]. simpl foldl.
  destruct (retransmit_visit role cb now i0) as [[i' q] c] eqn:E.
  destruct (IH (partial_alter (fun _ => i') k0 sent) (ps ++ q) (cs ++ c) Hnd)
    as (sent' & Hf & Hin & Hout).
  exists sent'. rewrite Hf. split_and!.
  - assert (visit_queued role cb now i0 = q) as Hq by (unfold visit_queued; by rewrite E).
    assert (visit_called role cb now i0 = c) as Hc by (unfold visit_called; by rewrite E).
    cbn [mbind list_bind snd]. by rewrite Hq, Hc, !app_assoc.
  - intros k info [Heq|Hel]%elem_of_cons; [|by apply Hin]. injection Heq as -> ->.
    rewrite Hout by done. rewrite lookup_partial_alter_eq. unfold visit_info. by rewrite E.
  - intros k Hk. simpl in Hk. apply not_elem_of_cons in Hk as [Hne Hk].
    rewrite Hout by done. by rewrite lookup_partial_alter_ne.
Qed.

(** The keys of a map of type [std::map<uint8_t, _>]. *)
Definition u8_keys {V} (m : gmap Z V) : Prop := map_Forall (fun k _ => is_u8 k) m.

(** The scan visits every entry once, in ascending order, and independently. *)
Lemma get_packets_to_retransmit_spec now r : u8_keys (sent_packets_ r) ->
  get_packets_to_retransmit now r =
  (set_sent (omap (visit_info (role_ r) (timeout_callback_ r) now) (sent_packets_ r)) r,
   ordered_entries (sent_packets_ r) ≫=
     (fun e => visit_queued (role_ r) (timeout_callback_ r) now e.2),
   ordered_entries (sent_packets_ r) ≫=
     (fun e => visit_called (role_ r) (timeout_callback_ r) now e.2)).
Proof.
  intros Hk. unfold get_packets_to_retransmit.
  destruct (retransmit_fold (role_ r) (timeout_callback_ r) now
    (ordered_entries (sent_packets_ r)) (sent_packets_ r) [] []) as (sent' & -> & Hin & Hout);
    [apply NoDup_ordered_keys|].
  simpl. do 3 f_equal. apply map_eq. intros k. rewrite lookup_omap.
  destruct (sent_packets_ r !! k) as [info|] eqn:E; simpl.
  - apply Hin, elem_of_ordered_entries. split; [|done]. by eapply Hk.
  - rewrite Hout; [done|]. intros ([k' info] & -> & H)%list_elem_of_fmap.
    apply elem_of_ordered_entries in H as [_ H]. simpl in E. congruence.
Qed.
End Facts.
