(* ===== verification/Retransmission.v ===== *)
(** * Theorems on the reliability manager

    The manager as a machine driven by the calls and timer events of its
    environment: its invariant, the bound on retransmissions, when the rover gives
    up, the gap report, the debouncing of NAKs and the bookkeeping of ACKs. *)
From S2P Require Import Prelude Configs LumenHeader LumenPacket Asio ReliabilityManager.

Section Machine.
Context {A : AsioAddress}.
Implicit Types (r : ReliabilityManager) (info : SentPacketInfo) (entries : list (Z * SentPacketInfo)).

(** ** The machine *)

(** A call of a member function or the completion of a timer wait. *)
Inductive rm_op :=
| OpStart
| OpStop
| OpAddSendPacket (seq : Z) (p : LumenPacket) (to : endpoint)
| OpProcessAck (seq : Z)
| OpProcessNak (seq : Z)
| OpRecordReceived (seq : Z) (sender : endpoint)
| OpRecordNakSent (seq : Z)
| OpRecordAcked (seq : Z) (e : endpoint)
| OpResetState
| OpRetransmitTimer (error : bool)
| OpCleanupTimer (error : bool).

Definition rm_exec (now : Z) (op : rm_op) r : ReliabilityManager * list rm_call :=
  match op with
  | OpStart => start now r
  | OpStop => (stop r, [])
  | OpAddSendPacket seq p to => (add_send_packet now seq p to r, [])
  | OpProcessAck seq => (process_ack seq r, [])
  | OpProcessNak seq => (r, process_nak seq r)
  | OpRecordReceived seq sender => (record_received_sequence now seq sender r, [])
  | OpRecordNakSent seq => (record_nak_sent now seq r, [])
  | OpRecordAcked seq e => (record_acked_sequence seq e r, [])
  | OpResetState => (reset_state r, [])
  | OpRetransmitTimer error => retransmit_timer_completed now error r
  | OpCleanupTimer error => (cleanup_timer_completed now error r, [])
  end.

(** A run: operations at clock readings, and the callback calls they make. *)
Fixpoint rm_run (ops : list (Z * rm_op)) r : ReliabilityManager * list rm_call :=
  match ops with
  | [] => (r, [])
  | (now, op) :: ops' =>
    let '(r', calls) := rm_exec now op r in
    let '(r'', calls') := rm_run ops' r' in
    (r'', calls ++ calls')
  end.

(** The arguments the protocol layer passes: sequence numbers of type [uint8_t],
    and packets stored under the sequence number of their header. *)
Definition op_ok (op : rm_op) : Prop :=
  match op with
  | OpAddSendPacket seq p _ => packet_ok p /\ sequence_ (header_ p) = seq
  | OpProcessAck seq | OpProcessNak seq | OpRecordReceived seq _ | OpRecordNakSent seq
  | OpRecordAcked seq _ => is_u8 seq
  | _ => True
  end.

(** ** The invariant *)

Definition sent_info_ok (seq : Z) info : Prop :=
  packet_ok (packet info) /\ sequence_ (header_ (packet info)) = seq /\
  0 <= retry_count info <= RELIABILITY_MAX_RETRIES.

Record rm_inv r : Prop := {
  inv_sent : map_Forall sent_info_ok (sent_packets_ r);
  inv_acked : map_Forall (fun _ acked => forall seq, seq ∈ acked -> is_u8 seq) (acked_sequences_ r);
  inv_received : map_Forall (fun _ m => u8_keys m) (received_sequences_ r);
  inv_naks : u8_keys (recent_naks_ r);
}.

Lemma sent_info_ok_u8 seq info : sent_info_ok seq info -> is_u8 seq.
Proof. intros (((?&_)&_)&<-&_). done. Qed.

Lemma inv_sent_keys r : rm_inv r -> u8_keys (sent_packets_ r).
Proof. intros [H _ _ _] k info Hk. eapply sent_info_ok_u8, H, Hk. Qed.

(** The parts of the state the invariant constrains. *)
Definition same_maps r r' : Prop :=
  sent_packets_ r' = sent_packets_ r /\ acked_sequences_ r' = acked_sequences_ r /\
  received_sequences_ r' = received_sequences_ r /\ recent_naks_ r' = recent_naks_ r.

Lemma rm_inv_same_maps r r' : same_maps r r' -> rm_inv r -> rm_inv r'.
Proof. intros (E1&E2&E3&E4) [? ? ? ?]. split; by rewrite ?E1, ?E2, ?E3, ?E4. Qed.

Lemma retransmit_visit_ok seq now role cb info info' :
  sent_info_ok seq info -> visit_info role cb now info = Some info' -> sent_info_ok seq info'.
Proof.
  unfold visit_info, retransmit_visit, RELIABILITY_MAX_RETRIES. intros (?&?&?).
  repeat case_match; intros; simplify_eq/=; try done;
    unfold sent_info_ok, RELIABILITY_MAX_RETRIES; simpl; split_and!; (done || lia).
Qed.

Lemma rm_inv_sent r m : rm_inv r -> map_Forall sent_info_ok m -> rm_inv (set_sent m r).
Proof. intros [? ? ? ?] ?. by split. Qed.

Lemma rm_inv_init now base : rm_inv (make_ReliabilityManager now base).
Proof. split; apply map_Forall_empty. Qed.

Lemma rm_inv_empty r : sent_packets_ r = ∅ -> acked_sequences_ r = ∅ ->
  received_sequences_ r = ∅ -> recent_naks_ r = ∅ -> rm_inv r.
Proof. intros E1 E2 E3 E4. split; rewrite ?E1, ?E2, ?E3, ?E4; apply map_Forall_empty. Qed.

Lemma handle_retransmission_timer_inv now r :
  rm_inv r -> rm_inv (handle_retransmission_timer now r).1.
Proof.
  intros Hr. unfold handle_retransmission_timer.
  destruct (running_ r) eqn:Hrun; [|done]. simpl.
  case_bool_decide; [|simpl; rewrite Hrun; by apply (rm_inv_same_maps r)].
  rewrite get_packets_to_retransmit_spec by (by apply inv_sent_keys). simpl. rewrite Hrun. simpl.
  apply (rm_inv_same_maps (set_sent
    (omap (visit_info (role_ r) (timeout_callback_ r) now) (sent_packets_ r)) r)); [done|].
  apply rm_inv_sent; [done|]. intros k info' Hk. rewrite lookup_omap in Hk.
  destruct (sent_packets_ r !! k) as [info|] eqn:E; [|done].
  eapply retransmit_visit_ok; [|exact Hk]. by apply Hr.
Qed.

Lemma cleanup_old_entries_inv now r : rm_inv r -> rm_inv (cleanup_old_entries now r).
Proof.
  intros [H1 H2 H3 H4]. unfold cleanup_old_entries.
  assert (map_Forall (fun _ m => u8_keys m) (cleanup_received now <$> received_sequences_ r)) as H3'.
  { apply map_Forall_fmap. intros k m Hm. specialize (H3 _ _ Hm). simpl.
    intros k' t Hk'. apply map_lookup_filter_Some in Hk' as [Hk' _]. by eapply H3. }
  assert (u8_keys (cleanup_naks now (recent_naks_ r))) as H4'.
  { intros k' t Hk'. apply map_lookup_filter_Some in Hk' as [Hk' _]. by eapply H4. }
  by case_match; split.
Qed.

Lemma handle_cleanup_timer_inv now r : rm_inv r -> rm_inv (handle_cleanup_timer now r).
Proof.
  intros Hr. unfold handle_cleanup_timer. case_match; [done|].
  pose proof (cleanup_old_entries_inv now r Hr).
  case_match; [|done]. by apply (rm_inv_same_maps (cleanup_old_entries now r)).
Qed.

Lemma rm_exec_inv now op r : op_ok op -> rm_inv r -> rm_inv (rm_exec now op r).1.
Proof.
  intros Hop Hr. destruct op; simpl in *.
  - unfold start. case_match; [done|].
    destruct (handle_retransmission_timer _ _) as [r0 calls] eqn:E. simpl.
    apply handle_cleanup_timer_inv. change r0 with (r0, calls).1. rewrite <- E.
    apply handle_retransmission_timer_inv. by apply rm_inv_empty.
  - unfold stop. case_match; [done|]. by apply (rm_inv_same_maps r).
  - destruct Hop as [Hp Hs]. unfold add_send_packet. repeat case_match; try done.
    apply rm_inv_sent; [done|]. apply map_Forall_insert_2; [|apply Hr].
    split_and!; simpl; [done..|lia|unfold RELIABILITY_MAX_RETRIES; lia].
  - unfold process_ack. repeat case_match; try done.
    apply rm_inv_sent; [by apply (rm_inv_same_maps r)|]. apply map_Forall_delete, Hr.
  - done.
  - unfold record_received_sequence. case_match; [done|].
    destruct Hr as [? ? H3 ?]. split; try done. simpl. apply map_Forall_insert_2; [|done].
    apply map_Forall_insert_2; [done|].
    destruct (received_sequences_ r !! _) eqn:E; [by eapply H3|apply map_Forall_empty].
  - destruct Hr as [? ? ? ?]. split; try done. by apply map_Forall_insert_2.
  - unfold record_acked_sequence. case_match; [done|].
    destruct Hr as [? H2 ? ?]. split; try done. simpl. apply map_Forall_insert_2; [|done].
    intros s [->%elem_of_singleton|Hs]%elem_of_union; [done|].
    destruct (acked_sequences_ r !! _) eqn:E; [by eapply H2|set_solver].
  - by apply rm_inv_empty.
  - unfold retransmit_timer_completed. case_match; [|done]. by apply handle_retransmission_timer_inv.
  - unfold cleanup_timer_completed. case_match; [|done]. by apply handle_cleanup_timer_inv.
Qed.

Lemma rm_run_inv ops : forall r, Forall (fun o => op_ok o.2) ops -> rm_inv r -> rm_inv (rm_run ops r).1.
Proof.
  induction ops as [|[now op] ops IH]; intros r Hops Hr; [done|].
  apply Forall_cons in Hops as [Hop Hops]. simpl.
  pose proof (rm_exec_inv now op r Hop Hr). destruct (rm_exec now op r) as [r' calls].
  specialize (IH r' Hops). destruct (rm_run ops r') as [r'' calls']. by apply IH.
Qed.
End Machine.

(** ** Bounded retransmission *)

Section Bounded.
Context {A : AsioAddress}.
Implicit Types (r : ReliabilityManager) (info : SentPacketInfo) (entries : list (Z * SentPacketInfo)).

Definition is_retransmit_of (seq : Z) (c : rm_call) : bool :=
  match c with
  | CallRetransmit p _ => sequence_ (header_ p) =? seq
  | CallTimeout _ => false
  end.

(** How often a list of calls retransmits the packet of a sequence number. *)
Definition retransmits (seq : Z) (calls : list rm_call) : Z :=
  foldr (fun c n => Z.b2z (is_retransmit_of seq c) + n) 0 calls.

(** The retransmissions an entry has left. *)
Definition retries_left (seq : Z) r : Z :=
  match sent_packets_ r !! seq with
  | None => 0
  | Some info => RELIABILITY_MAX_RETRIES - retry_count info
  end.

(** The call adds a packet under the sequence number. *)
Definition adds (seq : Z) (op : rm_op) : Prop :=
  match op with OpAddSendPacket s _ _ => s = seq | _ => False end.

Lemma retransmits_app seq c1 c2 :
  retransmits seq (c1 ++ c2) = retransmits seq c1 + retransmits seq c2.
Proof. induction c1 as [|c c1 IH]; simpl; lia. Qed.

Lemma retransmits_nonneg seq calls : 0 <= retransmits seq calls.
Proof. induction calls as [|c calls IH]; simpl; [lia|]. destruct (is_retransmit_of seq c); simpl; lia. Qed.

Lemma retries_left_nonneg seq r : rm_inv r -> 0 <= retries_left seq r.
Proof.
  intros Hr. unfold retries_left. destruct (sent_packets_ r !! seq) as [info|] eqn:E; [|lia].
  destruct (inv_sent r Hr _ _ E) as (_&_&?). lia.
Qed.

Lemma retransmits_timeouts seq role cb now entries :
  retransmits seq (entries ≫= fun e => visit_called role cb now e.2) = 0.
Proof.
  induction entries as [|[k info] entries IH]; [done|].
  rewrite bind_cons, retransmits_app, IH. simpl.
  unfold visit_called, retransmit_visit. repeat case_match; simplify_eq/=; done.
Qed.

(** The calls of one visit. *)
Lemma retransmits_visit seq k role cb now info : sent_info_ok k info ->
  retransmits seq ((fun pe => CallRetransmit pe.1 pe.2) <$> visit_queued role cb now info) <=
  if k =? seq
  then RELIABILITY_MAX_RETRIES - retry_count info -
       from_option (fun i => RELIABILITY_MAX_RETRIES - retry_count i) 0
         (visit_info role cb now info)
  else 0.
Proof.
  intros (_&Hs&Hr). unfold visit_queued, visit_info, retransmit_visit.
  case_bool_decide; [simpl; unfold retransmits; simpl; destruct (k =? seq); lia|].
  destruct (_ <? _); [|unfold retransmits; simpl; destruct (k =? seq); lia].
  destruct (RELIABILITY_MAX_RETRIES <=? retry_count info) eqn:E;
    [unfold retransmits; simpl; destruct (k =? seq); lia|].
  unfold retransmits. simpl. rewrite Hs. destruct (k =? seq) eqn:Ek; simpl; lia.
Qed.

Lemma retransmits_queued_other seq role cb now entries :
  Forall (fun e => sent_info_ok e.1 e.2) entries -> seq ∉ entries.*1 ->
  retransmits seq ((fun pe => CallRetransmit pe.1 pe.2) <$>
    (entries ≫= fun e => visit_queued role cb now e.2)) = 0.
Proof.
  induction entries as [|[k info] entries IH]; intros Hok Hseq; [done|].
  apply Forall_cons in Hok as [Hk Hok]. simpl in Hseq. apply not_elem_of_cons in Hseq as [Hne Hseq].
  rewrite bind_cons, fmap_app, retransmits_app. simpl.
  rewrite IH by done.
  pose proof (retransmits_visit seq k role cb now info Hk) as Hv.
  replace (k =? seq) with false in Hv by lia.
  pose proof (retransmits_nonneg seq ((fun pe => CallRetransmit pe.1 pe.2) <$>
    visit_queued role cb now info)). lia.
Qed.

Lemma retransmits_queued seq role cb now entries : NoDup entries.*1 ->
  Forall (fun e => sent_info_ok e.1 e.2) entries -> forall info, (seq, info) ∈ entries ->
  retransmits seq ((fun pe => CallRetransmit pe.1 pe.2) <$>
    (entries ≫= fun e => visit_queued role cb now e.2)) <=
  RELIABILITY_MAX_RETRIES - retry_count info -
    from_option (fun i => RELIABILITY_MAX_RETRIES - retry_count i) 0 (visit_info role cb now info).
Proof.
  induction entries as [|[k i0] entries IH]; intros Hnd Hok info Hin;
    [by apply not_elem_of_nil in Hin|].
  apply Forall_cons in Hok as [Hk Hok]. apply NoDup_cons in Hnd as [Hnk Hnd].
  rewrite bind_cons, fmap_app, retransmits_app. simpl.
  pose proof (retransmits_visit seq k role cb now i0 Hk) as Hv.
  apply elem_of_cons in Hin as [Heq|Hin].
  - injection Heq as <- <-. rewrite Z.eqb_refl in Hv. simpl in Hnk.
    pose proof (retransmits_queued_other seq role cb now entries Hok Hnk) as H0.
    lia.
  - assert (k <> seq) as Hne.
    { intros ->. apply Hnk. apply list_elem_of_fmap. by exists (seq, info). }
    replace (k =? seq) with false in Hv by (simpl in *; lia).
    specialize (IH Hnd Hok info Hin). lia.
Qed.

Lemma ordered_entries_ok r : rm_inv r ->
  Forall (fun e => sent_info_ok e.1 e.2) (ordered_entries (sent_packets_ r)).
Proof.
  intros Hr. apply Forall_forall. intros [k info] [_ Hk]%elem_of_ordered_entries.
  by apply (inv_sent r Hr).
Qed.

Lemma role_handle_retransmission_timer now r :
  role_ (handle_retransmission_timer now r).1 = role_ r.
Proof.
  unfold handle_retransmission_timer, get_packets_to_retransmit.
  repeat (case_match; simplify_eq/=; try done).
Qed.

Lemma handle_retransmission_timer_budget seq now r : rm_inv r ->
  retransmits seq (handle_retransmission_timer now r).2 +
    retries_left seq (handle_retransmission_timer now r).1 <= retries_left seq r.
Proof.
  intros Hr. unfold handle_retransmission_timer.
  destruct (running_ r) eqn:Hrun; [|simpl; unfold retransmits; simpl; lia]. simpl.
  case_bool_decide as Hrole;
    [|simpl; rewrite Hrun; unfold retransmits, retries_left; simpl; lia].
  rewrite get_packets_to_retransmit_spec by (by apply inv_sent_keys). simpl. rewrite Hrun. simpl.
  rewrite retransmits_app, retransmits_timeouts.
  unfold retries_left. simpl. rewrite lookup_omap.
  set (entries := ordered_entries (sent_packets_ r)).
  assert (forall q, retransmits seq (if retransmit_callback_ r then q else []) <= retransmits seq q)
    as Hcb by (intros q; destruct (retransmit_callback_ r); [lia|apply retransmits_nonneg]).
  etransitivity; [apply Z.add_le_mono_r, Z.add_le_mono_l, Hcb|].
  destruct (sent_packets_ r !! seq) as [info|] eqn:E; simpl.
  - pose proof (retransmits_queued seq (role_ r) (timeout_callback_ r) now entries
      (NoDup_ordered_keys _) (ordered_entries_ok r Hr) info) as Hq.
    assert ((seq, info) ∈ entries) as Hin.
    { apply elem_of_ordered_entries. split; [|done]. by eapply inv_sent_keys. }
    specialize (Hq Hin). unfold from_option in Hq. case_match; lia.
  - rewrite (retransmits_queued_other seq); [lia|by apply ordered_entries_ok|].
    intros ([k info] & -> & Hin)%list_elem_of_fmap.
    apply elem_of_ordered_entries in Hin as [_ Hin]. simpl in E. congruence.
Qed.

Lemma sent_handle_cleanup_timer now r :
  sent_packets_ (handle_cleanup_timer now r) = sent_packets_ r.
Proof. unfold handle_cleanup_timer, cleanup_old_entries. repeat case_match; done. Qed.

Lemma retries_left_cleanup seq now r : retries_left seq (handle_cleanup_timer now r) = retries_left seq r.
Proof. unfold retries_left. by rewrite sent_handle_cleanup_timer. Qed.

Lemma role_handle_cleanup_timer now r : role_ (handle_cleanup_timer now r) = role_ r.
Proof. unfold handle_cleanup_timer, cleanup_old_entries. repeat case_match; done. Qed.

Lemma role_exec now op r : role_ (rm_exec now op r).1 = role_ r.
Proof.
  destruct op; simpl; unfold start, stop, add_send_packet, process_ack, record_received_sequence,
    record_acked_sequence, retransmit_timer_completed, cleanup_timer_completed;
    try (by repeat case_match); case_match; try done.
  - set (r1 := set_acked ∅ _). pose proof (role_handle_retransmission_timer now r1) as E.
    destruct (handle_retransmission_timer now r1) as [r0 calls]. simpl in *.
    by rewrite role_handle_cleanup_timer.
  - apply role_handle_retransmission_timer.
  - apply role_handle_cleanup_timer.
Qed.

(** One operation spends what it retransmits. *)
Lemma rm_exec_budget seq now op r :
  rm_inv r -> role_ r = ROVER -> ~ adds seq op ->
  retransmits seq (rm_exec now op r).2 + retries_left seq (rm_exec now op r).1 <=
    retries_left seq r.
Proof.
  intros Hr Hrole Hadd. pose proof (retries_left_nonneg seq r Hr) as H0.
  destruct op; simpl in *.
  - unfold start. case_match; [simpl; lia|].
    set (r1 := set_acked ∅ _).
    assert (rm_inv r1) as Hr1 by (by apply rm_inv_empty).
    pose proof (handle_retransmission_timer_budget seq now r1 Hr1).
    destruct (handle_retransmission_timer now r1) as [r2 calls]. simpl in *.
    rewrite retries_left_cleanup. change (retries_left seq r1) with 0 in *. lia.
  - unfold stop. case_match; unfold retries_left in *; simpl; lia.
  - unfold add_send_packet. case_match; [lia|]. case_match; [lia|].
    unfold retries_left in *. simpl. rewrite lookup_insert_ne by done. lia.
  - unfold process_ack. case_match; [lia|]. case_match; [|lia].
    unfold retries_left in *. simpl. rewrite lookup_delete. destruct (decide (seq0 = seq)); lia.
  - unfold process_nak. rewrite Hrole. rewrite bool_decide_false, orb_true_r by done.
    simpl. lia.
  - unfold record_received_sequence. case_match; unfold retries_left in *; simpl; lia.
  - unfold retries_left in *; simpl; lia.
  - unfold record_acked_sequence. case_match; unfold retries_left in *; simpl; lia.
  - change (retries_left seq (reset_state r)) with 0. lia.
  - unfold retransmit_timer_completed. case_match; [|simpl; lia].
    by apply handle_retransmission_timer_budget.
  - unfold cleanup_timer_completed. case_match; [|lia]. rewrite retries_left_cleanup. lia.
Qed.

Lemma rm_run_budget seq ops : forall r,
  Forall (fun o => op_ok o.2 /\ ~ adds seq o.2) ops -> rm_inv r -> role_ r = ROVER ->
  retransmits seq (rm_run ops r).2 <= retries_left seq r.
Proof.
  induction ops as [|[now op] ops IH]; intros r Hops Hr Hrole.
  { simpl. by apply retries_left_nonneg. }
  apply Forall_cons in Hops as [[Hop Hadd] Hops]. simpl in Hop, Hadd. simpl.
  pose proof (rm_exec_budget seq now op r Hr Hrole Hadd) as Hb.
  pose proof (rm_exec_inv now op r Hop Hr) as Hr'.
  pose proof (role_exec now op r) as Hrole'. rewrite Hrole in Hrole'.
  destruct (rm_exec now op r) as [r' calls]. simpl in *. specialize (IH r' Hops Hr' Hrole').
  destruct (rm_run ops r') as [r'' calls']. simpl in *. rewrite retransmits_app. lia.
Qed.
End Bounded.

(** ** The timer event of a running rover *)

Section Timer.
Context {A : AsioAddress}.
Implicit Types (r : ReliabilityManager) (info : SentPacketInfo).

(** The backoff of an entry, in milliseconds. *)
Definition backoff info : Z := RELIABILITY_BASE_TIMEOUT * Z.shiftl 1 (retry_count info).

Definition running_rover r : Prop := running_ r = true /\ role_ r = ROVER.

Lemma rover_timer_spec now r : rm_inv r -> running_rover r ->
  exists r' calls, retransmit_timer_completed now false r = (r', calls) /\
    sent_packets_ r' = omap (visit_info ROVER (timeout_callback_ r) now) (sent_packets_ r) /\
    running_rover r' /\ timeout_callback_ r' = timeout_callback_ r /\
    retransmit_callback_ r' = retransmit_callback_ r /\
    calls = (ordered_entries (sent_packets_ r) ≫=
        fun e => visit_called ROVER (timeout_callback_ r) now e.2) ++
      (if retransmit_callback_ r
       then (fun pe => CallRetransmit pe.1 pe.2) <$> (ordered_entries (sent_packets_ r) ≫=
         fun e => visit_queued ROVER (timeout_callback_ r) now e.2)
       else []).
Proof.
  intros Hr [Hrun Hrole]. unfold retransmit_timer_completed, handle_retransmission_timer.
  rewrite Hrun, Hrole. simpl.
  rewrite get_packets_to_retransmit_spec, Hrole by (by apply inv_sent_keys). simpl. rewrite Hrun.
  eexists _, _. split; [reflexivity|]. done.
Qed.

Lemma elem_of_entries_bind {B} (f : SentPacketInfo -> list B) (m : gmap Z SentPacketInfo) x :
  u8_keys m ->
  x ∈ (ordered_entries m ≫= fun e => f e.2) <-> exists k info, m !! k = Some info /\ x ∈ f info.
Proof.
  intros Hm. rewrite list_elem_of_bind. split.
  - intros ([k info] & Hx & [_ Hk]%elem_of_ordered_entries). eauto.
  - intros (k & info & Hk & Hx). exists (k, info). split; [done|].
    apply elem_of_ordered_entries. split; [by eapply Hm|done].
Qed.

Lemma visit_called_timeouts p e role cb now info :
  CallRetransmit p e ∉ visit_called role cb now info.
Proof.
  unfold visit_called, retransmit_visit.
  destruct (bool_decide _); [apply not_elem_of_nil|].
  destruct (_ <? _); [|apply not_elem_of_nil].
  destruct (_ <=? _); [|apply not_elem_of_nil]. simpl.
  destruct (_ && _); [|apply not_elem_of_nil].
  by intros H%list_elem_of_singleton.
Qed.

(** Which calls a timer event makes. *)
Lemma rover_timer_retransmits now r r' calls p e : rm_inv r -> running_rover r ->
  retransmit_timer_completed now false r = (r', calls) ->
  CallRetransmit p e ∈ calls <->
  retransmit_callback_ r = true /\
  exists k info, sent_packets_ r !! k = Some info /\ packet info = p /\ recipient info = e /\
    backoff info < elapsed_ms now (sent_time info) /\ retry_count info < RELIABILITY_MAX_RETRIES.
Proof.
  intros Hr Hrun Hc. destruct (rover_timer_spec now r Hr Hrun) as (r1 & c1 & E & _&_&_&_& ->).
  rewrite Hc in E. injection E as <- ->. pose proof (inv_sent_keys r Hr) as Hk.
  rewrite elem_of_app. split.
  - intros [H|H].
    { apply elem_of_entries_bind in H as (k & info & _ & H); [|done].
      by apply visit_called_timeouts in H. }
    destruct (retransmit_callback_ r); [split; [done|]|by apply not_elem_of_nil in H].
    apply list_elem_of_fmap in H as ([p' e'] & Heq & H). injection Heq as -> ->.
    apply elem_of_entries_bind in H as (k & info & Hi & H); [|done].
    unfold visit_queued, retransmit_visit in H. simpl in H. fold (backoff info) in H.
    destruct (backoff info <? _) eqn:E1; [|by apply not_elem_of_nil in H].
    destruct (RELIABILITY_MAX_RETRIES <=? _) eqn:E2; [by apply not_elem_of_nil in H|].
    apply list_elem_of_singleton in H. injection H as -> ->. exists k, info. split_and!; (done || lia).
  - intros (-> & k & info & Hi & <- & <- & Hto & Hmax). right.
    apply list_elem_of_fmap. exists (packet info, recipient info). split; [done|].
    apply elem_of_entries_bind; [done|]. exists k, info. split; [done|].
    unfold visit_queued, retransmit_visit. simpl. fold (backoff info).
    replace (backoff info <? _) with true by lia.
    replace (RELIABILITY_MAX_RETRIES <=? _) with false by lia. by left.
Qed.

(** What a timer event makes of an entry whose backoff is over. *)
Lemma rover_timer_overdue now r r' calls k info : rm_inv r -> running_rover r ->
  retransmit_timer_completed now false r = (r', calls) ->
  sent_packets_ r !! k = Some info -> backoff info < elapsed_ms now (sent_time info) ->
  (retry_count info < RELIABILITY_MAX_RETRIES /\ sent_packets_ r' !! k =
     Some (mkSentPacketInfo (packet info) now (retry_count info + 1) (recipient info))) \/
  (retry_count info = RELIABILITY_MAX_RETRIES /\ sent_packets_ r' !! k = None /\
     (timeout_callback_ r = true -> ep_port (recipient info) = 9000 ->
      CallTimeout (recipient info) ∈ calls)).
Proof.
  intros Hr Hrun Hc Hk Hto. destruct (rover_timer_spec now r Hr Hrun) as (r1 & c1 & E & Hs &_&_&_& ->).
  rewrite Hc in E. injection E as <- ->. rewrite Hs, lookup_omap, Hk. simpl.
  destruct (inv_sent r Hr _ _ Hk) as (_&_&Hrc).
  unfold visit_info, retransmit_visit. simpl. fold (backoff info).
  replace (backoff info <? _) with true by lia.
  destruct (RELIABILITY_MAX_RETRIES <=? retry_count info) eqn:E; [right|left; split; [lia|done]].
  split_and!; [lia|done|]. intros Hcb Hport. apply elem_of_app. left.
  apply elem_of_entries_bind; [by apply inv_sent_keys|]. exists k, info. split; [done|].
  unfold visit_called, retransmit_visit. simpl. fold (backoff info).
  replace (backoff info <? _) with true by lia. rewrite E, Hcb, Hport. by left.
Qed.

Lemma rover_timer_lookup now r r' calls k info' : rm_inv r -> running_rover r ->
  retransmit_timer_completed now false r = (r', calls) ->
  sent_packets_ r' !! k = Some info' -> exists info, sent_packets_ r !! k = Some info /\
    visit_info ROVER (timeout_callback_ r) now info = Some info'.
Proof.
  intros Hr Hrun Hc Hk. destruct (rover_timer_spec now r Hr Hrun) as (r1 & c1 & E & Hs &_).
  rewrite Hc in E. injection E as <- ->. rewrite Hs, lookup_omap in Hk.
  destruct (sent_packets_ r !! k) as [info|]; [by exists info|done].
Qed.

Lemma backoff_bound k info : sent_info_ok k info -> backoff info <= 20000.
Proof.
  unfold sent_info_ok, backoff, RELIABILITY_MAX_RETRIES, RELIABILITY_BASE_TIMEOUT.
  intros (_&_&H). assert (retry_count info = 0 \/ retry_count info = 1 \/ retry_count info = 2)
    as [-> | [-> | ->]] by lia; by vm_compute.
Qed.

(** Every entry is at least [n] retries old, and last sent at most at [t]. *)
Definition aged (n t : Z) r : Prop :=
  map_Forall (fun _ info => n <= retry_count info /\ sent_time info <= t) (sent_packets_ r).

Lemma elapsed_ms_mono now t1 t2 : t2 <= t1 -> elapsed_ms now t1 <= elapsed_ms now t2.
Proof. intros H. unfold elapsed_ms. apply Z.quot_le_mono; lia. Qed.

Lemma rover_timer_aged n t now r r' calls : rm_inv r -> running_rover r ->
  retransmit_timer_completed now false r = (r', calls) ->
  aged n t r -> 20000 < elapsed_ms now t -> aged (n + 1) now r'.
Proof.
  intros Hr Hrun Hc Hag Ht k info' Hk.
  destruct (rover_timer_lookup _ _ _ _ _ _ Hr Hrun Hc Hk) as (info & Hi & _).
  destruct (Hag _ _ Hi) as [Hn Hle].
  pose proof (backoff_bound _ _ (inv_sent r Hr _ _ Hi)). pose proof (elapsed_ms_mono now _ _ Hle).
  destruct (rover_timer_overdue now r r' calls k info Hr Hrun Hc Hi) as [[_ E]|(_&E&_)]; [lia|..];
    rewrite Hk in E; [|done].
  injection E as ->. simpl. lia.
Qed.

(** An overdue packet either stays, for the same recipient, or times out. *)
Lemma rover_timer_track t now r r' calls k info : rm_inv r -> running_rover r ->
  retransmit_timer_completed now false r = (r', calls) -> timeout_callback_ r = true ->
  aged 0 t r -> 20000 < elapsed_ms now t ->
  sent_packets_ r !! k = Some info -> ep_port (recipient info) = 9000 ->
  CallTimeout (recipient info) ∈ calls \/
  exists info', sent_packets_ r' !! k = Some info' /\ recipient info' = recipient info.
Proof.
  intros Hr Hrun Hc Hcb Hag Ht Hk Hport. destruct (Hag _ _ Hk) as [_ Hle].
  pose proof (backoff_bound _ _ (inv_sent r Hr _ _ Hk)). pose proof (elapsed_ms_mono now _ _ Hle).
  destruct (rover_timer_overdue now r r' calls k info Hr Hrun Hc Hk) as [[_ E]|(_&_&E)]; [lia|..].
  - right. by eexists.
  - left. by apply E.
Qed.

Lemma rover_timer_callback now r r' calls : rm_inv r -> running_rover r ->
  retransmit_timer_completed now false r = (r', calls) -> timeout_callback_ r' = timeout_callback_ r.
Proof.
  intros Hr Hrun Hc. destruct (rover_timer_spec now r Hr Hrun) as (r1 & c1 & E & _ & _ & ? & _).
  rewrite Hc in E. by injection E as <- ->.
Qed.

Lemma aged_weaken n m t r : m <= n -> aged n t r -> aged m t r.
Proof. intros Hm Hag k info Hk. destruct (Hag _ _ Hk). lia. Qed.

Lemma aged_3_empty t r : rm_inv r -> aged 3 t r -> sent_packets_ r = ∅.
Proof.
  intros Hr Hag. apply map_empty. intros k. destruct (sent_packets_ r !! k) as [info|] eqn:E; [|done].
  destruct (inv_sent r Hr _ _ E) as (_&_&H). destruct (Hag _ _ E).
  unfold RELIABILITY_MAX_RETRIES in H. lia.
Qed.

Lemma rover_timer_inv now r r' calls : rm_inv r -> running_rover r ->
  retransmit_timer_completed now false r = (r', calls) -> rm_inv r' /\ running_rover r'.
Proof.
  intros Hr Hrun Hc. split.
  - pose proof (rm_exec_inv now (OpRetransmitTimer false) r I Hr) as H. simpl in H. by rewrite Hc in H.
  - destruct (rover_timer_spec now r Hr Hrun) as (r1 & c1 & E & _ & ? & _).
    rewrite Hc in E. by injection E as <- ->.
Qed.

(** ** Gaps *)

Lemma elem_of_missing_in_window h m s :
  s ∈ missing_in_window h m <-> m !! s = None /\ exists i, 1 <= i <= 16 /\ s = u8 (h - i).
Proof.
  unfold missing_in_window. rewrite list_elem_of_filter, list_elem_of_fmap. split.
  - intros [Hm (i & -> & Hi%elem_of_seqZ)]. unfold WINDOW_SIZE in Hi. split; [done|].
    exists i. split; [lia|done].
  - intros [Hm (i & Hi & ->)]. split; [done|]. exists i. split; [done|].
    apply elem_of_seqZ. unfold WINDOW_SIZE. lia.
Qed.

Lemma NoDup_missing_in_window h m : NoDup (missing_in_window h m).
Proof.
  apply NoDup_filter, NoDup_fmap_2_strong; [|apply NoDup_seqZ].
  intros i j Hi%elem_of_seqZ Hj%elem_of_seqZ. unfold WINDOW_SIZE, u8 in *.
  Z.to_euclidean_division_equations; lia.
Qed.

Lemma length_missing_in_window h m : (length (missing_in_window h m) <= 16)%nat.
Proof.
  unfold missing_in_window. etransitivity; [apply length_filter|].
  by rewrite length_fmap, length_seqZ.
Qed.

(** ** The base station keeps what it sent *)

(** The calls that clear the map of sent packets. *)
Definition clears (op : rm_op) : Prop :=
  match op with OpStart | OpResetState => True | _ => False end.

Lemma base_exec_keeps now op r s info : role_ r = BASE_STATION -> ~ clears op ->
  sent_packets_ r !! s = Some info -> sent_packets_ (rm_exec now op r).1 !! s = Some info.
Proof.
  intros Hrole Hop Hs. destruct op; simpl in *; try done.
  - unfold stop. by case_match.
  - unfold add_send_packet. case_match; [done|]. case_match; [done|]. simpl.
    rewrite lookup_insert_ne; [done|]. intros ->. congruence.
  - unfold process_ack. rewrite Hrole. by rewrite bool_decide_false, orb_true_r by done.
  - unfold record_received_sequence. by case_match.
  - unfold record_acked_sequence. by case_match.
  - unfold retransmit_timer_completed, handle_retransmission_timer. case_match; [|done].
    rewrite Hrole. case_match; [done|]. simpl. by case_match.
  - unfold cleanup_timer_completed. case_match; [|done]. by rewrite sent_handle_cleanup_timer.
Qed.

Lemma base_run_keeps ops s info : forall r, role_ r = BASE_STATION ->
  Forall (fun o => ~ clears o.2) ops -> sent_packets_ r !! s = Some info ->
  sent_packets_ (rm_run ops r).1 !! s = Some info /\ role_ (rm_run ops r).1 = BASE_STATION.
Proof.
  induction ops as [|[now op] ops IH]; intros r Hrole Hops Hs; [done|].
  apply Forall_cons in Hops as [Hop Hops]. simpl in *.
  pose proof (base_exec_keeps now op r s info Hrole Hop Hs) as Hs'.
  pose proof (role_exec now op r) as Hr'.
  destruct (rm_exec now op r) as [r' calls]. simpl in *. rewrite Hrole in Hr'.
  specialize (IH r' Hr' Hops Hs'). by destruct (rm_run ops r').
Qed.
End Timer.

(** ** Debouncing and acknowledgement lookups *)

Section Ledger.
Context `{AL : AsioAddressLaws}.
Implicit Types r : ReliabilityManager.

Lemma is_recently_naked_record now t s s' r :
  is_recently_naked now s (record_nak_sent t s' r) =
  if bool_decide (s = s') then elapsed_ms now t <? NAK_DEBOUNCE_TIME
  else is_recently_naked now s r.
Proof.
  unfold is_recently_naked, record_nak_sent. simpl. case_bool_decide as E.
  - by rewrite E, lookup_insert_eq.
  - by rewrite lookup_insert_ne.
Qed.

Lemma naks_cleanup now r :
  recent_naks_ (cleanup_old_entries now r) = cleanup_naks now (recent_naks_ r).
Proof. unfold cleanup_old_entries. by case_match. Qed.

Lemma elapsed_ms_le t now u : t <= now -> elapsed_ms t u <= elapsed_ms now u.
Proof. intros H. unfold elapsed_ms. apply Z.quot_le_mono; lia. Qed.

(** Dropping an old NAK record never changes an answer. *)
Lemma is_recently_naked_cleanup now t s r : t <= now ->
  is_recently_naked now s (cleanup_old_entries t r) = is_recently_naked now s r.
Proof.
  intros Ht. unfold is_recently_naked. rewrite naks_cleanup. unfold cleanup_naks.
  rewrite map_lookup_filter. destruct (recent_naks_ r !! s) as [u|]; simpl; [|done].
  case_guard as H; simpl; [done|]. pose proof (elapsed_ms_le t now u Ht).
  unfold NAK_DEBOUNCE_TIME in *. simpl in H. symmetry. apply Z.ltb_ge. lia.
Qed.

Lemma has_acked_default s e r : role_ r = BASE_STATION ->
  has_acked_sequence s e r =
  bool_decide (s ∈ default ∅ (acked_sequences_ r !! get_endpoint_key e)).
Proof.
  intros Hrole. unfold has_acked_sequence. rewrite Hrole. simpl.
  by destruct (acked_sequences_ r !! _).
Qed.

Lemma has_acked_record s e s' e' r : role_ r = BASE_STATION -> endpoint_ok e -> endpoint_ok e' ->
  has_acked_sequence s e (record_acked_sequence s' e' r) =
  bool_decide (s = s' /\ e = e') || has_acked_sequence s e r.
Proof.
  intros Hrole He He'. unfold record_acked_sequence. rewrite Hrole. simpl.
  rewrite !has_acked_default by done. simpl. destruct (decide (e = e')) as [<-|Hne].
  - rewrite lookup_insert_eq, <- bool_decide_or. simpl. apply bool_decide_ext.
    rewrite elem_of_union, elem_of_singleton. tauto.
  - rewrite lookup_insert_ne by (intros Hk; apply Hne; symmetry; by apply get_endpoint_key_inj).
    by rewrite (bool_decide_false (s = s' /\ e = e')) by tauto.
Qed.

Lemma has_acked_cleanup now s e r :
  has_acked_sequence s e (cleanup_old_entries now r) =
  if last_ack_cleanup_time_ r + ms (CLEANUP_INTERVAL * 2) <? now then false
  else has_acked_sequence s e r.
Proof.
  unfold cleanup_old_entries, has_acked_sequence. simpl.
  destruct (_ <? now); simpl; [|done]. by destruct (negb _).
Qed.
End Ledger.

(** ** The claims *)

Section Claims.
Context `{AL : AsioAddressLaws}.
Implicit Types r : ReliabilityManager.

(** C6: whatever the environment does to a manager, in whatever order, starting
    from construction: every map is keyed by [uint8_t] values, every packet kept
    for retransmission is well formed and stored under its own sequence number,
    and its retry count stays between 0 and [RELIABILITY_MAX_RETRIES], so the
    shift that computes the backoff never overflows. *)
Theorem reliability_invariant ops now base :
  Forall (fun o => op_ok o.2) ops -> rm_inv (rm_run ops (make_ReliabilityManager now base)).1.
Proof. intros Hops. apply rm_run_inv; [done|apply rm_inv_init]. Qed.

(** C3: a rover retransmits a packet at most [RELIABILITY_MAX_RETRIES] times
    before its sequence number is used again, whatever else happens; and once the
    packet is acknowledged it is not retransmitted at all. *)
Theorem retransmission_bounded now seq p to ops r :
  rm_inv r -> running_rover r -> packet_ok p -> sequence_ (header_ p) = seq ->
  Forall (fun o => op_ok o.2 /\ ~ adds seq o.2) ops ->
  retransmits seq (rm_run ops (add_send_packet now seq p to r)).2 <= RELIABILITY_MAX_RETRIES /\
  retransmits seq (rm_run ops (process_ack seq r)).2 = 0.
Proof.
  intros Hr [Hrun Hrole] Hp Hs Hops. split.
  - pose proof (rm_exec_inv now (OpAddSendPacket seq p to) r (conj Hp Hs) Hr) as Hr1.
    pose proof (role_exec now (OpAddSendPacket seq p to) r) as Hrole1. simpl in *.
    etransitivity; [apply rm_run_budget; [done..|congruence]|].
    unfold retries_left. destruct (sent_packets_ _ !! seq) as [info|] eqn:E; [|by vm_compute].
    destruct (inv_sent _ Hr1 _ _ E) as (_&_&?). lia.
  - assert (is_u8 seq) as Hseq by (destruct Hp as ((?&_)&_); by subst).
    pose proof (rm_exec_inv now (OpProcessAck seq) r Hseq Hr) as Hr1.
    pose proof (role_exec now (OpProcessAck seq) r) as Hrole1. simpl in *.
    pose proof (rm_run_budget seq ops (process_ack seq r) Hops Hr1) as Hb.
    rewrite Hrole1 in Hb. specialize (Hb Hrole).
    assert (retries_left seq (process_ack seq r) = 0) as H0.
    { unfold process_ack, retries_left. rewrite Hrun, Hrole. simpl.
      destruct (sent_packets_ r !! seq) eqn:E; simpl; [by rewrite lookup_delete_eq|by rewrite E]. }
    pose proof (retransmits_nonneg seq (rm_run ops (process_ack seq r)).2). lia.
Qed.

(** C5: a retransmission timer event of a running rover hands a packet to the
    retransmit callback exactly when the callback is set, the packet is waiting
    with retries left, and more than [RELIABILITY_BASE_TIMEOUT * 2^retry_count]
    milliseconds have passed since it was last sent. *)
Theorem retransmission_backoff now r p e :
  rm_inv r -> running_rover r ->
  CallRetransmit p e ∈ (retransmit_timer_completed now false r).2 <->
  retransmit_callback_ r = true /\
  exists k info, sent_packets_ r !! k = Some info /\ packet info = p /\ recipient info = e /\
    RELIABILITY_BASE_TIMEOUT * 2 ^ retry_count info < elapsed_ms now (sent_time info) /\
    retry_count info < RELIABILITY_MAX_RETRIES.
Proof.
  intros Hr Hrun. destruct (retransmit_timer_completed now false r) as [r' calls] eqn:E.
  simpl. rewrite (rover_timer_retransmits now r r' calls p e Hr Hrun E).
  apply and_iff_compat_l. split; intros (k & info & Hk & ? & ? & Hb & ?);
    (exists k, info; split_and!; try done;
     destruct (inv_sent r Hr _ _ Hk) as (_&_&?);
     unfold backoff in *; rewrite Z.shiftl_mul_pow2, Z.mul_1_l in * by lia; done).
Qed.

(** C4: a rover gives up: three retransmission timer events, the first more than
    twenty seconds after every packet was last sent and each more than twenty
    seconds after the one before, leave no packet waiting, and the timeout callback
    has been called for every packet that waited for the port of the base. *)
Theorem rover_gives_up t0 t1 t2 t3 r :
  rm_inv r -> running_rover r -> timeout_callback_ r = true ->
  map_Forall (fun _ info => sent_time info <= t0) (sent_packets_ r) ->
  20000 < elapsed_ms t1 t0 -> 20000 < elapsed_ms t2 t1 -> 20000 < elapsed_ms t3 t2 ->
  let run := rm_run ((fun t => (t, OpRetransmitTimer false)) <$> [t1; t2; t3]) r in
  sent_packets_ run.1 = ∅ /\
  forall k info, sent_packets_ r !! k = Some info -> ep_port (recipient info) = 9000 ->
    CallTimeout (recipient info) ∈ run.2.
Proof.
  intros Hr Hrun Hcb Hall H1 H2 H3. simpl.
  destruct (retransmit_timer_completed t1 false r) as [r1 c1] eqn:E1.
  destruct (retransmit_timer_completed t2 false r1) as [r2 c2] eqn:E2.
  destruct (retransmit_timer_completed t3 false r2) as [r3 c3] eqn:E3.
  destruct (rover_timer_inv _ _ _ _ Hr Hrun E1) as [Hr1 Hrun1].
  destruct (rover_timer_inv _ _ _ _ Hr1 Hrun1 E2) as [Hr2 Hrun2].
  destruct (rover_timer_inv _ _ _ _ Hr2 Hrun2 E3) as [Hr3 Hrun3].
  assert (aged 0 t0 r) as A0.
  { intros k info Hk. destruct (inv_sent r Hr _ _ Hk) as (_&_&?). split; [lia|by eapply Hall]. }
  pose proof (rover_timer_aged _ _ _ _ _ _ Hr Hrun E1 A0 H1) as A1.
  pose proof (rover_timer_aged _ _ _ _ _ _ Hr1 Hrun1 E2 A1 H2) as A2.
  pose proof (rover_timer_aged _ _ _ _ _ _ Hr2 Hrun2 E3 A2 H3) as A3.
  pose proof (rover_timer_callback _ _ _ _ Hr Hrun E1) as B1.
  pose proof (rover_timer_callback _ _ _ _ Hr1 Hrun1 E2) as B2.
  assert (sent_packets_ r3 = ∅) as Hempty by (by apply (aged_3_empty t3)).
  simpl. split; [done|]. intros k info Hk Hport. rewrite !elem_of_app.
  destruct (rover_timer_track _ _ _ _ _ _ _ Hr Hrun E1 Hcb A0 H1 Hk Hport) as [?|(i1&K1&R1)];
    [by left|right]. rewrite <- R1 in *.
  destruct (rover_timer_track _ _ _ _ _ _ _ Hr1 Hrun1 E2 ltac:(congruence)
    (aged_weaken 1 0 t1 r1 ltac:(lia) A1) H2 K1 Hport) as [?|(i2&K2&R2)];
    [by left|right]. rewrite <- R2 in *.
  destruct (rover_timer_track _ _ _ _ _ _ _ Hr2 Hrun2 E3 ltac:(congruence)
    (aged_weaken 2 0 t2 r2 ltac:(lia) A2) H3 K2 Hport) as [?|(i3&K3&_)]; [by left|].
  rewrite Hempty in K3. done.
Qed.

(** C26: [get_missing_sequences] of a rover reports a number exactly when it is one
    of the sixteen numbers before the highest number on record for the sender,
    counted modulo 256, and is not on record itself; no number is reported twice,
    and nothing is reported for a sender without records. *)
Theorem missing_sequences_spec sender r m :
  role_ r = ROVER -> received_sequences_ r !! get_endpoint_key sender = Some m -> u8_keys m ->
  NoDup (get_missing_sequences sender r) /\
  (m = ∅ -> get_missing_sequences sender r = []) /\
  (forall h, is_Some (m !! h) -> (forall k, is_Some (m !! k) -> k <= h) -> forall s,
    s ∈ get_missing_sequences sender r <->
    m !! s = None /\ exists i, 1 <= i <= 16 /\ s = u8 (h - i)).
Proof.
  intros Hrole Hm Hkeys. unfold get_missing_sequences. rewrite Hrole, Hm. simpl.
  destruct (last (ordered_entries m)) as [[h t]|] eqn:E.
  - apply last_ordered_entries in E as (Hh & Hu8 & Hmax). split_and!.
    + apply NoDup_missing_in_window.
    + intros ->. done.
    + intros h' [t' Hh'] Hmax' s. replace h' with h; [apply elem_of_missing_in_window|].
      apply Z.le_antisymm; [apply Hmax'; eauto|].
      apply Hmax; [by eapply Hkeys|eauto].
  - split_and!; [constructor|done|]. intros h [t Hh] _ s.
    rewrite (last_ordered_entries_None m h E) in Hh by (by eapply Hkeys). done.
Qed.

(** NAKs are debounced per sequence number: after a NAK recorded at [t] the
    number counts as recently requested for exactly [NAK_DEBOUNCE_TIME]
    milliseconds, other numbers are unaffected, and the periodic cleanup of old
    records never changes the answer. *)
Theorem nak_debounce now t s s' r :
  is_recently_naked now s (record_nak_sent t s' r) =
    (if bool_decide (s = s') then elapsed_ms now t <? NAK_DEBOUNCE_TIME
     else is_recently_naked now s r) /\
  (t <= now -> is_recently_naked now s (cleanup_old_entries t r) = is_recently_naked now s r).
Proof. split; [apply is_recently_naked_record|apply is_recently_naked_cleanup]. Qed.

(** the base station's record of acknowledged numbers is kept per endpoint:
    recording a number changes the answer for that number and endpoint alone, and
    a cleanup changes no answer until [2 * CLEANUP_INTERVAL] after the last
    clearing, when it forgets all of them. *)
Theorem acked_ledger now s e s' e' r :
  role_ r = BASE_STATION -> endpoint_ok e -> endpoint_ok e' ->
  has_acked_sequence s e (record_acked_sequence s' e' r) =
    bool_decide (s = s' /\ e = e') || has_acked_sequence s e r /\
  has_acked_sequence s e (cleanup_old_entries now r) =
    (negb (last_ack_cleanup_time_ r + ms (CLEANUP_INTERVAL * 2) <? now) &&
     has_acked_sequence s e r).
Proof.
  intros Hrole He He'. split; [by apply has_acked_record|].
  rewrite has_acked_cleanup. by destruct (_ <? now).
Qed.

(** C27: the base station never forgets a packet it sent, and [add_send_packet] does
    not replace one: once the sequence numbers have wrapped around, a NAK for a
    number retransmits the packet first sent under it, not the latest one, until
    the manager is reset. *)
Theorem base_retransmits_stale now seq old new to ops r :
  running_ r = true -> role_ r = BASE_STATION -> retransmit_callback_ r = true ->
  sent_packets_ r !! seq = Some old ->
  Forall (fun o => ~ clears o.2) ops ->
  let r' := (rm_run ops (add_send_packet now seq new to r)).1 in
  running_ r' = true -> retransmit_callback_ r' = true ->
  process_nak seq r' = [CallRetransmit (packet old) (recipient old)].
Proof.
  intros Hrun Hrole Hcb Hold Hops r' Hrun' Hcb'.
  assert (sent_packets_ (add_send_packet now seq new to r) !! seq = Some old /\
    role_ (add_send_packet now seq new to r) = BASE_STATION) as [H1 H2]
    by (unfold add_send_packet; rewrite Hrun, Hold; done).
  destruct (base_run_keeps ops seq old _ H2 Hops H1) as [Hs Hr]. fold r' in Hs, Hr.
  unfold process_nak. by rewrite Hrun', Hr, Hs, Hcb'.
Qed.
End Claims.

(** ** The claims at concrete managers *)

Section Witnesses.
Import Ipv4.

(** Running managers with both callbacks set, without and with a packet waiting. *)
Definition sample_manager (base : bool) : ReliabilityManager :=
  mkReliabilityManager ∅ ∅ ∅ ∅ (mkTimer 0 true) (mkTimer 0 true) true true
    (if base then BASE_STATION else ROVER) 0 true 0.

Definition sample_info : SentPacketInfo := mkSentPacketInfo sample_packet 0 0 base_ep.

Definition sample_waiting (base : bool) : ReliabilityManager :=
  set_sent {[7 := sample_info]} (sample_manager base).

Lemma sample_packet_ok : packet_ok sample_packet.
Proof. by apply (bool_decide_eq_true_1 _); vm_compute. Qed.

Lemma sample_manager_inv base : rm_inv (sample_manager base).
Proof. by apply rm_inv_empty. Qed.

Lemma sample_waiting_inv base : rm_inv (sample_waiting base).
Proof.
  apply rm_inv_sent; [apply sample_manager_inv|]. apply map_Forall_singleton.
  split; [apply sample_packet_ok|]. by split.
Qed.

Lemma reliability_invariant_witness :
  rm_inv (rm_run [(0, OpStart); (1, OpAddSendPacket 7 sample_packet base_ep);
    (ms 6000, OpRetransmitTimer false); (ms 7000, OpProcessAck 7)]
    (make_ReliabilityManager 0 false)).1.
Proof.
  apply reliability_invariant. repeat constructor; apply sample_packet_ok || done.
Defined.

Lemma retransmission_bounded_witness :
  retransmits 7 (rm_run ((fun t => (ms (t * 21000), OpRetransmitTimer false)) <$> [1; 2; 3; 4])
    (add_send_packet 0 7 sample_packet base_ep (sample_manager false))).2 <= 2 /\
  retransmits 7 (rm_run ((fun t => (ms (t * 21000), OpRetransmitTimer false)) <$> [1; 2; 3; 4])
    (process_ack 7 (sample_manager false))).2 = 0.
Proof.
  apply retransmission_bounded; [apply sample_manager_inv|done|apply sample_packet_ok|done|].
  repeat constructor; done || (intros []).
Defined.

Lemma retransmission_backoff_witness :
  CallRetransmit sample_packet base_ep ∈
    (retransmit_timer_completed (ms 5001) false (sample_waiting false)).2.
Proof.
  apply (retransmission_backoff (ms 5001) (sample_waiting false));
    [apply sample_waiting_inv|done|].
  split; [done|]. exists 7, sample_info. by vm_compute.
Defined.

Lemma rover_gives_up_witness :
  let run := rm_run ((fun t => (t, OpRetransmitTimer false)) <$> [ms 21000; ms 42000; ms 63000])
    (sample_waiting false) in
  sent_packets_ run.1 = ∅ /\ CallTimeout base_ep ∈ run.2.
Proof.
  destruct (rover_gives_up 0 (ms 21000) (ms 42000) (ms 63000) (sample_waiting false)) as [H1 H2];
    [apply sample_waiting_inv|done|done| |by vm_compute..|].
  - by apply map_Forall_singleton.
  - split; [exact H1|]. by apply (H2 7 sample_info).
Defined.

Lemma missing_sequences_spec_witness :
  let r := record_received_sequence 0 3 base_ep
    (record_received_sequence 0 1 base_ep (sample_manager false)) in
  2 ∈ get_missing_sequences base_ep r.
Proof.
  intros r.
  destruct (missing_sequences_spec base_ep r (<[3 := 0]> (<[1 := 0]> ∅))) as (_ & _ & H).
  - done.
  - by vm_compute.
  - repeat (apply map_Forall_insert_2; [done|]). apply map_Forall_empty.
  - apply (H 3); [by eexists|..].
    + intros k [x Hx]. apply lookup_insert_Some in Hx as [[<- _]|[_ Hx]]; [done|].
      apply lookup_insert_Some in Hx as [[<- _]|[_ Hx]]; [lia|done].
    + split; [done|]. by exists 1.
Defined.

Lemma nak_debounce_witness :
  is_recently_naked (ms 999) 4 (cleanup_old_entries (ms 5) (sample_manager false)) =
  is_recently_naked (ms 999) 4 (sample_manager false).
Proof. apply (nak_debounce (ms 999) (ms 5) 4 4). by vm_compute. Defined.

Lemma acked_ledger_witness :
  has_acked_sequence 9 rover_ep (record_acked_sequence 9 rover_ep (sample_manager true)) =
  bool_decide (9 = 9 /\ rover_ep = rover_ep) || has_acked_sequence 9 rover_ep (sample_manager true).
Proof. apply (acked_ledger 0); done. Defined.

Lemma base_retransmits_stale_witness :
  process_nak 7 (rm_run [] (add_send_packet (ms 1) 7
    (make_packet (mkLumenHeader CMD HIGH 7 99 0) [33]) base_ep (sample_waiting true))).1 =
  [CallRetransmit sample_packet base_ep].
Proof.
  apply (base_retransmits_stale (ms 1) 7 sample_info);
    try done; by constructor.
Defined.
End Witnesses.
