(* ===== verification/UdpServer.v ===== *)
(** * The base station's socket: [include/base/udp_server.hpp], [src/base/udp_server.cpp]

    The state of a [UdpServer] and its functions.  What is handed to the socket is
    returned as datagrams; the completion of a receive is an event of the
    environment.  [scan_for_rovers] is in [Discovery]. *)
From S2P Require Import Prelude Configs Asio.

(** The [error_code] of a completion handler, as the handlers distinguish it. *)
Inductive error_code := NoError | OperationAborted | OtherError.

#[export] Instance error_code_eq_dec : EqDecision error_code.
Proof. solve_decision. Defined.

Section Server.
Context {A : AsioAddress}.

(** A call of [async_send_to]. *)
Record datagram := mkDatagram { dg_data : bytes; dg_to : endpoint }.

#[global] Instance datagram_eq_dec : EqDecision datagram.
Proof. solve_decision. Defined.

(** What a receive hands to its handler: the bytes of the datagram that fit into the
    buffer it was given.  The socket drops the others, without an error. *)
Definition received_data (buffer_size : Z) (data : bytes) : bytes :=
  take (Z.to_nat buffer_size) data.

(** [receiving_] is whether an [async_receive_from] is outstanding.  The array
    [buffer_] has no field: a handler reads nothing of it but what the socket has just
    written, [received_data SERVER_SOCK_BUF_SIZE]. *)
Record UdpServer := mkUdpServer {
  running_ : bool;
  socket_open_ : bool;
  receiving_ : bool;
  receive_callback_ : bool;
  sender_endpoint_ : endpoint;
}.

Definition make_UdpServer : UdpServer := mkUdpServer false true false false endpoint_default.

Definition set_receive_callback (s : UdpServer) : UdpServer :=
  mkUdpServer (running_ s) (socket_open_ s) (receiving_ s) true (sender_endpoint_ s).

(** A receive into [buffer_], of [SERVER_SOCK_BUF_SIZE] bytes; [receive_completed] is
    its handler. *)
Definition receive_data (s : UdpServer) : UdpServer :=
  if negb (running_ s) then s
  else mkUdpServer (running_ s) (socket_open_ s) true (receive_callback_ s) (sender_endpoint_ s).

Definition start (s : UdpServer) : UdpServer :=
  if running_ s then s
  else receive_data
    (mkUdpServer true (socket_open_ s) (receiving_ s) (receive_callback_ s) (sender_endpoint_ s)).

(** [stop]: the socket is closed if it is open; either way it is closed after. *)
Definition stop (s : UdpServer) : UdpServer :=
  mkUdpServer false false (receiving_ s) (receive_callback_ s) (sender_endpoint_ s).

Definition get_sender_endpoint (s : UdpServer) : endpoint := sender_endpoint_ s.

Definition send_data (data : bytes) (recipient : endpoint) (s : UdpServer) : list datagram :=
  if negb (running_ s) then []
  else if ep_unspecified recipient || (ep_port recipient =? 0) then []
  else [mkDatagram data recipient].

(** The completion handler of [receive_data], for a server that is part [srv] of
    a larger state and a callback that acts on that state.  [data] is the datagram that
    arrived; the socket has written its sender, and what fits of it into the buffer,
    before the handler runs. *)
Section Receive.
Context {W : Type} (srv : W -> UdpServer) (set_srv : UdpServer -> W -> W).
Context (callback : bytes -> endpoint -> M W unit).

Definition receive_completed (ec : error_code) (data : bytes) (sender : endpoint) : M W unit :=
  modify (fun w => set_srv (mkUdpServer (running_ (srv w)) (socket_open_ (srv w)) false
    (receive_callback_ (srv w))
    (if bool_decide (ec = NoError) then sender else sender_endpoint_ (srv w))) w) ;;
  s ← gets srv;
  if bool_decide (ec = NoError) && running_ s then
    let received := received_data SERVER_SOCK_BUF_SIZE data in
    when (receive_callback_ s)
      (try_catch (callback received (sender_endpoint_ s)) (fun _ => mret tt)) ;;
    modify (fun w => if running_ (srv w) then set_srv (receive_data (srv w)) w else w)
  else if bool_decide (ec = OperationAborted) then mret tt
  else if running_ s then modify (fun w => set_srv (stop (srv w)) w)
  else mret tt.
End Receive.

(** ** Facts *)

(** What the completion handler preserves; it does not open the socket. *)
Lemma receive_completed_preserves {W} (srv : W -> UdpServer) set_srv callback (I : W -> Prop)
    ec data sender :
  (forall s w, socket_open_ s = socket_open_ (srv w) \/ socket_open_ s = false -> I w -> I (set_srv s w)) ->
  (forall d e, Preserves I (callback d e)) ->
  Preserves I (receive_completed srv set_srv callback ec data sender).
Proof.
  intros Hset Hcb. unfold receive_completed.
  apply preserves_bind; [apply preserves_modify; intros w; apply Hset; by left|]. intros _.
  apply preserves_bind; [apply _|]. intros s. destruct (_ && _).
  - apply preserves_bind; [apply _|]. intros _. apply preserves_modify. intros w Hw.
    destruct (running_ (srv w)) eqn:Hr; [|done]. apply Hset; [|done]. left. unfold receive_data. by rewrite Hr.
  - destruct (bool_decide _); [apply _|]. destruct (running_ s); [|apply _].
    apply preserves_modify. intros w. apply Hset. by right.
Qed.

Lemma received_data_all n data : vec_size data <= n -> received_data n data = data.
Proof. unfold received_data, vec_size. intros. apply take_ge. lia. Qed.

Lemma vec_size_received n data : 0 <= n -> vec_size (received_data n data) <= n.
Proof. unfold received_data, vec_size. rewrite length_take. lia. Qed.

#[global] Instance receive_completed_no_throw {W} (srv : W -> UdpServer) set_srv callback ec data sender :
  NoThrow (receive_completed srv set_srv callback ec data sender).
Proof. unfold receive_completed. apply _. Qed.

Lemma send_data_spec data recipient s :
  send_data data recipient s =
  if running_ s && negb (ep_unspecified recipient) && negb (ep_port recipient =? 0)
  then [mkDatagram data recipient] else [].
Proof.
  unfold send_data. by destruct (running_ s), (ep_unspecified recipient), (ep_port recipient =? 0).
Qed.
End Server.
