(* ===== verification/UdpClient.v ===== *)
(** * The rover's socket: [include/rover/udp_client.hpp], [src/rover/udp_client.cpp]

    The state of a [UdpClient] and its functions, with the exceptions they throw.
    Name resolution and the parsing of address literals are Boost.Asio's and are
    arguments of the functions that use them. *)
From S2P Require Import Prelude Configs Asio UdpServer.

Section Client.
Context {A : AsioAddress}.

(** [receiving_] is whether an [async_receive_from] is outstanding, [retry_timer_]
    the timer [handle_receive] makes to restart reception after an error.  The array
    [receive_buffer_] has no field, as [buffer_] of the server. *)
Record UdpClient := mkUdpClient {
  running_ : bool;
  socket_open_ : bool;
  receiving_ : bool;
  receive_callback_ : bool;
  base_endpoint_ : endpoint;
  receive_endpoint_ : endpoint;
  retry_timer_ : option steady_timer;
}.

Definition set_running (v : bool) (c : UdpClient) : UdpClient :=
  mkUdpClient v (socket_open_ c) (receiving_ c) (receive_callback_ c) (base_endpoint_ c)
    (receive_endpoint_ c) (retry_timer_ c).
Definition set_socket_open (v : bool) (c : UdpClient) : UdpClient :=
  mkUdpClient (running_ c) v (receiving_ c) (receive_callback_ c) (base_endpoint_ c)
    (receive_endpoint_ c) (retry_timer_ c).
Definition set_receiving (v : bool) (c : UdpClient) : UdpClient :=
  mkUdpClient (running_ c) (socket_open_ c) v (receive_callback_ c) (base_endpoint_ c)
    (receive_endpoint_ c) (retry_timer_ c).
Definition set_base_endpoint (v : endpoint) (c : UdpClient) : UdpClient :=
  mkUdpClient (running_ c) (socket_open_ c) (receiving_ c) (receive_callback_ c) v
    (receive_endpoint_ c) (retry_timer_ c).
Definition set_receive_endpoint (v : endpoint) (c : UdpClient) : UdpClient :=
  mkUdpClient (running_ c) (socket_open_ c) (receiving_ c) (receive_callback_ c)
    (base_endpoint_ c) v (retry_timer_ c).
Definition set_retry_timer (v : option steady_timer) (c : UdpClient) : UdpClient :=
  mkUdpClient (running_ c) (socket_open_ c) (receiving_ c) (receive_callback_ c)
    (base_endpoint_ c) (receive_endpoint_ c) v.
Definition set_receive_callback (c : UdpClient) : UdpClient :=
  mkUdpClient (running_ c) (socket_open_ c) (receiving_ c) true (base_endpoint_ c)
    (receive_endpoint_ c) (retry_timer_ c).

Definition make_UdpClient : UdpClient :=
  mkUdpClient false true false false endpoint_default endpoint_default None.

(** [register_base]; [resolve] is the answer of the resolver for the host and the
    port, or the exception it throws. *)
Definition register_base (resolve : result (list endpoint)) (host : string) (c : UdpClient)
    : result unit * UdpClient :=
  match resolve with
  | Throw e => (Throw e, c)
  | Ok [] => (Throw (RuntimeError ("Could not resolve host: " +:+ host)), c)
  | Ok (e :: _) => (Ok tt, set_base_endpoint e c)
  end.

Definition get_base_endpoint (c : UdpClient) : result endpoint :=
  if ep_unspecified (base_endpoint_ c)
  then Throw (RuntimeError "Base endpoint not initialized")
  else Ok (base_endpoint_ c).

Definition send_data (data : bytes) (c : UdpClient) : result (list datagram) :=
  if ep_unspecified (base_endpoint_ c)
  then Throw (RuntimeError "Base endpoint not initialized for UdpClient")
  else Ok [mkDatagram data (base_endpoint_ c)].

Definition send_data_to (data : bytes) (recipient : endpoint) : list datagram :=
  if ep_unspecified recipient || (ep_port recipient =? 0) then []
  else [mkDatagram data recipient].

(** [send_broadcast_data]; [make_address_v4] is the library's parser and
    [address_v4_broadcast] its broadcast address.  The port is converted to
    [unsigned short]. *)
Definition send_broadcast_data (make_address_v4 : string -> option address)
    (address_v4_broadcast : address) (data : bytes) (broadcast_port : Z)
    (broadcast_address_str : string) : list datagram :=
  if bool_decide (broadcast_address_str = "255.255.255.255") ||
     bool_decide (broadcast_address_str = "10.237.0.255")
  then [mkDatagram data (mkEndpoint address_v4_broadcast (u16 broadcast_port))]
  else match make_address_v4 broadcast_address_str with
       | None => []
       | Some a => [mkDatagram data (mkEndpoint a (u16 broadcast_port))]
       end.

(** A receive into [receive_buffer_], of [CLIENT_SOCK_BUF_SIZE] bytes; [handle_receive] is
    its handler. *)
Definition do_receive (c : UdpClient) : UdpClient :=
  if negb (running_ c) then c else set_receiving true c.

Definition start_receive (c : UdpClient) : UdpClient :=
  if running_ c then c else do_receive (set_running true c).

Definition stop_receive (c : UdpClient) : UdpClient :=
  if negb (running_ c) then c else set_socket_open false (set_running false c).

(** [handle_receive], for a client that is part [cli] of a larger state; [data] is the
    datagram that arrived, of which the buffer holds what fits into it. *)
Section Receive.
Context {W : Type} (cli : W -> UdpClient) (set_cli : UdpClient -> W -> W).
Context (callback : bytes -> endpoint -> M W unit).

Definition handle_receive (now : Z) (error : error_code) (data : bytes) (sender : endpoint)
    : M W unit :=
  modify (fun w => set_cli (set_receiving false
    (if bool_decide (error = NoError) then set_receive_endpoint sender (cli w) else cli w)) w) ;;
  c ← gets cli;
  if bool_decide (error = NoError) && running_ c then
    let received := received_data CLIENT_SOCK_BUF_SIZE data in
    when (receive_callback_ c)
      (try_catch (callback received (receive_endpoint_ c)) (fun _ => mret tt)) ;;
    modify (fun w => if running_ (cli w) then set_cli (do_receive (cli w)) w else w)
  else if bool_decide (error = OperationAborted) then mret tt
  else if running_ c then
    modify (fun w => set_cli (set_retry_timer
      (Some (async_wait (mkTimer (now + ms CLIENT_RETRY_DELAY) false))) (cli w)) w)
  else mret tt.

(** The completion handler of the retry timer. *)
Definition retry_timer_completed (error : error_code) : M W unit :=
  modify (fun w => set_cli (set_retry_timer None (cli w)) w) ;;
  modify (fun w => if bool_decide (error = NoError) && running_ (cli w)
                   then set_cli (do_receive (cli w)) w else w).
End Receive.

(** ** Facts *)

Lemma do_receive_base c : base_endpoint_ (do_receive c) = base_endpoint_ c.
Proof. unfold do_receive. by destruct (running_ c). Qed.

(** The base's endpoint and whether the socket is open. *)
Definition same_socket (c c' : UdpClient) : Prop :=
  base_endpoint_ c' = base_endpoint_ c /\ socket_open_ c' = socket_open_ c.

Lemma do_receive_socket c : same_socket c (do_receive c).
Proof. unfold do_receive. by destruct (running_ c). Qed.

(** What the completion handlers preserve: they do not change these. *)
Lemma handle_receive_preserves {W} (cli : W -> UdpClient) set_cli callback (I : W -> Prop)
    now ec data sender :
  (forall c w, same_socket (cli w) c -> I w -> I (set_cli c w)) ->
  (forall d e, Preserves I (callback d e)) ->
  Preserves I (handle_receive cli set_cli callback now ec data sender).
Proof.
  intros Hset Hcb. unfold handle_receive.
  apply preserves_bind.
  { apply preserves_modify. intros w. apply Hset. by destruct (bool_decide (ec = NoError)). }
  intros _. apply preserves_bind; [apply _|]. intros c. destruct (_ && _).
  - apply preserves_bind; [apply _|]. intros _. apply preserves_modify. intros w Hw.
    destruct (running_ (cli w)); [|done]. apply Hset; [apply do_receive_socket|done].
  - destruct (bool_decide _); [apply _|]. destruct (running_ c); [|apply _].
    apply preserves_modify. intros w. by apply Hset.
Qed.

#[global] Instance handle_receive_no_throw {W} (cli : W -> UdpClient) set_cli callback now ec data sender :
  NoThrow (handle_receive cli set_cli callback now ec data sender).
Proof. unfold handle_receive. apply _. Qed.

Lemma retry_timer_completed_preserves {W} (cli : W -> UdpClient) set_cli (I : W -> Prop) ec :
  (forall c w, same_socket (cli w) c -> I w -> I (set_cli c w)) ->
  Preserves I (retry_timer_completed cli set_cli ec).
Proof.
  intros Hset. unfold retry_timer_completed.
  apply preserves_bind; [apply preserves_modify; intros w; by apply Hset|]. intros _.
  apply preserves_modify. intros w Hw. destruct (_ && _); [|done].
  apply Hset; [apply do_receive_socket|done].
Qed.
End Client.
