(* ===== verification/Libraries.v ===== *)
(** * The libraries the messages rely on

    The JSON library and the text form of time points, as classes: the operations
    the sources call, and in a class of laws what the theorems rely on.  Concrete
    instances, for evaluation, are at the end. *)
From Stdlib Require Import Ascii SpecFloat.
From stdpp Require Import countable.
From S2P Require Import Prelude.

(** A C++ [double]: an IEEE 754 binary64 value. *)
Abbreviation double := spec_float.

#[export] Instance double_eq_dec : EqDecision double.
Proof. solve_decision. Defined.

(** Neither infinite nor not-a-number. *)
Definition finite (d : double) : bool :=
  match d with S754_zero _ | S754_finite _ _ _ => true | _ => false end.

(** ** nlohmann::json *)

(** [json_parse] is [json::parse], which throws a [parse_error], or another exception
    on a number out of range; [json_dump] and
    [json_dump_indented] are [dump()] and [dump(4)], which throw on a string that is
    not UTF-8; [json_object] is the object made from a list of pairs, and the other
    constructors and accessors are the conversions the sources use. *)
Class Json := {
  json : Type;
  json_parse : string -> result json;
  json_dump : json -> result string;
  json_dump_indented : json -> result string;
  json_object : list (string * json) -> json;
  json_string : string -> json;
  json_numbers : gmap string double -> json;
  json_contains : json -> string -> bool;
  json_at : json -> string -> json;
  json_is_string : json -> bool;
  json_is_object : json -> bool;
  json_get_string : json -> result string;
  json_get_numbers : json -> result (gmap string double);
}.

(** The values of the members of a message: strings, and objects of finite numbers. *)
Definition message_member `{Json} (v : json) : Prop :=
  (exists s, v = json_string s) \/
  exists m, v = json_numbers m /\ map_Forall (fun _ d => finite d = true) m.

(** What is relied on: an object holds the members it was made from, a conversion
    gives back what was converted, and the text of an object of such members parses
    to the object and starts with a brace. *)
Class JsonLaws (J : Json) := {
  json_object_contains l k : NoDup l.*1 ->
    json_contains (json_object l) k = bool_decide (k ∈ l.*1);
  json_object_at l k v : NoDup l.*1 -> (k, v) ∈ l -> message_member v ->
    json_at (json_object l) k = v;
  json_string_is_string s : json_is_string (json_string s) = true;
  json_string_get s : json_get_string (json_string s) = Ok s;
  json_numbers_is_object m : json_is_object (json_numbers m) = true;
  json_numbers_get m : json_get_numbers (json_numbers m) = Ok m;
  json_parse_dump l s : NoDup l.*1 -> Forall (fun kv => message_member kv.2) l ->
    json_dump (json_object l) = Ok s -> json_parse s = Ok (json_object l);
  json_dump_brace l s : json_dump (json_object l) = Ok s -> exists s', s = String "{" s';
}.

(** ** std::format and std::chrono::parse on time points *)

(** A [system_clock::time_point] is nanoseconds since the epoch.  [chrono_format]
    is [std::format("{:%FT%T%z}", tp)], [chrono_parse] the extraction of a time point
    in a given format. *)
Class Chrono := {
  chrono_format : Z -> result string;
  chrono_parse : string -> string -> option Z;
}.

(** A formatted time point parses back in the format it was written in. *)
Class ChronoLaws (C : Chrono) := {
  chrono_parse_format tp s : chrono_format tp = Ok s -> chrono_parse "%FT%T%z" s = Some tp;
}.

(** ** Instances *)

(** A value of a countable type as text: a brace and the bits of its code. *)
Module TextCodec.
Fixpoint bits (p : positive) : list bool :=
  match p with
  | xH => []
  | xO p' => false :: bits p'
  | xI p' => true :: bits p'
  end.

Fixpoint of_bits (l : list bool) : positive :=
  match l with
  | [] => xH
  | false :: l' => xO (of_bits l')
  | true :: l' => xI (of_bits l')
  end.

Lemma of_bits_bits p : of_bits (bits p) = p.
Proof. induction p as [p IH|p IH|]; simpl; by rewrite ?IH. Qed.

(** Six bits to a character from [@] on; those left over as digits. *)
Fixpoint pack (l : list bool) : string :=
  match l with
  | a :: b :: c :: d :: e :: f :: l' => String (Ascii a b c d e f true false) (pack l')
  | a :: l' => String (Ascii a false false false true true false false) (pack l')
  | [] => ""
  end.

Fixpoint unpack (s : string) : list bool :=
  match s with
  | EmptyString => []
  | String (Ascii a b c d e f true _) s' => a :: b :: c :: d :: e :: f :: unpack s'
  | String (Ascii a _ _ _ _ _ false _) s' => a :: unpack s'
  end.

Lemma unpack_pack l : unpack (pack l) = l.
Proof.
  induction l as [l IH] using (induction_ltof1 _ length). unfold ltof in IH.
  destruct l as [|a [|b [|c [|d [|e [|f l]]]]]]; [done..|].
  cbn [pack unpack]. by rewrite IH by (cbn [length]; lia).
Qed.

Definition print_bits (p : positive) : string := pack (bits p).
Definition read_bits (s : string) : option positive := Some (of_bits (unpack s)).

Lemma read_print_bits p : read_bits (print_bits p) = Some p.
Proof. unfold read_bits, print_bits. by rewrite unpack_pack, of_bits_bits. Qed.

Definition print `{Countable T} (x : T) : string := String "{" (print_bits (encode x)).

Definition read `{Countable T} (s : string) : option T :=
  match s with
  | String "{" s' => read_bits s' ≫= decode
  | _ => None
  end.

Lemma read_print `{Countable T} (x : T) : read (print x) = Some x.
Proof.
  change (read_bits (print_bits (encode x)) ≫= decode = Some x).
  rewrite read_print_bits. simpl. apply decode_encode.
Qed.
End TextCodec.

Module SampleLibraries.
#[export] Instance double_countable : Countable double.
Proof.
  refine (inj_countable'
    (fun d => match d with
              | S754_zero s => inl s
              | S754_infinity s => inr (inl s)
              | S754_nan => inr (inr (inl tt))
              | S754_finite s m e => inr (inr (inr (s, m, e)))
              end : bool + (bool + (unit + bool * positive * Z)))
    (fun c => match c with
              | inl s => S754_zero s
              | inr (inl s) => S754_infinity s
              | inr (inr (inl _)) => S754_nan
              | inr (inr (inr (s, m, e))) => S754_finite s m e
              end) _).
  by intros [].
Defined.

(** JSON values of the shapes the messages have; a member of another shape becomes
    an empty string. *)
Definition member : Type := string + gmap string double.

Inductive value :=
| VMember (v : member)
| VObject (l : list (string * member)).

#[export] Instance value_eq_dec : EqDecision value.
Proof. solve_decision. Defined.

#[export] Instance value_countable : Countable value.
Proof.
  refine (inj_countable'
    (fun v => match v with VMember m => inl m | VObject l => inr l end)
    (fun c => match c with inl m => VMember m | inr l => VObject l end) _).
  by intros [].
Defined.

Definition flat (v : value) : member := match v with VMember m => m | _ => inl "" end.

Fixpoint find_member (l : list (string * member)) (k : string) : option member :=
  match l with
  | [] => None
  | (k', v) :: l' => if bool_decide (k = k') then Some v else find_member l' k
  end.

Definition members (v : value) : list (string * member) :=
  match v with VObject l => l | _ => [] end.

#[export] Instance json_sample : Json := {|
  json := value;
  json_parse s := from_option Ok (Throw JsonParseError) (TextCodec.read s);
  json_dump v := Ok (TextCodec.print v);
  json_dump_indented v := Ok (TextCodec.print v);
  json_object l := VObject (prod_map id flat <$> l);
  json_string s := VMember (inl s);
  json_numbers m := VMember (inr m);
  json_contains v k := bool_decide (is_Some (find_member (members v) k));
  json_at v k := VMember (default (inl "") (find_member (members v) k));
  json_is_string v := match v with VMember (inl _) => true | _ => false end;
  json_is_object v := match v with VMember (inl _) => false | _ => true end;
  json_get_string v := match v with VMember (inl s) => Ok s | _ => Throw JsonTypeError end;
  json_get_numbers v := match v with VMember (inr m) => Ok m | _ => Throw JsonTypeError end;
|}.

Lemma find_member_is_Some l k : is_Some (find_member l k) <-> k ∈ l.*1.
Proof.
  induction l as [|[k' v] l IH]; simpl.
  - rewrite is_Some_alt. split; [done|]. by intros ?%elem_of_nil.
  - rewrite elem_of_cons. case_bool_decide as H; [subst; split; eauto|]. rewrite IH. tauto.
Qed.

Lemma find_member_elem l k v : NoDup l.*1 -> (k, v) ∈ l -> find_member l k = Some v.
Proof.
  induction l as [|[k' v'] l IH]; intros Hnd Hin; [by apply elem_of_nil in Hin|].
  apply NoDup_cons in Hnd as [Hk' Hnd]. simpl.
  apply elem_of_cons in Hin as [[= -> ->]|Hin]; [by rewrite bool_decide_true|].
  rewrite bool_decide_false; [by apply IH|]. intros ->.
  apply Hk'. apply list_elem_of_fmap. by exists (k', v).
Qed.

Lemma prod_map_keys (l : list (string * value)) : (prod_map id flat <$> l).*1 = l.*1.
Proof. rewrite <- list_fmap_compose. by apply list_fmap_ext; intros ? [] ?. Qed.

#[export] Instance json_sample_laws : JsonLaws json_sample.
Proof.
  split; try done.
  - intros l k _. cbn [json_contains json_sample json_object members].
    apply bool_decide_ext. by rewrite find_member_is_Some, prod_map_keys.
  - intros l k v Hnd Hin Hv. cbn [json_at json_sample json_object members].
    rewrite (find_member_elem _ k (flat v)).
    + by destruct Hv as [[s ->]|(m & -> & _)].
    + by rewrite prod_map_keys.
    + apply list_elem_of_fmap. by exists (k, v).
  - intros l s _ _. cbn [json_dump json_parse json_sample]. intros [= <-].
    by rewrite TextCodec.read_print.
  - intros l s. cbn [json_dump json_sample]. intros [= <-]. by eexists.
Qed.

(** Time points as the text of their number of nanoseconds. *)
#[export] Instance chrono_sample : Chrono := {|
  chrono_format tp := Ok (TextCodec.print tp);
  chrono_parse _ s := TextCodec.read s;
|}.

#[export] Instance chrono_sample_laws : ChronoLaws chrono_sample.
Proof. split. intros tp s [= <-]. apply TextCodec.read_print. Qed.
End SampleLibraries.
