(* ===== verification/Messages.v ===== *)
(** * Messages: [message.hpp], [message.cpp], [message_types.hpp], the four
    [*_message.hpp] under [include/common], and [timepoint_utils.cpp]

    The message classes as one type, their JSON form and the factory that reads it
    back.  A function that reads the system clock takes the reading. *)
From Stdlib Require Import SpecFloat.
From S2P Require Import Prelude LumenHeader Libraries.

(** ** Time points: [src/common/timepoint_utils.cpp] *)

Section TimePoint.
Context `{Chrono}.

Definition tp_to_string (tp : Z) : string :=
  match chrono_format tp with Ok s => s | Throw _ => "TimeFormatError" end.

Definition string_to_tp (now : Z) (time_str : string) : Z :=
  match chrono_parse "%FT%T%z" time_str with
  | Some result => result
  | None =>
    match chrono_parse "%FT%T%Z" time_str with
    | Some result => result
    | None => now
    end
  end.
End TimePoint.

(** ** Message objects *)

(** [StatusMessage::StatusLevel]; the enumerators are named by their text. *)
Inductive StatusLevel := OK | WARNING | ERROR | CRITICAL.

#[export] Instance StatusLevel_eq_dec : EqDecision StatusLevel.
Proof. solve_decision. Defined.

(** An object of a class derived from [Message]; the members are in the order of
    the constructors' parameters, and every object has a timestamp. *)
Inductive Message :=
| BasicMessage (content sender : string) (timestamp : Z)
| CommandMessage (command params sender : string) (timestamp : Z)
| TelemetryMessage (readings : gmap string double) (sender : string) (timestamp : Z)
| StatusMessage (level : StatusLevel) (description sender : string) (timestamp : Z).

#[export] Instance Message_eq_dec : EqDecision Message.
Proof. solve_decision. Defined.

Definition get_type (m : Message) : string :=
  match m with
  | BasicMessage _ _ _ => "BasicMessage"
  | CommandMessage _ _ _ _ => "CommandMessage"
  | TelemetryMessage _ _ _ => "TelemetryMessage"
  | StatusMessage _ _ _ _ => "StatusMessage"
  end.

Definition get_sender (m : Message) : string :=
  match m with
  | BasicMessage _ s _ | CommandMessage _ _ s _ | TelemetryMessage _ s _
  | StatusMessage _ _ s _ => s
  end.

Definition get_timestamp (m : Message) : Z :=
  match m with
  | BasicMessage _ _ t | CommandMessage _ _ _ t | TelemetryMessage _ _ t
  | StatusMessage _ _ _ t => t
  end.

Definition set_timestamp (t : Z) (m : Message) : Message :=
  match m with
  | BasicMessage c s _ => BasicMessage c s t
  | CommandMessage c p s _ => CommandMessage c p s t
  | TelemetryMessage r s _ => TelemetryMessage r s t
  | StatusMessage l d s _ => StatusMessage l d s t
  end.

Definition get_lumen_priority (m : Message) : Priority :=
  match m with
  | BasicMessage _ _ _ => MEDIUM
  | CommandMessage _ _ _ _ => HIGH
  | TelemetryMessage _ _ _ => MEDIUM
  | StatusMessage level _ _ _ =>
    match level with OK => LOW | WARNING => MEDIUM | ERROR | CRITICAL => HIGH end
  end.

Definition get_lumen_type (m : Message) : MessageType :=
  match m with
  | BasicMessage _ _ _ => DATA
  | CommandMessage _ _ _ _ => CMD
  | TelemetryMessage _ _ _ => DATA
  | StatusMessage _ _ _ _ => STATUS
  end.

(** [static_cast<double>] of the enumeration is taken of this value. *)
Definition StatusLevel_val (l : StatusLevel) : Z :=
  match l with OK => 0 | WARNING => 1 | ERROR => 2 | CRITICAL => 3 end.

Definition level_str (l : StatusLevel) : string :=
  match l with OK => "OK" | WARNING => "WARNING" | ERROR => "ERROR" | CRITICAL => "CRITICAL" end.

Definition level_of_str (s : string) : option StatusLevel :=
  if bool_decide (s = "OK") then Some OK
  else if bool_decide (s = "WARNING") then Some WARNING
  else if bool_decide (s = "ERROR") then Some ERROR
  else if bool_decide (s = "CRITICAL") then Some CRITICAL
  else None.

(** ** Writing: the four [serialise] functions *)

Section Json.
Context {J : Json} {C : Chrono}.

(** What all four begin and end with. *)
Definition enveloped (msg_type sender : string) (timestamp : Z) (own : list (string * json))
    : list (string * json) :=
  ("msg_type", json_string msg_type) :: own ++
  [("sender", json_string sender); ("timestamp", json_string (tp_to_string timestamp))]%string.

Definition BasicMessage_members (content : string) : list (string * json) :=
  [("content", json_string content)]%string.

Definition CommandMessage_members (command params : string) : list (string * json) :=
  [("command", json_string command); ("params", json_string params)]%string.

Definition TelemetryMessage_members (readings : gmap string double) : list (string * json) :=
  [("readings", json_numbers readings)]%string.

Definition StatusMessage_members (level : StatusLevel) (description : string)
    : list (string * json) :=
  [("level", json_string (level_str level)); ("description", json_string description)]%string.

(** The dynamic dispatch. *)
Definition members (m : Message) : list (string * json) :=
  enveloped (get_type m) (get_sender m) (get_timestamp m)
    match m with
    | BasicMessage content _ _ => BasicMessage_members content
    | CommandMessage command params _ _ => CommandMessage_members command params
    | TelemetryMessage readings _ _ => TelemetryMessage_members readings
    | StatusMessage level description _ _ => StatusMessage_members level description
    end.

Definition serialise (m : Message) : result string := json_dump (json_object (members m)).

(** ** Reading *)

(** [if (!j.contains(key) || !j\[key\].is_string()) throw ...] *)
Definition require_string (j : json) (key what : string) : result unit :=
  if negb (json_contains j key) || negb (json_is_string (json_at j key))
  then Throw (RuntimeError what) else Ok tt.

Definition require_object (j : json) (key what : string) : result unit :=
  if negb (json_contains j key) || negb (json_is_object (json_at j key))
  then Throw (RuntimeError what) else Ok tt.

(** The end of each [from_json]: the object made at [now] gets the timestamp of
    the text when there is one; an exception on the way is handled. *)
Definition read_timestamp (now : Z) (j : json) (handler : exn -> result Z) : result Z :=
  if json_contains j "timestamp" && json_is_string (json_at j "timestamp")
  then result_catch
    (timestamp_str ← json_get_string (json_at j "timestamp");
     mret (string_to_tp now timestamp_str)) handler
  else Ok now.

Definition BasicMessage_from_json (now : Z) (j : json) : result Message :=
  require_string j "content" "Invalid BasicMessage JSON: missing or invalid 'content' field." ;;
  require_string j "sender" "Invalid BasicMessage JSON: missing or invalid 'sender' field." ;;
  content ← json_get_string (json_at j "content");
  sender ← json_get_string (json_at j "sender");
  (* the handler prints the text, and so reads it again *)
  t ← read_timestamp now j (fun _ =>
    (if json_contains j "timestamp"
     then json_get_string (json_at j "timestamp") else Ok "N/A"%string) ;; Ok now);
  mret (BasicMessage content sender t).

Definition CommandMessage_from_json (now : Z) (j : json) : result Message :=
  require_string j "command" "Invalid CommandMessage JSON: missing or invalid 'command' field." ;;
  require_string j "params" "Invalid CommandMessage JSON: missing or invalid 'params' field." ;;
  require_string j "sender" "Invalid CommandMessage JSON: missing or invalid 'sender' field." ;;
  command ← json_get_string (json_at j "command");
  params ← json_get_string (json_at j "params");
  sender ← json_get_string (json_at j "sender");
  t ← read_timestamp now j (fun _ => Ok now);
  mret (CommandMessage command params sender t).

Definition TelemetryMessage_from_json (now : Z) (j : json) : result Message :=
  require_object j "readings" ("Invalid TelemetryMessage JSON: missing or " +:+
    "invalid 'readings' field (must be an object).") ;;
  require_string j "sender" "Invalid TelemetryMessage JSON: missing or invalid 'sender' field." ;;
  readings ← json_get_numbers (json_at j "readings");
  sender ← json_get_string (json_at j "sender");
  t ← read_timestamp now j (fun _ => Ok now);
  mret (TelemetryMessage readings sender t).

Definition StatusMessage_from_json (now : Z) (j : json) : result Message :=
  require_string j "level" "Invalid StatusMessage JSON: missing or invalid 'level' field." ;;
  require_string j "description"
    "Invalid StatusMessage JSON: missing or invalid 'description' field." ;;
  require_string j "sender" "Invalid StatusMessage JSON: missing or invalid 'sender' field." ;;
  level_str ← json_get_string (json_at j "level");
  level ← from_option Ok
    (Throw (RuntimeError ("Invalid status level string in JSON: " +:+ level_str)))
    (level_of_str level_str);
  description ← json_get_string (json_at j "description");
  sender ← json_get_string (json_at j "sender");
  t ← read_timestamp now j (fun _ => Ok now);
  mret (StatusMessage level description sender t).

(** [Message::is_valid_json]: another exception than [parse_error] goes through. *)
Definition is_valid_json (json_str : string) : result bool :=
  match json_parse json_str with
  | Ok _ => Ok true
  | Throw JsonParseError => Ok false
  | Throw e => Throw e
  end.

(** [Message::pretty_print]; what a library exception says is left out. *)
Definition pretty_print (json_str : string) : result string :=
  result_catch (parsed_json ← json_parse json_str; json_dump_indented parsed_json)
    (fun e => match e with
              | JsonParseError => Throw (RuntimeError "Failed to parse JSON for pretty printing: ")
              | e => Throw e
              end).

(** The expansion of [MESSAGE_TYPES_LIST] in [Message::deserialise]. *)
Definition factory (now : Z) (msg_type : string) (j : json) : result Message :=
  if bool_decide (msg_type = "BasicMessage") then BasicMessage_from_json now j
  else if bool_decide (msg_type = "CommandMessage") then CommandMessage_from_json now j
  else if bool_decide (msg_type = "TelemetryMessage") then TelemetryMessage_from_json now j
  else if bool_decide (msg_type = "StatusMessage") then StatusMessage_from_json now j
  else Throw (RuntimeError
    ("Unknown message type encountered during deserialization: " +:+ msg_type)).

Definition deserialise_error (e : exn) : exn :=
  match e with
  | JsonParseError => RuntimeError "Failed to parse message JSON: "
  | RuntimeError w => RuntimeError w
  | _ => RuntimeError "An unexpected error occurred during message deserialization: "
  end.

(** [Message::deserialise] *)
Definition deserialise (now : Z) (json_str : string) : result Message :=
  result_catch
    (j ← json_parse json_str;
     require_string j "msg_type"
       "Invalid message JSON: missing or invalid 'msg_type' field (must be a string)" ;;
     require_string j "sender"
       "Invalid message JSON: missing or invalid 'sender' field (must be a string)" ;;
     msg_type ← json_get_string (json_at j "msg_type");
     factory now msg_type j)
    (fun e => Throw (deserialise_error e)).

End Json.

(** ** Facts *)

Section Facts.
Context {J : Json} {C : Chrono}.

(** The readings of a message are finite: what JSON can express. *)
Definition message_ok (m : Message) : Prop :=
  match m with
  | TelemetryMessage readings _ _ => map_Forall (fun _ d => finite d = true) readings
  | _ => True
  end.

Lemma NoDup_members m : NoDup (members m).*1.
Proof. destruct m; apply (bool_decide_eq_true_1 _); vm_compute; reflexivity. Qed.

Lemma message_members m : message_ok m -> Forall (fun kv => message_member kv.2) (members m).
Proof.
  assert (forall s, message_member (json_string s)) as Hs by (intros s; left; eauto).
  destruct m; intros Hm; repeat (apply Forall_cons; split); try apply Hs; try apply Forall_nil_2.
  right. by exists readings.
Qed.

Lemma level_of_level_str l : level_of_str (level_str l) = Some l.
Proof. by destruct l. Qed.

Lemma level_of_str_Some s l : level_of_str s = Some l -> s = level_str l.
Proof. unfold level_of_str. repeat case_bool_decide; by intros [= <-]. Qed.

(** Membership in the concrete list of a message's members. *)
Ltac member_in :=
  first [apply list_elem_of_here | apply list_elem_of_further; member_in].

(** An exception in a sequence of results. *)
Lemma result_bind_throw {A B} (r : result A) (f : A -> result B) e :
  r ≫= f = Throw e -> r = Throw e \/ exists a, r = Ok a /\ f a = Throw e.
Proof. destruct r; simpl; [eauto|]. intros [= ->]. by left. Qed.

Lemma result_bind_Ok {A B} (r : result A) (f : A -> result B) b :
  r ≫= f = Ok b -> exists a, r = Ok a /\ f a = Ok b.
Proof. destruct r; simpl; [eauto|done]. Qed.

Lemma require_string_Ok j key what u : require_string j key what = Ok u ->
  json_contains j key = true /\ json_is_string (json_at j key) = true.
Proof.
  unfold require_string. by destruct (json_contains j key), (json_is_string (json_at j key)).
Qed.

(** What the factory makes has the type it was asked for and the sender of the text. *)
Lemma factory_Ok now ty j m : factory now ty j = Ok m ->
  ty = get_type m /\ json_get_string (json_at j "sender") = Ok (get_sender m).
Proof.
  unfold factory. repeat case_bool_decide; subst; intros Hm.
  - unfold BasicMessage_from_json in Hm.
    repeat (apply result_bind_Ok in Hm as (? & ? & Hm)). injection Hm as <-. by split.
  - unfold CommandMessage_from_json in Hm.
    repeat (apply result_bind_Ok in Hm as (? & ? & Hm)). injection Hm as <-. by split.
  - unfold TelemetryMessage_from_json in Hm.
    repeat (apply result_bind_Ok in Hm as (? & ? & Hm)). injection Hm as <-. by split.
  - unfold StatusMessage_from_json in Hm.
    repeat (apply result_bind_Ok in Hm as (? & ? & Hm)). injection Hm as <-. by split.
  - done.
Qed.

Lemma deserialise_error_runtime e : is_runtime_error (deserialise_error e) = true.
Proof. by destruct e. Qed.

(** *** Reading what was written *)

Section Laws.
Context `{!JsonLaws J} `{!ChronoLaws C}.

Lemma contains_member m k v : (k, v) ∈ members m ->
  json_contains (json_object (members m)) k = true.
Proof.
  intros Hin. rewrite json_object_contains by apply NoDup_members.
  apply bool_decide_true, list_elem_of_fmap. by exists (k, v).
Qed.

Lemma at_member m k v : message_ok m -> (k, v) ∈ members m ->
  json_at (json_object (members m)) k = v.
Proof.
  intros Hm Hin. apply json_object_at; [apply NoDup_members|done|].
  pose proof (message_members m Hm) as H. rewrite Forall_forall in H. by apply (H (k, v)).
Qed.

Lemma require_member m k s what : message_ok m -> (k, json_string s) ∈ members m ->
  require_string (json_object (members m)) k what = Ok tt.
Proof.
  intros Hm Hin. unfold require_string.
  by rewrite (contains_member m k (json_string s)), (at_member m k (json_string s)),
    json_string_is_string.
Qed.

Lemma get_member m k s : message_ok m -> (k, json_string s) ∈ members m ->
  json_get_string (json_at (json_object (members m)) k) = Ok s.
Proof. intros Hm Hin. by rewrite (at_member m k (json_string s)), json_string_get. Qed.

Lemma read_timestamp_member m now h : message_ok m ->
  read_timestamp now (json_object (members m)) h =
  Ok (string_to_tp now (tp_to_string (get_timestamp m))).
Proof.
  intros Hm. unfold read_timestamp.
  assert (("timestamp"%string, json_string (tp_to_string (get_timestamp m))) ∈ members m) as Hin
    by (destruct m; member_in).
  by rewrite (contains_member m "timestamp" (json_string (tp_to_string (get_timestamp m)))),
    (at_member m "timestamp" (json_string (tp_to_string (get_timestamp m)))),
    json_string_is_string, json_string_get.
Qed.

Lemma string_to_tp_of_string now tp s : chrono_format tp = Ok s ->
  string_to_tp now (tp_to_string tp) = tp.
Proof.
  intros Hs. unfold string_to_tp, tp_to_string. rewrite Hs.
  by rewrite (chrono_parse_format tp s Hs).
Qed.

Lemma factory_members m now : message_ok m ->
  factory now (get_type m) (json_object (members m)) =
  Ok (set_timestamp (string_to_tp now (tp_to_string (get_timestamp m))) m).
Proof.
  intros Hm. unfold factory. destruct m; cbn [get_type];
    repeat (first [rewrite bool_decide_true by done|rewrite bool_decide_false by done]).
  - unfold BasicMessage_from_json.
    erewrite !require_member by (done || member_in). cbn [mbind result_bind].
    rewrite (get_member _ "content" content), (get_member _ "sender" sender)
      by (done || member_in).
    cbn [mbind result_bind]. by rewrite read_timestamp_member.
  - unfold CommandMessage_from_json.
    erewrite !require_member by (done || member_in). cbn [mbind result_bind].
    rewrite (get_member _ "command" command), (get_member _ "params" params),
      (get_member _ "sender" sender) by (done || member_in).
    cbn [mbind result_bind]. by rewrite read_timestamp_member.
  - unfold TelemetryMessage_from_json, require_object.
    rewrite (contains_member _ "readings" (json_numbers readings)),
      (at_member _ "readings" (json_numbers readings)), json_numbers_is_object,
      json_numbers_get by (done || member_in).
    cbn [negb orb mbind result_bind].
    erewrite !require_member by (done || member_in). cbn [mbind result_bind].
    rewrite (get_member _ "sender" sender) by (done || member_in).
    cbn [mbind result_bind]. by rewrite read_timestamp_member.
  - unfold StatusMessage_from_json.
    erewrite !require_member by (done || member_in). cbn [mbind result_bind].
    rewrite (get_member _ "level" (level_str level)), (get_member _ "description" description),
      (get_member _ "sender" sender) by (done || member_in).
    cbn [mbind result_bind]. rewrite level_of_level_str. cbn [from_option mbind result_bind].
    by rewrite read_timestamp_member.
Qed.

Lemma parse_serialise m s : message_ok m -> serialise m = Ok s ->
  json_parse s = Ok (json_object (members m)).
Proof. intros Hm. apply json_parse_dump; [apply NoDup_members|by apply message_members]. Qed.

Lemma deserialise_serialise now m s : message_ok m -> serialise m = Ok s ->
  deserialise now s = Ok (set_timestamp (string_to_tp now (tp_to_string (get_timestamp m))) m).
Proof.
  intros Hm Hs. unfold deserialise. rewrite (parse_serialise m s) by done.
  cbn [mbind result_bind].
  assert (("msg_type"%string, json_string (get_type m)) ∈ members m) by (destruct m; member_in).
  assert (("sender"%string, json_string (get_sender m)) ∈ members m) by (destruct m; member_in).
  rewrite (require_member m "msg_type" (get_type m)), (require_member m "sender" (get_sender m)),
    (get_member m "msg_type" (get_type m)) by done.
  cbn [mbind result_bind]. by rewrite factory_members.
Qed.

Lemma is_valid_json_serialise m s : message_ok m -> serialise m = Ok s -> is_valid_json s = Ok true.
Proof. intros Hm Hs. unfold is_valid_json. by rewrite (parse_serialise m s). Qed.

Lemma set_timestamp_id m : set_timestamp (get_timestamp m) m = m.
Proof. by destruct m. Qed.
End Laws.
End Facts.

(** ** Theorems *)

Section Theorems.
Context {J : Json} {C : Chrono}.

(** C34: What a message object with finite readings serialises to is valid JSON and
    the factory reads it back as the same object; only when the time point could not
    be formatted is the timestamp the one the reader falls back to. *)
Theorem message_roundtrip `{!JsonLaws J} `{!ChronoLaws C} now m s :
  message_ok m -> serialise m = Ok s ->
  is_valid_json s = Ok true /\
  (forall t, chrono_format (get_timestamp m) = Ok t -> deserialise now s = Ok m) /\
  exists t, deserialise now s = Ok (set_timestamp t m).
Proof.
  intros Hm Hs. split_and!.
  - by apply (is_valid_json_serialise m s).
  - intros t Ht. rewrite (deserialise_serialise now m s) by done.
    by rewrite (string_to_tp_of_string now _ t Ht), set_timestamp_id.
  - eexists. by apply deserialise_serialise.
Qed.

(** C35: Whatever the bytes are, [deserialise] returns a message or throws a
    [std::runtime_error]; what it returns was read from a JSON text whose members
    [msg_type] and [sender] are the type and the sender of the object. *)
Theorem deserialise_total now s :
  match deserialise now s with
  | Throw e => is_runtime_error e = true
  | Ok m => exists j, json_parse s = Ok j /\
      json_get_string (json_at j "msg_type") = Ok (get_type m) /\
      json_get_string (json_at j "sender") = Ok (get_sender m)
  end.
Proof.
  unfold deserialise, result_catch.
  destruct (json_parse s) as [j|e] eqn:Ej; cbn [mbind result_bind];
    [|apply deserialise_error_runtime].
  destruct (require_string j "msg_type" _) as [[]|]; cbn [mbind result_bind];
    [|apply deserialise_error_runtime].
  destruct (require_string j "sender" _) as [[]|]; cbn [mbind result_bind];
    [|apply deserialise_error_runtime].
  destruct (json_get_string (json_at j "msg_type")) as [ty|] eqn:Ety; cbn [mbind result_bind];
    [|apply deserialise_error_runtime].
  destruct (factory now ty j) as [m|e] eqn:Ef; [|apply deserialise_error_runtime].
  exists j. rewrite Ety. by apply factory_Ok in Ef as [-> ->].
Qed.
End Theorems.

Section Witnesses.
Import SampleLibraries.

Definition sample_telemetry : Message :=
  TelemetryMessage {[ "latitude"%string := S754_finite false 1 0 ]} "grp18-rover" 1700000000000000000.

Lemma message_roundtrip_witness : exists s,
  serialise sample_telemetry = Ok s /\ is_valid_json s = Ok true /\
  deserialise 0 s = Ok sample_telemetry.
Proof.
  eexists. split; [reflexivity|].
  destruct (message_roundtrip 0 sample_telemetry _ ltac:(by apply map_Forall_singleton) eq_refl)
    as (H1 & H2 & _).
  split; [exact H1|]. by eapply H2.
Defined.
End Witnesses.
