(* ===== verification/LumenProtocol.v ===== *)
(** * The protocol: [include/common/lumen_protocol.hpp], [src/common/lumen_protocol.cpp]

    The state of a [LumenProtocol] inside the state of a node, and every member
    function.  The layers above are a state [U] and the message callback, a
    parameter of the functions that run it. *)
From S2P Require Import Prelude Configs LumenHeader LumenPacket Asio ReliabilityManager.
From S2P Require Import UdpServer UdpClient Libraries Messages.

(** ** State *)

Inductive ProtocolMode := BASE_STATION | ROVER.

#[export] Instance ProtocolMode_eq_dec : EqDecision ProtocolMode.
Proof. solve_decision. Defined.

Section State.
Context {A : AsioAddress}.

(** What the two constructors decide together: the mode and which of the pointers
    [server_] and [client_] is not null. *)
Inductive transport :=
| Server (s : UdpServer)
| Client (c : UdpClient).

Definition transport_mode (t : transport) : ProtocolMode :=
  match t with Server _ => BASE_STATION | Client _ => ROVER end.

(** [message_callback_] is recorded as set or not set.  [check_counter] is the
    function-local static of [process_complete_packet]; a program makes one
    protocol object. *)
Record LumenProtocol := mkLumenProtocol {
  frame_buffers_ : gmap string bytes;
  current_sequence_ : Z;
  endpoint_map_ : gmap string endpoint;
  reliability_manager_ : ReliabilityManager;
  message_callback_ : bool;
  running_ : bool;
  session_active_ : bool;
  check_counter : Z;
}.

(** A node: the transport it owns, the protocol object, the datagrams handed to
    the socket, oldest first, the readings of the two clocks, which do not move
    while an event is handled, and the state of the layers above. *)
Record World (U : Type) := mkWorld {
  transport_ : transport;
  protocol_ : LumenProtocol;
  sent_ : list datagram;
  steady_now : Z;
  system_now : Z;
  app_ : U;
}.
End State.

Arguments mkWorld {A U}.
Arguments transport_ {A U}.
Arguments protocol_ {A U}.
Arguments sent_ {A U}.
Arguments steady_now {A U}.
Arguments system_now {A U}.
Arguments app_ {A U}.

(** *** Field updates *)

Section Updates.
Context {A : AsioAddress}.
Implicit Types p : LumenProtocol.

Definition set_frame_buffers (v : gmap string bytes) p : LumenProtocol :=
  mkLumenProtocol v (current_sequence_ p) (endpoint_map_ p) (reliability_manager_ p)
    (message_callback_ p) (running_ p) (session_active_ p) (check_counter p).
Definition set_current_sequence (v : Z) p : LumenProtocol :=
  mkLumenProtocol (frame_buffers_ p) v (endpoint_map_ p) (reliability_manager_ p)
    (message_callback_ p) (running_ p) (session_active_ p) (check_counter p).
Definition set_endpoint_map (v : gmap string endpoint) p : LumenProtocol :=
  mkLumenProtocol (frame_buffers_ p) (current_sequence_ p) v (reliability_manager_ p)
    (message_callback_ p) (running_ p) (session_active_ p) (check_counter p).
Definition set_reliability_manager (v : ReliabilityManager) p : LumenProtocol :=
  mkLumenProtocol (frame_buffers_ p) (current_sequence_ p) (endpoint_map_ p) v
    (message_callback_ p) (running_ p) (session_active_ p) (check_counter p).
Definition set_message_callback p : LumenProtocol :=
  mkLumenProtocol (frame_buffers_ p) (current_sequence_ p) (endpoint_map_ p)
    (reliability_manager_ p) true (running_ p) (session_active_ p) (check_counter p).
Definition set_running (v : bool) p : LumenProtocol :=
  mkLumenProtocol (frame_buffers_ p) (current_sequence_ p) (endpoint_map_ p)
    (reliability_manager_ p) (message_callback_ p) v (session_active_ p) (check_counter p).
Definition set_session_active (active : bool) p : LumenProtocol :=
  mkLumenProtocol (frame_buffers_ p) (current_sequence_ p) (endpoint_map_ p)
    (reliability_manager_ p) (message_callback_ p) (running_ p) active (check_counter p).
Definition set_check_counter (v : Z) p : LumenProtocol :=
  mkLumenProtocol (frame_buffers_ p) (current_sequence_ p) (endpoint_map_ p)
    (reliability_manager_ p) (message_callback_ p) (running_ p) (session_active_ p) v.

Context {U : Type}.
Implicit Types w : World U.

Definition set_transport (t : transport) w : World U :=
  mkWorld t (protocol_ w) (sent_ w) (steady_now w) (system_now w) (app_ w).
Definition set_protocol p w : World U :=
  mkWorld (transport_ w) p (sent_ w) (steady_now w) (system_now w) (app_ w).
Definition set_sent (ds : list datagram) w : World U :=
  mkWorld (transport_ w) (protocol_ w) ds (steady_now w) (system_now w) (app_ w).
Definition set_app (u : U) w : World U :=
  mkWorld (transport_ w) (protocol_ w) (sent_ w) (steady_now w) (system_now w) u.

(** Changing the protocol object, or the reliability manager it owns. *)
Definition on_protocol (f : LumenProtocol -> LumenProtocol) : M (World U) unit :=
  modify (fun w => set_protocol (f (protocol_ w)) w).
Definition with_rm (f : ReliabilityManager -> ReliabilityManager) p : LumenProtocol :=
  set_reliability_manager (f (reliability_manager_ p)) p.
Definition on_rm (f : ReliabilityManager -> ReliabilityManager) : M (World U) unit :=
  on_protocol (with_rm f).

Definition mode_ w : ProtocolMode := transport_mode (transport_ w).
Definition rm w : ReliabilityManager := reliability_manager_ (protocol_ w).

(** Reading a member of the protocol object. *)
Definition ask {X} (f : LumenProtocol -> X) : M (World U) X := gets (fun w => f (protocol_ w)).

(** What [async_send_to] is called with. *)
Definition emit (ds : list datagram) : M (World U) unit :=
  modify (fun w => set_sent (sent_ w ++ ds) w).
End Updates.

(** ** Operations *)

Section Protocol.
Context {A : AsioAddress} {J : Json} {C : Chrono} {U : Type}.

Abbreviation MW := (M (World U)).

(** The two constructors, given the node's transport: the reliability manager is
    made with the retransmit callback, and the transport gets its receive callback. *)
Definition make_LumenProtocol (now : Z) (t : transport) : LumenProtocol * transport :=
  (mkLumenProtocol ∅ 0 ∅
     (set_retransmit_callback
       (make_ReliabilityManager now (bool_decide (transport_mode t = BASE_STATION))))
     false false false 0,
   match t with
   | Server s => Server (UdpServer.set_receive_callback s)
   | Client c => Client (UdpClient.set_receive_callback c)
   end).

(** [send_packet] *)
Definition send_packet (packet : LumenPacket) (recipient : endpoint) : MW unit :=
  let data := LumenPacket.to_bytes packet in
  try_catch
    (t ← gets transport_;
     match t with
     | Server s => emit (UdpServer.send_data data recipient s)
     | Client c =>
       sending_to_base ← try_runtime
         (base ← of_result (get_base_endpoint c); mret (bool_decide (recipient = base)))
         (fun _ => mret false);
       if sending_to_base : bool
       then ds ← of_result (UdpClient.send_data data c); emit ds
       else emit (send_data_to data recipient)
     end)
    (fun _ => mret tt).

(** The calls the reliability manager makes of its callbacks.  The retransmit
    callback is [send_packet]; the timeout callback is the application's. *)
Definition run_calls (timeout_callback : endpoint -> MW unit) (calls : list rm_call) : MW unit :=
  for_each (fun c => match c with
                     | CallRetransmit p e => send_packet p e
                     | CallTimeout e => timeout_callback e
                     end) calls.

(** [start]; the timer loop of the manager runs once, on no packets. *)
Definition start (timeout_callback : endpoint -> MW unit) : MW unit :=
  running ← ask running_;
  if running : bool then mret tt
  else
    on_protocol (set_running true) ;;
    on_protocol (set_frame_buffers ∅) ;;
    on_protocol (set_endpoint_map ∅) ;;
    now ← gets steady_now;
    r ← gets rm;
    let '(r', calls) := ReliabilityManager.start now r in
    on_rm (fun _ => r') ;;
    run_calls timeout_callback calls.

(** [stop] *)
Definition stop : MW unit :=
  running ← ask running_;
  if negb running then mret tt
  else
    on_protocol (set_running false) ;;
    on_rm ReliabilityManager.stop.

(** [generate_timestamp] *)
Definition timestamp_of (system : Z) : Z := u32 (Z.land (Z.quot system 1000000) 0xFFFFFFFF).

Definition generate_timestamp : MW Z := gets (fun w => timestamp_of (system_now w)).

(** [current_sequence_++] on the [std::atomic<uint8_t>] *)
Definition next_sequence : MW Z :=
  seq ← ask current_sequence_;
  on_protocol (set_current_sequence (u8 (seq + 1))) ;;
  mret seq.

(** The choice of [target_endpoint]; [None] is the early return. *)
Definition choose_target (recipient : endpoint) : MW (option endpoint) :=
  t ← gets transport_;
  match t with
  | Server _ => mret (if ep_unspecified recipient then None else Some recipient)
  | Client c =>
    if negb (ep_unspecified recipient) then mret (Some recipient)
    else base ← of_result (get_base_endpoint c); mret (Some base)
  end.

(** [send_message] *)
Definition send_message (payload : bytes) (type : MessageType) (priority : Priority)
    (recipient : endpoint) : MW unit :=
  running ← ask running_;
  if negb running then mret tt
  else
    seq ← next_sequence;
    timestamp ← generate_timestamp;
    let header := mkLumenHeader type priority seq timestamp (u16 (vec_size payload)) in
    let packet := make_packet header payload in
    target ← choose_target recipient;
    match target with
    | None => mret tt
    | Some target_endpoint =>
      now ← gets steady_now;
      when (negb (bool_decide (type = ACK)) && negb (bool_decide (type = NAK)))
        (on_rm (add_send_packet now seq packet target_endpoint)) ;;
      send_packet packet target_endpoint
    end.

(** [reset_sequence_number] *)
Definition reset_sequence_number : MW unit :=
  on_protocol (set_current_sequence 0) ;;
  on_rm reset_state ;;
  on_protocol (set_frame_buffers ∅).

(** [send_ack] *)
Definition send_ack (seq_to_ack : Z) (recipient : endpoint) : MW unit :=
  m ← gets mode_;
  if negb (bool_decide (m = BASE_STATION)) then mret tt
  else
    on_rm (record_acked_sequence seq_to_ack recipient) ;;
    let ack_payload := [seq_to_ack] in
    timestamp ← generate_timestamp;
    ack_seq ← next_sequence;
    let ack_header := mkLumenHeader ACK HIGH ack_seq timestamp (u16 (vec_size ack_payload)) in
    send_packet (make_packet ack_header ack_payload) recipient.

(** [send_nak]; its endpoint parameter has no name and is not used. *)
Definition send_nak (seq_requested : Z) (_ : endpoint) : MW unit :=
  t ← gets transport_;
  match t with
  | Server _ => mret tt
  | Client c =>
    match get_base_endpoint c with
    | Throw e => if is_runtime_error e then mret tt else throw e
    | Ok base_endpoint =>
      let nak_payload := [seq_requested] in
      timestamp ← generate_timestamp;
      nak_seq ← next_sequence;
      let nak_header := mkLumenHeader NAK HIGH nak_seq timestamp (u16 (vec_size nak_payload)) in
      send_packet (make_packet nak_header nak_payload) base_endpoint
    end
  end.

(** [check_sequence_gaps]: the loop ends when [MAX_NAKS_PER_CHECK] were sent. *)
Definition MAX_NAKS_PER_CHECK : Z := 3.

Fixpoint send_naks (missing_seqs : list Z) (nak_count : Z) (e : endpoint) : MW unit :=
  match missing_seqs with
  | [] => mret tt
  | missing_seq :: rest =>
    now ← gets steady_now;
    r ← gets rm;
    if negb (is_recently_naked now missing_seq r) then
      send_nak missing_seq e ;;
      on_rm (record_nak_sent now missing_seq) ;;
      if MAX_NAKS_PER_CHECK <=? nak_count + 1 then mret tt
      else send_naks rest (nak_count + 1) e
    else send_naks rest nak_count e
  end.

Definition check_sequence_gaps (e : endpoint) : MW unit :=
  r ← gets rm;
  send_naks (get_missing_sequences e r) 0 e.

(** *** Receiving *)

Section Receiving.
Context (message_callback : bytes -> LumenHeader -> endpoint -> MW unit).

(** Passing a payload up, if a callback is set. *)
Definition forward (payload : bytes) (header : LumenHeader) (e : endpoint) : MW unit :=
  callback_set ← ask message_callback_;
  when callback_set (message_callback payload header e).

(** The base station's part of [process_complete_packet]: whether to forward. *)
Definition acknowledge (seq : Z) (e : endpoint) : MW bool :=
  is_active ← ask session_active_;
  r ← gets rm;
  let already_acked := has_acked_sequence seq e r in
  if is_active : bool then
    if negb already_acked then
      on_rm (record_acked_sequence seq e) ;;
      send_ack seq e ;;
      mret true
    else
      send_ack seq e ;;
      mret false
  else mret (negb already_acked).

(** The rover's part: a check for gaps every five packets. *)
Definition count_packet (e : endpoint) : MW unit :=
  counter ← ask check_counter;
  let counter := u8 (counter + 1) in
  on_protocol (set_check_counter counter) ;;
  when (counter mod 5 =? 0) (check_sequence_gaps e).

(** [process_complete_packet] *)
Definition process_complete_packet (packet : LumenPacket) (e : endpoint) : MW unit :=
  let header := header_ packet in
  let payload := payload_ packet in
  let type := type_ header in
  let seq := sequence_ header in
  now ← gets steady_now;
  on_rm (record_received_sequence now seq e) ;;
  m ← gets mode_;
  if bool_decide (type = ACK) then
    when (bool_decide (m = ROVER) && (1 <=? vec_size payload))
      (on_rm (process_ack (vec_at 0 payload 0)))
  else if bool_decide (type = NAK) then
    when (bool_decide (m = BASE_STATION) && (1 <=? vec_size payload))
      (r ← gets rm;
       run_calls (fun _ => mret tt) (process_nak (vec_at 0 payload 0) r))
  else
    forward_payload ← (if bool_decide (m = BASE_STATION) then acknowledge seq e else mret true);
    when (bool_decide (m = ROVER)) (count_packet e) ;;
    when forward_payload (forward payload header e).

(** **** The frame buffer *)

(** The position of the first [LUMEN_STX] from index 1 on, the loop of
    [process_frame_buffer]. *)
Definition next_stx_pos (buffer : bytes) : option nat :=
  S <$> (fst <$> list_find (fun b => b = LUMEN_STX) (drop 1 buffer)).

(** What one iteration of the loop of [process_frame_buffer] does with a buffer
    that is not empty: takes a packet off, discards bytes and goes on, or stops
    with the buffer kept or cleared. *)
Inductive frame_action :=
| TakePacket (packet : LumenPacket) (rest : bytes)
| Discard (rest : bytes)
| Break (kept : bytes).

Definition frame_step (buffer : bytes) : frame_action :=
  match LumenPacket.from_bytes buffer with
  | None =>
    match LumenHeader.from_bytes buffer with
    | Some header =>
      let expected_total_size := LUMEN_HEADER_SIZE + payload_length_ header + 2 in
      if expected_total_size <=? vec_size buffer
      then Discard (drop (Z.to_nat expected_total_size) buffer)
      else Break buffer
    | None =>
      match next_stx_pos buffer with
      | Some pos => Discard (drop pos buffer)
      | None =>
        if MAX_FRAME_BUFFER_SIZE / 2 <? vec_size buffer then Break [] else Break buffer
      end
    end
  | Some packet =>
    let packet_size := total_size packet in
    if packet_size <=? vec_size buffer
    then TakePacket packet (drop (Z.to_nat packet_size) buffer)
    else Break []
  end.

(** [auto &buffer = frame_buffers_\[endpoint_key\]] *)
Definition frame_buffer (key : string) (w : World U) : bytes :=
  default [] (frame_buffers_ (protocol_ w) !! key).

Definition put_buffer (key : string) (buffer : bytes) : MW unit :=
  on_protocol (fun p => set_frame_buffers (<[key := buffer]> (frame_buffers_ p)) p).

(** The loop.  The result is whether it ended by itself, within the fuel. *)
Fixpoint frame_loop (fuel : nat) (key : string) (e : endpoint) : MW bool :=
  match fuel with
  | O => mret false
  | S fuel =>
    buffer ← gets (frame_buffer key);
    if bool_decide (buffer = []) then mret true
    else match frame_step buffer with
         | TakePacket packet rest =>
           put_buffer key rest ;;
           process_complete_packet packet e ;;
           frame_loop fuel key e
         | Discard rest => put_buffer key rest ;; frame_loop fuel key e
         | Break kept => put_buffer key kept ;; mret true
         end
  end.

(** [process_frame_buffer]; every iteration removes a byte, see
    [frame_step_shrinks], so the length of the buffer is enough fuel. *)
Definition process_frame_buffer (key : string) (e : endpoint) : MW unit :=
  buffers ← ask frame_buffers_;
  match buffers !! key with
  | None => mret tt
  | Some buffer =>
    frame_loop (S (length buffer)) key e ;;
    buffer ← gets (frame_buffer key);
    when (MAX_FRAME_BUFFER_SIZE <? vec_size buffer) (put_buffer key [])
  end.

(** **** Datagrams *)

(** The attempt to treat a datagram as raw JSON: whether it was handled. *)
Definition handle_raw_json (data : bytes) (e : endpoint) : MW bool :=
  let json_str := binary_to_string data in
  try_catch
    (valid ← of_result (is_valid_json json_str);
     if valid : bool then
       now ← gets system_now;
       of_result (deserialise now json_str) ;;
       timestamp ← generate_timestamp;
       let dummy_header := mkLumenHeader DATA MEDIUM 0 timestamp (u16 (vec_size data)) in
       forward data dummy_header e ;;
       mret true
     else mret false)
    (fun _ => mret false).

(** The fallback: the datagram becomes the content of a [BasicMessage]. *)
Definition wrap_raw (data : bytes) (e : endpoint) : MW unit :=
  try_catch
    (let content_string := binary_to_string data in
     let unknown_sender_id := "Unknown:" +:+ get_endpoint_key e in
     now ← gets system_now;
     json_payload_str ← of_result (serialise (BasicMessage content_string unknown_sender_id now));
     let binary_payload := string_to_binary json_payload_str in
     timestamp ← generate_timestamp;
     let dummy_header :=
       mkLumenHeader DATA MEDIUM 0 timestamp (u16 (vec_size binary_payload)) in
     forward binary_payload dummy_header e)
    (fun _ => mret tt).

(** [handle_udp_data], the receive callback of the transport; 123 is ['{']. *)
Definition handle_udp_data (data : bytes) (e : endpoint) : MW unit :=
  running ← ask running_;
  match data with
  | [] => mret tt
  | first :: _ =>
    if negb running then mret tt
    else if first =? LUMEN_STX then
      let endpoint_key := get_endpoint_key e in
      on_protocol (fun p => set_endpoint_map (<[endpoint_key := e]> (endpoint_map_ p)) p) ;;
      buffer ← gets (frame_buffer endpoint_key);
      put_buffer endpoint_key (buffer ++ data) ;;
      process_frame_buffer endpoint_key e
    else
      handled ← (if first =? 123 then handle_raw_json data e else mret false);
      if handled : bool then mret tt else wrap_raw data e
  end.
End Receiving.

(** *** Events of the environment *)

(** The sockets a node owns. *)
Definition node_server (w : World U) : UdpServer :=
  match transport_ w with Server s => s | Client _ => make_UdpServer end.
Definition set_node_server (s : UdpServer) (w : World U) : World U :=
  match transport_ w with Server _ => set_transport (Server s) w | Client _ => w end.
Definition node_client (w : World U) : UdpClient :=
  match transport_ w with Client c => c | Server _ => make_UdpClient end.
Definition set_node_client (c : UdpClient) (w : World U) : World U :=
  match transport_ w with Client _ => set_transport (Client c) w | Server _ => w end.

(** The completion of a receive of either socket, whose receive callback is
    [handle_udp_data]: [data] is the datagram that arrived from [sender]. *)
Definition server_receive (message_callback : bytes -> LumenHeader -> endpoint -> MW unit)
    (ec : error_code) (data : bytes) (sender : endpoint) : MW unit :=
  receive_completed node_server set_node_server (handle_udp_data message_callback) ec data sender.

Definition client_receive (message_callback : bytes -> LumenHeader -> endpoint -> MW unit)
    (error : error_code) (data : bytes) (sender : endpoint) : MW unit :=
  now ← gets steady_now;
  handle_receive node_client set_node_client (handle_udp_data message_callback) now error data sender.

(** The reliability manager's timers, the node's own. *)
Definition retransmit_timer_event (timeout_callback : endpoint -> MW unit) (error : bool)
    : MW unit :=
  now ← gets steady_now;
  r ← gets rm;
  let '(r', calls) := retransmit_timer_completed now error r in
  on_rm (fun _ => r') ;;
  run_calls timeout_callback calls.

Definition cleanup_timer_event (error : bool) : MW unit :=
  now ← gets steady_now;
  on_rm (cleanup_timer_completed now error).
End Protocol.
