(* ===== verification/ProtocolFacts.v ===== *)
(** * The protocol's functions: what they return, and what they leave alone

    Shared by the theorems on framing, delivery and sessions: no function throws
    except [send_message] on a rover without a base, and none but the frame loop
    and [reset_sequence_number] looks at the frame buffers. *)
From S2P Require Import Prelude Configs LumenHeader LumenPacket Asio ReliabilityManager.
From S2P Require Import UdpServer UdpClient Libraries Messages LumenProtocol Retransmission.

#[export] Typeclasses Opaque ReliabilityManager.start ReliabilityManager.stop
  retransmit_timer_completed cleanup_timer_completed process_nak get_missing_sequences
  is_recently_naked has_acked_sequence reset_state get_endpoint_key
  LumenPacket.from_bytes LumenPacket.to_bytes LumenHeader.from_bytes make_packet
  frame_step is_valid_json deserialise serialise UdpServer.send_data UdpClient.send_data
  get_base_endpoint send_data_to u8 u16 u32.

#[export] Hint Extern 1 (Commutes _ (ask _)) =>
  apply commutes_gets; intros; reflexivity : typeclass_instances.
#[export] Hint Extern 1 (Commutes _ (on_protocol _)) =>
  apply commutes_modify; intros; reflexivity : typeclass_instances.
#[export] Hint Extern 1 (Commutes _ (on_rm _)) =>
  apply commutes_modify; intros; reflexivity : typeclass_instances.
#[export] Hint Extern 1 (Commutes _ (emit _)) =>
  apply commutes_modify; intros; reflexivity : typeclass_instances.

Section Facts.
Context {A : AsioAddress} {J : Json} {C : Chrono} {U : Type}.
Implicit Types w : World U.

(** ** Sending a packet *)

(** The datagrams of a packet, by transport. *)
Definition packet_datagrams (t : transport) (p : LumenPacket) (e : endpoint) : list datagram :=
  let data := LumenPacket.to_bytes p in
  match t with
  | Server s => UdpServer.send_data data e s
  | Client c =>
    if negb (ep_unspecified (base_endpoint_ c)) && bool_decide (e = base_endpoint_ c)
    then [mkDatagram data e] else send_data_to data e
  end.

Lemma send_packet_run p e w :
  send_packet p e w = (Ok tt, set_sent (sent_ w ++ packet_datagrams (transport_ w) p e) w).
Proof.
  unfold send_packet, packet_datagrams, try_catch. rewrite run_bind, run_gets.
  destruct (transport_ w) as [s|c]; [done|].
  unfold get_base_endpoint, UdpClient.send_data.
  destruct (ep_unspecified (base_endpoint_ c)); [done|].
  unfold try_runtime, try_catch, of_result, mbind, M_bind. cbn.
  by destruct (bool_decide_reflect (e = base_endpoint_ c)) as [->|].
Qed.

#[global] Instance send_packet_no_throw p e : NoThrow (send_packet (U:=U) p e).
Proof. unfold send_packet. apply _. Qed.

#[global] Instance run_calls_no_throw cb calls :
  (forall e, NoThrow (cb e)) -> NoThrow (run_calls (U:=U) cb calls).
Proof. intros Hcb. unfold run_calls. apply _. Qed.

#[global] Instance start_no_throw cb :
  (forall e, NoThrow (cb e)) -> NoThrow (start (U:=U) cb).
Proof. intros Hcb. unfold start. apply _. Qed.

#[global] Instance stop_no_throw : NoThrow (stop (U:=U)).
Proof. unfold stop. apply _. Qed.

#[global] Instance send_ack_no_throw s e : NoThrow (send_ack (U:=U) s e).
Proof. unfold send_ack. apply _. Qed.

#[global] Instance send_nak_no_throw s e : NoThrow (send_nak (U:=U) s e).
Proof.
  unfold send_nak, get_base_endpoint. apply no_throw_bind; [apply _|]. intros [|c]; [apply _|].
  destruct (ep_unspecified _); cbn [is_runtime_error]; apply _.
Qed.

#[global] Instance send_naks_no_throw l n e : NoThrow (send_naks (U:=U) l n e).
Proof. revert n. induction l; intros n; cbn [send_naks]; apply _. Qed.

#[global] Instance check_sequence_gaps_no_throw e : NoThrow (check_sequence_gaps (U:=U) e).
Proof. unfold check_sequence_gaps. apply _. Qed.

#[global] Instance process_complete_packet_no_throw cb p e :
  (forall pl h e, NoThrow (cb pl h e)) -> NoThrow (process_complete_packet (U:=U) cb p e).
Proof.
  intros Hcb. unfold process_complete_packet, acknowledge, count_packet, forward. cbv zeta. apply _.
Qed.

(** ** The frame buffers *)

Definition with_buffers (fb : gmap string bytes) w : World U :=
  set_protocol (set_frame_buffers fb (protocol_ w)) w.

Lemma with_buffers_id w : with_buffers (frame_buffers_ (protocol_ w)) w = w.
Proof. by destruct w as [t []]. Qed.

Lemma with_buffers_twice fb1 fb2 w : with_buffers fb1 (with_buffers fb2 w) = with_buffers fb1 w.
Proof. done. Qed.

Section Buffers.
Context (fb : gmap string bytes).

#[local] Abbreviation T := (with_buffers fb).

#[global] Instance send_packet_buffers p e : Commutes T (send_packet p e).
Proof. unfold send_packet. apply _. Qed.

#[global] Instance run_calls_buffers cb calls :
  (forall e, Commutes T (cb e)) -> Commutes T (run_calls cb calls).
Proof. intros Hcb. unfold run_calls. apply _. Qed.

#[global] Instance send_message_buffers pl ty pr e : Commutes T (send_message pl ty pr e).
Proof. unfold send_message, next_sequence, generate_timestamp, choose_target. cbv zeta. apply _. Qed.

#[global] Instance send_ack_buffers s e : Commutes T (send_ack s e).
Proof. unfold send_ack, next_sequence, generate_timestamp. cbv zeta. apply _. Qed.

#[global] Instance send_nak_buffers s e : Commutes T (send_nak s e).
Proof. unfold send_nak, next_sequence, generate_timestamp. cbv zeta. apply _. Qed.

#[global] Instance send_naks_buffers l n e : Commutes T (send_naks l n e).
Proof. revert n. induction l; intros n; cbn [send_naks]; apply _. Qed.

#[global] Instance check_sequence_gaps_buffers e : Commutes T (check_sequence_gaps e).
Proof. unfold check_sequence_gaps. apply _. Qed.

#[global] Instance process_complete_packet_buffers cb p e :
  (forall pl h e, Commutes T (cb pl h e)) -> Commutes T (process_complete_packet cb p e).
Proof.
  intros Hcb. unfold process_complete_packet, acknowledge, count_packet, forward. cbv zeta. apply _.
Qed.
End Buffers.
End Facts.

(** ** The sockets *)

Section Sockets.
Context {A : AsioAddress} {J : Json} {C : Chrono} {U : Type}.
Implicit Types w : World U.

(** A socket whose receives reach the protocol. *)
Definition socket_up (t : transport) : Prop :=
  match t with
  | Server s => UdpServer.running_ s = true /\ UdpServer.receive_callback_ s = true
  | Client c => UdpClient.running_ c = true /\ UdpClient.receive_callback_ c = true
  end.

(** The node while a receive from [e] is handled, and when the next one was begun. *)
Definition hearing (e : endpoint) w : World U :=
  match transport_ w with
  | Server s => set_transport (Server (mkUdpServer (UdpServer.running_ s) (UdpServer.socket_open_ s)
      false (UdpServer.receive_callback_ s) e)) w
  | Client c => set_transport (Client (set_receiving false (set_receive_endpoint e c))) w
  end.

Definition server_rearmed w : World U := set_node_server (UdpServer.receive_data (node_server w)) w.
Definition client_rearmed w : World U := set_node_client (do_receive (node_client w)) w.

Lemma server_rearm w :
  (if UdpServer.running_ (node_server w) then server_rearmed w else w) = server_rearmed w.
Proof.
  unfold server_rearmed, UdpServer.receive_data, node_server, set_node_server.
  destruct w as [[s|c]]; cbn [transport_]; [|done]. by destruct (UdpServer.running_ s).
Qed.

Lemma client_rearm w :
  (if UdpClient.running_ (node_client w) then client_rearmed w else w) = client_rearmed w.
Proof.
  unfold client_rearmed, do_receive, node_client, set_node_client.
  destruct w as [[s|c]]; cbn [transport_]; [done|]. by destruct (UdpClient.running_ c).
Qed.

Lemma caught (m : M (World U) unit) w :
  try_catch m (fun _ => mret tt) w = (Ok tt, run_state m w).
Proof. unfold run_state, try_catch. by destruct (m w) as [[[]|] w']. Qed.

Section Callback.
Context (cb : bytes -> LumenHeader -> endpoint -> M (World U) unit).

(** A datagram arrives: what fits into the buffer is handled, and the socket listens
    again. *)
Lemma server_receive_run data e w : mode_ w = BASE_STATION -> socket_up (transport_ w) ->
  server_receive cb NoError data e w =
  (Ok tt, server_rearmed (run_state
    (handle_udp_data cb (received_data SERVER_SOCK_BUF_SIZE data) e) (hearing e w))).
Proof.
  unfold mode_. intros Hm Hup. destruct (transport_ w) as [s|c] eqn:Ht; [|done].
  destruct Hup as [Hr Hc]. set (s' := mkUdpServer (UdpServer.running_ s)
    (UdpServer.socket_open_ s) false (UdpServer.receive_callback_ s) e).
  assert (hearing e w = set_transport (Server s') w) as Hh by (unfold hearing; by rewrite Ht).
  unfold server_receive, receive_completed. rewrite run_bind, run_modify. cbv iota.
  rewrite bool_decide_true by done. assert (forall s1, node_server w = s /\
    set_node_server s1 w = set_transport (Server s1) w) as Hn
    by (intros s1; unfold node_server, set_node_server; by rewrite Ht).
  rewrite (proj1 (Hn s)), (proj2 (Hn _)). fold s'. rewrite <- Hh, run_bind, run_gets.
  assert (node_server (hearing e w) = s') as -> by (by rewrite Hh).
  unfold s'. cbn [UdpServer.running_ UdpServer.receive_callback_ sender_endpoint_].
  rewrite Hr, Hc. cbn [andb when]. rewrite run_bind, caught. cbv iota. rewrite run_modify.
  by rewrite server_rearm.
Qed.

Lemma client_receive_run data e w : mode_ w = ROVER -> socket_up (transport_ w) ->
  client_receive cb NoError data e w =
  (Ok tt, client_rearmed (run_state
    (handle_udp_data cb (received_data CLIENT_SOCK_BUF_SIZE data) e) (hearing e w))).
Proof.
  unfold mode_. intros Hm Hup. destruct (transport_ w) as [s|c] eqn:Ht; [done|].
  destruct Hup as [Hr Hc]. set (c' := set_receiving false (set_receive_endpoint e c)).
  assert (hearing e w = set_transport (Client c') w) as Hh by (unfold hearing; by rewrite Ht).
  unfold client_receive, handle_receive. rewrite run_bind, run_gets, run_bind, run_modify. cbv iota.
  rewrite bool_decide_true by done. assert (forall c1, node_client w = c /\
    set_node_client c1 w = set_transport (Client c1) w) as Hn
    by (intros c1; unfold node_client, set_node_client; by rewrite Ht).
  rewrite (proj1 (Hn c)), (proj2 (Hn _)). fold c'. rewrite <- Hh, run_bind, run_gets.
  assert (node_client (hearing e w) = c') as -> by (by rewrite Hh).
  unfold c'. cbn [UdpClient.running_ UdpClient.receive_callback_ receive_endpoint_ set_receiving
    set_receive_endpoint].
  rewrite Hr, Hc. cbn [andb when]. rewrite run_bind, caught. cbv iota. rewrite run_modify.
  by rewrite client_rearm.
Qed.
End Callback.

(** The node's socket but for the bookkeeping of its receives. *)
Definition same_node (t t' : transport) : Prop :=
  match t, t' with
  | Server s, Server s' => UdpServer.running_ s' = UdpServer.running_ s /\
      UdpServer.receive_callback_ s' = UdpServer.receive_callback_ s
  | Client c, Client c' => same_socket c c' /\ UdpClient.running_ c' = UdpClient.running_ c /\
      UdpClient.receive_callback_ c' = UdpClient.receive_callback_ c
  | _, _ => False
  end.

#[global] Instance same_node_preorder : PreOrder same_node.
Proof.
  split; [by intros []|]. intros [s1|c1] [s2|c2] [s3|c3]; cbn; try done.
  - intros [-> ->] [-> ->]. done.
  - intros ([E1 E2] & -> & ->) ([E3 E4] & -> & ->). split; [|done]. split; congruence.
Qed.

Lemma same_node_mode t t' : same_node t t' -> transport_mode t' = transport_mode t.
Proof. by destruct t, t'. Qed.

Lemma same_node_up t t' : same_node t t' -> socket_up t -> socket_up t'.
Proof.
  destruct t as [s|c], t' as [s'|c']; cbn; try done.
  - by intros [-> ->].
  - by intros (_ & -> & ->).
Qed.

(** Receiving changes no more than that before and after its handler. *)
Record same_but_socket w w' : Prop := {
  socket_node : same_node (transport_ w) (transport_ w');
  socket_protocol : protocol_ w' = protocol_ w;
  socket_sent : sent_ w' = sent_ w;
  socket_steady : steady_now w' = steady_now w;
  socket_system : system_now w' = system_now w;
  socket_app : app_ w' = app_ w;
}.

Lemma socket_mode w w' : same_but_socket w w' -> mode_ w' = mode_ w.
Proof. intros [H _ _ _ _ _]. by apply same_node_mode. Qed.

Lemma hearing_same e w : same_but_socket w (hearing e w).
Proof. unfold hearing. destruct (transport_ w) eqn:E; split; by rewrite ?E. Qed.

Lemma server_rearmed_same w : same_but_socket w (server_rearmed w).
Proof.
  unfold server_rearmed, set_node_server, node_server, UdpServer.receive_data.
  destruct (transport_ w) as [s|c] eqn:E; [|split; by rewrite ?E].
  split; rewrite ?E; cbn; try done. by destruct (UdpServer.running_ s) eqn:Er; cbn; rewrite ?Er.
Qed.

Lemma client_rearmed_same w : same_but_socket w (client_rearmed w).
Proof.
  unfold client_rearmed, set_node_client, node_client, do_receive.
  destruct (transport_ w) as [s|c] eqn:E; [split; by rewrite ?E|].
  split; rewrite ?E; cbn; try done. by destruct (UdpClient.running_ c) eqn:Er; cbn; rewrite ?Er.
Qed.

Lemma socket_still_up w w' : same_but_socket w w' -> socket_up (transport_ w) -> socket_up (transport_ w').
Proof. intros [H _ _ _ _ _]. by apply same_node_up. Qed.
End Sockets.

(** ** Invariants of the layers above *)

Section Stable.
Context {A : AsioAddress} {J : Json} {C : Chrono} {U : Type}.
Implicit Types w : World U.

(** What the protocol never changes on its own. *)
Record same_session w w' : Prop := {
  session_transport : transport_ w' = transport_ w;
  session_flag : session_active_ (protocol_ w') = session_active_ (protocol_ w);
  session_app : app_ w' = app_ w;
}.

(** An invariant that depends on nothing else is preserved by the whole protocol,
    when the callbacks preserve it. *)
Class Stable (I : World U -> Prop) : Prop := stable w w' : same_session w w' -> I w -> I w'.

Lemma stable_modify I `{!Stable I} f : (forall w, same_session w (f w)) -> Preserves I (modify f).
Proof. intros Hf. apply preserves_modify. intros w. apply stable, Hf. Qed.

Context (I : World U -> Prop) `{!Stable I}.

#[local] Hint Extern 3 (Preserves _ (modify _)) =>
  (apply stable_modify; [assumption|intros; split; reflexivity]) : typeclass_instances.

#[global] Instance on_rm_stable f : Preserves I (on_rm f).
Proof. unfold on_rm, on_protocol. apply _. Qed.
#[global] Instance emit_stable ds : Preserves I (emit ds).
Proof. unfold emit. apply _. Qed.
#[global] Instance put_buffer_stable key b : Preserves I (put_buffer key b).
Proof. unfold put_buffer, on_protocol. apply _. Qed.
#[global] Instance ask_stable {X} (f : LumenProtocol -> X) : Preserves I (ask f).
Proof. unfold ask. apply _. Qed.

#[global] Instance send_packet_stable p e : Preserves I (send_packet p e).
Proof. unfold send_packet. apply _. Qed.

#[global] Instance run_calls_stable cb calls :
  (forall e, Preserves I (cb e)) -> Preserves I (run_calls cb calls).
Proof. intros Hcb. unfold run_calls. apply _. Qed.

#[global] Instance start_stable cb : (forall e, Preserves I (cb e)) -> Preserves I (start cb).
Proof. intros Hcb. unfold start, on_protocol. apply _. Qed.

#[global] Instance stop_stable : Preserves I stop.
Proof. unfold stop, on_protocol. apply _. Qed.

#[global] Instance next_sequence_stable : Preserves I next_sequence.
Proof. unfold next_sequence, on_protocol. apply _. Qed.

#[global] Instance send_message_stable pl ty pr e : Preserves I (send_message pl ty pr e).
Proof. unfold send_message, generate_timestamp, choose_target. cbv zeta. apply _. Qed.

#[global] Instance reset_sequence_number_stable : Preserves I reset_sequence_number.
Proof. unfold reset_sequence_number, on_protocol. apply _. Qed.

#[global] Instance send_ack_stable s e : Preserves I (send_ack s e).
Proof. unfold send_ack, generate_timestamp. cbv zeta. apply _. Qed.

#[global] Instance send_nak_stable s e : Preserves I (send_nak s e).
Proof. unfold send_nak, generate_timestamp. cbv zeta. apply _. Qed.

#[global] Instance send_naks_stable l n e : Preserves I (send_naks l n e).
Proof. revert n. induction l; intros n; cbn [send_naks]; apply _. Qed.

Section Callback.
Context (cb : bytes -> LumenHeader -> endpoint -> M (World U) unit).
Context `{!forall pl h e, Preserves I (cb pl h e)}.

#[global] Instance process_complete_packet_stable p e : Preserves I (process_complete_packet cb p e).
Proof.
  unfold process_complete_packet, acknowledge, count_packet, forward, check_sequence_gaps,
    on_protocol. cbv zeta. apply _.
Qed.

#[global] Instance frame_loop_stable fuel key e : Preserves I (frame_loop cb fuel key e).
Proof. induction fuel; cbn [frame_loop]; apply _. Qed.

#[global] Instance process_frame_buffer_stable key e : Preserves I (process_frame_buffer cb key e).
Proof. unfold process_frame_buffer. apply _. Qed.

#[global] Instance handle_udp_data_stable data e : Preserves I (handle_udp_data cb data e).
Proof.
  unfold handle_udp_data, handle_raw_json, wrap_raw, forward, generate_timestamp, on_protocol.
  cbv zeta. apply _.
Qed.
End Callback.

#[global] Instance retransmit_timer_event_stable cb error :
  (forall e, Preserves I (cb e)) -> Preserves I (retransmit_timer_event cb error).
Proof. intros Hcb. unfold retransmit_timer_event. apply _. Qed.

#[global] Instance cleanup_timer_event_stable error : Preserves I (cleanup_timer_event error).
Proof. unfold cleanup_timer_event. apply _. Qed.
End Stable.

(** ** Nodes to evaluate on *)

Module Sample.
Import Ipv4 SampleLibraries.

(** A running base station with an active session and a running rover whose base
    is resolved; the layers above record the payloads they get. *)
Definition base_of {U} (u : U) : World U :=
  mkWorld (Server (mkUdpServer true true true true endpoint_default))
    (mkLumenProtocol ∅ 0 ∅ (sample_manager true) true true true 0) [] 0 0 u.

Definition rover_of {U} (u : U) : World U :=
  mkWorld (Client (mkUdpClient true true true true base_ep endpoint_default None))
    (mkLumenProtocol ∅ 0 ∅ (sample_manager false) true true false 0) [] 0 0 u.

Definition base_node : World (list bytes) := base_of [].
Definition rover_node : World (list bytes) := rover_of [].

Definition record_payload (payload : bytes) (_ : LumenHeader) (_ : endpoint)
    : M (World (list bytes)) unit := modify (fun w => set_app (app_ w ++ [payload]) w).

#[export] Instance record_payload_no_throw pl h e : NoThrow (record_payload pl h e).
Proof. unfold record_payload. apply _. Qed.

#[export] Instance record_payload_buffers pl h e fb :
  Commutes (with_buffers fb) (record_payload pl h e).
Proof. unfold record_payload. apply _. Qed.
End Sample.
