(* ===== verification/Framing.v ===== *)
(** * Framing: how byte streams become packets

    The frame buffer of [LumenProtocol::process_frame_buffer]: its loop ends, it does
    what a grammar of the stream says ([deframes]), it takes the packets off in order, it
    goes on after a damaged packet, and the buffer stays bounded. *)
From S2P Require Import Prelude Configs Crc8 LumenHeader LumenPacket Asio ReliabilityManager.
From S2P Require Import UdpServer UdpClient Libraries Messages LumenProtocol Retransmission ProtocolFacts.

(** ** The reference: what a buffer holds *)

(** No header can be read at the front. *)
Definition no_header (bs : bytes) : Prop :=
  forall h tail, header_ok h -> bs <> LumenHeader.to_bytes h ++ tail.

(** A frame whose bytes behind the header are not those of any packet: its checksum or
    its end marker is wrong. *)
Definition no_packet (frame : bytes) : Prop :=
  forall p, packet_ok p -> frame <> LumenPacket.to_bytes p.

(** [deframes bs ps left]: of the buffer [bs] the packets [ps] are to be processed, and
    [left] is to be kept.  This says what the bytes mean, by what the encoders write,
    and does not mention the parsers:
    - the bytes of a packet are that packet, whatever follows;
    - a header and as many bytes as it announces, that are no packet, are skipped;
    - a header with fewer bytes than it announces is kept, to be completed;
    - where no header can be read, everything up to the next start marker is skipped;
      without one, the bytes are kept unless they are more than half the limit. *)
Inductive deframes : bytes -> list LumenPacket -> bytes -> Prop :=
| deframes_empty : deframes [] [] []
| deframes_packet p rest ps left :
    packet_ok p -> deframes rest ps left ->
    deframes (LumenPacket.to_bytes p ++ rest) (p :: ps) left
| deframes_damaged h body rest ps left :
    header_ok h -> vec_size body = payload_length_ h + 2 ->
    no_packet (LumenHeader.to_bytes h ++ body) -> deframes rest ps left ->
    deframes ((LumenHeader.to_bytes h ++ body) ++ rest) ps left
| deframes_incomplete h body :
    header_ok h -> vec_size body < payload_length_ h + 2 ->
    deframes (LumenHeader.to_bytes h ++ body) [] (LumenHeader.to_bytes h ++ body)
| deframes_junk b junk rest ps left :
    no_header (b :: junk ++ LUMEN_STX :: rest) -> LUMEN_STX ∉ junk ->
    deframes (LUMEN_STX :: rest) ps left ->
    deframes (b :: junk ++ LUMEN_STX :: rest) ps left
| deframes_kept b junk :
    no_header (b :: junk) -> LUMEN_STX ∉ junk ->
    vec_size (b :: junk) <= MAX_FRAME_BUFFER_SIZE / 2 ->
    deframes (b :: junk) [] (b :: junk)
| deframes_dropped b junk :
    no_header (b :: junk) -> LUMEN_STX ∉ junk ->
    MAX_FRAME_BUFFER_SIZE / 2 < vec_size (b :: junk) ->
    deframes (b :: junk) [] [].

(** The loop as a function of the buffer, step by step; [deframe_spec] shows that it
    finds what the reference says. *)
Fixpoint deframe_fuel (fuel : nat) (buffer : bytes) : list LumenPacket * bytes :=
  match fuel with
  | O => ([], buffer)
  | S fuel =>
    if bool_decide (buffer = []) then ([], [])
    else match frame_step buffer with
         | TakePacket packet rest =>
           let '(packets, leftover) := deframe_fuel fuel rest in (packet :: packets, leftover)
         | Discard rest => deframe_fuel fuel rest
         | Break kept => ([], kept)
         end
  end.

Definition deframe (buffer : bytes) : list LumenPacket * bytes :=
  deframe_fuel (S (length buffer)) buffer.

(** A list of packets as a stream of bytes. *)
Definition stream (ps : list LumenPacket) : bytes := ps ≫= LumenPacket.to_bytes.

(** ** One step *)

Lemma payload_length_u16 bs h : LumenHeader.from_bytes bs = Some h -> is_u16 (payload_length_ h).
Proof.
  unfold LumenHeader.from_bytes, LumenHeader.from_bytes_oob.
  destruct (vec_size bs <? LUMEN_HEADER_SIZE); [done|].
  destruct (negb (_ =? LUMEN_STX)); [done|].
  destruct (5 <? _); [done|]. destruct (2 <? _); [done|].
  intros (t & _ & H)%bind_Some. apply bind_Some in H as (p & _ & [= <-]).
  apply u16_range.
Qed.

Lemma next_stx_pos_Some bs pos : next_stx_pos bs = Some pos -> (1 <= pos < length bs)%nat.
Proof.
  unfold next_stx_pos. destruct (list_find _ _) as [[i b]|] eqn:E; [|done].
  simpl. intros [= <-]. apply list_find_Some in E as (E & _ & _).
  apply lookup_lt_Some in E. rewrite length_drop in E. lia.
Qed.

Lemma length_drop_vec n bs : 0 < n -> n <= vec_size bs ->
  (length (drop (Z.to_nat n) bs) < length bs)%nat.
Proof. unfold vec_size. intros. rewrite length_drop. lia. Qed.

(** The loop's measure: what is left for the next iteration is shorter. *)
Lemma frame_step_shrinks bs :
  match frame_step bs with
  | TakePacket _ rest | Discard rest => bs <> [] -> (length rest < length bs)%nat
  | Break kept => kept = [] \/ kept = bs
  end.
Proof.
  unfold frame_step. destruct (LumenPacket.from_bytes bs) as [p|].
  - pose proof (vec_size_nonneg (payload_ p)). unfold total_size, LUMEN_HEADER_SIZE.
    destruct (_ <=? vec_size bs) eqn:E; [|by left]. intros _. apply length_drop_vec; lia.
  - destruct (LumenHeader.from_bytes bs) as [h|] eqn:Eh.
    + apply payload_length_u16 in Eh. unfold is_u16, LUMEN_HEADER_SIZE in *.
      destruct (_ <=? vec_size bs) eqn:E; [|by right]. intros _. apply length_drop_vec; lia.
    + destruct (next_stx_pos bs) as [pos|] eqn:Ep.
      * apply next_stx_pos_Some in Ep. intros _. rewrite length_drop. lia.
      * destruct (_ <? _); [by left|by right].
Qed.

(** More fuel than bytes changes nothing. *)
Lemma deframe_fuel_enough n : forall bs, (length bs < n)%nat -> deframe_fuel n bs = deframe bs.
Proof.
  induction n as [n IH] using lt_wf_ind. intros bs Hn. destruct n as [|n]; [lia|].
  unfold deframe. cbn [deframe_fuel].
  destruct (bool_decide_reflect (bs = [])) as [->|Hne]; [done|].
  pose proof (frame_step_shrinks bs) as Hs.
  assert (forall rest, (length rest < length bs)%nat ->
    deframe_fuel n rest = deframe_fuel (length bs) rest) as Hrest.
  { intros rest Hr. rewrite (IH n) by lia.
    destruct (decide (n = length bs)) as [->|]; [by rewrite IH by lia|].
    by rewrite (IH (length bs)) by lia. }
  destruct (frame_step bs); [|by apply Hrest, Hs|done].
  by rewrite (Hrest _ (Hs Hne)).
Qed.

Lemma deframe_unfold bs : bs <> [] ->
  deframe bs = match frame_step bs with
               | TakePacket packet rest =>
                 let '(packets, leftover) := deframe rest in (packet :: packets, leftover)
               | Discard rest => deframe rest
               | Break kept => ([], kept)
               end.
Proof.
  intros Hne. unfold deframe at 1. cbn [deframe_fuel]. rewrite bool_decide_false by done.
  pose proof (frame_step_shrinks bs) as Hs. destruct (frame_step bs); [|by apply deframe_fuel_enough, Hs|done].
  by rewrite deframe_fuel_enough by (by apply Hs).
Qed.

(** ** Streams of packets *)

Lemma to_bytes_ne p rest : LumenPacket.to_bytes p ++ rest <> [].
Proof.
  intros H. apply (f_equal length) in H. rewrite length_app, length_packet_to_bytes in H.
  cbn [length] in H. lia.
Qed.

Lemma drop_total_size p rest :
  drop (Z.to_nat (total_size p)) (LumenPacket.to_bytes p ++ rest) = rest.
Proof.
  rewrite total_size_to_bytes. unfold vec_size. rewrite Nat2Z.id. apply drop_app_length.
Qed.

Lemma frame_step_packet p rest : packet_ok p -> bytes_ok rest ->
  frame_step (LumenPacket.to_bytes p ++ rest) = TakePacket p rest.
Proof.
  intros Hp Hrest. unfold frame_step. rewrite packet_from_to_bytes by done.
  rewrite total_size_to_bytes, vec_size_app. pose proof (vec_size_nonneg rest).
  replace (_ <=? _) with true by lia.
  by rewrite <- total_size_to_bytes, drop_total_size.
Qed.

Lemma stream_ok ps : Forall packet_ok ps -> bytes_ok (stream ps).
Proof.
  induction 1; [constructor|]. unfold stream. rewrite bind_cons.
  apply bytes_ok_app. split; [by apply packet_to_bytes_ok|done].
Qed.

Lemma deframe_stream ps rest : Forall packet_ok ps -> bytes_ok rest ->
  deframe (stream ps ++ rest) = (ps ++ fst (deframe rest), snd (deframe rest)).
Proof.
  intros Hps Hrest. induction Hps as [|p ps Hp Hps IH]; [change (stream [] ++ rest) with rest; by destruct (deframe rest)|].
  assert (bytes_ok (stream ps ++ rest)) by (apply bytes_ok_app; split; [by apply stream_ok|done]).
  unfold stream. rewrite bind_cons, <- app_assoc. fold (stream ps).
  rewrite deframe_unfold by apply to_bytes_ne.
  rewrite frame_step_packet by done.
  by rewrite IH.
Qed.

(** A corrupted packet that still has its header and its length is skipped whole. *)
Lemma frame_step_damaged bs rest h :
  LumenHeader.from_bytes bs = Some h -> vec_size bs = LUMEN_HEADER_SIZE + payload_length_ h + 2 ->
  bytes_ok bs -> bytes_ok rest ->
  LumenPacket.from_bytes (bs ++ rest) = None ->
  frame_step (bs ++ rest) = Discard rest.
Proof.
  intros Hh Hsz Hbs Hrest Hp. unfold frame_step. rewrite Hp.
  assert (LumenHeader.from_bytes (bs ++ rest) = Some h) as ->.
  { apply header_from_bytes_inv in Hh as [Hhok [tl ->]]; [|done].
    by rewrite <- app_assoc, header_from_to_bytes. }
  rewrite vec_size_app. pose proof (vec_size_nonneg rest).
  replace (_ <=? _) with true by lia. rewrite <- Hsz. unfold vec_size.
  by rewrite Nat2Z.id, drop_app_length.
Qed.

Lemma deframe_damaged bs rest h :
  LumenHeader.from_bytes bs = Some h -> vec_size bs = LUMEN_HEADER_SIZE + payload_length_ h + 2 ->
  bytes_ok bs -> bytes_ok rest ->
  LumenPacket.from_bytes (bs ++ rest) = None ->
  deframe (bs ++ rest) = deframe rest.
Proof.
  intros Hh Hsz Hbs Hrest Hp. rewrite deframe_unfold.
  - by erewrite frame_step_damaged.
  - apply payload_length_u16 in Hh. unfold is_u16, LUMEN_HEADER_SIZE, vec_size in *.
    destruct bs; [cbn [length] in Hsz; lia|done].
Qed.

(** ** The loop *)

Section Loop.
Context {A : AsioAddress} {J : Json} {C : Chrono} {U : Type}.
Context (cb : bytes -> LumenHeader -> endpoint -> M (World U) unit).
Context `{Hcb : !forall pl h e fb, Commutes (with_buffers fb) (cb pl h e)}.
Implicit Types w : World U.

(** Processing the packets found, one after the other. *)
Definition process_packets (ps : list LumenPacket) (e : endpoint) : M (World U) unit :=
  for_each (fun p => process_complete_packet cb p e) ps.

#[local] Instance process_packets_buffers ps e fb : Commutes (with_buffers fb) (process_packets ps e).
Proof. unfold process_packets. apply _. Qed.

Lemma put_buffer_run key b w :
  put_buffer key b w = (Ok tt, with_buffers (<[key := b]> (frame_buffers_ (protocol_ w))) w).
Proof. done. Qed.

Lemma frame_buffer_insert key b w fb :
  frame_buffer key (with_buffers (<[key := b]> fb) w) = b.
Proof. unfold frame_buffer, with_buffers. simpl. by rewrite lookup_insert_eq. Qed.

(** What the state is when the loop has dealt with the packets [ps] and left the
    bytes [rest]. *)
Definition after_packets (key : string) (e : endpoint) (ps : list LumenPacket) (rest : bytes) w
    : World U :=
  with_buffers (<[key := rest]> (frame_buffers_ (protocol_ w)))
    (run_state (process_packets ps e) w).

Lemma frame_loop_run `{!forall pl h e, NoThrow (cb pl h e)} key e fuel : forall b w,
  frame_buffers_ (protocol_ w) !! key = Some b -> (length b < fuel)%nat ->
  frame_loop cb fuel key e w = (Ok true, after_packets key e (deframe b).1 (deframe b).2 w).
Proof.
  unfold after_packets. induction fuel as [|fuel IH]; intros b w Hb Hf; [lia|].
  cbn [frame_loop]. rewrite run_bind, run_gets.
  assert (frame_buffer key w = b) as -> by (unfold frame_buffer; by rewrite Hb).
  destruct (bool_decide_reflect (b = [])) as [->|Hne].
  { rewrite insert_id by done. by rewrite with_buffers_id. }
  rewrite deframe_unfold by done. pose proof (frame_step_shrinks b) as Hs.
  destruct (frame_step b) as [p rest|rest|kept].
  - rewrite run_bind, put_buffer_run. cbv iota. rewrite run_bind, commutes.
    set (w' := run_state (process_complete_packet cb p e) w).
    assert (process_complete_packet cb p e w = (Ok tt, w')) as Hp by apply no_throw_unit, _.
    unfold run_result. rewrite Hp. cbn [fst].
    rewrite (IH rest) by (specialize (Hs Hne); simpl; rewrite ?lookup_insert_eq; done || lia).
    destruct (deframe rest) as [ps leftover]. cbn [fst snd].
    rewrite (run_state_commutes (with_buffers _)) by apply _. simpl. rewrite insert_insert_eq.
    unfold run_state at 2. unfold process_packets. cbn [for_each]. rewrite run_bind, Hp. done.
  - rewrite run_bind, put_buffer_run. cbv iota.
    rewrite (IH rest) by (specialize (Hs Hne); simpl; rewrite ?lookup_insert_eq; done || lia).
    rewrite (run_state_commutes (with_buffers _)) by apply _. simpl. by rewrite insert_insert_eq.
  - done.
Qed.

(** The test at the end of [process_frame_buffer]. *)
Definition clip (b : bytes) : bytes := if MAX_FRAME_BUFFER_SIZE <? vec_size b then [] else b.

Lemma process_frame_buffer_run `{!forall pl h e, NoThrow (cb pl h e)} key e b w :
  frame_buffers_ (protocol_ w) !! key = Some b ->
  process_frame_buffer cb key e w =
  (Ok tt, after_packets key e (deframe b).1 (clip (deframe b).2) w).
Proof.
  intros Hb. unfold process_frame_buffer. rewrite run_bind. unfold ask. rewrite run_gets, Hb.
  rewrite run_bind, (frame_loop_run key e _ b w Hb) by lia. cbv iota.
  unfold after_packets. rewrite run_bind, run_gets, frame_buffer_insert. unfold clip.
  destruct (_ <? _); [|done]. cbn [when]. rewrite put_buffer_run. simpl. by rewrite insert_insert_eq.
Qed.

(** The state in which the packets of a datagram are processed: the endpoint is noted. *)
Definition note_endpoint (e : endpoint) w : World U :=
  set_protocol (set_endpoint_map (<[get_endpoint_key e := e]> (endpoint_map_ (protocol_ w)))
    (protocol_ w)) w.

Lemma handle_udp_data_run `{!forall pl h e, NoThrow (cb pl h e)} data e w :
  running_ (protocol_ w) = true -> head data = Some LUMEN_STX ->
  let key := get_endpoint_key e in
  let found := deframe (frame_buffer key w ++ data) in
  handle_udp_data cb data e w =
  (Ok tt, after_packets key e found.1 (clip found.2) (note_endpoint e w)).
Proof.
  intros Hr Hd key found. unfold handle_udp_data. rewrite run_bind. unfold ask.
  rewrite run_gets, Hr. destruct data as [|b data]; [done|]. injection Hd as ->.
  cbn [negb]. rewrite Z.eqb_refl. rewrite run_bind. unfold on_protocol at 1. rewrite run_modify.
  cbv iota. rewrite run_bind, run_gets. fold key.
  rewrite run_bind, put_buffer_run. cbv iota.
  rewrite (process_frame_buffer_run key e (frame_buffer key w ++ LUMEN_STX :: data))
    by (simpl; by rewrite lookup_insert_eq).
  unfold after_packets. simpl. fold (note_endpoint e w). rewrite insert_insert_eq.
  by rewrite (run_state_commutes (with_buffers _)) by apply _.
Qed.
End Loop.

(** ** Incomplete packets *)

(** A buffer whose header promises more than it holds is kept. *)
Lemma frame_step_short bs h : LumenHeader.from_bytes bs = Some h ->
  vec_size bs < LUMEN_HEADER_SIZE + payload_length_ h + 2 -> frame_step bs = Break bs.
Proof.
  intros Hh Hsz. unfold frame_step.
  assert (LumenPacket.from_bytes bs = None) as ->.
  { unfold LumenPacket.from_bytes, LumenPacket.from_bytes_oob.
    change (LumenHeader.from_bytes_oob 0 bs) with (LumenHeader.from_bytes bs).
    rewrite Hh. cbn [mbind option_bind]. by replace (vec_size bs <? _) with true by lia. }
  rewrite Hh. by replace (_ <=? vec_size bs) with false by lia.
Qed.

(** The first bytes of a packet, its header included. *)
Lemma take_packet_header p k : (10 <= k)%nat ->
  take k (LumenPacket.to_bytes p) =
  LumenHeader.to_bytes (header_ p) ++ take (k - 10) (drop 10 (LumenPacket.to_bytes p)).
Proof.
  intros Hk. assert (LumenPacket.to_bytes p = LumenHeader.to_bytes (header_ p) ++
    (payload_ p ++ [calculate_crc8 (packet_body p); LUMEN_ETX])) as E
    by (rewrite to_bytes_body; unfold packet_body; by rewrite <- app_assoc).
  rewrite E, take_app_ge, length_header_to_bytes by (rewrite length_header_to_bytes; lia).
  by rewrite drop_app_length' by (by rewrite length_header_to_bytes).
Qed.

Lemma frame_step_prefix p k rest : packet_ok p -> (10 <= k)%nat ->
  (k + length rest < length (LumenPacket.to_bytes p))%nat ->
  frame_step (take k (LumenPacket.to_bytes p) ++ rest) =
  Break (take k (LumenPacket.to_bytes p) ++ rest).
Proof.
  intros (Hh & _ & Hl) Hk Hlen. apply (frame_step_short _ (header_ p)).
  - rewrite take_packet_header, <- app_assoc by done. by apply header_from_to_bytes.
  - rewrite Hl. rewrite length_packet_to_bytes in Hlen. unfold vec_size, LUMEN_HEADER_SIZE.
    rewrite length_app, length_take. lia.
Qed.

Lemma deframe_prefix p k rest : packet_ok p -> (10 <= k)%nat ->
  (k + length rest < length (LumenPacket.to_bytes p))%nat ->
  deframe (take k (LumenPacket.to_bytes p) ++ rest) =
  ([], take k (LumenPacket.to_bytes p) ++ rest).
Proof.
  intros Hp Hk Hlen. rewrite deframe_unfold; [by rewrite frame_step_prefix|].
  rewrite take_packet_header by done. destruct (LumenHeader.to_bytes _) eqn:E; [|done].
  apply (f_equal length) in E. by rewrite length_header_to_bytes in E.
Qed.

(** What is left over is never longer than the buffer. *)
Lemma length_deframe bs : (length (deframe bs).2 <= length bs)%nat.
Proof.
  induction bs as [bs IH] using bytes_len_ind.
  destruct (decide (bs = [])) as [->|Hne]; [done|]. rewrite deframe_unfold by done.
  pose proof (frame_step_shrinks bs) as Hs. destruct (frame_step bs) as [p rest|rest|kept].
  - specialize (IH rest (Hs Hne)). specialize (Hs Hne).
    destruct (deframe rest). cbn [fst snd] in *. lia.
  - specialize (IH rest (Hs Hne)). specialize (Hs Hne). lia.
  - cbn [fst snd]. destruct Hs as [-> | ->]; [cbn [length]|]; lia.
Qed.

(** A corruption that leaves the header alone. *)
Lemma xor_header p e rest : packet_ok p -> bytes_ok e ->
  length e = length (LumenPacket.to_bytes p) -> take 10 e = replicate 10 0 ->
  LumenHeader.from_bytes (xor_bytes (LumenPacket.to_bytes p) e ++ rest) = Some (header_ p).
Proof.
  intros (Hh & _) He Hlen H0. rewrite <- (take_drop 10 e), H0.
  rewrite <- (take_drop 10 (LumenPacket.to_bytes p)), (take_packet_header p 10) by lia.
  cbn [Nat.sub]. rewrite take_0, app_nil_r. unfold xor_bytes.
  rewrite zip_with_app by (by rewrite length_header_to_bytes, length_replicate).
  assert (forall l : bytes, length l = 10%nat -> zip_with Z.lxor l (replicate 10 0) = l) as Hz.
  { intros l Hl. rewrite zip_with_replicate_r_eq by done.
    etransitivity; [|apply list_fmap_id]. apply list_fmap_ext. intros ? x ?. apply Z.lxor_0_r. }
  rewrite Hz by apply length_header_to_bytes. rewrite <- app_assoc. by apply header_from_to_bytes.
Qed.

(** Every packet starts with the start marker. *)
Lemma to_bytes_head p rest : head (LumenPacket.to_bytes p ++ rest) = Some LUMEN_STX.
Proof. done. Qed.

Lemma part_head p k : (1 <= k)%nat -> head (take k (LumenPacket.to_bytes p)) = Some LUMEN_STX.
Proof. destruct k; [lia|done]. Qed.

Lemma stream_head ps : ps <> [] -> head (stream ps) = Some LUMEN_STX.
Proof. destruct ps; [done|]. intros _. unfold stream. by rewrite bind_cons. Qed.

(** ** The loop's steps and the reference *)

Lemma no_header_None bs : bytes_ok bs -> LumenHeader.from_bytes bs = None <-> no_header bs.
Proof.
  intros Hok. split.
  - intros Hn h tail Hh ->. by rewrite header_from_to_bytes in Hn.
  - intros Hn. destruct (LumenHeader.from_bytes bs) as [h|] eqn:E; [|done].
    apply header_from_bytes_inv in E as (Hh & tail & ->); [|done]. by destruct (Hn h tail Hh).
Qed.

(** What a packet and a frame at the front of the same buffer have in common. *)
Lemma packet_frame p h rest body rest' : packet_ok p -> header_ok h ->
  vec_size body = payload_length_ h + 2 ->
  LumenPacket.to_bytes p ++ rest = (LumenHeader.to_bytes h ++ body) ++ rest' ->
  LumenPacket.to_bytes p = LumenHeader.to_bytes h ++ body.
Proof.
  intros (Hp & _ & Hl) Hh Hsz E. assert (header_ p = h) as <-.
  { assert (LumenPacket.to_bytes p ++ rest = LumenHeader.to_bytes (header_ p) ++
      (payload_ p ++ [calculate_crc8 (packet_body p); LUMEN_ETX]) ++ rest) as Ep
      by (rewrite to_bytes_body; unfold packet_body; by rewrite <- !app_assoc).
    rewrite Ep, <- (app_assoc _ body) in E. apply (f_equal LumenHeader.from_bytes) in E.
    rewrite !header_from_to_bytes in E by done.
    by injection E. }
  apply app_inj_1 in E as [E _]; [done|]. rewrite length_app, length_packet_to_bytes.
  change (length (LumenHeader.to_bytes (header_ p))) with 10%nat. unfold vec_size in *. lia.
Qed.

Lemma no_packet_None h body rest : header_ok h ->
  bytes_ok ((LumenHeader.to_bytes h ++ body) ++ rest) ->
  vec_size body = payload_length_ h + 2 ->
  no_packet (LumenHeader.to_bytes h ++ body) <->
  LumenPacket.from_bytes ((LumenHeader.to_bytes h ++ body) ++ rest) = None.
Proof.
  intros Hh Hok Hsz. split.
  - intros Hn. destruct (LumenPacket.from_bytes _) as [p|] eqn:E; [|done].
    apply packet_from_bytes_inv in E as (Hp & rest' & E); [|done].
    destruct (Hn p Hp). symmetry. by apply (packet_frame p h rest' body rest).
  - intros Hn p Hp E. rewrite E in Hn, Hok. apply bytes_ok_app in Hok as [_ Hok].
    by rewrite packet_from_to_bytes in Hn.
Qed.

Lemma frame_step_headless bs : LumenHeader.from_bytes bs = None ->
  frame_step bs = match next_stx_pos bs with
                  | Some pos => Discard (drop pos bs)
                  | None => if MAX_FRAME_BUFFER_SIZE / 2 <? vec_size bs then Break [] else Break bs
                  end.
Proof.
  intros Hh. unfold frame_step. assert (LumenPacket.from_bytes bs = None) as ->; [|by rewrite Hh].
  unfold LumenPacket.from_bytes, LumenPacket.from_bytes_oob.
  change (LumenHeader.from_bytes_oob 0 bs) with (LumenHeader.from_bytes bs). by rewrite Hh.
Qed.

(** The search for the next start marker. *)
Lemma list_find_junk (junk rest : bytes) : LUMEN_STX ∉ junk ->
  list_find (fun b => b = LUMEN_STX) (junk ++ LUMEN_STX :: rest) = Some (length junk, LUMEN_STX).
Proof.
  induction junk as [|x junk IH]; intros Hj; [done|].
  apply not_elem_of_cons in Hj as [Hx Hj]. cbn [list_find app].
  rewrite decide_False by congruence. by rewrite IH.
Qed.

Lemma next_stx_pos_junk b junk rest : LUMEN_STX ∉ junk ->
  next_stx_pos (b :: junk ++ LUMEN_STX :: rest) = Some (S (length junk)).
Proof. intros Hj. unfold next_stx_pos. cbn [drop]. by rewrite drop_0, list_find_junk. Qed.

Lemma next_stx_pos_none b junk : LUMEN_STX ∉ junk -> next_stx_pos (b :: junk) = None.
Proof.
  intros Hj. unfold next_stx_pos. cbn [drop]. rewrite drop_0.
  assert (list_find (fun b => b = LUMEN_STX) junk = None) as ->; [|done].
  apply list_find_None, Forall_forall. intros x Hx ->. done.
Qed.

(** A frame that is no packet is skipped; one that is not complete stays. *)
Lemma deframe_frame h body rest : header_ok h -> bytes_ok ((LumenHeader.to_bytes h ++ body) ++ rest) ->
  vec_size body = payload_length_ h + 2 -> no_packet (LumenHeader.to_bytes h ++ body) ->
  deframe ((LumenHeader.to_bytes h ++ body) ++ rest) = deframe rest.
Proof.
  intros Hh Hok Hsz Hn. pose proof Hok as Hok'. apply bytes_ok_app in Hok' as [Hf Hrest].
  apply (deframe_damaged _ _ h); try done.
  - by apply header_from_to_bytes.
  - rewrite vec_size_app, Hsz. change (vec_size (LumenHeader.to_bytes h)) with LUMEN_HEADER_SIZE. lia.
  - by apply no_packet_None.
Qed.

Lemma deframe_short h body : header_ok h -> vec_size body < payload_length_ h + 2 ->
  deframe (LumenHeader.to_bytes h ++ body) = ([], LumenHeader.to_bytes h ++ body).
Proof.
  intros Hh Hsz. rewrite deframe_unfold by done. rewrite (frame_step_short _ h); [done| |].
  - by apply header_from_to_bytes.
  - rewrite vec_size_app. change (vec_size (LumenHeader.to_bytes h)) with LUMEN_HEADER_SIZE. lia.
Qed.

(** The loop finds what the reference says... *)
Lemma deframes_deframe bs ps left : deframes bs ps left -> bytes_ok bs -> deframe bs = (ps, left).
Proof.
  induction 1 as [|p rest ps left Hp _ IH|h body rest ps left Hh Hsz Hn _ IH|h body Hh Hsz
    |b junk rest ps left Hn Hj _ IH|b junk Hn Hj Hsz|b junk Hn Hj Hsz]; intros Hok.
  - done.
  - apply bytes_ok_app in Hok as [_ Hok]. rewrite deframe_unfold by apply to_bytes_ne.
    by rewrite frame_step_packet, IH.
  - rewrite deframe_frame by done. apply bytes_ok_app in Hok as [_ Hok]. by apply IH.
  - by apply deframe_short.
  - rewrite deframe_unfold, frame_step_headless by (done || by apply no_header_None).
    rewrite next_stx_pos_junk by done. cbn [drop]. rewrite drop_app_length. apply IH.
    apply bytes_ok_cons in Hok as [_ Hok]. by apply bytes_ok_app in Hok as [_ Hok].
  - rewrite deframe_unfold, frame_step_headless by (done || by apply no_header_None).
    rewrite next_stx_pos_none by done. by replace (_ <? _) with false by lia.
  - rewrite deframe_unfold, frame_step_headless by (done || by apply no_header_None).
    rewrite next_stx_pos_none by done. by replace (_ <? _) with true by lia.
Qed.

(** ...and the reference covers every buffer. *)
Lemma split_at_stx (bs : bytes) : LUMEN_STX ∉ bs \/
  exists junk rest, bs = junk ++ LUMEN_STX :: rest /\ LUMEN_STX ∉ junk.
Proof.
  destruct (decide (LUMEN_STX ∈ bs)) as [H|H]; [right|by left].
  apply list_elem_of_split_l in H as (junk & rest & -> & Hj). by exists junk, rest.
Qed.

Lemma deframes_total bs : bytes_ok bs -> exists ps left, deframes bs ps left.
Proof.
  induction bs as [bs IH] using bytes_len_ind. intros Hok.
  destruct (LumenHeader.from_bytes bs) as [h|] eqn:Hh.
  - apply header_from_bytes_inv in Hh as (Hh & tail & ->); [|done].
    pose proof Hh as (_ & _ & Hl). unfold is_u16 in Hl.
    destruct (Z.ltb_spec (vec_size tail) (payload_length_ h + 2)) as [Hs|Hs].
    { eexists [], _. by apply deframes_incomplete. }
    set (n := Z.to_nat (payload_length_ h + 2)). rewrite <- (take_drop n tail) in Hok, IH |- *.
    rewrite app_assoc in Hok, IH |- *. set (body := take n tail) in *. set (rest := drop n tail) in *.
    assert (vec_size body = payload_length_ h + 2) as Hsz
      by (unfold body, vec_size in *; rewrite length_take; lia).
    pose proof Hok as Hok'. apply bytes_ok_app in Hok' as [Hf Hrest].
    destruct (IH rest) as (ps & left & Hd); [rewrite !length_app, length_header_to_bytes; lia|done|].
    destruct (LumenPacket.from_bytes ((LumenHeader.to_bytes h ++ body) ++ rest)) as [p|] eqn:Hp.
    + apply packet_from_bytes_inv in Hp as (Hp & rest' & E); [|done].
      assert (LumenPacket.to_bytes p = LumenHeader.to_bytes h ++ body) as <-
        by (by apply (packet_frame p h rest' body rest)).
      exists (p :: ps), left. by apply deframes_packet.
    + exists ps, left. apply deframes_damaged; try done. by apply (no_packet_None h body rest).
  - apply no_header_None in Hh; [|done]. destruct bs as [|b bs]; [eexists [], []; constructor|].
    destruct (split_at_stx bs) as [Hj|(junk & rest & -> & Hj)].
    + destruct (Z.leb_spec (vec_size (b :: bs)) (MAX_FRAME_BUFFER_SIZE / 2)).
      * eexists [], _. by apply deframes_kept.
      * eexists [], _. by apply deframes_dropped.
    + destruct (IH (LUMEN_STX :: rest)) as (ps & left & Hd).
      * cbn [length]. rewrite length_app. cbn [length]. lia.
      * apply bytes_ok_cons in Hok as [_ Hok]. by apply bytes_ok_app in Hok as [_ Hok].
      * exists ps, left. by apply deframes_junk.
Qed.

Lemma deframe_spec bs ps left : bytes_ok bs -> deframes bs ps left <-> deframe bs = (ps, left).
Proof.
  intros Hok. split; [intros Hd; by apply deframes_deframe|]. intros E.
  destruct (deframes_total bs Hok) as (ps' & left' & Hd).
  pose proof (deframes_deframe _ _ _ Hd Hok) as E'. rewrite E in E'. by injection E' as -> ->.
Qed.

(** ** Datagrams of another kind *)

Section Others.
Context {A : AsioAddress} {J : Json} {C : Chrono} {U : Type}.
Context (cb : bytes -> LumenHeader -> endpoint -> M (World U) unit).
Context `{Hcb : !forall pl h e fb, Commutes (with_buffers fb) (cb pl h e)}.
Implicit Types w : World U.

#[global] Instance handle_raw_json_buffers data e fb :
  Commutes (with_buffers fb) (handle_raw_json cb data e).
Proof. unfold handle_raw_json, forward, generate_timestamp. cbv zeta. apply _. Qed.

#[global] Instance wrap_raw_buffers data e fb : Commutes (with_buffers fb) (wrap_raw cb data e).
Proof. unfold wrap_raw, forward, generate_timestamp. cbv zeta. apply _. Qed.

Lemma commutes_buffers {B} (m : M (World U) B) `{!forall fb, Commutes (with_buffers fb) m} w :
  frame_buffers_ (protocol_ (run_state m w)) = frame_buffers_ (protocol_ w).
Proof.
  rewrite <- (with_buffers_id w) at 1.
  by rewrite (run_state_commutes (with_buffers _)) by apply _.
Qed.

Lemma handle_other_buffers b rest e w : b <> LUMEN_STX ->
  frame_buffers_ (protocol_ (run_state (handle_udp_data cb (b :: rest) e) w)) =
  frame_buffers_ (protocol_ w).
Proof.
  intros Hb. unfold run_state, handle_udp_data. rewrite run_bind. unfold ask. rewrite run_gets.
  destruct (running_ (protocol_ w)); [|done]. cbn [negb].
  rewrite (proj2 (Z.eqb_neq _ _) Hb). fold (run_state (W:=World U) (A:=unit)).
  match goal with |- context [snd (?m w)] => change (snd (m w)) with (run_state m w) end.
  by apply commutes_buffers, _.
Qed.
End Others.

(** ** Theorems *)

Section Theorems.
Context {A : AsioAddress} {J : Json} {C : Chrono} {U : Type}.
Context (cb : bytes -> LumenHeader -> endpoint -> M (World U) unit).
Context `{Hcb : !forall pl h e fb, Commutes (with_buffers fb) (cb pl h e)}.
Implicit Types w : World U.

(** C19: The loop of [process_frame_buffer] ends: with as many iterations as the
    buffer has bytes, and one, it leaves the loop by itself, unless what it calls
    throws. *)
Theorem frame_loop_terminates key e fuel w :
  (length (frame_buffer key w) < fuel)%nat ->
  run_result (frame_loop cb fuel key e) w <> Ok false.
Proof.
  revert w. induction fuel as [|fuel IH]; intros w Hf; [lia|].
  unfold run_result. cbn [frame_loop]. rewrite run_bind, run_gets.
  destruct (bool_decide_reflect (frame_buffer key w = [])) as [_|Hne]; [done|].
  pose proof (frame_step_shrinks (frame_buffer key w)) as Hs.
  destruct (frame_step (frame_buffer key w)) as [p rest|rest|kept]; [..|done].
  - rewrite run_bind, put_buffer_run. cbv iota. rewrite run_bind, commutes.
    destruct (run_result _ w) as [a|]; [|done]. apply IH. rewrite frame_buffer_insert.
    specialize (Hs Hne). lia.
  - rewrite run_bind, put_buffer_run. cbv iota. apply IH. rewrite frame_buffer_insert.
    specialize (Hs Hne). lia.
Qed.

(** When a datagram ends inside the header of a [DATA] packet, behind the type
    byte, the buffer does not wait for the rest: the type byte is taken for a start
    marker and what precedes it is discarded. *)
Theorem partial_header_dropped p k :
  type_ (header_ p) = DATA -> (2 <= k < 10)%nat ->
  frame_step (take k (LumenPacket.to_bytes p)) =
    Discard (drop 1 (take k (LumenPacket.to_bytes p))) /\
  (length (deframe (take k (LumenPacket.to_bytes p))).2 < k)%nat.
Proof.
  intros Hty Hk.
  assert (LumenPacket.to_bytes p = 2 :: 2 :: drop 2 (LumenPacket.to_bytes p)) as E.
  { rewrite to_bytes_body. unfold packet_body. rewrite header_to_bytes_shape, Hty. done. }
  assert (length (take k (LumenPacket.to_bytes p)) = k) as Hlen
    by (rewrite length_take, length_packet_to_bytes; lia).
  assert (frame_step (take k (LumenPacket.to_bytes p)) =
    Discard (drop 1 (take k (LumenPacket.to_bytes p)))) as Hstep.
  { unfold frame_step. assert (LumenHeader.from_bytes (take k (LumenPacket.to_bytes p)) = None) as Hh
      by (apply header_from_bytes_short; lia).
    unfold LumenPacket.from_bytes, LumenPacket.from_bytes_oob.
    unfold LumenHeader.from_bytes in Hh. rewrite Hh. cbn [mbind option_bind].
    unfold LumenHeader.from_bytes. rewrite Hh.
    rewrite E. destruct k as [|[|k]]; [lia..|]. done. }
  split; [exact Hstep|].
  rewrite deframe_unfold by (intros H0; rewrite H0 in Hlen; cbn [length] in Hlen; lia).
  rewrite Hstep. pose proof (length_deframe (drop 1 (take k (LumenPacket.to_bytes p)))) as Hd.
  rewrite length_drop, Hlen in Hd. lia.
Qed.

Context `{!forall pl h e, NoThrow (cb pl h e)}.

(** C17: Receiving a datagram that starts with the start marker refines the
    reference [deframes]: there is an answer to what is in the sender's buffer with the
    datagram behind it, and only one; the packets of the answer are processed in order,
    and what it leaves is buffered, or dropped when longer than
    [MAX_FRAME_BUFFER_SIZE]; other senders' buffers are not touched. *)
Theorem datagram_refines_deframe data e w :
  running_ (protocol_ w) = true -> head data = Some LUMEN_STX ->
  let key := get_endpoint_key e in
  let buffer := frame_buffer key w ++ data in
  bytes_ok buffer ->
  exists ps left, deframes buffer ps left /\
    (forall ps' left', deframes buffer ps' left' -> ps' = ps /\ left' = left) /\
    handle_udp_data cb data e w =
    (Ok tt, with_buffers
       (<[key := if MAX_FRAME_BUFFER_SIZE <? vec_size left then [] else left]>
          (frame_buffers_ (protocol_ w)))
       (run_state (for_each (fun p => process_complete_packet cb p e) ps) (note_endpoint e w))).
Proof.
  intros Hr Hd key buffer Hok. destruct (deframes_total buffer Hok) as (ps & left & Hdef).
  pose proof (proj1 (deframe_spec _ _ _ Hok) Hdef) as E.
  exists ps, left. split; [done|]. split.
  - intros ps' left' Hdef'. apply deframe_spec in Hdef'; [|done]. rewrite E in Hdef'.
    by injection Hdef' as -> ->.
  - rewrite (handle_udp_data_run cb) by done. fold key buffer. by rewrite E.
Qed.

(** C18: A datagram of whole packets, after a clean boundary, is exactly their
    processing in the order they were sent, and leaves a clean boundary; so does one
    in which a packet between them was corrupted behind its header in a way its
    checksum detects: the packet is skipped and nothing else is lost. *)
Theorem packets_in_order ps ps' p err e w :
  running_ (protocol_ w) = true -> frame_buffer (get_endpoint_key e) w = [] ->
  Forall packet_ok ps -> Forall packet_ok ps' -> packet_ok p -> bytes_ok err ->
  length err = length (LumenPacket.to_bytes p) -> take 10 err = replicate 10 0 ->
  detectable (take (length err - 1) err) ->
  (ps <> [] -> handle_udp_data cb (stream ps) e w =
    (Ok tt, after_packets cb (get_endpoint_key e) e ps [] (note_endpoint e w))) /\
  handle_udp_data cb (stream ps ++ xor_bytes (LumenPacket.to_bytes p) err ++ stream ps') e w =
    (Ok tt, after_packets cb (get_endpoint_key e) e (ps ++ ps') [] (note_endpoint e w)).
Proof.
  intros Hr Hb Hps Hps' Hp Herr Hlen H0 Hdet.
  assert (bytes_ok (xor_bytes (LumenPacket.to_bytes p) err)) as Hx
    by (apply xor_bytes_ok; [by apply packet_to_bytes_ok|done]).
  pose proof (stream_ok _ Hps') as Hs'.
  split.
  - intros Hne. rewrite handle_udp_data_run by first [done|by apply stream_head].
    rewrite Hb. cbn [app]. rewrite <- (app_nil_r (stream ps)), deframe_stream by (done || apply bytes_ok_nil).
    by rewrite app_nil_r.
  - rewrite (handle_udp_data_run cb); [|done|].
    + rewrite Hb. cbn [app]. rewrite deframe_stream by (done || by apply bytes_ok_app).
      rewrite (deframe_damaged _ _ (header_ p)); [..|].
      * rewrite <- (app_nil_r (stream ps')), deframe_stream by (done || apply bytes_ok_nil).
        cbn [fst snd]. by rewrite !app_nil_r.
      * rewrite <- (app_nil_r (xor_bytes _ _)). by apply xor_header.
      * unfold vec_size. rewrite length_xor_bytes by done. rewrite length_packet_to_bytes.
        destruct Hp as (_ & _ & ->). unfold vec_size, LUMEN_HEADER_SIZE. lia.
      * done.
      * done.
      * apply corruption_detected; try done.
        -- rewrite <- (take_drop 10 err), H0. done.
        -- rewrite <- (take_drop 10 err), H0. done.
    + destruct ps as [|q ps]; [|unfold stream; by rewrite bind_cons].
      change (stream []) with (@nil Z). cbn [app]. rewrite <- (take_drop 10 err), H0. done.
Qed.

(** No datagram makes a frame buffer grow beyond [MAX_FRAME_BUFFER_SIZE]. *)
Theorem frame_buffers_bounded data e w :
  map_Forall (fun _ b => vec_size b <= MAX_FRAME_BUFFER_SIZE) (frame_buffers_ (protocol_ w)) ->
  map_Forall (fun _ b => vec_size b <= MAX_FRAME_BUFFER_SIZE)
    (frame_buffers_ (protocol_ (run_state (handle_udp_data cb data e) w))).
Proof.
  intros Hw. destruct (running_ (protocol_ w)) eqn:Hr.
  2:{ unfold run_state, handle_udp_data. rewrite run_bind. unfold ask. rewrite run_gets, Hr.
      by destruct data. }
  destruct data as [|b data]; [unfold run_state, handle_udp_data; done|].
  destruct (Z.eqb_spec b LUMEN_STX) as [->|Hb].
  - unfold run_state. rewrite handle_udp_data_run by done. simpl.
    apply map_Forall_insert_2; [|done]. unfold clip.
    destruct (_ <? _) eqn:E; [done|]. lia.
  - by rewrite handle_other_buffers.
Qed.

(** C40: A packet split over two datagrams, the first with its whole header: the
    first part waits; the rest completes the packet only when it happens to start
    with the start marker, and is otherwise never put into the buffer.  So that a
    packet cut short, as by a receive buffer of 1024 bytes, swallows the packets
    behind it as long as they fit into its length. *)
Theorem split_packet_waits p k q e w :
  running_ (protocol_ w) = true -> frame_buffer (get_endpoint_key e) w = [] ->
  packet_ok p -> packet_ok q -> (10 <= k < length (LumenPacket.to_bytes p))%nat ->
  let part := take k (LumenPacket.to_bytes p) in
  let w1 := run_state (handle_udp_data cb part e) w in
  w1 = with_buffers (<[get_endpoint_key e := clip part]> (frame_buffers_ (protocol_ w)))
         (note_endpoint e w) /\
  (forall rest, head rest <> Some LUMEN_STX ->
    frame_buffers_ (protocol_ (run_state (handle_udp_data cb rest e) w1)) =
    frame_buffers_ (protocol_ w1)) /\
  ((k + length (LumenPacket.to_bytes q) < length (LumenPacket.to_bytes p))%nat ->
    Z.of_nat k <= MAX_FRAME_BUFFER_SIZE ->
    run_state (handle_udp_data cb (LumenPacket.to_bytes q) e) w1 =
    with_buffers (<[get_endpoint_key e := clip (part ++ LumenPacket.to_bytes q)]>
      (frame_buffers_ (protocol_ w))) (note_endpoint e (note_endpoint e w))).
Proof.
  intros Hr Hb Hp Hq Hk part w1.
  assert (deframe part = ([], part)) as Hpart.
  { rewrite <- (app_nil_r part). apply deframe_prefix; [done|lia|]. cbn [length]. lia. }
  assert (w1 = with_buffers (<[get_endpoint_key e := clip part]> (frame_buffers_ (protocol_ w)))
    (note_endpoint e w)) as Hw1.
  { unfold w1, run_state. rewrite handle_udp_data_run by first [done|apply part_head; lia].
    rewrite Hb. cbn [app]. by rewrite Hpart. }
  split_and!; [exact Hw1|..].
  - intros rest Hrest. destruct rest as [|b rest].
    + unfold run_state at 1, handle_udp_data. rewrite run_bind. unfold ask. by rewrite run_gets.
    + apply (handle_other_buffers cb). intros ->. by apply Hrest.
  - intros Hlen Hk4. unfold run_state at 1.
    rewrite handle_udp_data_run by first [done|by rewrite Hw1].
    assert (clip part = part) as Hclip.
    { unfold clip. assert (vec_size part <= Z.of_nat k)
        by (unfold part, vec_size; rewrite length_take; lia).
      destruct (_ <? _) eqn:E; [|done]. apply Z.ltb_lt in E. lia. }
    rewrite Hw1, frame_buffer_insert, Hclip.
    unfold part. rewrite deframe_prefix by (done || lia). unfold after_packets. simpl.
    by rewrite insert_insert_eq.
Qed.
End Theorems.

Section Witnesses.
Import Ipv4 SampleLibraries Sample.

#[local] Abbreviation cb := record_payload.

(** A node with a packet and a piece of junk in its buffer. *)
Definition buffered_node : World (list bytes) :=
  with_buffers {[ get_endpoint_key rover_ep := LumenPacket.to_bytes sample_packet ++ [9; 2; 9] ]}
    base_node.

Lemma frame_loop_terminates_witness :
  run_result (frame_loop cb 18 (get_endpoint_key rover_ep) rover_ep) buffered_node <> Ok false.
Proof. apply frame_loop_terminates; [apply _|by vm_compute; lia]. Defined.

Lemma partial_header_dropped_witness :
  frame_step (take 5 (LumenPacket.to_bytes sample_packet)) = Discard [2; 1; 7; 0].
Proof. by rewrite (proj1 (partial_header_dropped sample_packet 5 eq_refl ltac:(lia))). Defined.

Lemma datagram_refines_deframe_witness :
  exists ps left, deframes (LumenPacket.to_bytes sample_packet ++ [2; 2; 1]) ps left /\
    app_ (run_state (handle_udp_data cb (LumenPacket.to_bytes sample_packet ++ [2; 2; 1]) rover_ep)
      base_node) = payload_ <$> ps.
Proof.
  destruct (datagram_refines_deframe cb (LumenPacket.to_bytes sample_packet ++ [2; 2; 1]) rover_ep
    base_node) as (ps & left & Hd & Honly & Hrun); [done|done| |].
  - by apply (bool_decide_eq_true_1 _); vm_compute.
  - exists ps, left. split; [exact Hd|]. unfold run_state at 1. rewrite Hrun.
    apply deframe_spec in Hd; [|by apply (bool_decide_eq_true_1 _); vm_compute].
    assert (deframe (LumenPacket.to_bytes sample_packet ++ [2; 2; 1]) = ([sample_packet], [2; 1]))
      as E by (vm_compute; reflexivity).
    change (frame_buffer _ _ ++ ?data) with data in Hd. rewrite E in Hd. injection Hd as <- <-. vm_compute. reflexivity.
Defined.

Definition one_bit : bytes := [0;0;0;0;0;0;0;0;0;0;0;16;0;0].

Lemma packets_in_order_witness :
  app_ (run_state (handle_udp_data cb
    (stream [sample_packet] ++ xor_bytes (LumenPacket.to_bytes sample_packet) one_bit ++ stream [])
    rover_ep) base_node) = [[72; 105]].
Proof.
  unfold run_state.
  rewrite (proj2 (packets_in_order cb [sample_packet] [] sample_packet one_bit rover_ep base_node
    eq_refl eq_refl (proj2 (Forall_singleton _ _) sample_packet_ok) (Forall_nil_2 _)
    sample_packet_ok ltac:(by apply (bool_decide_eq_true_1 _); vm_compute) eq_refl eq_refl
    ltac:(right; right; by vm_compute))).
  by vm_compute.
Defined.

Lemma frame_buffers_bounded_witness :
  map_Forall (fun _ b => vec_size b <= MAX_FRAME_BUFFER_SIZE)
    (frame_buffers_ (protocol_ (run_state (handle_udp_data cb [2; 2; 1] rover_ep) base_node))).
Proof. apply frame_buffers_bounded; [apply _..|]. apply map_Forall_empty. Defined.

(** A packet of 44 bytes cut after 11 bytes, and the sample packet after it. *)
Definition long_packet : LumenPacket :=
  make_packet (mkLumenHeader DATA MEDIUM 8 0 0) (replicate 32 65).

Lemma split_packet_waits_witness :
  app_ (run_state (handle_udp_data cb (LumenPacket.to_bytes sample_packet) rover_ep)
    (run_state (handle_udp_data cb (take 11 (LumenPacket.to_bytes long_packet)) rover_ep)
      base_node)) = [].
Proof.
  destruct (split_packet_waits cb long_packet 11 sample_packet rover_ep base_node)
    as (_ & _ & H); [reflexivity|reflexivity|..].
  - by apply (bool_decide_eq_true_1 _); vm_compute.
  - apply sample_packet_ok.
  - rewrite length_packet_to_bytes. simpl. lia.
  - rewrite H; [done|vm_compute; lia|done].
Defined.
End Witnesses.
