(* ===== verification/Delivery.v ===== *)
(** * Delivery: numbering, acknowledgement and retransmission over the protocol

    What [send_message], [send_ack], [send_nak] and [process_complete_packet] do to
    the node and to the wire, and what follows for a rover and a base station that
    exchange the datagrams through their sockets, and for a base station over a session
    with its timers. *)
From S2P Require Import Prelude Configs Crc8 LumenHeader LumenPacket Asio ReliabilityManager.
From S2P Require Import UdpServer UdpClient Libraries Messages LumenProtocol Retransmission.
From S2P Require Import ProtocolFacts Framing.

Section Delivery.
Context {A : AsioAddress} {J : Json} {C : Chrono} {U : Type}.
Implicit Types w : World U.

(** ** Closed forms of the sending functions *)

(** The packet a node makes next, with a given type, priority and payload. *)
Definition next_packet (ty : MessageType) (pr : Priority) (payload : bytes) w : LumenPacket :=
  make_packet (mkLumenHeader ty pr (current_sequence_ (protocol_ w)) (timestamp_of (system_now w))
    (u16 (vec_size payload))) payload.

(** The state after a number was taken. *)
Definition took_number w : World U :=
  set_protocol (set_current_sequence (u8 (current_sequence_ (protocol_ w) + 1)) (protocol_ w)) w.

(** The state after a packet was handed to the transport. *)
Definition put_packet (p : LumenPacket) (e : endpoint) w : World U :=
  set_sent (sent_ w ++ packet_datagrams (transport_ w) p e) w.

Definition upd_rm (f : ReliabilityManager -> ReliabilityManager) w : World U :=
  set_protocol (with_rm f (protocol_ w)) w.

(** Where a message goes. *)
Definition target_of (t : transport) (recipient : endpoint) : result (option endpoint) :=
  match t with
  | Server _ => Ok (if ep_unspecified recipient then None else Some recipient)
  | Client c => if ep_unspecified recipient then b ← get_base_endpoint c; mret (Some b)
                else Ok (Some recipient)
  end.

(** The types the reliability manager tracks. *)
Definition tracked (ty : MessageType) : bool :=
  negb (bool_decide (ty = ACK)) && negb (bool_decide (ty = NAK)).

Lemma on_rm_run f w : on_rm f w = (Ok tt, upd_rm f w).
Proof. done. Qed.

Lemma when_on_rm_run b f w :
  when b (on_rm f) w = (Ok tt, if b then upd_rm f w else w).
Proof. by destruct b. Qed.

(** The end of [send_message]. *)
Lemma track_and_send_run (b : bool) seq p e w :
  (now ← gets steady_now;
   when b (on_rm (add_send_packet now seq p e)) ;;
   send_packet p e) w =
  (Ok tt, put_packet p e (if b then upd_rm (add_send_packet (steady_now w) seq p e) w else w)).
Proof.
  rewrite run_bind, run_gets, run_bind, when_on_rm_run. cbv iota. by rewrite send_packet_run.
Qed.

Lemma send_message_run payload ty pr recipient w :
  send_message payload ty pr recipient w =
  if negb (running_ (protocol_ w)) then (Ok tt, w)
  else match target_of (transport_ w) recipient with
       | Throw e => (Throw e, took_number w)
       | Ok None => (Ok tt, took_number w)
       | Ok (Some e) =>
         let p := next_packet ty pr payload w in
         let w1 := took_number w in
         let w2 := if tracked ty
           then upd_rm (add_send_packet (steady_now w) (current_sequence_ (protocol_ w)) p e) w1
           else w1 in
         (Ok tt, put_packet p e w2)
       end.
Proof.
  unfold send_message. rewrite run_bind. unfold ask at 1. rewrite run_gets.
  destruct (running_ (protocol_ w)); [|done]. cbn [negb]. unfold choose_target, target_of, tracked.
  rewrite run_bind. change (next_sequence w) with
    (Ok (current_sequence_ (protocol_ w)) : result Z, took_number w). cbv iota.
  rewrite run_bind. change (generate_timestamp (took_number w)) with
    (Ok (timestamp_of (system_now w)) : result Z, took_number w). cbv iota zeta.
  rewrite !run_bind, run_gets. change (transport_ (took_number w)) with (transport_ w).
  destruct (transport_ w) as [s|c] eqn:Ht.
  - destruct (ep_unspecified recipient); [done|]. cbn [mret M_ret].
    by rewrite track_and_send_run.
  - destruct (ep_unspecified recipient); cbn [negb].
    + unfold get_base_endpoint. destruct (ep_unspecified (base_endpoint_ c)); [done|].
      rewrite run_bind. cbn [of_result mret M_ret mbind result_bind result_ret].
      by rewrite track_and_send_run.
    + cbn [mret M_ret]. by rewrite track_and_send_run.
Qed.

Lemma send_ack_run s e w :
  send_ack s e w =
  match mode_ w with
  | LumenProtocol.BASE_STATION =>
    (Ok tt, put_packet (next_packet ACK HIGH [s] w) e
              (took_number (upd_rm (record_acked_sequence s e) w)))
  | LumenProtocol.ROVER => (Ok tt, w)
  end.
Proof.
  unfold send_ack. rewrite run_bind, run_gets. destruct (mode_ w); [|done].
  rewrite bool_decide_true by done. cbn [negb]. rewrite run_bind, on_rm_run. cbv iota zeta.
  set (w1 := upd_rm (record_acked_sequence s e) w).
  rewrite run_bind. change (generate_timestamp w1) with
    (Ok (timestamp_of (system_now w)) : result Z, w1). cbv iota.
  rewrite run_bind. change (next_sequence w1) with
    (Ok (current_sequence_ (protocol_ w)) : result Z, took_number w1). cbv iota.
  by rewrite send_packet_run.
Qed.

(** ** Closed forms of the receiving function *)

(** The state after an acknowledgement of [s] was sent to [e]. *)
Definition acknowledged (s : Z) (e : endpoint) w : World U :=
  put_packet (next_packet ACK HIGH [s] w) e (took_number (upd_rm (record_acked_sequence s e) w)).

(** The state after the reception of [s] from [e] was recorded. *)
Definition recorded (s : Z) (e : endpoint) w : World U :=
  upd_rm (record_received_sequence (steady_now w) s e) w.

Lemma record_acked_twice s e r :
  record_acked_sequence s e (record_acked_sequence s e r) = record_acked_sequence s e r.
Proof.
  unfold record_acked_sequence. destruct (negb (bool_decide (role_ r = ReliabilityManager.BASE_STATION))) eqn:E;
    [by rewrite E|].
  cbn [role_ set_acked acked_sequences_]. rewrite E. unfold set_acked. simpl.
  rewrite lookup_insert_eq. cbn [default from_option id]. rewrite insert_insert_eq.
  do 2 f_equal. by rewrite union_assoc_L, union_idemp_L.
Qed.

Lemma acknowledged_twice s e w :
  acknowledged s e (upd_rm (record_acked_sequence s e) w) = acknowledged s e w.
Proof.
  unfold acknowledged, upd_rm, with_rm, next_packet, put_packet, took_number. simpl.
  by rewrite record_acked_twice.
Qed.

Lemma has_acked_recorded s e s' e' w :
  has_acked_sequence s e (rm (recorded s' e' w)) = has_acked_sequence s e (rm w).
Proof.
  unfold recorded, upd_rm, with_rm, rm, record_received_sequence. simpl.
  by destruct (ReliabilityManager.running_ (reliability_manager_ (protocol_ w))).
Qed.

Section Callback.
Context (cb : bytes -> LumenHeader -> endpoint -> M (World U) unit).

Lemma tracked_ack ty : tracked ty = true -> bool_decide (ty = ACK) = false /\ bool_decide (ty = NAK) = false.
Proof. by destruct ty. Qed.

(** A base station and a packet with a payload for the layers above. *)
Lemma process_base_run p e w :
  mode_ w = LumenProtocol.BASE_STATION -> tracked (type_ (header_ p)) = true ->
  let seq := sequence_ (header_ p) in
  let w0 := recorded seq e w in
  let dup := has_acked_sequence seq e (rm w) in
  process_complete_packet cb p e w =
  when (negb dup) (forward cb (payload_ p) (header_ p) e)
    (if session_active_ (protocol_ w) then acknowledged seq e w0 else w0).
Proof.
  intros Hm Hty seq w0 dup. apply tracked_ack in Hty as [H1 H2].
  unfold process_complete_packet. rewrite run_bind, run_gets, run_bind, on_rm_run. cbv iota zeta.
  fold seq. change (upd_rm _ w) with w0. rewrite run_bind, run_gets, H1, H2.
  change (mode_ w0) with (mode_ w). rewrite Hm.
  rewrite (bool_decide_true (LumenProtocol.BASE_STATION = LumenProtocol.BASE_STATION)) by done.
  rewrite (bool_decide_false (LumenProtocol.BASE_STATION = LumenProtocol.ROVER)) by done.
  rewrite run_bind. unfold acknowledge. rewrite run_bind. unfold ask. rewrite run_gets.
  rewrite run_bind, run_gets.
  assert (has_acked_sequence seq e (rm w0) = dup) as -> by apply has_acked_recorded.
  change (session_active_ (protocol_ w0)) with (session_active_ (protocol_ w)).
  destruct (session_active_ (protocol_ w)); [|by destruct dup].
  assert (forall w1, mode_ w1 = LumenProtocol.BASE_STATION ->
    send_ack seq e w1 = (Ok tt, acknowledged seq e w1)) as Hack.
  { intros w1 Hw1. by rewrite send_ack_run, Hw1. }
  destruct dup; cbn [negb].
  - by rewrite run_bind, Hack.
  - rewrite run_bind, on_rm_run. cbv iota. by rewrite run_bind, Hack, acknowledged_twice.
Qed.

Lemma one_le_vec_size (b : Z) bs : (1 <=? vec_size (b :: bs)) = true.
Proof. apply Z.leb_le. unfold vec_size. rewrite length_cons. lia. Qed.

(** A rover and an acknowledgement. *)
Lemma process_ack_run p e w s rest :
  mode_ w = LumenProtocol.ROVER -> type_ (header_ p) = ACK -> payload_ p = s :: rest ->
  process_complete_packet cb p e w =
  (Ok tt, upd_rm (process_ack s) (recorded (sequence_ (header_ p)) e w)).
Proof.
  intros Hm Hty Hpl. unfold process_complete_packet.
  rewrite run_bind, run_gets, run_bind, on_rm_run. cbv iota zeta.
  rewrite run_bind, run_gets, Hty, bool_decide_true by done.
  match goal with |- context [mode_ ?w'] => change (mode_ w') with (mode_ w) end.
  rewrite Hm, Hpl, bool_decide_true by done.
  rewrite one_le_vec_size.
  done.
Qed.

(** A base station and a negative acknowledgement. *)
Lemma process_nak_run p e w s rest :
  mode_ w = LumenProtocol.BASE_STATION -> type_ (header_ p) = NAK -> payload_ p = s :: rest ->
  let w0 := recorded (sequence_ (header_ p)) e w in
  process_complete_packet cb p e w = run_calls (fun _ => mret tt) (process_nak s (rm w0)) w0.
Proof.
  intros Hm Hty Hpl w0. unfold process_complete_packet.
  rewrite run_bind, run_gets, run_bind, on_rm_run. cbv iota zeta. fold (recorded (sequence_ (header_ p)) e w).
  rewrite run_bind, run_gets, Hty. rewrite (bool_decide_false (NAK = ACK)) by done.
  rewrite bool_decide_true by done. fold w0. change (mode_ w0) with (mode_ w).
  rewrite Hm, Hpl, bool_decide_true by done.
  rewrite one_le_vec_size.
  done.
Qed.
End Callback.

(** ** Reaching an endpoint *)

(** The transport sends a packet for [e] rather than dropping it. *)
Definition reachable (t : transport) (e : endpoint) : Prop :=
  ep_unspecified e = false /\
  match t with
  | Server s => UdpServer.running_ s = true /\ ep_port e <> 0
  | Client c => e = base_endpoint_ c \/ ep_port e <> 0
  end.

Lemma packet_datagrams_reachable t p e : reachable t e ->
  packet_datagrams t p e = [mkDatagram (LumenPacket.to_bytes p) e].
Proof.
  unfold reachable, packet_datagrams. intros [Hu Ht]. destruct t as [s|c].
  - destruct Ht as [Hr Hp]. apply Z.eqb_neq in Hp. by rewrite send_data_spec, Hr, Hu, Hp.
  - unfold send_data_to. rewrite Hu. destruct (bool_decide_reflect (e = base_endpoint_ c)) as [->|Hne].
    + by rewrite Hu.
    + destruct Ht as [?|Hp]; [done|]. apply Z.eqb_neq in Hp. by rewrite andb_false_r, Hp.
Qed.

(** A datagram that carries a packet. *)
Definition carries (e : endpoint) (p : LumenPacket) : datagram :=
  mkDatagram (LumenPacket.to_bytes p) e.

Lemma sent_put_packet p e w : reachable (transport_ w) e ->
  sent_ (put_packet p e w) = sent_ w ++ [carries e p].
Proof. intros H. unfold put_packet. simpl. by rewrite packet_datagrams_reachable. Qed.

Lemma next_packet_ok ty pr payload w :
  is_u8 (current_sequence_ (protocol_ w)) -> bytes_ok payload -> vec_size payload < 65536 ->
  packet_ok (next_packet ty pr payload w).
Proof.
  intros Hs Hpl Hsz. apply make_packet_ok; [|done..].
  split_and!; cbn; [done|unfold timestamp_of; auto with lumen..].
Qed.

Lemma target_of_reachable t e : reachable t e -> target_of t e = Ok (Some e).
Proof. intros [Hu _]. unfold target_of. destruct t; by rewrite Hu. Qed.

(** What sending does not change. *)
Record same_but_sending w w' : Prop := {
  same_transport : transport_ w' = transport_ w;
  same_running : running_ (protocol_ w') = running_ (protocol_ w);
  same_buffers : frame_buffers_ (protocol_ w') = frame_buffers_ (protocol_ w);
  same_session : session_active_ (protocol_ w') = session_active_ (protocol_ w);
  same_callback : message_callback_ (protocol_ w') = message_callback_ (protocol_ w);
  same_app : app_ w' = app_ w;
  same_steady : steady_now w' = steady_now w;
  same_system : system_now w' = system_now w;
}.

#[global] Instance same_but_sending_preorder : PreOrder same_but_sending.
Proof.
  split; [by split|]. intros w1 w2 w3 [] []. split; congruence.
Qed.

(** A sent message, when the endpoint can be reached. *)
Lemma send_message_reachable payload ty pr e w :
  running_ (protocol_ w) = true -> reachable (transport_ w) e ->
  exists w', send_message payload ty pr e w = (Ok tt, w') /\
    sent_ w' = sent_ w ++ [carries e (next_packet ty pr payload w)] /\
    current_sequence_ (protocol_ w') = u8 (current_sequence_ (protocol_ w) + 1) /\
    same_but_sending w w' /\
    rm w' = (if tracked ty
             then add_send_packet (steady_now w) (current_sequence_ (protocol_ w))
                    (next_packet ty pr payload w) e (rm w)
             else rm w).
Proof.
  intros Hr He. rewrite send_message_run, Hr. cbn [negb].
  rewrite target_of_reachable by done. eexists. split; [reflexivity|].
  rewrite sent_put_packet by (by destruct (tracked ty)).
  by destruct (tracked ty).
Qed.
End Delivery.

(** ** Theorems *)

Section Sending.
Context {A : AsioAddress} {J : Json} {C : Chrono} {U : Type}.
Implicit Types w : World U.

(** A message for [send_message]: payload, type and priority. *)
Definition outgoing : Type := bytes * MessageType * Priority.

Definition send_all (ms : list outgoing) (e : endpoint) : M (World U) unit :=
  for_each (fun m => send_message m.1.1 m.1.2 m.2 e) ms.

(** What [send_all] sends, and leaves. *)
Lemma send_all_numbered ms e w :
  running_ (protocol_ w) = true -> reachable (transport_ w) e ->
  is_u8 (current_sequence_ (protocol_ w)) ->
  Forall (fun m => bytes_ok m.1.1 /\ vec_size m.1.1 < 65536) ms ->
  exists ps, sent_ (run_state (send_all ms e) w) = sent_ w ++ (carries e <$> ps) /\
    length ps = length ms /\
    (forall i m, ms !! i = Some m -> exists p, ps !! i = Some p /\
      LumenPacket.from_bytes (dg_data (carries e p)) = Some p /\
      payload_ p = m.1.1 /\ type_ (header_ p) = m.1.2 /\ priority_ (header_ p) = m.2 /\
      sequence_ (header_ p) = u8 (current_sequence_ (protocol_ w) + Z.of_nat i)) /\
    same_but_sending w (run_state (send_all ms e) w).
Proof.
  intros Hr He Hs Hms. revert w Hr He Hs. induction Hms as [|m ms [Hb Hsz] Hms IH]; intros w Hr He Hs.
  { exists []. split_and!; [by rewrite app_nil_r|done|done|reflexivity]. }
  destruct (send_message_reachable m.1.1 m.1.2 m.2 e w Hr He) as (w' & Hw' & Hsent & Hseq & Hsame & _).
  destruct (IH w') as (ps & Hps & Hlen & Hall & Hsame').
  { by rewrite (same_running _ _ Hsame). }
  { by rewrite (same_transport _ _ Hsame). }
  { rewrite Hseq. apply u8_range. }
  assert (run_state (send_all (m :: ms) e) w = run_state (send_all ms e) w') as Hrun.
  { unfold send_all, run_state. cbn [for_each]. by rewrite run_bind, Hw'. }
  exists (next_packet m.1.2 m.2 m.1.1 w :: ps). split_and!.
  - rewrite Hrun, Hps, Hsent, <- app_assoc. done.
  - cbn [length]. by rewrite Hlen.
  - intros [|i] m' Hm'.
    + injection Hm' as <-. eexists. split; [reflexivity|]. split_and!; try done.
      * rewrite <- (app_nil_r (dg_data _)).
        apply packet_from_to_bytes; [by apply next_packet_ok|apply bytes_ok_nil].
      * rewrite Z.add_0_r. by rewrite u8_small.
    + destruct (Hall i m' Hm') as (p & ? & ? & ? & ? & ? & Hq). exists p. split_and!; try done.
      rewrite Hq, Hseq. ilia.
  - rewrite Hrun. by etransitivity.
Qed.

(** C30: Messages sent to an endpoint that can be reached leave as one datagram each,
    in order, and the packets a receiver parses from them carry the payloads, types
    and priorities given, under consecutive sequence numbers modulo 256. *)
Theorem messages_numbered ms e w :
  running_ (protocol_ w) = true -> reachable (transport_ w) e ->
  is_u8 (current_sequence_ (protocol_ w)) ->
  Forall (fun m => bytes_ok m.1.1 /\ vec_size m.1.1 < 65536) ms ->
  exists ps, sent_ (run_state (send_all ms e) w) = sent_ w ++ (carries e <$> ps) /\
    length ps = length ms /\
    forall i m, ms !! i = Some m -> exists p, ps !! i = Some p /\
      LumenPacket.from_bytes (dg_data (carries e p)) = Some p /\
      payload_ p = m.1.1 /\ type_ (header_ p) = m.1.2 /\ priority_ (header_ p) = m.2 /\
      sequence_ (header_ p) = u8 (current_sequence_ (protocol_ w) + Z.of_nat i).
Proof.
  intros Hr He Hs Hms. destruct (send_all_numbered ms e w Hr He Hs Hms) as (ps & H1 & H2 & H3 & _).
  by exists ps.
Qed.

(** [send_message] throws only on a running rover whose base was never
    resolved, and then a [runtime_error]; there, and on a base station that is given
    no recipient, nothing is sent but a sequence number is used up. *)
Theorem send_message_failures payload ty pr recipient w :
  let (r, w') := send_message payload ty pr recipient w in
  (forall ex, r = Throw ex ->
    is_runtime_error ex = true /\ running_ (protocol_ w) = true /\ mode_ w = LumenProtocol.ROVER /\
    ep_unspecified recipient = true /\ w' = took_number w) /\
  (running_ (protocol_ w) = true -> mode_ w = LumenProtocol.BASE_STATION ->
    ep_unspecified recipient = true -> r = Ok tt /\ w' = took_number w) /\
  (running_ (protocol_ w) = false -> r = Ok tt /\ w' = w).
Proof.
  rewrite send_message_run. destruct (running_ (protocol_ w)); cbn [negb]; [|done].
  unfold target_of, mode_, get_base_endpoint. destruct (transport_ w) as [s|c]; cbn [transport_mode].
  - by destruct (ep_unspecified recipient).
  - destruct (ep_unspecified recipient); [|done].
    destruct (ep_unspecified (base_endpoint_ c)); [|done].
    split_and!; [|done..]. by intros ex [= <-].
Qed.
End Sending.

(** ** Datagrams of one packet *)

Section OnePacket.
Context {A : AsioAddress} {J : Json} {C : Chrono} {U : Type}.
Implicit Types w : World U.

Lemma deframe_one p : packet_ok p -> deframe (LumenPacket.to_bytes p) = ([p], []).
Proof.
  intros Hp. pose proof (deframe_stream [p] [] (proj2 (Forall_singleton _ _) Hp) bytes_ok_nil) as H.
  unfold stream in H. rewrite bind_cons in H. cbn [mbind list_bind] in H.
  by rewrite !app_nil_r in H.
Qed.

(** A datagram with one packet, after a clean boundary. *)
Lemma handle_one_packet (cb : bytes -> LumenHeader -> endpoint -> M (World U) unit)
    `{!forall pl h e fb, Commutes (with_buffers fb) (cb pl h e)} `{!forall pl h e, NoThrow (cb pl h e)}
    p e w :
  running_ (protocol_ w) = true -> frame_buffer (get_endpoint_key e) w = [] -> packet_ok p ->
  handle_udp_data cb (dg_data (carries e p)) e w =
  process_complete_packet cb p e
    (with_buffers (<[get_endpoint_key e := []]> (frame_buffers_ (protocol_ w))) (note_endpoint e w)).
Proof.
  intros Hr Hb Hp. rewrite handle_udp_data_run by done. rewrite Hb. cbn [app dg_data carries].
  rewrite deframe_one by done. cbn [fst snd].
  rewrite (no_throw_unit (process_complete_packet cb p e) (with_buffers _ _)).
  rewrite (run_state_commutes (with_buffers _)) by apply _.
  unfold after_packets, run_state, process_packets. cbn [for_each].
  rewrite run_bind, (no_throw_unit (process_complete_packet cb p e)). done.
Qed.

(** What a socket has to be to be sent to. *)
Definition valid_endpoint (e : endpoint) : Prop := ep_unspecified e = false /\ ep_port e <> 0.

Lemma reachable_up w e : mode_ w = LumenProtocol.BASE_STATION -> socket_up (transport_ w) ->
  valid_endpoint e -> reachable (transport_ w) e.
Proof.
  unfold mode_, reachable. intros Hm Hup [H1 H2]. destruct (transport_ w); [|done]. by destruct Hup.
Qed.

Lemma same_node_reachable t t' e : same_node t t' -> reachable t e -> reachable t' e.
Proof.
  unfold reachable. destruct t as [s|c], t' as [s'|c']; cbn; try done.
  - by intros [-> _].
  - by intros ([-> _] & _).
Qed.

(** A packet that fits into a receive buffer. *)
Definition packet_fits (buffer_size : Z) (p : LumenPacket) : Prop := total_size p <= buffer_size.

Lemma received_packet n p : packet_fits n p ->
  received_data n (LumenPacket.to_bytes p) = LumenPacket.to_bytes p.
Proof. unfold packet_fits. rewrite total_size_to_bytes. apply received_data_all. Qed.

Lemma hearing_clear e key w : frame_buffer key (hearing e w) = frame_buffer key w.
Proof. unfold frame_buffer. by rewrite (socket_protocol _ _ (hearing_same e w)). Qed.

(** The sender's buffer cleared, the sender noted. *)
Definition noted_clear (e : endpoint) w : World U :=
  with_buffers (<[get_endpoint_key e := []]> (frame_buffers_ (protocol_ w))) (note_endpoint e w).

Section Callback.
Context (cb : bytes -> LumenHeader -> endpoint -> M (World U) unit).
Context `{!forall pl h e fb, Commutes (with_buffers fb) (cb pl h e)} `{!forall pl h e, NoThrow (cb pl h e)}.

(** A packet that fits arrives at a socket, after a clean boundary. *)
Lemma server_gets_packet p e w :
  mode_ w = LumenProtocol.BASE_STATION -> socket_up (transport_ w) -> running_ (protocol_ w) = true ->
  frame_buffer (get_endpoint_key e) w = [] -> packet_ok p -> packet_fits SERVER_SOCK_BUF_SIZE p ->
  server_receive cb NoError (LumenPacket.to_bytes p) e w =
  (Ok tt, server_rearmed (run_state (process_complete_packet cb p e) (noted_clear e (hearing e w)))).
Proof.
  intros Hm Hup Hr Hb Hp Hf. rewrite server_receive_run by done. rewrite received_packet by done.
  unfold run_state at 1. change (LumenPacket.to_bytes p) with (dg_data (carries e p)).
  by rewrite (handle_one_packet cb p e (hearing e w)) by
    (rewrite ?hearing_clear, ?(socket_protocol _ _ (hearing_same e w)); done).
Qed.

Lemma client_gets_packet p e w :
  mode_ w = LumenProtocol.ROVER -> socket_up (transport_ w) -> running_ (protocol_ w) = true ->
  frame_buffer (get_endpoint_key e) w = [] -> packet_ok p -> packet_fits CLIENT_SOCK_BUF_SIZE p ->
  client_receive cb NoError (LumenPacket.to_bytes p) e w =
  (Ok tt, client_rearmed (run_state (process_complete_packet cb p e) (noted_clear e (hearing e w)))).
Proof.
  intros Hm Hup Hr Hb Hp Hf. rewrite client_receive_run by done. rewrite received_packet by done.
  unfold run_state at 1. change (LumenPacket.to_bytes p) with (dg_data (carries e p)).
  by rewrite (handle_one_packet cb p e (hearing e w)) by
    (rewrite ?hearing_clear, ?(socket_protocol _ _ (hearing_same e w)); done).
Qed.

(** A packet that does not fit is cut; what is left of it waits in the frame buffer for
    bytes that were dropped. *)
Lemma server_cuts_packet p e w :
  mode_ w = LumenProtocol.BASE_STATION -> socket_up (transport_ w) -> running_ (protocol_ w) = true ->
  frame_buffer (get_endpoint_key e) w = [] -> packet_ok p -> ~ packet_fits SERVER_SOCK_BUF_SIZE p ->
  let part := received_data SERVER_SOCK_BUF_SIZE (LumenPacket.to_bytes p) in
  server_receive cb NoError (LumenPacket.to_bytes p) e w =
  (Ok tt, server_rearmed (with_buffers (<[get_endpoint_key e := part]> (frame_buffers_ (protocol_ w)))
    (note_endpoint e (hearing e w)))).
Proof.
  intros Hm Hup Hr Hb Hp Hf part. rewrite server_receive_run by done. fold part.
  assert (length part = 1024%nat) as Hlen.
  { unfold packet_fits in Hf. rewrite total_size_to_bytes in Hf. unfold part, received_data, vec_size in *.
    rewrite length_take. unfold SERVER_SOCK_BUF_SIZE in *. lia. }
  unfold run_state. rewrite handle_udp_data_run.
  - rewrite hearing_clear, Hb. cbn [app].
    assert (deframe part = ([], part)) as ->.
    { rewrite <- (app_nil_r part). apply deframe_prefix; [done|unfold SERVER_SOCK_BUF_SIZE; lia|].
      unfold packet_fits in Hf. rewrite total_size_to_bytes in Hf. unfold vec_size, SERVER_SOCK_BUF_SIZE in *.
      cbn [length]. lia. }
    unfold clip, vec_size. cbn [fst snd]. rewrite Hlen. cbn [snd].
    by rewrite <- (socket_protocol _ _ (hearing_same e w)).
  - apply _.
  - apply _.
  - by rewrite (socket_protocol _ _ (hearing_same e w)).
  - unfold part, received_data. apply part_head. unfold SERVER_SOCK_BUF_SIZE. lia.
Qed.
End Callback.
End OnePacket.

Lemma has_acked_add `{AsioAddress} n e now s p e' rr :
  has_acked_sequence n e (add_send_packet now s p e' rr) = has_acked_sequence n e rr.
Proof.
  unfold add_send_packet. destruct (negb (ReliabilityManager.running_ rr)); [done|].
  by destruct (sent_packets_ rr !! s).
Qed.

Section AtMostOnce.
Context {A : AsioAddress} `{!AsioAddressLaws A} {J : Json} {C : Chrono}.

(** A layer above that keeps a list of what it was given. *)
Abbreviation log := (list (endpoint * Z)).
Implicit Types w : World log.

Definition note_delivery (_ : bytes) (h : LumenHeader) (e : endpoint) : M (World log) unit :=
  modify (fun w => set_app (app_ w ++ [(e, sequence_ h)]) w).

(** A base station in an active session, its layer above attached. *)
Record active_base w : Prop := {
  active_mode : mode_ w = BASE_STATION;
  active_role : role_ (rm w) = ReliabilityManager.BASE_STATION;
  active_session : session_active_ (protocol_ w) = true;
  active_callback : message_callback_ (protocol_ w) = true;
}.

Lemma rm_record_role r now s e : role_ (record_received_sequence now s e r) = role_ r.
Proof. unfold record_received_sequence. by destruct (negb _). Qed.

Lemma rm_acked_role r s e : role_ (record_acked_sequence s e r) = role_ r.
Proof. unfold record_acked_sequence. by destruct (negb _). Qed.

#[local] Instance note_delivery_buffers pl h e fb : Commutes (with_buffers fb) (note_delivery pl h e).
Proof. unfold note_delivery. apply _. Qed.
#[local] Instance note_delivery_no_throw pl h e : NoThrow (note_delivery pl h e).
Proof. unfold note_delivery. apply _. Qed.

(** What the record of received and acknowledged numbers leaves alone. *)
Record same_schedule (r r' : ReliabilityManager) : Prop := {
  schedule_running : ReliabilityManager.running_ r' = ReliabilityManager.running_ r;
  schedule_cleared : last_ack_cleanup_time_ r' = last_ack_cleanup_time_ r;
}.

Lemma recorded_schedule now s e r :
  same_schedule r (record_acked_sequence s e (record_received_sequence now s e r)).
Proof.
  unfold record_acked_sequence, record_received_sequence.
  destruct (negb (ReliabilityManager.running_ r)); by destruct (negb _).
Qed.

(** One packet at an active base station. *)
Lemma process_active p e w :
  active_base w -> tracked (type_ (header_ p)) = true -> endpoint_ok e ->
  reachable (transport_ w) e ->
  let seq := sequence_ (header_ p) in
  exists w', process_complete_packet note_delivery p e w = (Ok tt, w') /\
    active_base w' /\ transport_ w' = transport_ w /\
    current_sequence_ (protocol_ w') = u8 (current_sequence_ (protocol_ w) + 1) /\
    app_ w' = app_ w ++ (if has_acked_sequence seq e (rm w) then [] else [(e, seq)]) /\
    sent_ w' = sent_ w ++ [carries e (next_packet ACK HIGH [seq] w)] /\
    running_ (protocol_ w') = running_ (protocol_ w) /\
    frame_buffers_ (protocol_ w') = frame_buffers_ (protocol_ w) /\
    steady_now w' = steady_now w /\ same_schedule (rm w) (rm w') /\
    forall s' e', endpoint_ok e' -> has_acked_sequence s' e' (rm w') =
      bool_decide (s' = seq /\ e' = e) || has_acked_sequence s' e' (rm w).
Proof.
  intros [Hm Hrole Hact Hcb] Hty He Hre seq.
  rewrite (process_base_run note_delivery p e w Hm Hty), Hact. fold seq.
  set (w1 := acknowledged seq e (recorded seq e w)).
  assert (sent_ w1 = sent_ w ++ [carries e (next_packet ACK HIGH [seq] w)]) as Hsent.
  { unfold w1, acknowledged. rewrite sent_put_packet by done. done. }
  assert (forall s' e', endpoint_ok e' -> has_acked_sequence s' e' (rm w1) =
    bool_decide (s' = seq /\ e' = e) || has_acked_sequence s' e' (rm w)) as Hacked.
  { intros s' e' He'. unfold w1, acknowledged, rm. simpl. rewrite has_acked_record by
      (done || by rewrite rm_record_role). f_equal. apply has_acked_recorded. }
  assert (role_ (rm w1) = ReliabilityManager.BASE_STATION) as Hrole1
    by (unfold w1, rm; simpl; by rewrite rm_acked_role, rm_record_role).
  assert (same_schedule (rm w) (rm w1)) as Hsched by apply recorded_schedule.
  destruct (has_acked_sequence seq e (rm w)) eqn:Hdup; cbn [negb when].
  - exists w1. split_and!; try done. by rewrite app_nil_r.
  - exists (set_app (app_ w1 ++ [(e, seq)]) w1). split_and!; try done.
    unfold forward. rewrite run_bind. unfold ask. rewrite run_gets.
    change (message_callback_ (protocol_ w1)) with (message_callback_ (protocol_ w)). by rewrite Hcb.
Qed.

(** An acknowledgement of a packet received, on the wire. *)
Definition acks (d : datagram) (pe : LumenPacket * endpoint) : Prop :=
  dg_to d = pe.2 /\ exists q, LumenPacket.from_bytes (dg_data d) = Some q /\
    type_ (header_ q) = ACK /\ payload_ q = [sequence_ (header_ pe.1)].

Lemma acks_next p e w : packet_ok p -> is_u8 (current_sequence_ (protocol_ w)) ->
  acks (carries e (next_packet ACK HIGH [sequence_ (header_ p)] w)) (p, e).
Proof.
  intros Hp Hs. split; [done|]. exists (next_packet ACK HIGH [sequence_ (header_ p)] w).
  split; [|done].
  rewrite <- (app_nil_r (dg_data _)). apply packet_from_to_bytes; [|apply bytes_ok_nil].
  apply next_packet_ok; [done| |done]. apply bytes_ok_cons. split; [apply Hp|apply bytes_ok_nil].
Qed.

(** *** A session with its timers *)

(** A base station in a session, as the datagrams reach it: its socket and its layers
    run, and no partial packet is waiting. *)
Record session_base w : Prop := {
  session_live : active_base w;
  session_running : running_ (protocol_ w) = true;
  session_manager : ReliabilityManager.running_ (rm w) = true;
  session_socket : socket_up (transport_ w);
  session_boundaries : forall key, frame_buffer key w = [];
  session_number : is_u8 (current_sequence_ (protocol_ w));
}.

(** What happens during the session: a datagram with a packet arrives, the station
    sends a message of its own, time passes, and the two timers of the reliability
    manager complete. *)
Inductive session_event :=
| Arrives (p : LumenPacket) (e : endpoint)
| Sends (payload : bytes) (type : MessageType) (priority : Priority) (e : endpoint)
| Elapses (time : Z)
| CleanupFires
| RetransmitFires.

Definition session_exec (ev : session_event) : M (World log) unit :=
  match ev with
  | Arrives p e => server_receive note_delivery NoError (LumenPacket.to_bytes p) e
  | Sends payload type priority e => send_message payload type priority e
  | Elapses time => modify (fun w =>
      mkWorld (transport_ w) (protocol_ w) (sent_ w) (steady_now w + time) (system_now w + time) (app_ w))
  | CleanupFires => cleanup_timer_event false
  | RetransmitFires => retransmit_timer_event (fun _ => mret tt) false
  end.

Definition session_run (evs : list session_event) w : World log :=
  foldl (fun w ev => run_state (session_exec ev) w) w evs.

Definition event_ok (ev : session_event) : Prop :=
  match ev with
  | Arrives p e => packet_ok p /\ packet_fits SERVER_SOCK_BUF_SIZE p /\
      tracked (type_ (header_ p)) = true /\ endpoint_ok e /\ valid_endpoint e
  | Elapses time => 0 <= time
  | _ => True
  end.

Definition arrivals (evs : list session_event) : list (LumenPacket * endpoint) :=
  omap (fun ev => match ev with Arrives p e => Some (p, e) | _ => None end) evs.

(** *** The ledger *)

(** The abstract station: who sent which number since the ledger was last cleared,
    when that was, the time, and what was passed up. *)
Record ledger := mkLedger { seen : log; cleared : Z; clock : Z; passed : log }.

Definition ledger_step (l : ledger) (ev : session_event) : ledger :=
  match ev with
  | Arrives p e =>
    let m := (e, sequence_ (header_ p)) in
    if bool_decide (m ∈ seen l) then l
    else mkLedger (m :: seen l) (cleared l) (clock l) (passed l ++ [m])
  | Elapses time => mkLedger (seen l) (cleared l) (clock l + time) (passed l)
  | CleanupFires =>
    if cleared l + ms 10000 <? clock l then mkLedger [] (clock l) (clock l) (passed l) else l
  | Sends _ _ _ _ | RetransmitFires => l
  end.

Definition ledger_run (evs : list session_event) (l : ledger) : ledger := foldl ledger_step l evs.

(** The ledger of a base station, [base] being what it had passed up before. *)
Record represents (base : log) (l : ledger) w : Prop := {
  represents_seen e s : endpoint_ok e -> has_acked_sequence s e (rm w) = bool_decide ((e, s) ∈ seen l);
  represents_cleared : cleared l = last_ack_cleanup_time_ (rm w);
  represents_clock : clock l = steady_now w;
  represents_passed : app_ w = base ++ passed l;
}.

(** The acknowledgements of [evs] are, in order, among what was sent. *)
Definition answers (evs : list session_event) (sent : list datagram) : Prop :=
  exists ds, ds `sublist_of` sent /\ Forall2 acks ds (arrivals evs).

Lemma session_arrives p e base l w : session_base w -> represents base l w ->
  event_ok (Arrives p e) ->
  exists w', session_exec (Arrives p e) w = (Ok tt, w') /\ session_base w' /\
    represents base (ledger_step l (Arrives p e)) w' /\
    exists d, sent_ w' = sent_ w ++ [d] /\ acks d (p, e).
Proof.
  intros [Ha Hr Hm Hup Hb Hs] [R1 R2 R3 R4] (Hp & Hf & Hty & He & Hv).
  cbn [session_exec].
  rewrite (server_gets_packet note_delivery p e w (active_mode _ Ha)) by done.
  set (w0 := noted_clear e (hearing e w)). pose proof (hearing_same e w) as [S1 S2 S3 S4 S5 S6].
  assert (active_base w0) as Ha0.
  { destruct Ha as [A1 A2 A3 A4]. split; unfold w0, noted_clear, rm in *; cbn; rewrite ?S2; try done.
    change (mode_ (hearing e w) = BASE_STATION). by rewrite (socket_mode _ _ (hearing_same e w)). }
  assert (socket_up (transport_ w0)) as Hup0 by (by apply (socket_still_up _ _ (hearing_same e w))).
  destruct (process_active p e w0 Ha0 Hty He (reachable_up _ _ (active_mode _ Ha0) Hup0 Hv)) as
    (w1 & Hrun & Ha1 & Htr & Hseq1 & Happ & Hsent & Hrun1 & Hfb & Hnow & [Hsr Hsc] & Hacked).
  unfold run_state. rewrite Hrun. cbn [snd]. pose proof (server_rearmed_same w1) as [T1 T2 T3 T4 T5 T6].
  assert (rm (server_rearmed w1) = rm w1) as Trm by (unfold rm; by rewrite T2).
  assert (rm w0 = rm w) as Hrm0 by (unfold w0, noted_clear, rm; cbn; by rewrite S2).
  rewrite Hrm0 in *. assert (app_ w0 = app_ w) as Hw0 by exact S6. rewrite Hw0 in Happ.
  eexists. split; [reflexivity|]. split_and!.
  - destruct Ha1 as [B1 B2 B3 B4]. split.
    + split; rewrite ?(socket_mode _ _ (server_rearmed_same w1)), ?T2, ?Trm; done.
    + rewrite T2, Hrun1. unfold w0, noted_clear. cbn. by rewrite S2.
    + by rewrite Trm, Hsr.
    + apply (socket_still_up _ _ (server_rearmed_same w1)). by rewrite Htr.
    + intros key. unfold frame_buffer. rewrite T2, Hfb. unfold w0, noted_clear. cbn. rewrite S2.
      destruct (decide (key = get_endpoint_key e)) as [->|Hne]; [by rewrite lookup_insert_eq|].
      rewrite lookup_insert_ne by congruence. apply Hb.
    + rewrite T2, Hseq1. apply u8_range.
  - specialize (R1 e (sequence_ (header_ p)) He) as Hdup. rewrite Hdup in Happ.
    assert (forall e' s', endpoint_ok e' -> has_acked_sequence s' e' (rm (server_rearmed w1)) =
      bool_decide ((e', s') ∈ (e, sequence_ (header_ p)) :: seen l)) as Hseen.
    { intros e' s' He'. rewrite Trm, Hacked, R1, <- bool_decide_or by done. apply bool_decide_ext.
      rewrite elem_of_cons. split; (intros [H|H]; [left|right; exact H]); [by destruct H as [-> ->]|].
      by injection H. }
    cbn [ledger_step]. destruct (bool_decide_reflect ((e, sequence_ (header_ p)) ∈ seen l)) as [Hin|Hin].
    + split; rewrite ?Trm, ?Hsc, ?T4, ?Hnow, ?T6, ?Happ, ?app_nil_r; try done; [|by rewrite R3, <- S4].
      intros e' s' He'. rewrite <- Trm, Hseen by done. apply bool_decide_ext. rewrite elem_of_cons.
      split; [|by right]. intros [->|H]; done.
    + split; cbn [seen cleared clock passed]; rewrite ?T4, ?Hnow, ?T6, ?Happ; [done| | |].
      * by rewrite Trm, Hsc.
      * by rewrite R3, <- S4.
      * by rewrite R4, <- app_assoc.
  - eexists. split; [rewrite T3, Hsent; f_equal; exact S3|]. apply acks_next; [done|].
    unfold w0, noted_clear. cbn. by rewrite S2.
Qed.

(** The other events. *)
Lemma session_sends payload ty pr e base l w : session_base w -> represents base l w ->
  exists w' ds, session_exec (Sends payload ty pr e) w = (Ok tt, w') /\ session_base w' /\
    represents base l w' /\ sent_ w' = sent_ w ++ ds.
Proof.
  intros [[A1 A2 A3 A4] Hr Hm Hup Hb Hs] [R1 R2 R3 R4]. cbn [session_exec].
  rewrite send_message_run, Hr. cbn [negb]. unfold target_of, mode_ in *.
  destruct (transport_ w) as [s|c] eqn:Ht; [|done].
  assert (forall w', transport_ w' = transport_ w -> app_ w' = app_ w -> steady_now w' = steady_now w ->
    (exists f, protocol_ w' = with_rm f (protocol_ (took_number w)) /\
       (forall r, role_ (f r) = role_ r /\ same_schedule r (f r)) /\
       forall s e r, has_acked_sequence s e (f r) = has_acked_sequence s e r) ->
    session_base w' /\ represents base l w') as Hall.
  { intros w' E1 E2 E3 (f & E4 & E5 & E6).
    assert (rm w' = f (rm w)) as Erm by (unfold rm; rewrite E4; done).
    destruct (E5 (rm w)) as [E7 [E8 E9]]. split.
    - split; unfold frame_buffer; rewrite ?E4; cbn; rewrite ?Erm, ?E8, ?E1, ?Ht; try done.
      + split; unfold mode_; rewrite ?E4, ?E1, ?Ht, ?Erm, ?E7; done.
      + apply u8_range.
    - split; rewrite ?Erm, ?E9, ?E2, ?E3; try done. intros e' s' He'. by rewrite E6, R1. }
  destruct (ep_unspecified e).
  - exists (took_number w), []. split; [reflexivity|]. rewrite app_nil_r.
    destruct (Hall (took_number w)) as [H1 H2]; [done..| |done].
    exists (fun r => r). split; [|done]. unfold with_rm. by destruct (protocol_ (took_number w)).
  - eexists _, _. split; [reflexivity|].
    match goal with |- session_base ?w' /\ _ => destruct (Hall w') as [H1 H2] end;
      [by destruct (tracked ty)|by destruct (tracked ty)|by destruct (tracked ty)| |].
    + destruct (tracked ty).
      * eexists. split; [reflexivity|]. split; [|intros; apply has_acked_add].
        intros r. unfold add_send_packet. repeat case_match; by split.
      * exists (fun r => r). split; [|done]. by destruct w as [? []].
    + split; [done|]. split; [done|]. destruct (tracked ty); reflexivity.
Qed.

(** A timer of the reliability manager changes nothing but the manager, which sends
    nothing: a base station does not retransmit on its own. *)
Lemma session_timer f base l l' w : session_base w -> represents base l w ->
  role_ (f (rm w)) = role_ (rm w) ->
  ReliabilityManager.running_ (f (rm w)) = ReliabilityManager.running_ (rm w) ->
  passed l' = passed l -> clock l' = clock l -> cleared l' = last_ack_cleanup_time_ (f (rm w)) ->
  (forall e s, endpoint_ok e -> has_acked_sequence s e (f (rm w)) = bool_decide ((e, s) ∈ seen l')) ->
  session_base (upd_rm f w) /\ represents base l' (upd_rm f w).
Proof.
  intros [[A1 A2 A3 A4] Hr Hm Hup Hb Hs] [R1 R2 R3 R4] E1 E2 E3 E4 E5 E6.
  unfold rm in *. split; split; unfold rm, upd_rm, with_rm in *; cbn; rewrite ?E1, ?E2; try done.
  - split; unfold rm; cbn; rewrite ?E1; done.
  - by rewrite E4.
  - by rewrite E3.
Qed.

Lemma cleanup_facts now r : ReliabilityManager.running_ r = true ->
  let r' := cleanup_timer_completed now false r in
  role_ r' = role_ r /\ ReliabilityManager.running_ r' = true /\
  last_ack_cleanup_time_ r' =
    (if last_ack_cleanup_time_ r + ms (CLEANUP_INTERVAL * 2) <? now then now
     else last_ack_cleanup_time_ r) /\
  forall s e, has_acked_sequence s e r' =
    if last_ack_cleanup_time_ r + ms (CLEANUP_INTERVAL * 2) <? now then false
    else has_acked_sequence s e r.
Proof.
  intros Hr r'. assert (r' = set_cleanup_timer (async_wait (expires_at
    (expiry (cleanup_timer_ r) + ms CLEANUP_INTERVAL) (cleanup_timer_ r))) (cleanup_old_entries now r)) as ->.
  { unfold r', cleanup_timer_completed, handle_cleanup_timer. rewrite Hr. cbn [negb andb].
    assert (ReliabilityManager.running_ (cleanup_old_entries now r) = true) as ->
      by (unfold cleanup_old_entries; by destruct (_ <? now)).
    unfold cleanup_old_entries. by destruct (_ <? now). }
  split_and!; [..|intros s e; exact (has_acked_cleanup now s e r)];
    unfold cleanup_old_entries; by destruct (_ <? now).
Qed.

Lemma session_cleanup base l w : session_base w -> represents base l w ->
  let w' := upd_rm (cleanup_timer_completed (steady_now w) false) w in
  session_exec CleanupFires w = (Ok tt, w') /\ session_base w' /\
  represents base (ledger_step l CleanupFires) w'.
Proof.
  intros Hw Hl w'. split; [reflexivity|].
  destruct (cleanup_facts (steady_now w) (rm w) (session_manager _ Hw)) as (F1 & F2 & F3 & F4).
  change (CLEANUP_INTERVAL * 2) with 10000 in *. cbn [ledger_step].
  rewrite (represents_cleared _ _ _ Hl), (represents_clock _ _ _ Hl).
  apply (session_timer _ base l); [done|done|exact F1|by rewrite F2, (session_manager _ Hw)|..];
    rewrite ?F3; destruct (_ <? steady_now w) eqn:E; rewrite ?E; cbn; try done.
  - by rewrite (represents_clock _ _ _ Hl).
  - apply Hl.
  - intros e s He. rewrite F4. by apply Hl.
Qed.

Lemma session_retransmit base l w : session_base w -> represents base l w ->
  exists w', session_exec RetransmitFires w = (Ok tt, w') /\ session_base w' /\
    represents base l w' /\ sent_ w' = sent_ w.
Proof.
  intros Hw Hl. set (f r := set_retransmit_timer (async_wait (expires_at
    (expiry (retransmit_timer_ r) + ms RELIABILITY_CHECK_INTERVAL) (retransmit_timer_ r))) r).
  exists (upd_rm f w). cbn [session_exec]. split.
  - unfold retransmit_timer_event. rewrite run_bind, run_gets, run_bind, run_gets.
    assert (retransmit_timer_completed (steady_now w) false (rm w) = (f (rm w), [])) as ->; [|done].
    unfold retransmit_timer_completed, handle_retransmission_timer.
    rewrite (session_manager _ Hw), (active_role _ (session_live _ Hw)). cbn [negb andb].
    rewrite bool_decide_false by done. by rewrite (session_manager _ Hw).
  - assert (session_base (upd_rm f w) /\ represents base l (upd_rm f w)) as [H1 H2]; [|done].
    apply (session_timer _ base l); [done|done|reflexivity..| |]; apply Hl.
Qed.

Lemma session_elapses time base l w : session_base w -> represents base l w ->
  let w' := run_state (session_exec (Elapses time)) w in
  session_base w' /\ represents base (ledger_step l (Elapses time)) w' /\ sent_ w' = sent_ w.
Proof.
  intros [Ha Hr Hm Hup Hb Hs] [R1 R2 R3 R4] w'. split; [|split; [|done]].
  - split; try done. by destruct Ha.
  - split; try done. cbn. by rewrite R3.
Qed.

Lemma answers_cons ev evs sent ds : Forall2 acks ds (arrivals [ev]) -> answers evs sent ->
  answers (ev :: evs) (ds ++ sent).
Proof.
  intros Hds (ds' & Hsub & Hall). exists (ds ++ ds'). split; [by apply sublist_app|].
  change (arrivals (ev :: evs)) with (arrivals ([ev] ++ evs)). unfold arrivals.
  rewrite omap_app. by apply Forall2_app.
Qed.

Lemma answers_skip ev evs sent ds : arrivals [ev] = [] -> answers evs sent ->
  answers (ev :: evs) (ds ++ sent).
Proof.
  intros Hev (ds' & Hsub & Hall). exists ds'. split; [by apply sublist_inserts_l|].
  change (arrivals (ev :: evs)) with (arrivals ([ev] ++ evs)). unfold arrivals in *.
  by rewrite omap_app, Hev.
Qed.

(** One event. *)
Lemma session_step ev base l w : session_base w -> represents base l w -> event_ok ev ->
  let w' := run_state (session_exec ev) w in
  session_base w' /\ represents base (ledger_step l ev) w' /\
  exists ds, sent_ w' = sent_ w ++ ds /\
    forall evs sent, answers evs sent -> answers (ev :: evs) (ds ++ sent).
Proof.
  intros Hw Hl Hev w'. destruct ev as [p e|pl ty pr e|time| |].
  - destruct (session_arrives p e base l w Hw Hl Hev) as (w1 & E & H1 & H2 & d & Hd & Hack).
    unfold w', run_state. rewrite E. split; [done|]. split; [done|]. exists [d]. split; [done|].
    intros evs sent. apply answers_cons. by apply Forall2_cons; split; [|apply Forall2_nil].
  - destruct (session_sends pl ty pr e base l w Hw Hl) as (w1 & ds & E & H1 & H2 & Hds).
    unfold w', run_state. rewrite E. split; [done|]. split; [done|]. exists ds. split; [done|].
    intros evs sent. by apply answers_skip.
  - destruct (session_elapses time base l w Hw Hl) as (H1 & H2 & H3).
    split; [exact H1|]. split; [exact H2|]. exists []. rewrite app_nil_r. split; [exact H3|].
    intros evs sent. by apply (answers_skip (Elapses time) evs sent []).
  - destruct (session_cleanup base l w Hw Hl) as (E & H1 & H2).
    unfold w', run_state. rewrite E. split; [done|]. split; [done|]. exists []. rewrite app_nil_r.
    split; [done|]. intros evs sent. by apply (answers_skip CleanupFires evs sent []).
  - destruct (session_retransmit base l w Hw Hl) as (w1 & E & H1 & H2 & H3).
    unfold w', run_state. rewrite E. split; [done|]. split; [done|]. exists []. rewrite app_nil_r.
    split; [done|]. intros evs sent. by apply (answers_skip RetransmitFires evs sent []).
Qed.

Lemma session_run_refines evs base : forall l w, session_base w -> represents base l w ->
  Forall event_ok evs ->
  represents base (ledger_run evs l) (session_run evs w) /\
  exists sent, sent_ (session_run evs w) = sent_ w ++ sent /\ answers evs sent.
Proof.
  unfold ledger_run, session_run. induction evs as [|ev evs IH]; intros l w Hw Hl Hevs; cbn [foldl].
  { split; [done|]. exists []. rewrite app_nil_r. split; [done|]. exists []. split; constructor. }
  apply Forall_cons in Hevs as [Hev Hevs].
  destruct (session_step ev base l w Hw Hl Hev) as (H1 & H2 & ds & Hds & Hans).
  destruct (IH _ _ H1 H2 Hevs) as (H3 & sent & Hsent & Ha). split; [done|].
  exists (ds ++ sent). split; [by rewrite Hsent, Hds, <- app_assoc|]. by apply Hans.
Qed.

(** While the ledger is not cleared, what it passed up is in it, once. *)
Definition once (l : ledger) : Prop := NoDup (passed l) /\ forall m, m ∈ passed l -> m ∈ seen l.

Lemma ledger_once evs : forall l, Forall event_ok evs -> once l ->
  clock (ledger_run evs l) <= cleared l + ms 10000 -> once (ledger_run evs l).
Proof.
  assert (forall evs l, Forall event_ok evs -> clock l <= clock (ledger_run evs l)) as Hmono.
  { unfold ledger_run. clear. induction evs as [|ev evs IH]; intros l Hevs; cbn [foldl]; [done|].
    apply Forall_cons in Hevs as [Hev Hevs]. transitivity (clock (ledger_step l ev)); [|by apply IH].
    destruct ev; cbn in *; repeat case_match; cbn; lia. }
  unfold ledger_run in *. induction evs as [|ev evs IH]; intros l Hevs Hl Hc; cbn [foldl] in *; [done|].
  apply Forall_cons in Hevs as [Hev Hevs]. specialize (Hmono evs (ledger_step l ev) Hevs).
  assert (once (ledger_step l ev) /\ cleared (ledger_step l ev) = cleared l) as [H1 H2].
  { destruct ev as [p e| | | |]; cbn in *; try done.
    - destruct (bool_decide_reflect ((e, sequence_ (header_ p)) ∈ seen l)) as [|Hn]; [done|].
      split; [|done]. destruct Hl as [Hnd Hin]. split; cbn.
      + apply NoDup_app. split; [done|]. split; [|apply NoDup_singleton].
        intros m Hm ->%list_elem_of_singleton. by apply Hn, Hin.
      + intros m [Hm| ->%list_elem_of_singleton]%elem_of_app; [|apply list_elem_of_here].
        by apply list_elem_of_further, Hin.
    - destruct (_ <? clock l) eqn:E; [|done]. cbn in *. apply Z.ltb_lt in E. lia. }
  apply IH; [done|done|by rewrite H2].
Qed.

(** C29: What a base station in a session passes up, whatever arrives from whom, however
    often, between the station's own messages, the passing of time and the completions
    of both timers: it is what the ledger says.  A packet is passed up when its sender
    and number are not in the ledger; so that, until ten seconds have passed since the
    ledger was last cleared, each is passed up at most once.  But a completion of the
    cleanup timer after that clears the ledger, and a packet retransmitted because its
    ACK was lost is passed up again.  Every packet that arrives is answered, repeated or
    not, by one ACK that names its number, in order. *)
Theorem base_forwards_once evs l w :
  session_base w -> represents (app_ w) l w -> passed l = [] -> Forall event_ok evs ->
  let w' := session_run evs w in
  let l' := ledger_run evs l in
  app_ w' = app_ w ++ passed l' /\
  (clock l' <= cleared l + ms 10000 -> NoDup (passed l')) /\
  (exists sent, sent_ w' = sent_ w ++ sent /\ answers evs sent) /\
  represents (app_ w) l' w'.
Proof.
  intros Hw Hl Hp Hevs w' l'. destruct (session_run_refines evs (app_ w) l w Hw Hl Hevs) as [H1 H2].
  split; [apply H1|]. split; [|done]. intros Hc.
  apply (ledger_once evs l Hevs); [|exact Hc]. unfold once. rewrite Hp. split; [constructor|].
  by intros m ?%elem_of_nil.
Qed.
End AtMostOnce.

(** ** A rover and a base station *)

Section Exchange.
Context {A : AsioAddress} `{!AsioAddressLaws A} {J : Json} {C : Chrono} {UR UB : Type}.
Implicit Types r : World UR.
Implicit Types b : World UB.

(** A running rover whose base is [be]. *)
Record rover_at (be : endpoint) r : Prop := {
  rover_transport : exists c, transport_ r = Client c /\ base_endpoint_ c = be;
  rover_base : ep_unspecified be = false;
  rover_running : running_ (protocol_ r) = true;
  rover_rm : running_rover (rm r);
  rover_seq : is_u8 (current_sequence_ (protocol_ r));
}.

(** A running base station in a session, that can reach [re]. *)
Record base_for (re : endpoint) b : Prop := {
  base_mode : mode_ b = BASE_STATION;
  base_reach : reachable (transport_ b) re;
  base_running : running_ (protocol_ b) = true;
  base_session : session_active_ (protocol_ b) = true;
  base_callback : message_callback_ (protocol_ b) = true;
  base_seq : is_u8 (current_sequence_ (protocol_ b));
}.

Lemma tracked_after_add now s p e rr : running_rover rr ->
  is_Some (sent_packets_ (add_send_packet now s p e rr) !! s).
Proof.
  intros [Hr _]. unfold add_send_packet. rewrite Hr. cbn [negb].
  destruct (sent_packets_ rr !! s) eqn:E; [by rewrite E|]. simpl. by rewrite lookup_insert_eq.
Qed.

Lemma running_rover_add now s p e rr : running_rover rr -> running_rover (add_send_packet now s p e rr).
Proof. unfold add_send_packet, running_rover. by repeat case_match. Qed.

Lemma acked_gone now s s' e rr : running_rover rr ->
  sent_packets_ (process_ack s (record_received_sequence now s' e rr)) !! s = None.
Proof.
  intros [Hr Hrole]. unfold record_received_sequence. rewrite Hr. cbn [negb].
  unfold process_ack. simpl. rewrite Hr, Hrole. simpl.
  destruct (sent_packets_ rr !! s) eqn:E; [|done]. simpl. apply lookup_delete_eq.
Qed.

(** Being heard leaves the nodes what they are. *)
Lemma base_for_hearing re e b : base_for re b -> base_for re (noted_clear e (hearing e b)).
Proof.
  intros [Hm Hre Hr Ha Hc Hs]. pose proof (hearing_same e b) as [S1 S2 S3 S4 S5 S6].
  split; unfold noted_clear; cbn; rewrite ?S2; try done.
  - change (mode_ (hearing e b) = BASE_STATION). by rewrite (socket_mode _ _ (hearing_same e b)).
  - revert Hre. unfold reachable, hearing. by destruct (transport_ b).
Qed.

(** The rover's part: the message leaves, and waits for its acknowledgement. *)
Lemma rover_sends be r payload ty pr : rover_at be r -> tracked ty = true ->
  let s := current_sequence_ (protocol_ r) in
  let p := next_packet ty pr payload r in
  exists r1, send_message payload ty pr endpoint_default r = (Ok tt, r1) /\
    sent_ r1 = sent_ r ++ [carries be p] /\ is_Some (sent_packets_ (rm r1) !! s) /\
    transport_ r1 = transport_ r /\ running_ (protocol_ r1) = true /\ running_rover (rm r1) /\
    frame_buffers_ (protocol_ r1) = frame_buffers_ (protocol_ r).
Proof.
  intros [(c & Hc & Hbe) Hu Hr Hrm Hs] Hty s p.
  assert (target_of (transport_ r) endpoint_default = Ok (Some be)) as Htarget.
  { rewrite Hc. unfold target_of, get_base_endpoint. rewrite Hbe, Hu.
    unfold endpoint_default, ep_unspecified at 1. simpl. by rewrite address_any_unspecified. }
  exists (put_packet p be (upd_rm (add_send_packet (steady_now r) s p be) (took_number r))).
  split_and!; try done.
  - by rewrite send_message_run, Hr, Htarget, Hty.
  - rewrite sent_put_packet; [done|]. simpl. rewrite Hc. split; [done|by left].
  - by apply tracked_after_add.
  - by apply running_rover_add.
Qed.

(** The base station's part: the packet is answered, and passed up if it is new. *)
Lemma base_answers (cbb : bytes -> LumenHeader -> endpoint -> M (World UB) unit) re b p :
  base_for re b -> packet_ok p -> tracked (type_ (header_ p)) = true ->
  let s := sequence_ (header_ p) in
  exists b' q, packet_ok q /\ type_ (header_ q) = ACK /\ payload_ q = [s] /\
    process_complete_packet cbb p re b =
      when (negb (has_acked_sequence s re (rm b))) (cbb (payload_ p) (header_ p) re) b' /\
    sent_ b' = sent_ b ++ [carries re q] /\ app_ b' = app_ b.
Proof.
  intros [Hm Hre Hbr Hact Hcb Hbs] Hp Hty s. set (b' := acknowledged s re (recorded s re b)).
  exists b', (next_packet ACK HIGH [s] b). split_and!; try done.
  - apply next_packet_ok; [done| |done]. apply bytes_ok_cons. split; [apply Hp|apply bytes_ok_nil].
  - rewrite (process_base_run cbb p re b) by done. rewrite Hact. fold s b'.
    destruct (has_acked_sequence s re (rm b)); [done|]. cbn [negb when]. unfold forward.
    rewrite run_bind. unfold ask. rewrite run_gets.
    change (message_callback_ (protocol_ b')) with (message_callback_ (protocol_ b)). by rewrite Hcb.
  - unfold b', acknowledged. by rewrite sent_put_packet.
Qed.

(** The answer is a packet of thirteen bytes. *)
Lemma ack_fits q s : payload_ q = [s] -> packet_fits CLIENT_SOCK_BUF_SIZE q.
Proof. intros Hq. unfold packet_fits, total_size. by rewrite Hq. Qed.

(** The rover gets it, and the packet no longer waits. *)
Lemma rover_acked (cbr : bytes -> LumenHeader -> endpoint -> M (World UR) unit)
    `{!forall pl h e fb, Commutes (with_buffers fb) (cbr pl h e)}
    `{!forall pl h e, NoThrow (cbr pl h e)} be r q s :
  mode_ r = ROVER -> socket_up (transport_ r) -> running_ (protocol_ r) = true -> running_rover (rm r) ->
  frame_buffer (get_endpoint_key be) r = [] -> packet_ok q -> type_ (header_ q) = ACK -> payload_ q = [s] ->
  exists r2, client_receive cbr NoError (LumenPacket.to_bytes q) be r = (Ok tt, r2) /\
    sent_packets_ (rm r2) !! s = None /\ sent_ r2 = sent_ r /\ app_ r2 = app_ r.
Proof.
  intros Hm Hup Hr Hrm Hb Hq Hty Hpl. eexists. split.
  { apply client_gets_packet; try done. by apply (ack_fits q s). }
  pose proof (hearing_same be r) as [S1 S2 S3 S4 S5 S6].
  set (r0 := noted_clear be (hearing be r)). unfold run_state.
  rewrite (process_ack_run cbr q be r0 s []); [|by change (mode_ (hearing be r) = ROVER); rewrite (socket_mode _ _ (hearing_same be r))|done..].
  cbn [snd]. match goal with |- context [client_rearmed ?w'] =>
    pose proof (client_rearmed_same w') as [T1 T2 T3 T4 T5 T6] end.
  unfold rm at 1. rewrite T2, T3, T6. split_and!; [|exact S3|exact S6].
  assert (rm r0 = rm r) as E by (unfold r0, noted_clear, rm; cbn; by rewrite S2).
  pose proof (acked_gone (steady_now r0) s (sequence_ (header_ q)) be (rm r0)) as Hgone.
  rewrite E in Hgone. specialize (Hgone Hrm). rewrite <- E in Hgone. exact Hgone.
Qed.

(** The base station's socket and a packet that fits. *)
Lemma base_receives (cbb : bytes -> LumenHeader -> endpoint -> M (World UB) unit)
    `{!forall pl h e fb, Commutes (with_buffers fb) (cbb pl h e)}
    `{!forall pl h e, NoThrow (cbb pl h e)} re b p :
  base_for re b -> socket_up (transport_ b) -> frame_buffer (get_endpoint_key re) b = [] ->
  packet_ok p -> tracked (type_ (header_ p)) = true -> packet_fits SERVER_SOCK_BUF_SIZE p ->
  let s := sequence_ (header_ p) in
  exists b' a,
    server_receive cbb NoError (LumenPacket.to_bytes p) re b =
      (Ok tt, server_rearmed (run_state
        (when (negb (has_acked_sequence s re (rm b))) (cbb (payload_ p) (header_ p) re)) b')) /\
    sent_ b' = sent_ b ++ [a] /\ app_ b' = app_ b /\ dg_to a = re /\
    exists q, a = carries re q /\ packet_ok q /\ type_ (header_ q) = ACK /\ payload_ q = [s].
Proof.
  intros Hbase Hup Hb Hp Hty Hf s. pose proof (hearing_same re b) as [S1 S2 S3 S4 S5 S6].
  destruct (base_answers cbb re (noted_clear re (hearing re b)) p (base_for_hearing re re b Hbase) Hp Hty)
    as (b' & q & Hq & Hqt & Hqp & Hrun & Hsent & Happ).
  exists b', (carries re q). split_and!; [..|by exists q].
  - rewrite (server_gets_packet cbb p re b) by (apply Hbase || done).
    unfold run_state at 1. rewrite Hrun.
    assert (rm (noted_clear re (hearing re b)) = rm b) as -> by (unfold noted_clear, rm; cbn; by rewrite S2).
    done.
  - rewrite Hsent. f_equal. exact S3.
  - rewrite Happ. exact S6.
  - done.
Qed.

(** C9: One message from a rover to its base station, with no datagram lost, through
    the sockets of both.  It leaves as one datagram to the base.  When the packet,
    twelve bytes longer than the payload, fits into the receive buffer of the base, the
    base station answers with one datagram and passes the payload up, unless it had
    acknowledged the number already; and when the rover gets the answer, the packet no
    longer waits for retransmission.  When it does not fit, the base station neither
    passes anything up nor answers, and the first bytes of the packet stay in its frame
    buffer, waiting for the others, which the socket has dropped. *)
Theorem message_acknowledged
    (cbr : bytes -> LumenHeader -> endpoint -> M (World UR) unit)
    `{!forall pl h e fb, Commutes (with_buffers fb) (cbr pl h e)}
    `{!forall pl h e, NoThrow (cbr pl h e)}
    (cbb : bytes -> LumenHeader -> endpoint -> M (World UB) unit)
    `{!forall pl h e fb, Commutes (with_buffers fb) (cbb pl h e)}
    `{!forall pl h e, NoThrow (cbb pl h e)}
    be re r b payload ty pr :
  rover_at be r -> base_for re b -> socket_up (transport_ r) -> socket_up (transport_ b) ->
  frame_buffer (get_endpoint_key be) r = [] -> frame_buffer (get_endpoint_key re) b = [] ->
  bytes_ok payload -> vec_size payload < 65536 -> tracked ty = true ->
  let s := current_sequence_ (protocol_ r) in
  exists r1 d h,
    send_message payload ty pr endpoint_default r = (Ok tt, r1) /\
    sent_ r1 = sent_ r ++ [d] /\ dg_to d = be /\ is_Some (sent_packets_ (rm r1) !! s) /\
    type_ h = ty /\ priority_ h = pr /\ sequence_ h = s /\
    (vec_size payload + 12 <= SERVER_SOCK_BUF_SIZE ->
      exists b' a r2,
        server_receive cbb NoError (dg_data d) re b =
          (Ok tt, server_rearmed (run_state
            (when (negb (has_acked_sequence s re (rm b))) (cbb payload h re)) b')) /\
        sent_ b' = sent_ b ++ [a] /\ app_ b' = app_ b /\ dg_to a = re /\
        client_receive cbr NoError (dg_data a) be r1 = (Ok tt, r2) /\
        sent_packets_ (rm r2) !! s = None /\ sent_ r2 = sent_ r1) /\
    (SERVER_SOCK_BUF_SIZE < vec_size payload + 12 ->
      let b' := run_state (server_receive cbb NoError (dg_data d) re) b in
      sent_ b' = sent_ b /\ app_ b' = app_ b /\
      frame_buffer (get_endpoint_key re) b' = take 1024 (dg_data d)).
Proof.
  intros Hrover Hbase Hrup Hbup Hrb Hbb Hpl Hsz Hty s.
  destruct (rover_sends be r payload ty pr Hrover Hty) as
    (r1 & Hsend & Hsent & Hwait & Htr & Hrun & Hrm & Hfb).
  set (p := next_packet ty pr payload r) in *.
  assert (packet_ok p) as Hp by (apply next_packet_ok; [apply Hrover|done..]).
  assert (total_size p = vec_size payload + 12) as Htot by (unfold total_size, LUMEN_HEADER_SIZE; cbn; lia).
  exists r1, (carries be p), (header_ p). split_and!; try done; intros Hfit; unfold packet_fits in *.
  - destruct (base_receives cbb re b p Hbase Hbup Hbb Hp Hty) as
      (b' & a & H1' & H2' & H3' & H4' & q & -> & Hq & Hqt & Hqp); [unfold packet_fits; by rewrite Htot|].
    destruct (rover_acked cbr be r1 q s) as (r2 & H5' & H6' & H7' & _); try done.
    + destruct Hrover as [(c & Hc & _) _ _ _ _]. unfold mode_. by rewrite Htr, Hc.
    + by rewrite Htr.
    + unfold frame_buffer in *. by rewrite Hfb.
    + by exists b', (carries re q), r2.
  - unfold run_state. cbn [dg_data carries].
    rewrite (server_cuts_packet cbb p re b) by (apply Hbase || done || (unfold packet_fits; lia)).
    cbn [snd]. pose proof (hearing_same re b) as [S1 S2 S3 S4 S5 S6].
    match goal with |- context [server_rearmed ?w'] =>
      pose proof (server_rearmed_same w') as [T1 T2 T3 T4 T5 T6] end.
    rewrite T3, T6. split_and!; [exact S3|exact S6|].
    unfold frame_buffer at 1. rewrite T2. cbn. by rewrite lookup_insert_eq.
Qed.
End Exchange.

(** ** Gaps and negative acknowledgements *)

Section Naks.
Context {A : AsioAddress} `{!AsioAddressLaws A} {J : Json} {C : Chrono} {U : Type}.
Implicit Types w : World U.

(** C37: A base station that gets a NAK hands the transport the very packet it has
    stored under the number, for the endpoint it was stored with, whoever asked; a
    number it has not stored is ignored. *)
Theorem nak_answered (cb : bytes -> LumenHeader -> endpoint -> M (World U) unit) p e w s rest :
  mode_ w = BASE_STATION -> type_ (header_ p) = NAK -> payload_ p = s :: rest ->
  ReliabilityManager.running_ (rm w) = true -> role_ (rm w) = ReliabilityManager.BASE_STATION ->
  retransmit_callback_ (rm w) = true ->
  process_complete_packet cb p e w =
  (Ok tt, let w0 := recorded (sequence_ (header_ p)) e w in
          match sent_packets_ (rm w) !! s with
          | Some info => put_packet (packet info) (recipient info) w0
          | None => w0
          end).
Proof.
  intros Hm Hty Hpl Hr Hrole Hcb. rewrite (process_nak_run cb p e w s rest) by done.
  set (w0 := recorded (sequence_ (header_ p)) e w).
  assert (process_nak s (rm w0) = match sent_packets_ (rm w) !! s with
    | Some info => [CallRetransmit (packet info) (recipient info)] | None => [] end) as ->.
  { unfold w0, recorded, upd_rm, with_rm, rm, process_nak, record_received_sequence in *. simpl.
    rewrite Hr. simpl. rewrite Hr, Hrole. simpl. by rewrite Hcb. }
  destruct (sent_packets_ (rm w) !! s); [|done].
  unfold run_calls. cbn [for_each]. by rewrite run_bind, send_packet_run.
Qed.

Lemma send_nak_run s e be w : rover_at be w ->
  send_nak s e w = (Ok tt, put_packet (next_packet NAK HIGH [s] w) be (took_number w)).
Proof.
  intros [(c & Hc & Hbe) Hu _ _ _]. unfold send_nak. rewrite run_bind, run_gets, Hc.
  unfold get_base_endpoint. rewrite Hbe, Hu.
  rewrite run_bind. change (generate_timestamp w) with
    (Ok (timestamp_of (system_now w)) : result Z, w). cbv iota.
  rewrite run_bind. change (next_sequence w) with
    (Ok (current_sequence_ (protocol_ w)) : result Z, took_number w). cbv iota.
  by rewrite send_packet_run.
Qed.

(** The state after a NAK for [s]. *)
Definition naked (s : Z) (be : endpoint) w : World U :=
  upd_rm (record_nak_sent (steady_now w) s)
    (put_packet (next_packet NAK HIGH [s] w) be (took_number w)).

Lemma rover_at_naked s be w : rover_at be w -> rover_at be (naked s be w).
Proof. intros [H1 H2 H3 H4 H5]. split; try done. apply u8_range. Qed.

Lemma rover_reachable be w : rover_at be w -> reachable (transport_ w) be.
Proof. intros [(c & -> & Hbe) Hu _ _ _]. split; [done|by left]. Qed.

(** A NAK on the wire. *)
Definition naks (p : LumenPacket) (s : Z) : Prop := type_ (header_ p) = NAK /\ payload_ p = [s].

Lemma filter_ext_in (P Q : Z -> Prop) `{!forall x, Decision (P x)} `{!forall x, Decision (Q x)} (l : list Z) :
  (forall x, x ∈ l -> P x <-> Q x) -> filter P l = filter Q l.
Proof.
  induction l as [|x l IH]; intros Hl; [done|].
  rewrite !filter_cons, IH by (intros y Hy; apply Hl; by apply list_elem_of_further).
  pose proof (Hl x (list_elem_of_here _ _)). repeat case_decide; tauto.
Qed.

Lemma send_naks_run e be missing : forall n w, rover_at be w -> NoDup missing -> 0 <= n < 3 ->
  exists ps, sent_ (run_state (send_naks missing n e) w) = sent_ w ++ (carries be <$> ps) /\
    Forall2 naks ps (take (Z.to_nat (3 - n))
      (filter (fun s => is_recently_naked (steady_now w) s (rm w) = false) missing)).
Proof.
  induction missing as [|s missing IH]; intros n w Hw Hnd Hn.
  { exists []. split; [by rewrite app_nil_r|]. rewrite filter_nil, take_nil. constructor. }
  apply NoDup_cons in Hnd as [Hs Hnd].
  unfold run_state. cbn [send_naks]. rewrite run_bind, run_gets, run_bind, run_gets.
  destruct (is_recently_naked (steady_now w) s (rm w)) eqn:Hrec; cbn [negb].
  { rewrite filter_cons_False by congruence. by apply IH. }
  rewrite filter_cons_True by done. rewrite run_bind, (send_nak_run s e be w Hw). cbv iota.
  rewrite run_bind, on_rm_run. cbv iota.
  change (upd_rm _ (put_packet _ _ _)) with (naked s be w).
  assert (sent_ (naked s be w) = sent_ w ++ [carries be (next_packet NAK HIGH [s] w)]) as Hsent.
  { unfold naked. simpl. f_equal. apply packet_datagrams_reachable. by apply rover_reachable. }
  unfold MAX_NAKS_PER_CHECK. destruct (3 <=? n + 1) eqn:En.
  - exists [next_packet NAK HIGH [s] w]. split; [exact Hsent|].
    replace (Z.to_nat (3 - n)) with 1%nat by lia. cbn [take]. rewrite take_0.
    repeat constructor.
  - destruct (IH (n + 1) (naked s be w)) as (ps & Hps & Hall);
      [by apply rover_at_naked|done|lia|].
    exists (next_packet NAK HIGH [s] w :: ps). split.
    + unfold run_state in Hps. rewrite Hps, Hsent, <- app_assoc. done.
    + replace (Z.to_nat (3 - n)) with (S (Z.to_nat (3 - (n + 1)))) by lia. cbn [take].
      constructor; [done|].
      rewrite (filter_ext_in _ (fun s0 =>
        is_recently_naked (steady_now (naked s be w)) s0 (rm (naked s be w)) = false));
        [exact Hall|]. intros x Hx. unfold naked, upd_rm, with_rm, rm. simpl.
      rewrite is_recently_naked_record, bool_decide_false; [done|]. intros ->. by apply Hs.
Qed.

Lemma NoDup_get_missing e r : NoDup (get_missing_sequences e r).
Proof.
  unfold get_missing_sequences. destruct (negb _); [constructor|].
  destruct (received_sequences_ r !! _); [|constructor].
  destruct (last _) as [[h ?]|]; [apply NoDup_missing_in_window|constructor].
Qed.

(** C38: A rover's check for gaps sends at most three NAKs, to its base: one for each
    of the first three missing numbers not asked for within the debounce time. *)
Theorem gap_check_naks e be w :
  rover_at be w ->
  exists ps, sent_ (run_state (check_sequence_gaps e) w) = sent_ w ++ (carries be <$> ps) /\
    Forall2 naks ps (take 3 (filter
      (fun s => is_recently_naked (steady_now w) s (rm w) = false)
      (get_missing_sequences e (rm w)))).
Proof.
  intros Hw. unfold check_sequence_gaps, run_state. rewrite run_bind, run_gets.
  apply (send_naks_run e be _ 0 w Hw); [|lia]. apply NoDup_get_missing.
Qed.
End Naks.

Section Witnesses.
Import Ipv4 SampleLibraries Sample.

Lemma rover_node_at : rover_at base_ep rover_node.
Proof. split; try done. by eexists. Qed.

Lemma base_reaches_rover : reachable (transport_ base_node) rover_ep.
Proof. by split. Qed.

Lemma messages_numbered_witness :
  length (sent_ (run_state (send_all [([72], DATA, LOW); ([73], CMD, HIGH)] rover_ep) base_node)) = 2%nat.
Proof.
  destruct (messages_numbered [([72], DATA, LOW); ([73], CMD, HIGH)] rover_ep base_node)
    as (ps & -> & Hlen & _); [reflexivity|exact base_reaches_rover|done| |].
  - by repeat (apply Forall_cons; split; [split; [by apply (bool_decide_eq_true_1 _)|done]|]).
  - rewrite length_app, length_fmap, Hlen. done.
Defined.

Lemma send_message_failures_witness :
  run_state (send_message [72] DATA LOW endpoint_default) base_node = took_number base_node.
Proof.
  pose proof (send_message_failures [72] DATA LOW endpoint_default base_node) as H.
  unfold run_state. destruct (send_message _ _ _ _ _) as [r w']. by apply H.
Defined.

Definition fresh_ledger : ledger := mkLedger [] 0 0 [].

Lemma base_node_session : session_base (base_of []) /\ represents [] fresh_ledger (base_of []).
Proof. split; [by split|]. split; [|done..]. by intros e s _. Qed.

(** The same packet twice, and once more after a cleanup. *)
Definition lost_ack : list session_event :=
  [Arrives sample_packet rover_ep; Arrives sample_packet rover_ep; Elapses (ms 11000);
   CleanupFires; Arrives sample_packet rover_ep].

Lemma base_forwards_once_witness :
  app_ (session_run lost_ack (base_of [])) = [(rover_ep, 7); (rover_ep, 7)].
Proof.
  destruct (base_forwards_once lost_ack fresh_ledger (base_of [])) as (H & _).
  - apply base_node_session.
  - apply base_node_session.
  - reflexivity.
  - assert (event_ok (Arrives sample_packet rover_ep)) as Hev.
    { split; [apply sample_packet_ok|]. by vm_compute. }
    repeat (apply Forall_cons; split; [first [exact Hev|done]|]). apply Forall_nil_2.
  - rewrite H. vm_compute. reflexivity.
Defined.

Lemma message_acknowledged_witness :
  (exists r1 r2 a, send_message [72; 105] DATA MEDIUM endpoint_default rover_node = (Ok tt, r1) /\
    is_Some (sent_packets_ (rm r1) !! 0) /\
    client_receive record_payload NoError (dg_data a) base_ep r1 = (Ok tt, r2) /\
    sent_packets_ (rm r2) !! 0 = None) /\
  (exists r1 d, send_message (replicate 1013 65) DATA MEDIUM endpoint_default rover_node = (Ok tt, r1) /\
    app_ (run_state (server_receive record_payload NoError (dg_data d) rover_ep) base_node) = []).
Proof.
  split.
  - destruct (message_acknowledged record_payload record_payload base_ep rover_ep rover_node base_node
      [72; 105] DATA MEDIUM) as (r1 & d & h & H1 & _ & _ & H2 & _ & _ & _ & H3 & _); try done.
    + apply rover_node_at.
    + by apply (bool_decide_eq_true_1 _).
    + destruct H3 as (b' & a & r2 & H'); [by vm_compute|]. exists r1, r2, a. tauto.
  - destruct (message_acknowledged record_payload record_payload base_ep rover_ep rover_node base_node
      (replicate 1013 65) DATA MEDIUM) as (r1 & d & h & H1 & _ & _ & _ & _ & _ & _ & _ & H3); try done.
    + apply rover_node_at.
    + by apply (bool_decide_eq_true_1 _); vm_compute.
    + exists r1, d. split; [exact H1|]. destruct H3 as (_ & H' & _); [by vm_compute|exact H'].
Defined.

Definition nak_packet (s : Z) : LumenPacket := make_packet (mkLumenHeader NAK HIGH 3 0 0) [s].

Lemma nak_answered_witness :
  sent_ (run_state (process_complete_packet record_payload (nak_packet 7) rover_ep)
    (upd_rm (fun _ => sample_waiting true) base_node)) =
  packet_datagrams (transport_ base_node) sample_packet base_ep.
Proof.
  unfold run_state.
  rewrite (nak_answered record_payload (nak_packet 7) rover_ep _ 7 []) by done. done.
Defined.

(** A rover that got the numbers 9 and 5 of its base: 8, 7 and 6 are asked for. *)
Definition gapped_rover : World (list bytes) := recorded 5 base_ep (recorded 9 base_ep rover_node).

Lemma gap_check_naks_witness :
  exists ps, sent_ (run_state (check_sequence_gaps base_ep) gapped_rover) = carries base_ep <$> ps /\
    Forall2 naks ps [8; 7; 6].
Proof.
  destruct (gap_check_naks base_ep base_ep gapped_rover) as (ps & H1 & H2).
  - destruct rover_node_at as [R1 R2 R3 R4 R5]. by split.
  - exists ps. split; [exact H1|]. revert H2. vm_compute. exact id.
Defined.
End Witnesses.
