(* ===== verification/MessageManager.v ===== *)
(** * The message manager: [include/common/message_manager.hpp],
    [src/common/message_manager.cpp]

    Messages over the protocol: a message object is serialised into the payload of a
    packet, and a payload received is read back and passed to the application.  The
    manager is a part of the node's upper state, reached through [HasManager]; the
    application callback is a parameter. *)
From S2P Require Import Prelude Configs Crc8 LumenHeader LumenPacket Asio ReliabilityManager.
From S2P Require Import UdpServer UdpClient Libraries Messages LumenProtocol ProtocolFacts Framing.
From S2P Require Import Delivery.

(** ** State *)

(** [message_callback_] is recorded as set or not set. *)
Record MessageManager := mkMessageManager {
  sender_id_ : string;
  running_ : bool;
  message_callback_ : bool;
}.

Definition make_MessageManager (sender_id : string) : MessageManager :=
  mkMessageManager sender_id false false.

(** An upper state that owns a message manager. *)
Class HasManager (U : Type) := {
  manager : U -> MessageManager;
  set_manager : MessageManager -> U -> U;
}.

Class ManagerLaws (U : Type) (H : HasManager U) : Prop := {
  manager_set m u : manager (set_manager m u) = m;
  set_manager_set m1 m2 u : set_manager m1 (set_manager m2 u) = set_manager m1 u;
  set_manager_id u : set_manager (manager u) u = u;
}.

(** ** Operations *)

Section Manager.
Context {A : AsioAddress} {J : Json} {C : Chrono} {U : Type} `{HasManager U}.

Abbreviation MW := (M (World U)).

Definition ask_manager {X} (f : MessageManager -> X) : MW X := gets (fun w => f (manager (app_ w))).

Definition on_manager (f : MessageManager -> MessageManager) : MW unit :=
  modify (fun w => set_app (set_manager (f (manager (app_ w))) (app_ w)) w).

(** [start] *)
Definition start : MW unit :=
  running ← ask_manager running_;
  if running : bool then mret tt
  else
    on_manager (fun m => mkMessageManager (sender_id_ m) true (message_callback_ m)) ;;
    on_protocol LumenProtocol.set_message_callback.

(** [stop] *)
Definition stop : MW unit :=
  running ← ask_manager running_;
  if negb running then mret tt
  else on_manager (fun m => mkMessageManager (sender_id_ m) false (message_callback_ m)).

(** [set_message_callback] *)
Definition set_message_callback : MW unit :=
  on_manager (fun m => mkMessageManager (sender_id_ m) (running_ m) true).

(** [send_message]; what follows the call of the protocol only writes the log. *)
Definition send_message (message : Message) (recipient : endpoint) : MW unit :=
  running ← ask_manager running_;
  if negb running then mret tt
  else try_catch
    (json_str ← of_result (serialise message);
     let payload := string_to_binary json_str in
     let lumen_type := get_lumen_type message in
     let priority := get_lumen_priority message in
     LumenProtocol.send_message payload lumen_type priority recipient)
    (fun _ => mret tt).

(** [send_raw_message] *)
Definition send_raw_message (message : Message) (recipient : endpoint) : MW unit :=
  running ← ask_manager running_;
  if negb running then mret tt
  else try_catch
    (json_str ← of_result (serialise message);
     let data := string_to_binary json_str in
     t ← gets transport_;
     match t with
     | Server s => emit (UdpServer.send_data data recipient s)
     | Client c =>
       sending_to_base ← try_runtime
         (if ep_unspecified recipient then mret true
          else base ← of_result (get_base_endpoint c); mret (bool_decide (recipient = base)))
         (fun _ => mret (ep_unspecified recipient));
       if sending_to_base : bool
       then ds ← of_result (UdpClient.send_data data c); emit ds
       else emit (send_data_to data recipient)
     end)
    (fun _ => mret tt).

Section Receiving.
Context (message_callback : Message -> endpoint -> MW unit).

(** [handle_lumen_message], the callback registered with the protocol. *)
Definition handle_lumen_message (payload : bytes) (_ : LumenHeader) (sender : endpoint) : MW unit :=
  running ← ask_manager running_;
  if negb running then mret tt
  else try_catch
    (let json_str := binary_to_string payload in
     valid ← of_result (is_valid_json json_str);
     if negb valid then mret tt
     else
       now ← gets system_now;
       message ← of_result (deserialise now json_str);
       callback_set ← ask_manager message_callback_;
       when callback_set (message_callback message sender))
    (fun _ => mret tt).

(** [process_raw_json_message], of a message that is not null. *)
Definition process_raw_json_message (message : Message) (sender : endpoint) : MW unit :=
  running ← ask_manager running_;
  if negb running then mret tt
  else
    callback_set ← ask_manager message_callback_;
    when callback_set (message_callback message sender).
End Receiving.

(** ** Facts *)

#[global] Instance start_no_throw : NoThrow start.
Proof. unfold start. apply _. Qed.
#[global] Instance stop_no_throw : NoThrow stop.
Proof. unfold stop. apply _. Qed.
#[global] Instance send_message_no_throw m e : NoThrow (send_message m e).
Proof. unfold send_message. apply _. Qed.
#[global] Instance send_raw_message_no_throw m e : NoThrow (send_raw_message m e).
Proof. unfold send_raw_message. apply _. Qed.
#[global] Instance handle_lumen_message_no_throw cb pl h e : NoThrow (handle_lumen_message cb pl h e).
Proof. unfold handle_lumen_message. apply _. Qed.

#[global] Instance ask_manager_buffers {X} (f : MessageManager -> X) fb :
  Commutes (with_buffers fb) (ask_manager f).
Proof. by apply commutes_gets. Qed.
#[global] Instance on_manager_buffers f fb : Commutes (with_buffers fb) (on_manager f).
Proof. by apply commutes_modify. Qed.
#[global] Instance send_message_buffers m e fb : Commutes (with_buffers fb) (send_message m e).
Proof. unfold send_message. cbv zeta. apply _. Qed.
#[global] Instance send_raw_message_buffers m e fb : Commutes (with_buffers fb) (send_raw_message m e).
Proof. unfold send_raw_message. cbv zeta. apply _. Qed.
#[global] Instance handle_lumen_message_buffers cb pl h e fb :
  (forall m e, Commutes (with_buffers fb) (cb m e)) ->
  Commutes (with_buffers fb) (handle_lumen_message cb pl h e).
Proof. intros Hcb. unfold handle_lumen_message. cbv zeta. apply _. Qed.

#[global] Instance handle_lumen_message_preserves (I : World U -> Prop) cb pl h e :
  (forall m e, Preserves I (cb m e)) -> Preserves I (handle_lumen_message cb pl h e).
Proof. intros Hcb. unfold handle_lumen_message, ask_manager. cbv zeta. apply _. Qed.
End Manager.

(** *** Sending, for any upper state *)

Section Sending.
Context {A : AsioAddress} {J : Json} {C : Chrono} {U : Type}.
Implicit Types w : World U.

Lemma lumen_send_same pl ty pr e w :
  same_but_sending w (run_state (LumenProtocol.send_message pl ty pr e) w).
Proof.
  unfold run_state. rewrite send_message_run.
  destruct (LumenProtocol.running_ (protocol_ w)) eqn:Hr; cbn [negb]; [|reflexivity].
  destruct (target_of _ _) as [[e'|]|]; [|by split..].
  destruct (tracked ty); by split.
Qed.

Context `{HasManager U}.

Lemma manager_send_same m e w :
  same_but_sending w (run_state (MessageManager.send_message m e) w).
Proof.
  unfold run_state, MessageManager.send_message. rewrite run_bind. unfold ask_manager.
  rewrite run_gets. destruct (MessageManager.running_ _); [|reflexivity]. cbn [negb].
  unfold try_catch. destruct (serialise m) as [s|]; [|reflexivity].
  rewrite run_bind. cbn [of_result].
  pose proof (lumen_send_same (string_to_binary s) (get_lumen_type m) (get_lumen_priority m) e w) as Hs.
  unfold run_state in Hs. by destruct (LumenProtocol.send_message _ _ _ _ w) as [[]].
Qed.

Lemma manager_send_raw_same m e w :
  same_but_sending w (run_state (MessageManager.send_raw_message m e) w).
Proof.
  unfold run_state, MessageManager.send_raw_message. rewrite run_bind. unfold ask_manager.
  rewrite run_gets. destruct (MessageManager.running_ _); [|reflexivity]. cbn [negb].
  unfold try_catch. destruct (serialise m) as [s|]; [|reflexivity].
  rewrite run_bind. cbn [of_result]. rewrite run_bind, run_gets.
  destruct (transport_ w) as [srv|c]; [by split|].
  unfold try_runtime, try_catch, get_base_endpoint, UdpClient.send_data.
  unfold of_result, mbind, M_bind. destruct (ep_unspecified e), (ep_unspecified (base_endpoint_ c));
    cbn; try (by split).
  destruct (bool_decide (e = base_endpoint_ c)); by split.
Qed.

(** A node whose layers run. *)
Record operational w : Prop := {
  oper_manager : MessageManager.running_ (manager (app_ w)) = true;
  oper_protocol : LumenProtocol.running_ (protocol_ w) = true;
}.

Lemma operational_same w w' : same_but_sending w w' -> operational w -> operational w'.
Proof. intros [_ Hr _ _ _ Ha _ _] [H1 H2]. split; by rewrite ?Ha, ?Hr. Qed.

(** A message sent by the manager to an endpoint that can be reached. *)
Lemma manager_send_reachable m e w s : operational w -> reachable (transport_ w) e ->
  serialise m = Ok s ->
  let w' := run_state (MessageManager.send_message m e) w in
  let p := next_packet (get_lumen_type m) (get_lumen_priority m) (string_to_binary s) w in
  sent_ w' = sent_ w ++ [carries e p] /\
  current_sequence_ (protocol_ w') = u8 (current_sequence_ (protocol_ w) + 1) /\
  rm w' = (if tracked (get_lumen_type m)
           then add_send_packet (steady_now w) (current_sequence_ (protocol_ w)) p e (rm w)
           else rm w).
Proof.
  intros [Hm Hp] He Hs. cbn zeta. unfold run_state, MessageManager.send_message.
  rewrite run_bind. unfold ask_manager. rewrite run_gets. cbv beta. rewrite Hm. cbn [negb].
  unfold try_catch. rewrite Hs, run_bind. cbn [of_result].
  destruct (send_message_reachable (string_to_binary s) (get_lumen_type m) (get_lumen_priority m)
    e w Hp He) as (w' & -> & H1 & H2 & _ & H3). done.
Qed.
End Sending.

(** ** Theorems *)

Section Theorems.
Context {A : AsioAddress} `{!AsioAddressLaws A} {J : Json} {C : Chrono}.
Context `{!JsonLaws J} `{!ChronoLaws C}.

(** A manager that is started and has its application callback. *)
Definition attached {U} `{HasManager U} (w : World U) : Prop :=
  running_ (manager (app_ w)) = true /\ message_callback_ (manager (app_ w)) = true.

(** [m] is written as [s], timestamp included. *)
Definition written (m : Message) (s : string) : Prop :=
  message_ok m /\ serialise m = Ok s /\ exists t, chrono_format (get_timestamp m) = Ok t.

Lemma written_read now m s : written m s -> is_valid_json s = Ok true /\ deserialise now s = Ok m.
Proof.
  intros (Hm & Hs & t & Ht). split; [by apply (is_valid_json_serialise m)|].
  rewrite (deserialise_serialise now m s) by done.
  by rewrite (string_to_tp_of_string now _ t Ht), set_timestamp_id.
Qed.

(** What is done with a message read: the callback runs, its exceptions are caught. *)
Definition guarded {U} (m : M (World U) unit) : M (World U) unit := try_catch m (fun _ => mret tt).

Lemma handle_written {U} `{HasManager U} (cb : Message -> endpoint -> M (World U) unit) m s h e w :
  attached w -> written m s ->
  handle_lumen_message cb (string_to_binary s) h e w = guarded (cb m e) w.
Proof.
  intros [Hr Hc] Hm. destruct (written_read (system_now w) m s Hm) as [Hv Hd].
  unfold handle_lumen_message. rewrite run_bind. unfold ask_manager. rewrite run_gets, Hr.
  cbn [negb]. unfold guarded, try_catch. rewrite binary_to_string_to_binary, Hv.
  rewrite run_bind. cbn [of_result negb]. rewrite run_bind, run_gets, run_bind, Hd. cbn [of_result].
  rewrite run_bind, run_gets, Hc. done.
Qed.


Lemma written_brace m s : written m s -> exists rest, string_to_binary s = 123 :: rest.
Proof.
  intros (_ & Hs & _). apply json_dump_brace in Hs as [s' ->]. by eexists.
Qed.

(** The layers between the transport and the application, when all of them are there. *)
Lemma forward_run {U} `{HasManager U} (app : Message -> endpoint -> M (World U) unit) pl h e (w : World U) :
  LumenProtocol.message_callback_ (protocol_ w) = true ->
  forward (handle_lumen_message app) pl h e w = handle_lumen_message app pl h e w.
Proof. intros Hc. unfold forward. rewrite run_bind. unfold ask. by rewrite run_gets, Hc. Qed.

(** The JSON text of a message as a datagram. *)
Lemma raw_message_run {U} `{HasManager U} (app : Message -> endpoint -> M (World U) unit) m s e (w : World U) :
  LumenProtocol.running_ (protocol_ w) = true ->
  LumenProtocol.message_callback_ (protocol_ w) = true -> attached w -> written m s ->
  handle_udp_data (handle_lumen_message app) (string_to_binary s) e w = guarded (app m e) w.
Proof.
  intros Hr Hc Hat Hm. destruct (written_brace m s Hm) as [rest Hs].
  destruct (written_read (system_now w) m s Hm) as [Hv Hd].
  assert (handle_raw_json (handle_lumen_message app) (string_to_binary s) e w =
    (Ok true, run_state (guarded (app m e)) w)) as Hraw.
  { unfold handle_raw_json, try_catch. rewrite binary_to_string_to_binary, Hv.
    rewrite run_bind. cbn [of_result]. rewrite run_bind, run_gets, run_bind, Hd. cbn [of_result].
    rewrite run_bind. change (generate_timestamp w) with
      (Ok (timestamp_of (system_now w)) : result Z, w). cbv iota zeta.
    rewrite run_bind, forward_run, (handle_written app m s) by done.
    unfold guarded. by rewrite (no_throw_unit (try_catch _ _)). }
  unfold handle_udp_data. rewrite run_bind. unfold ask. rewrite run_gets, Hr, Hs. cbn [negb].
  rewrite <- Hs. change (123 =? LUMEN_STX) with false. change (123 =? 123) with true. cbv iota.
  rewrite run_bind, Hraw. unfold guarded. by rewrite (no_throw_unit (try_catch _ _)).
Qed.

(** C36: Datagrams that are not packets reach the application too: the JSON text of a
    message is delivered as that message, as if it had come in a packet; bytes that
    start with neither marker become the content of a [BasicMessage] from
    ["Unknown:"] and the sender's endpoint, unless they are not text, and then
    nothing happens.  In no case is an ACK sent. *)
Theorem raw_datagrams {U} `{HasManager U} (app : Message -> endpoint -> M (World U) unit) e
    (w : World U) :
  LumenProtocol.running_ (protocol_ w) = true ->
  LumenProtocol.message_callback_ (protocol_ w) = true -> attached w ->
  (forall m s, written m s ->
    handle_udp_data (handle_lumen_message app) (string_to_binary s) e w = guarded (app m e) w) /\
  (forall b rest, b <> LUMEN_STX -> b <> 123 ->
    let m := BasicMessage (binary_to_string (b :: rest)) ("Unknown:" +:+ get_endpoint_key e)
               (system_now w) in
    (forall s, written m s ->
      handle_udp_data (handle_lumen_message app) (b :: rest) e w = guarded (app m e) w) /\
    (forall ex, serialise m = Throw ex ->
      handle_udp_data (handle_lumen_message app) (b :: rest) e w = (Ok tt, w))).
Proof.
  intros Hr Hc Hat. split; [intros m s; by apply raw_message_run|]. intros b rest Hb Hb' m.
  assert (handle_udp_data (handle_lumen_message app) (b :: rest) e w =
    wrap_raw (handle_lumen_message app) (b :: rest) e w) as ->.
  { unfold handle_udp_data. rewrite run_bind. unfold ask. rewrite run_gets, Hr. cbn [negb].
    by rewrite (proj2 (Z.eqb_neq _ _) Hb), (proj2 (Z.eqb_neq _ _) Hb'). }
  unfold wrap_raw. split.
  + intros s Hm. unfold try_catch. rewrite run_bind, run_gets, run_bind. fold m.
    rewrite (proj1 (proj2 Hm)). cbn [of_result]. rewrite run_bind.
    change (generate_timestamp w) with (Ok (timestamp_of (system_now w)) : result Z, w).
    cbv iota zeta. rewrite forward_run, (handle_written app m s) by done.
    unfold guarded. by rewrite (no_throw_unit (try_catch _ _)).
  + intros ex Hex. unfold try_catch. rewrite run_bind, run_gets, run_bind. fold m. by rewrite Hex.
Qed.
End Theorems.

(** ** Nodes with a message manager, to evaluate on *)

Module SampleManager.
Import Ipv4 SampleLibraries Sample.

(** An upper state with an application that keeps what it gets. *)
Definition upper : Type := MessageManager * list (Message * endpoint).

#[export] Instance upper_has_manager : HasManager upper :=
  {| manager := fst; set_manager m u := (m, u.2) |}.

#[export] Instance upper_manager_laws : ManagerLaws upper upper_has_manager.
Proof. split; [done|done|by intros []]. Qed.

Definition keep (m : Message) (e : endpoint) : M (World upper) unit :=
  modify (fun w => set_app ((app_ w).1, (app_ w).2 ++ [(m, e)]) w).

#[export] Instance keep_buffers m e fb : Commutes (with_buffers fb) (keep m e).
Proof. unfold keep. apply _. Qed.

Definition sample_upper : upper := (mkMessageManager "node" true true, []).

Definition sample_message : Message := BasicMessage "hello" "grp18-rover" 1700000000000000000.
Definition sample_text : string :=
  match serialise sample_message with Ok s => s | Throw _ => "" end.

Lemma sample_written : written sample_message sample_text.
Proof. split; [done|]. split; [reflexivity|]. by eexists. Qed.
End SampleManager.

Section Witnesses.
Import Ipv4 SampleLibraries Sample SampleManager.


Lemma raw_datagrams_witness :
  handle_udp_data (handle_lumen_message keep) (string_to_binary sample_text) rover_ep
    (base_of sample_upper) = guarded (keep sample_message rover_ep) (base_of sample_upper).
Proof.
  apply (raw_datagrams keep rover_ep (base_of sample_upper));
    [reflexivity|reflexivity|by split|apply sample_written].
Defined.
End Witnesses.
