(* ===== verification/Doubles.v ===== *)
(** * Doubles: what the program does with [double]

    The arithmetic of IEEE 754 binary64 with rounding to nearest even, as the
    Standard Library specifies it, the output of a double in fixed notation with
    six digits, and its input by [std::stod]. *)
From Stdlib Require Import Ascii SpecFloat.
From stdpp Require Import pretty.
From S2P Require Import Prelude Libraries.

Local Open Scope Z_scope.

(** ** Arithmetic *)

Definition prec : Z := 53.
Definition emax : Z := 1024.

Definition d_add : double -> double -> double := SFadd prec emax.
Definition d_sub : double -> double -> double := SFsub prec emax.
Definition d_mul : double -> double -> double := SFmul prec emax.
Definition d_div : double -> double -> double := SFdiv prec emax.
Definition d_sqrt : double -> double := SFsqrt prec emax.
Definition d_leb : double -> double -> bool := SFleb.
Definition d_ltb : double -> double -> bool := SFltb.

(** [static_cast<double>] of an integer. *)
Definition d_of_Z (z : Z) : double := binary_normalize prec emax z 0 false.

Definition d_zero : double := S754_zero false.
Definition d_one : double := d_of_Z 1.

(** ** Output: [std::fixed << std::setprecision(6)] *)

(** The quotient of integers, to nearest, ties to even. *)
Definition round_div (n d : Z) : Z :=
  let q := n / d in
  let r := n mod d in
  match (2 * r) ?= d with
  | Lt => q
  | Gt => q + 1
  | Eq => if Z.even q then q else q + 1
  end.

(** The magnitude [m * 2 ^ e] in millionths. *)
Definition millionths (m : positive) (e : Z) : Z :=
  if 0 <=? e then Zpos m * 2 ^ e * 1000000 else round_div (Zpos m * 1000000) (2 ^ (- e)).

Definition pretty_Z (z : Z) : string := pretty (Z.to_N z).

(** [n] digits of [z], with leading zeros. *)
Fixpoint digits (n : nat) (z : Z) : string :=
  match n with
  | O => ""
  | S n => digits n (z / 10) +:+ pretty_Z (z mod 10)
  end.

Definition fixed_magnitude (n : Z) : string :=
  pretty_Z (n / 1000000) +:+ "." +:+ digits 6 (n mod 1000000).

Definition fixed6 (d : double) : string :=
  match d with
  | S754_zero s => (if s then "-" else "") +:+ fixed_magnitude 0
  | S754_infinity s => (if s then "-" else "") +:+ "inf"
  | S754_nan => "nan"
  | S754_finite s m e => (if s then "-" else "") +:+ fixed_magnitude (millionths m e)
  end.

Example fixed6_1 : fixed6 (d_of_Z 3) = "3.000000"%string.
Proof. reflexivity. Qed.
Example fixed6_2 : fixed6 (d_div (d_of_Z (-1)) (d_of_Z 3)) = "-0.333333"%string.
Proof. reflexivity. Qed.

(** ** Input: [std::stod] *)

Definition digit_of (c : ascii) : option Z :=
  let n := Z.of_N (N_of_ascii c) in if (48 <=? n) && (n <=? 57) then Some (n - 48) else None.

Definition is_space (c : ascii) : bool :=
  let n := Z.of_N (N_of_ascii c) in (n =? 32) || ((9 <=? n) && (n <=? 13)).

Fixpoint skip_space (s : string) : string :=
  match s with
  | String c s' => if is_space c then skip_space s' else s
  | EmptyString => s
  end.

(** The longest run of digits: its value after [acc], its length, and the rest. *)
Fixpoint read_digits (acc : Z) (s : string) : Z * nat * string :=
  match s with
  | String c s' =>
    match digit_of c with
    | Some d => let '(v, n, rest) := read_digits (acc * 10 + d) s' in (v, S n, rest)
    | None => (acc, O, s)
    end
  | EmptyString => (acc, O, s)
  end.

Definition read_sign (s : string) : bool * string :=
  match s with
  | String "-" s' => (true, s')
  | String "+" s' => (false, s')
  | _ => (false, s)
  end.

(** The exponent part behind the letter [lower] or [upper], if there is a whole one. *)
Definition read_exponent (lower upper : ascii) (s : string) : Z :=
  match s with
  | String c s' =>
    if bool_decide (c = lower) || bool_decide (c = upper) then
      let '(neg, s'') := read_sign s' in
      let '(v, n, _) := read_digits 0 s'' in
      if bool_decide (n = O) then 0 else if neg then - v else v
    else 0
  | EmptyString => 0
  end.

(** The quotient [p / q], correctly rounded. *)
Definition d_ratio (neg : bool) (p q : positive) : double :=
  SFdiv prec emax (S754_finite neg p 0) (S754_finite false q 0).

(** The value [m * base ^ k], correctly rounded. *)
Definition d_scaled (neg : bool) (m base k : Z) : double :=
  match m with
  | Zpos p =>
    if 0 <=? k then binary_normalize prec emax (if neg then - (m * base ^ k) else m * base ^ k) 0 neg
    else match base ^ (- k) with
         | Zpos q => d_ratio neg p q
         | _ => S754_nan
         end
  | _ => S754_zero neg
  end.

(** Whether [m * base ^ k], [m] positive, is out of the range of the type: too large,
    or not a multiple of the smallest normal number's last place and below it. *)
Definition out_of_range (m base k : Z) (d : double) : bool :=
  match d with
  | S754_infinity _ => true
  | S754_zero _ => negb (m =? 0)
  | S754_finite _ m' e' =>
    (Zpos m' <? 2 ^ 52) && negb (m * base ^ Z.max 0 k * 2 ^ Z.max 0 (- e') =?
                                 Zpos m' * 2 ^ Z.max 0 e' * base ^ Z.max 0 (- k))
  | S754_nan => false
  end.

Definition checked (neg : bool) (m base k : Z) : result double :=
  let d := d_scaled neg m base k in
  if out_of_range m base k d then Throw (StdException "stod") else Ok d.

(** Digits, a point and more digits: the value of all of them, how many there are
    behind the point and in all, and the rest. *)
Definition read_mantissa (read : Z -> string -> Z * nat * string) (s : string)
    : Z * nat * nat * string :=
  let '(whole, n, rest) := read 0 s in
  match rest with
  | String "." rest' => let '(m, f, rest'') := read whole rest' in (m, f, (n + f)%nat, rest'')
  | _ => (whole, O, n, rest)
  end.

Definition read_decimal (neg : bool) (s : string) : result double :=
  let '(m, f, n, rest) := read_mantissa read_digits s in
  if bool_decide (n = O) then Throw (StdException "stod")
  else checked neg m 10 (read_exponent "e" "E" rest - Z.of_nat f).

Definition hex_digit_of (c : ascii) : option Z :=
  let n := Z.of_N (N_of_ascii c) in
  if (48 <=? n) && (n <=? 57) then Some (n - 48)
  else if (97 <=? n) && (n <=? 102) then Some (n - 87)
  else if (65 <=? n) && (n <=? 70) then Some (n - 55)
  else None.

Fixpoint read_hex_digits (acc : Z) (s : string) : Z * nat * string :=
  match s with
  | String c s' =>
    match hex_digit_of c with
    | Some d => let '(v, n, rest) := read_hex_digits (acc * 16 + d) s' in (v, S n, rest)
    | None => (acc, O, s)
    end
  | EmptyString => (acc, O, s)
  end.

Definition read_hexadecimal (neg : bool) (s : string) : result double :=
  let '(m, f, n, rest) := read_mantissa read_hex_digits s in
  if bool_decide (n = O) then Ok (S754_zero neg)
  else checked neg m 2 (read_exponent "p" "P" rest - 4 * Z.of_nat f).

(** The first three characters, in lower case. *)
Definition to_lower (c : ascii) : ascii :=
  let n := N_of_ascii c in if ((65 <=? n) && (n <=? 90))%N then ascii_of_N (n + 32) else c.

Definition word (s : string) : string :=
  match s with
  | String a (String b (String c _)) =>
    String (to_lower a) (String (to_lower b) (String (to_lower c) EmptyString))
  | _ => EmptyString
  end.

(** [std::stod]: an exception when no conversion can be performed or the value is
    out of range; what follows the number is ignored. *)
Definition stod (s : string) : result double :=
  let '(neg, s) := read_sign (skip_space s) in
  if bool_decide (word s = "inf") then Ok (S754_infinity neg)
  else if bool_decide (word s = "nan") then Ok S754_nan
  else match s with
       | String "0" (String "x" s') | String "0" (String "X" s') => read_hexadecimal neg s'
       | _ => read_decimal neg s
       end.

Example stod_1 : stod "12.5" = Ok (d_div (d_of_Z 25) (d_of_Z 2)).
Proof. reflexivity. Qed.
Example stod_2 : stod " -0.1e1,7" = Ok (d_of_Z (-1)).
Proof. reflexivity. Qed.
Example stod_3 : stod "0x1.8p1" = Ok (d_of_Z 3).
Proof. reflexivity. Qed.
Example stod_4 : stod "1e400" = Throw (StdException "stod").
Proof. reflexivity. Qed.
Example stod_5 : stod "north" = Throw (StdException "stod").
Proof. reflexivity. Qed.
