(* ===== verification/Decimals.v ===== *)
(** * Decimals: reading back what was written

    [std::stod] on the fixed notation with six digits: every double below [2 ^ 52] in
    magnitude is read back as the double nearest to its value in millionths. *)
From Stdlib Require Import Ascii SpecFloat.
From stdpp Require Import pretty.
From S2P Require Import Prelude Libraries Doubles.

Local Open Scope Z_scope.

(** ** Digits *)

Lemma append_assoc (s t u : string) : (s +:+ t) +:+ u = s +:+ (t +:+ u).
Proof. induction s as [|c s IH]; [done|]. exact (f_equal (String c) IH). Qed.

Lemma digit_cases (d : N) : (d < 10)%N ->
  (d = 0 \/ d = 1 \/ d = 2 \/ d = 3 \/ d = 4 \/ d = 5 \/ d = 6 \/ d = 7 \/ d = 8 \/ d = 9)%N.
Proof. lia. Qed.

(** Reading one more digit. *)
Definition more (n : nat) (r : Z * nat * string) : Z * nat * string :=
  let '(v, m, rest) := r in (v, (n + m)%nat, rest).

Lemma read_digit acc (d : N) s : (d < 10)%N ->
  read_digits acc (String (pretty_N_char d) s) = more 1 (read_digits (acc * 10 + Z.of_N d) s).
Proof. intros H%digit_cases. by destruct_or! H; subst. Qed.

Lemma pretty_digit d s : 0 <= d < 10 -> pretty_Z d +:+ s = String (pretty_N_char (Z.to_N d)) s.
Proof.
  intros H. rewrite <- (Z2N.id d) at 1 by lia.
  assert (Z.to_N d < 10)%N as Hd%digit_cases by lia. revert Hd. generalize (Z.to_N d). intros n Hn.
  by destruct_or! Hn; subst.
Qed.

Lemma more_0 r : more 0 r = r.
Proof. by destruct r as [[v k] rest]. Qed.

Lemma more_more n m r : more n (more m r) = more (n + m) r.
Proof. destruct r as [[v k] rest]. cbn. f_equal. f_equal. lia. Qed.

Lemma read_fixed_digits n z acc s : 0 <= z ->
  read_digits acc (digits n z +:+ s) =
  more n (read_digits (acc * 10 ^ Z.of_nat n + z mod 10 ^ Z.of_nat n) s).
Proof.
  revert z acc s. induction n as [|n IH]; intros z acc s Hz.
  { rewrite more_0. change (10 ^ Z.of_nat 0) with 1. by rewrite Z.mod_1_r, Z.mul_1_r, Z.add_0_r. }
  cbn [digits]. pose proof (Z.mod_pos_bound z 10). pose proof (Z.div_pos z 10).
  rewrite append_assoc, IH, pretty_digit by lia.
  rewrite read_digit, Z2N.id, more_more by lia. replace (n + 1)%nat with (S n) by lia. do 2 f_equal.
  rewrite Nat2Z.inj_succ, Z.pow_succ_r by lia. rewrite (Z.rem_mul_r z 10) by lia. lia.
Qed.

Lemma pretty_go_app x s t : pretty_N_go x s +:+ t = pretty_N_go x (s +:+ t).
Proof.
  revert s. induction (N.lt_wf_0 x) as [x _ IH]; intros s.
  destruct (decide (x = 0%N)) as [->|Hx]; [done|].
  rewrite !(pretty_N_go_step x) by lia. rewrite IH; [done|]. apply N.div_lt; lia.
Qed.

Lemma div_mod_10 (x : N) : Z.of_N (x `div` 10) * 10 + Z.of_N (x `mod` 10) = Z.of_N x.
Proof. rewrite (N.div_mod x 10) at 3 by done. rewrite N2Z.inj_add, N2Z.inj_mul. apply f_equal2; [apply Z.mul_comm|done]. Qed.

Lemma read_go x s : exists k, read_digits 0 (pretty_N_go x s) = more k (read_digits (Z.of_N x) s).
Proof.
  revert s. induction (N.lt_wf_0 x) as [x _ IH]; intros s.
  destruct (decide (x = 0%N)) as [->|Hx].
  { exists 0%nat. by rewrite pretty_N_go_0, more_0. }
  rewrite pretty_N_go_step by lia.
  destruct (IH (x `div` 10)%N ltac:(apply N.div_lt; lia) (String (pretty_N_char (x `mod` 10)) s)) as [k ->].
  exists (k + 1)%nat. pose proof (N.mod_lt x 10 ltac:(lia)). rewrite <- more_more. f_equal.
  rewrite read_digit by done. do 2 f_equal.
  apply div_mod_10.
Qed.

Lemma read_pretty z s : 0 <= z -> exists k, read_digits 0 (pretty_Z z +:+ s) = more (S k) (read_digits z s).
Proof.
  intros Hz. destruct (decide (z = 0)) as [->|Hne]; [by exists 0%nat|].
  unfold pretty_Z, pretty, pretty_N. rewrite decide_False by lia. rewrite pretty_go_app.
  rewrite pretty_N_go_step by lia. set (x := Z.to_N z).
  destruct (read_go (x `div` 10)%N (String (pretty_N_char (x `mod` 10)) ("" +:+ s))) as [k ->].
  exists k. replace (S k) with (k + 1)%nat by lia. rewrite <- more_more. f_equal.
  rewrite read_digit by (by apply N.mod_lt). do 2 f_equal.
  rewrite div_mod_10. unfold x. by rewrite Z2N.id.
Qed.

(** ** Numbers as text *)

Fixpoint all_chars (P : ascii -> bool) (s : string) : bool :=
  match s with
  | EmptyString => true
  | String c s' => P c && all_chars P s'
  end.

Lemma all_chars_app P s t : all_chars P (s +:+ t) = all_chars P s && all_chars P t.
Proof. induction s as [|c s IH]; [done|]. simpl. by rewrite IH, andb_assoc. Qed.

(** The characters of a number in fixed notation. *)
Definition is_digit (c : ascii) : bool := bool_decide (is_Some (digit_of c)).
Definition number_char (c : ascii) : bool := is_digit c || bool_decide (c = "."%char).

Lemma pretty_char_digit (d : N) : (d < 10)%N -> is_digit (pretty_N_char d) = true.
Proof. intros H%digit_cases. by destruct_or! H; subst. Qed.

Lemma digit_number c : is_digit c = true -> number_char c = true.
Proof. unfold number_char. by intros ->. Qed.

Lemma pretty_go_chars x s : all_chars number_char s = true -> all_chars number_char (pretty_N_go x s) = true.
Proof.
  revert s. induction (N.lt_wf_0 x) as [x _ IH]; intros s Hs.
  destruct (decide (x = 0%N)) as [->|Hx]; [done|].
  rewrite pretty_N_go_step by lia. apply IH; [apply N.div_lt; lia|]. cbn [all_chars].
  rewrite digit_number by (by apply pretty_char_digit, N.mod_lt). done.
Qed.

Lemma pretty_chars z : all_chars number_char (pretty_Z z) = true.
Proof. unfold pretty_Z, pretty, pretty_N. destruct (decide _); [done|]. by apply pretty_go_chars. Qed.

Lemma digits_chars n z : all_chars number_char (digits n z) = true.
Proof.
  revert z. induction n as [|n IH]; intros z; [done|]. cbn [digits].
  by rewrite all_chars_app, IH, pretty_chars.
Qed.

Lemma fixed_chars n : all_chars number_char (fixed_magnitude n) = true.
Proof. unfold fixed_magnitude. by rewrite !all_chars_app, pretty_chars, digits_chars. Qed.

Lemma number_not_x c : number_char c = true -> c <> "x"%char /\ c <> "X"%char.
Proof. intros H. split; intros ->; by vm_compute in H. Qed.

(** What starts with a digit is neither a sign, nor space, nor a word, and a hexadecimal
    number only with a letter behind the digit. *)
Lemma word_digit c s : is_digit c = true -> word (String c s) <> "inf"%string /\ word (String c s) <> "nan"%string.
Proof.
  intros Hc. assert (to_lower c <> "i"%char /\ to_lower c <> "n"%char) as [H1 H2].
  { revert Hc. destruct c as [[] [] [] [] [] [] [] []]; vm_compute; intros ?; split; congruence. }
  split; intros Hw; destruct s as [|b [|d s]]; simpl in Hw; congruence.
Qed.

Lemma digit_chars c : is_digit c = true -> c ∈ (pretty_N_char <$> [0; 1; 2; 3; 4; 5; 6; 7; 8; 9]%N).
Proof.
  intros Hc. apply (bool_decide_eq_true_1 _). revert Hc.
  by destruct c as [[] [] [] [] [] [] [] []]; vm_compute.
Qed.

Lemma hexadecimal_prefix c s {X} (f : string -> X) (y : X) : all_chars number_char s = true ->
  match String c s with
  | String "0" (String "x" s') | String "0" (String "X" s') => f s'
  | _ => y
  end = y.
Proof.
  intros Hs. destruct s as [|c' s]; [by destruct c as [[] [] [] [] [] [] [] []]|].
  simpl in Hs. apply andb_true_iff in Hs as [[H1 H2]%number_not_x _].
  destruct c as [[] [] [] [] [] [] [] []]; try done.
  destruct c' as [[] [] [] [] [] [] [] []]; done.
Qed.

Lemma stod_number (neg : bool) c s :
  is_digit c = true -> all_chars number_char s = true ->
  stod ((if neg then "-" else "") +:+ String c s) = read_decimal neg (String c s).
Proof.
  intros Hc Hs. destruct (word_digit c s Hc) as [H1 H2].
  assert (read_sign (skip_space ((if neg then "-" else "") +:+ String c s)) = (neg, String c s)) as Hsign.
  { apply digit_chars, list_elem_of_fmap in Hc as (d & -> & Hd). clear H1 H2.
    repeat (apply elem_of_cons in Hd as [->|Hd]; [by destruct neg|]). by apply elem_of_nil in Hd. }
  unfold stod. rewrite Hsign, !bool_decide_false by done. by apply hexadecimal_prefix.
Qed.

(** The number read in fixed notation. *)
Lemma read_whole n : 0 <= n -> exists k, read_digits 0 (fixed_magnitude n) =
  (n / 1000000, S k, String "." (digits 6 (n mod 1000000))).
Proof.
  intros Hn. destruct (read_pretty (n / 1000000) (String "." (digits 6 (n mod 1000000)))) as [k Hk];
    [apply Z.div_pos; lia|]. exists (k + 0)%nat. exact Hk.
Qed.

Lemma fixed_first n : 0 <= n -> exists c s, fixed_magnitude n = String c s /\ is_digit c = true.
Proof.
  intros Hn. destruct (read_whole n Hn) as [k Hk].
  destruct (fixed_magnitude n) as [|c s]; [done|]. exists c, s. split; [done|]. unfold is_digit.
  simpl in Hk. by destruct (digit_of c).
Qed.

Lemma string_app_nil s : s +:+ "" = s.
Proof. induction s as [|c s IH]; [done|]. exact (f_equal (String c) IH). Qed.

Lemma read_fixed n neg : 0 <= n -> read_decimal neg (fixed_magnitude n) = checked neg n 10 (-6).
Proof.
  intros Hn. unfold read_decimal, read_mantissa. destruct (read_whole n Hn) as [k ->].
  rewrite <- (string_app_nil (digits 6 _)), read_fixed_digits by (apply Z.mod_pos_bound; lia).
  change (10 ^ Z.of_nat 6) with 1000000. rewrite Z.mod_mod by done. cbn [read_digits more].
  rewrite bool_decide_false by lia.
  replace (n / 1000000 * 1000000 + n mod 1000000) with n; [done|].
  rewrite Z.mul_comm. apply Z.div_mod. done.
Qed.

Lemma stod_fixed (s : bool) n : 0 <= n ->
  stod ((if s then "-" else "") +:+ fixed_magnitude n) = checked s n 10 (-6).
Proof.
  intros Hn. destruct (fixed_first n Hn) as (c & t & Hct & Hc). pose proof (fixed_chars n) as Hch.
  rewrite Hct in Hch |- *. simpl in Hch. apply andb_true_iff in Hch as [_ Hch].
  rewrite stod_number, <- Hct by done. by apply read_fixed.
Qed.

(** ** Rounding *)

Lemma digits2_size p : digits2_pos p = Pos.size p.
Proof. induction p as [p IH|p IH|]; simpl; by rewrite ?IH. Qed.

Lemma Zdigits2_bounds p : 2 ^ (Zdigits2 (Zpos p) - 1) <= Zpos p < 2 ^ Zdigits2 (Zpos p).
Proof.
  cbn [Zdigits2]. rewrite digits2_size. pose proof (Pos.size_gt p) as H1. pose proof (Pos.size_le p) as H2.
  split.
  - apply Pos2Z.pos_le_pos in H2. rewrite Pos2Z.inj_pow in H2.
    rewrite <- (Z.sub_add 1 (Zpos (Pos.size p))), Z.pow_add_r in H2 by lia. lia.
  - apply Pos2Z.pos_lt_pos in H1. by rewrite Pos2Z.inj_pow in H1.
Qed.

Lemma Zdigits2_is q d : 0 < d -> 2 ^ (d - 1) <= q < 2 ^ d -> Zdigits2 q = d.
Proof.
  intros Hd Hq. destruct q as [|p|p]; [assert (0 < 2 ^ (d - 1)) by (apply Z.pow_pos_nonneg; lia); lia| |
    assert (0 < 2 ^ (d - 1)) by (apply Z.pow_pos_nonneg; lia); lia].
  pose proof (Zdigits2_bounds p) as Hp.
  assert (0 < Zdigits2 (Zpos p)) as Hpos by done.
  destruct (Z.lt_trichotomy (Zdigits2 (Zpos p)) d) as [H|[H|H]]; [|done|].
  - assert (2 ^ Zdigits2 (Zpos p) <= 2 ^ (d - 1)) by (apply Z.pow_le_mono_r; lia). lia.
  - assert (2 ^ d <= 2 ^ (Zdigits2 (Zpos p) - 1)) by (apply Z.pow_le_mono_r; lia). lia.
Qed.

Lemma shr_1_m m r s : 0 <= m -> shr_m (shr_1 (Build_shr_record m r s)) = m / 2.
Proof.
  intros Hm. destruct m as [|[p|p|]|p]; try done; cbn [shr_1 shr_m].
  - by rewrite <- Z.div2_div.
  - by rewrite <- Z.div2_div.
Qed.

Lemma shr_m_of_loc m l : shr_m (shr_record_of_loc m l) = m.
Proof. by destruct l as [|[]]. Qed.

(** One normalisation of a mantissa of 53 or 54 bits. *)
Lemma shr_fexp_normal q e l : 2 ^ 52 <= q < 2 ^ 54 -> -1000 <= e ->
  exists mrs e', shr_fexp prec emax q e l = (mrs, e') /\ 2 ^ 52 <= shr_m mrs < 2 ^ 53 /\ e <= e' <= e + 1.
Proof.
  intros Hq He. unfold shr_fexp, fexp, emin, prec, emax.
  destruct (Z.lt_ge_cases q (2 ^ 53)) as [H|H].
  - rewrite (Zdigits2_is q 53) by lia.
    replace (Z.max (53 + e - 53) (3 - 1024 - 53) - e) with 0 by lia. cbn [shr].
    eexists _, _. split; [reflexivity|]. rewrite shr_m_of_loc. lia.
  - rewrite (Zdigits2_is q 54) by lia.
    replace (Z.max (54 + e - 53) (3 - 1024 - 53) - e) with 1 by lia. cbn [shr iter_pos].
    eexists _, _. split; [reflexivity|].
    pose proof (shr_m_of_loc q l) as Hm. destruct (shr_record_of_loc q l) as [m r s]. simpl in Hm. subst m.
    rewrite shr_1_m by lia. split; [|lia].
    split; [apply Z.div_le_lower_bound|apply Z.div_lt_upper_bound]; lia.
Qed.

Lemma round_up_one q l : q <= round_nearest_even q l <= q + 1.
Proof. destruct l as [|[]]; simpl; try lia. destruct (Z.even q); lia. Qed.

Lemma round_aux_normal neg q e l : 2 ^ 52 <= q < 2 ^ 54 -> -1000 <= e <= 0 ->
  exists m e', binary_round_aux prec emax neg q e l = S754_finite neg m e' /\ 2 ^ 52 <= Zpos m.
Proof.
  intros Hq He. unfold binary_round_aux.
  destruct (shr_fexp_normal q e l) as (mrs & e1 & -> & H1 & H2); [lia..|].
  pose proof (round_up_one (shr_m mrs) (loc_of_shr_record mrs)) as Hr.
  destruct (shr_fexp_normal (round_nearest_even (shr_m mrs) (loc_of_shr_record mrs)) e1 loc_Exact)
    as (mrs' & e2 & -> & H3 & H4); [lia..|].
  destruct (shr_m mrs') as [|m|m]; [lia| |lia]. rewrite (proj2 (Z.leb_le _ _)) by (unfold emax, prec; lia).
  exists m, e2. split; [done|lia].
Qed.

Lemma d_ratio_normal neg p : Zpos p < 2 ^ 72 ->
  exists m e, d_ratio neg p 1000000 = S754_finite neg m e /\ 2 ^ 52 <= Zpos m.
Proof.
  intros Hp. unfold d_ratio, SFdiv, SFdiv_core_binary. cbv zeta.
  change (Zdigits2 1000000) with 20. set (d := Zdigits2 (Zpos p)).
  pose proof (Zdigits2_bounds p) as Hd. fold d in Hd. assert (0 < d) by done.
  assert (d <= 72).
  { destruct (Z.le_gt_cases d 72) as [|Hgt]; [done|].
    assert (2 ^ 72 <= 2 ^ (d - 1)) by (apply Z.pow_le_mono_r; lia). lia. }
  replace (Z.min (fexp prec emax (d + 0 - (20 + 0))) (0 - 0)) with (d - 73)
    by (unfold fexp, emin, prec, emax; lia).
  destruct (0 - 0 - (d - 73)) as [|k|k] eqn:Hk; [lia| |lia].
  rewrite <- Hk, Z.shiftl_mul_pow2 by lia.
  set (m' := Zpos p * 2 ^ (0 - 0 - (d - 73))).
  assert (2 ^ 72 <= m' < 2 ^ 73) as Hm'.
  { unfold m'. replace (2 ^ 72) with (2 ^ (d - 1) * 2 ^ (0 - 0 - (d - 73))) by (rewrite <- Z.pow_add_r by lia; f_equal; lia).
    replace (2 ^ 73) with (2 ^ d * 2 ^ (0 - 0 - (d - 73))) by (rewrite <- Z.pow_add_r by lia; f_equal; lia).
    assert (0 < 2 ^ (0 - 0 - (d - 73))) by (apply Z.pow_pos_nonneg; lia). nia. }
  clearbody m'. destruct (Z.div_eucl m' 1000000) as [q r] eqn:Hqr.
  assert (q = m' / 1000000) as -> by (unfold Z.div; by rewrite Hqr).
  rewrite xorb_false_r. apply round_aux_normal; [|lia].
  split; [apply Z.div_le_lower_bound|apply Z.div_lt_upper_bound]; lia.
Qed.

Lemma checked_millionths neg n : 0 <= n < 2 ^ 72 -> checked neg n 10 (-6) = Ok (d_scaled neg n 10 (-6)).
Proof.
  intros Hn. unfold checked. destruct n as [|p|p]; [done| |lia].
  change (d_scaled neg (Zpos p) 10 (-6)) with (d_ratio neg p 1000000).
  destruct (d_ratio_normal neg p) as (m & e & -> & Hm); [lia|]. unfold out_of_range.
  by rewrite (proj2 (Z.ltb_ge _ _)) by lia.
Qed.

(** ** Doubles *)

Lemma round_div_near n d : 0 < d -> Z.abs (2 * (n - round_div n d * d)) <= d.
Proof.
  intros Hd. unfold round_div. pose proof (Z.div_mod n d). pose proof (Z.mod_pos_bound n d).
  destruct (Z.compare_spec (2 * (n mod d)) d); [|lia..]. destruct (Z.even (n / d)); lia.
Qed.

Lemma round_div_bounds n d b : 0 < d -> 0 <= n < b * d -> 0 <= round_div n d <= b.
Proof.
  intros Hd Hn. assert (0 <= n / d < b).
  { split; [apply Z.div_pos; lia|apply Z.div_lt_upper_bound; lia]. }
  unfold round_div. destruct (_ ?= _); [destruct (Z.even _)|..]; lia.
Qed.

(** The magnitude of a double, with its sign left out, is less than [b]. *)
Definition below (b : Z) (d : double) : Prop :=
  match d with
  | S754_zero _ => True
  | S754_finite _ m e => if 0 <=? e then Zpos m * 2 ^ e < b else Zpos m < b * 2 ^ (- e)
  | _ => False
  end.

Lemma millionths_bounds s m e : below (2 ^ 52) (S754_finite s m e) -> 0 <= millionths m e < 2 ^ 72.
Proof.
  unfold below, millionths. destruct (Z.leb_spec 0 e) as [He|He]; intros Hb.
  - assert (0 < 2 ^ e) by (apply Z.pow_pos_nonneg; lia). lia.
  - assert (0 < 2 ^ (- e)) by (apply Z.pow_pos_nonneg; lia).
    pose proof (round_div_bounds (Zpos m * 1000000) (2 ^ (- e)) (2 ^ 52 * 1000000)). nia.
Qed.

(** The double nearest to the number of millionths [fixed6] writes. *)
Definition written_value (d : double) : double :=
  match d with
  | S754_finite s m e => d_scaled s (millionths m e) 10 (-6)
  | _ => d
  end.

Lemma stod_fixed6 d : below (2 ^ 52) d -> stod (fixed6 d) = Ok (written_value d).
Proof.
  intros Hd. destruct d as [s| | |s m e]; try done; unfold fixed6.
  - by rewrite stod_fixed.
  - pose proof (millionths_bounds s m e Hd). rewrite stod_fixed by lia. by apply checked_millionths.
Qed.

(** The fields of a list are numbers, so the commas between them are the only ones. *)
Lemma fixed6_chars d : below (2 ^ 52) d ->
  all_chars (fun c => negb (bool_decide (c = ","%char))) (fixed6 d) = true /\ fixed6 d <> ""%string.
Proof.
  intros Hd.
  assert (forall s, all_chars number_char s = true ->
    all_chars (fun c => negb (bool_decide (c = ","%char))) s = true) as Hno.
  { induction s as [|c s IH]; [done|]. simpl. intros [Hc Hs]%andb_true_iff. rewrite IH, andb_true_r by done.
    case_bool_decide; [|done]. by subst. }
  assert (exists s n, 0 <= n /\ fixed6 d = (if s : bool then "-" else "") +:+ fixed_magnitude n) as (s & n & Hn & ->).
  { destruct d as [s| | |s m e]; try done; [by exists s, 0|].
    exists s, (millionths m e). split; [by apply (millionths_bounds s)|done]. }
  split.
  - rewrite all_chars_app, (Hno (fixed_magnitude n)) by apply fixed_chars. by destruct s.
  - destruct (fixed_first n Hn) as (c & t & -> & _). by destruct s.
Qed.
