(* ===== verification/BaseStation.v ===== *)
(** * The base station: [include/base/base_station.hpp], [src/base/base_station.cpp]

    The session state machine and the routing of messages, on top of the message
    manager.  What is posted to the [io_context] is a queue of the state. *)
From S2P Require Import Prelude Configs Crc8 LumenHeader LumenPacket Asio ReliabilityManager.
From S2P Require Import UdpServer UdpClient Libraries Messages LumenProtocol ProtocolFacts Framing.
From S2P Require Import Delivery MessageManager Doubles.

(** ** State *)

Inductive SessionState := INACTIVE | HANDSHAKE_INIT | HANDSHAKE_ACCEPT | ACTIVE.

#[export] Instance SessionState_eq_dec : EqDecision SessionState.
Proof. solve_decision. Defined.

Section Base.
Context {A : AsioAddress} {J : Json} {C : Chrono}.

(** A handler posted to the [io_context]: the application's, or the status callback
    with the data it is given. *)
Inductive posted :=
| PostApplication (message : Message) (sender : endpoint)
| PostStatus (rover_id : string) (data : gmap string double).

(** The two handlers of the application are recorded as set or not set. *)
Record BaseStation := mkBaseStation {
  message_manager_ : MessageManager;
  application_message_handler_ : bool;
  status_callback_ : bool;
  session_state_ : SessionState;
  connected_rover_id_ : string;
  rover_endpoint_ : endpoint;
  station_id_ : string;
  posted_ : list posted;
}.

#[global] Instance base_has_manager : HasManager BaseStation := {|
  manager := message_manager_;
  set_manager m b := mkBaseStation m (application_message_handler_ b) (status_callback_ b)
    (session_state_ b) (connected_rover_id_ b) (rover_endpoint_ b) (station_id_ b) (posted_ b);
|}.

#[global] Instance base_manager_laws : ManagerLaws BaseStation base_has_manager.
Proof. split; [done|done|by intros []]. Qed.

Definition set_session (st : SessionState) (id : string) (e : endpoint) (b : BaseStation)
    : BaseStation :=
  mkBaseStation (message_manager_ b) (application_message_handler_ b) (status_callback_ b)
    st id e (station_id_ b) (posted_ b).
Definition set_session_state (st : SessionState) (b : BaseStation) : BaseStation :=
  set_session st (connected_rover_id_ b) (rover_endpoint_ b) b.
Definition set_handlers (app status : bool) (b : BaseStation) : BaseStation :=
  mkBaseStation (message_manager_ b) app status (session_state_ b) (connected_rover_id_ b)
    (rover_endpoint_ b) (station_id_ b) (posted_ b).
Definition add_posted (p : posted) (b : BaseStation) : BaseStation :=
  mkBaseStation (message_manager_ b) (application_message_handler_ b) (status_callback_ b)
    (session_state_ b) (connected_rover_id_ b) (rover_endpoint_ b) (station_id_ b)
    (posted_ b ++ [p]).

Abbreviation Node := (World BaseStation).
Abbreviation MB := (M Node).

Definition ask_base {X} (f : BaseStation -> X) : MB X := gets (fun w => f (app_ w)).
Definition on_base (f : BaseStation -> BaseStation) : MB unit :=
  modify (fun w => set_app (f (app_ w)) w).
Definition post (p : posted) : MB unit := on_base (add_posted p).

(** The node's server. *)
Definition on_server (f : UdpServer -> UdpServer) : MB unit :=
  modify (fun w => match transport_ w with
                   | Server s => set_transport (Server (f s)) w
                   | Client _ => w
                   end).

(** ** Operations *)

(** The constructor: the transport, the protocol on it and the manager. *)
Definition make_BaseStation (steady system : Z) (station_id : string) : Node :=
  let '(protocol, t) := make_LumenProtocol steady (Server make_UdpServer) in
  mkWorld t protocol [] steady system
    (mkBaseStation (make_MessageManager station_id) false false INACTIVE "" endpoint_default
      station_id []).

(** [start]; a base station sets no timeout callback. *)
Definition start : MB unit :=
  MessageManager.start ;;
  LumenProtocol.start (fun _ => mret tt) ;;
  on_protocol (set_session_active false) ;;
  on_server UdpServer.start ;;
  MessageManager.set_message_callback.

(** [stop] *)
Definition stop : MB unit :=
  on_protocol (set_session_active false) ;;
  on_server UdpServer.stop ;;
  LumenProtocol.stop ;;
  MessageManager.stop ;;
  on_base (set_session INACTIVE "" endpoint_default).

Definition set_status_callback : MB unit :=
  on_base (fun b => set_handlers (application_message_handler_ b) true b).

Definition set_application_message_handler : MB unit :=
  on_base (fun b => set_handlers true (status_callback_ b) b).

Definition get_session_state : MB SessionState := ask_base session_state_.
Definition get_connected_rover_id : MB string := ask_base connected_rover_id_.
Definition get_rover_endpoint : MB endpoint := ask_base rover_endpoint_.

(** [send_command] *)
Definition send_command (command params : string) : MB unit :=
  b ← ask_base id;
  let is_session_command :=
    bool_decide (command = "SESSION_ACCEPT") || bool_decide (command = "SESSION_ESTABLISHED") in
  let active := bool_decide (session_state_ b = ACTIVE) in
  let can_send :=
    if active ||
       (bool_decide (session_state_ b = HANDSHAKE_ACCEPT) &&
        bool_decide (command = "SESSION_ACCEPT")) ||
       (active && bool_decide (command = "SESSION_ESTABLISHED"))
    then if ep_unspecified (rover_endpoint_ b) then false
         else negb (negb is_session_command && negb active)
    else false in
  now ← gets system_now;
  when can_send
    (MessageManager.send_message (CommandMessage command params (station_id_ b) now)
      (rover_endpoint_ b)).

(** [send_raw_message] and [send_message] *)
Definition send_raw_message (message : Message) (recipient : endpoint) : MB unit :=
  if ep_unspecified recipient || (ep_port recipient =? 0) then mret tt
  else MessageManager.send_raw_message message recipient.

Definition send_message (message : Message) (recipient : endpoint) : MB unit :=
  if ep_unspecified recipient || (ep_port recipient =? 0) then mret tt
  else MessageManager.send_message message recipient.

Definition set_low_power_mode (enable : bool) : MB unit :=
  send_command "SET_LOW_POWER" (if enable then "1" else "0").

Definition set_rover_target (latitude longitude : double) : MB unit :=
  send_command "SET_TARGET_COORD" (fixed6 latitude +:+ "," +:+ fixed6 longitude).

(** What the critical section of [handle_session_init] decides: the new session, if
    the initiation is accepted, and whether the protocol's session is reset. *)
Definition session_init_decision (rover_id : string) (sender : endpoint) (b : BaseStation)
    : bool * bool :=
  let st := session_state_ b in
  let same_id := bool_decide (connected_rover_id_ b = rover_id) in
  let is_active := bool_decide (st = ACTIVE) in
  if negb (bool_decide (st = INACTIVE)) && negb same_id then (false, is_active)
  else if same_id || bool_decide (connected_rover_id_ b = "") then
    (true,
     if is_active && same_id then true
     else if same_id && negb (bool_decide (rover_endpoint_ b = sender)) then is_active
     else if bool_decide (st = INACTIVE) then false
     else is_active)
  else (false, is_active).

(** [handle_session_init] *)
Definition handle_session_init (rover_id : string) (sender : endpoint) : MB unit :=
  b ← ask_base id;
  if bool_decide (session_state_ b = ACTIVE) && bool_decide (connected_rover_id_ b = rover_id) &&
     bool_decide (rover_endpoint_ b = sender)
  then send_command "SESSION_ESTABLISHED" (station_id_ b)
  else
    let '(send_accept, reset_session) := session_init_decision rover_id sender b in
    when send_accept (on_base (set_session HANDSHAKE_ACCEPT rover_id sender)) ;;
    when reset_session (on_protocol (set_session_active false)) ;;
    when send_accept (send_command "SESSION_ACCEPT" (station_id_ b)).

(** [handle_session_confirm] *)
Definition handle_session_confirm (rover_id : string) (sender : endpoint) : MB unit :=
  b ← ask_base id;
  if negb (bool_decide (session_state_ b = HANDSHAKE_ACCEPT)) ||
     negb (bool_decide (connected_rover_id_ b = rover_id)) ||
     negb (bool_decide (rover_endpoint_ b = sender))
  then mret tt
  else
    on_base (set_session_state ACTIVE) ;;
    on_protocol (set_session_active true) ;;
    send_command "SESSION_ESTABLISHED" (station_id_ b).

(** [handle_internal_command] *)
Definition handle_internal_command (command sender_id : string) (sender : endpoint) : MB unit :=
  if bool_decide (command = "SESSION_INIT") then handle_session_init sender_id sender
  else if bool_decide (command = "SESSION_CONFIRM") then handle_session_confirm sender_id sender
  else mret tt.

(** [handle_internal_status] and [handle_internal_telemetry] *)
Definition handle_internal_status (level : StatusLevel) (sender_id : string) : MB unit :=
  post (PostStatus sender_id {[ "status_level" := d_of_Z (StatusLevel_val level) ]}).

Definition handle_internal_telemetry (readings : gmap string double) (sender_id : string) : MB unit :=
  post (PostStatus sender_id readings).

(** The verification of the sender in [route_message]. *)
Definition allow_message (message : Message) (sender : endpoint) (b : BaseStation) : bool :=
  let from_rover := bool_decide (connected_rover_id_ b = get_sender message) &&
                    bool_decide (rover_endpoint_ b = sender) in
  match session_state_ b with
  | ACTIVE => from_rover
  | HANDSHAKE_ACCEPT =>
    match message with
    | CommandMessage command _ _ _ => bool_decide (command = "SESSION_CONFIRM") && from_rover
    | _ => false
    end
  | _ => false
  end.

(** The rest of [route_message], for a message that is not a session command. *)
Definition route_application (message : Message) (sender : endpoint) : MB unit :=
  b ← ask_base id;
  if negb (allow_message message sender b) then mret tt
  else
    when (status_callback_ b)
      (match message with
       | StatusMessage level _ sender_id _ => handle_internal_status level sender_id
       | TelemetryMessage readings sender_id _ => handle_internal_telemetry readings sender_id
       | _ => mret tt
       end) ;;
    when (application_message_handler_ b) (post (PostApplication message sender)).

(** [route_message] *)
Definition route_message (message : Message) (sender : endpoint) : MB unit :=
  match message with
  | CommandMessage command _ sender_id _ =>
    if bool_decide (command = "SESSION_INIT") || bool_decide (command = "SESSION_CONFIRM")
    then handle_internal_command command sender_id sender
    else route_application message sender
  | _ => route_application message sender
  end.

(** ** The events of a base station *)

(** The receive callback of the server. *)
Definition on_datagram : bytes -> endpoint -> MB unit :=
  handle_udp_data (handle_lumen_message route_message).

(** The completion of a receive. *)
Definition server_received (ec : error_code) (data : bytes) (sender : endpoint) : MB unit :=
  server_receive (handle_lumen_message route_message) ec data sender.
End Base.
