(* ===== verification/BaseSession.v ===== *)
(** * Sessions of the base station

    The session state machine of [BaseStation] against an abstract one, the
    invariant of every run, and who is heard. *)
From S2P Require Import Prelude Configs Crc8 LumenHeader LumenPacket Asio ReliabilityManager.
From S2P Require Import UdpServer UdpClient Libraries Messages LumenProtocol ProtocolFacts Framing.
From S2P Require Import Delivery MessageManager Doubles BaseStation.

(** ** Frames *)

Section Frames.
Context {A : AsioAddress} {J : Json} {C : Chrono}.

#[global] Instance on_base_buffers f fb : Commutes (with_buffers fb) (on_base f).
Proof. by apply commutes_modify. Qed.

Implicit Types w : World BaseStation.

#[global] Instance send_command_no_throw c p : NoThrow (send_command c p).
Proof. unfold send_command. apply _. Qed.

Lemma send_command_same c p w : same_but_sending w (run_state (send_command c p) w).
Proof.
  unfold run_state, send_command. rewrite run_bind. unfold ask_base. rewrite run_gets.
  cbv zeta. rewrite run_bind, run_gets. match goal with |- context [when ?b _] => destruct b end; [|reflexivity].
  cbn [when]. apply manager_send_same.
Qed.

Lemma send_command_run c p w : exists w', send_command c p w = (Ok tt, w') /\ same_but_sending w w'.
Proof.
  exists (run_state (send_command c p) w). split; [by apply no_throw_unit, _|apply send_command_same].
Qed.

#[global] Instance send_command_buffers c p fb : Commutes (with_buffers fb) (send_command c p).
Proof. unfold send_command, ask_base. cbv zeta. apply _. Qed.

#[global] Instance route_message_no_throw m e : NoThrow (route_message m e).
Proof.
  unfold route_message, route_application, handle_internal_command, handle_session_init,
    handle_session_confirm, handle_internal_status, handle_internal_telemetry, post, on_base.
  apply _.
Qed.

#[global] Instance route_message_buffers m e fb : Commutes (with_buffers fb) (route_message m e).
Proof.
  unfold route_message, route_application, handle_internal_command, handle_session_init,
    handle_session_confirm, handle_internal_status, handle_internal_telemetry, post, ask_base.
  apply _.
Qed.
End Frames.

(** ** The abstract session *)

Section Session.
Context {A : AsioAddress} {J : Json} {C : Chrono}.
Implicit Types w : World BaseStation.

(** Nobody, a rover whose confirmation is awaited, or a rover in a session. *)
Inductive session :=
| NoSession
| Pending (id : string) (e : endpoint)
| Active (id : string) (e : endpoint).

#[global] Instance session_eq_dec : EqDecision session.
Proof. solve_decision. Defined.

Definition session_of (b : BaseStation) : session :=
  match session_state_ b with
  | INACTIVE => NoSession
  | HANDSHAKE_INIT | HANDSHAKE_ACCEPT => Pending (connected_rover_id_ b) (rover_endpoint_ b)
  | ACTIVE => Active (connected_rover_id_ b) (rover_endpoint_ b)
  end.

(** The effect of the two session commands. *)
Definition after_init (id : string) (e : endpoint) (s : session) : session :=
  match s with
  | NoSession => Pending id e
  | Pending id' _ => if bool_decide (id' = id) then Pending id e else s
  | Active id' e' =>
    if bool_decide (id' = id) && negb (bool_decide (e' = e)) then Pending id e else s
  end.

Definition after_confirm (id : string) (e : endpoint) (s : session) : session :=
  match s with
  | Pending id' e' => if bool_decide (id' = id) && bool_decide (e' = e) then Active id e else s
  | _ => s
  end.

(** The command a rover is answered with, if it is. *)
Definition init_reply (id : string) (e : endpoint) (s : session) : option string :=
  match s with
  | NoSession => Some "SESSION_ACCEPT"
  | Pending id' _ => if bool_decide (id' = id) then Some "SESSION_ACCEPT" else None
  | Active id' e' =>
    if bool_decide (id' = id)
    then if bool_decide (e' = e) then Some "SESSION_ESTABLISHED" else Some "SESSION_ACCEPT"
    else None
  end%string.

(** Whether the protocol acknowledges after the command. *)
Definition acks_after_init (id : string) (e : endpoint) (s : session) (active : bool) : bool :=
  match s with
  | Active id' e' => if bool_decide (id' = id) && bool_decide (e' = e) then active else false
  | _ => active
  end.

(** ** The invariant of the session *)

(** The protocol acknowledges only within a session; the state [HANDSHAKE_INIT] is
    never entered; without a session no rover is stored. *)
Record session_inv w : Prop := {
  inv_mode : mode_ w = BASE_STATION;
  inv_active : session_active_ (protocol_ w) = true -> session_state_ (app_ w) = ACTIVE;
  inv_init : session_state_ (app_ w) <> HANDSHAKE_INIT;
  inv_inactive : session_state_ (app_ w) = INACTIVE ->
    connected_rover_id_ (app_ w) = ""%string /\ rover_endpoint_ (app_ w) = endpoint_default;
}.

Lemma session_inv_same w w' : same_but_sending w w' -> session_inv w -> session_inv w'.
Proof.
  intros [Ht _ _ Hs _ Ha _ _] [H1 H2 H3 H4]. split; unfold mode_ in *; by rewrite ?Ht, ?Hs, ?Ha.
Qed.

#[global] Instance send_command_inv c p : Preserves session_inv (send_command c p).
Proof. intros w. apply session_inv_same, send_command_same. Qed.

(** What a session command does to the session, the protocol and the rest of the state. *)
Definition session_effect (s : session) (acks : bool) (reply : option string) w w' : Prop :=
  session_of (app_ w') = s /\ session_active_ (protocol_ w') = acks /\
  posted_ (app_ w') = posted_ (app_ w) /\
  exists w1, session_of (app_ w1) = s /\ sent_ w1 = sent_ w /\
    w' = match reply with
         | Some c => run_state (send_command c (station_id_ (app_ w))) w1
         | None => w1
         end.

Lemma session_effect_intro w w1 s acks reply :
  session_of (app_ w1) = s -> session_active_ (protocol_ w1) = acks ->
  posted_ (app_ w1) = posted_ (app_ w) -> sent_ w1 = sent_ w ->
  session_effect s acks reply w
    (match reply with
     | Some c => run_state (send_command c (station_id_ (app_ w))) w1
     | None => w1
     end).
Proof.
  intros H1 H2 H3 H4. unfold session_effect.
  destruct reply as [c|]; [|split_and!; [done..|]; by exists w1].
  destruct (send_command_same c (station_id_ (app_ w)) w1) as [_ _ _ Hs _ Ha _ _].
  rewrite Ha, Hs. split_and!; [done..|]. by exists w1.
Qed.

Lemma on_base_run f w : on_base f w = (Ok tt, set_app (f (app_ w)) w).
Proof. done. Qed.

Lemma when_on_base_run b f w :
  when b (on_base f) w = (Ok tt, if b then set_app (f (app_ w)) w else w).
Proof. by destruct b. Qed.

Lemma when_inactive_run (b : bool) w :
  when b (on_protocol (set_session_active false)) w =
  (Ok tt, if b then set_protocol (set_session_active false (protocol_ w)) w else w).
Proof. by destruct b. Qed.

Lemma when_send_command_run (b : bool) c p w :
  when b (send_command c p) w = (Ok tt, if b then run_state (send_command c p) w else w).
Proof. destruct b; [apply no_throw_unit, _|done]. Qed.

(** The end of [handle_session_init]. *)
Lemma init_tail_run (send_accept reset_session : bool) f c p w :
  (when send_accept (on_base f) ;;
   when reset_session (on_protocol (set_session_active false)) ;;
   when send_accept (send_command c p)) w =
  let w1 := if send_accept then set_app (f (app_ w)) w else w in
  let w2 := if reset_session
    then set_protocol (set_session_active false (protocol_ w1)) w1 else w1 in
  (Ok tt, if send_accept then run_state (send_command c p) w2 else w2).
Proof.
  rewrite run_bind, when_on_base_run. cbv iota. rewrite run_bind, when_inactive_run. cbv iota.
  apply when_send_command_run.
Qed.

(** [handle_session_init] as its decision. *)
Lemma session_init_run rid e w : session_inv w ->
  let b := app_ w in
  let known := bool_decide (connected_rover_id_ b = rid) in
  let here := bool_decide (rover_endpoint_ b = e) in
  let accepted := set_app (set_session HANDSHAKE_ACCEPT rid e b) w in
  let silent w := set_protocol (set_session_active false (protocol_ w)) w in
  handle_session_init rid e w =
  (Ok tt,
   match session_state_ b with
   | ACTIVE =>
     if known then
       if here then run_state (send_command "SESSION_ESTABLISHED" (station_id_ b)) w
       else run_state (send_command "SESSION_ACCEPT" (station_id_ b)) (silent accepted)
     else silent w
   | INACTIVE => run_state (send_command "SESSION_ACCEPT" (station_id_ b)) accepted
   | _ => if known then run_state (send_command "SESSION_ACCEPT" (station_id_ b)) accepted else w
   end).
Proof.
  intros [Hm Hact Hnot Hina] b known here accepted silent.
  unfold handle_session_init. rewrite run_bind. unfold ask_base. rewrite run_gets. cbv beta.
  fold b. unfold id. fold known here. unfold session_init_decision. fold known here.
  assert (session_state_ b = INACTIVE -> connected_rover_id_ b = ""%string) as Hid by apply Hina.
  destruct (session_state_ b) eqn:Hst.
  - rewrite (bool_decide_true (connected_rover_id_ b = ""%string)) by auto.
    rewrite orb_true_r, (bool_decide_true (INACTIVE = INACTIVE)),
      (bool_decide_false (INACTIVE = ACTIVE)) by done. cbn [negb andb].
    rewrite init_tail_run. by destruct known, here.
  - done.
  - rewrite !(bool_decide_false (HANDSHAKE_ACCEPT = _)) by done. cbn [negb andb].
    destruct known; cbn [negb orb andb]; [|].
    + rewrite init_tail_run. by destruct here.
    + rewrite init_tail_run. done.
  - rewrite (bool_decide_true (ACTIVE = ACTIVE)), (bool_decide_false (ACTIVE = INACTIVE)) by done.
    cbn [negb andb]. destruct known; [destruct here|]; cbn [negb orb andb].
    + by apply no_throw_unit, _.
    + by rewrite init_tail_run.
    + by rewrite init_tail_run.
Qed.

Lemma session_init_effect rid e w : session_inv w ->
  session_effect (after_init rid e (session_of (app_ w)))
    (acks_after_init rid e (session_of (app_ w)) (session_active_ (protocol_ w)))
    (init_reply rid e (session_of (app_ w))) w (run_state (handle_session_init rid e) w).
Proof.
  intros Hinv. pose proof (session_init_run rid e w Hinv) as Hrun. cbv zeta in Hrun.
  unfold run_state at 1. rewrite Hrun. cbn [snd].
  unfold session_of at 1 2 3. destruct (session_state_ (app_ w)) eqn:Hst.
  - by apply (session_effect_intro w (set_app _ w) _ _ (Some _)).
  - by destruct (inv_init w Hinv).
  - unfold after_init, init_reply, acks_after_init.
    destruct (bool_decide_reflect (connected_rover_id_ (app_ w) = rid)) as [<-|];
      [by apply (session_effect_intro w (set_app _ w) _ _ (Some _))|].
    apply (session_effect_intro w w _ _ None); try done. unfold session_of. by rewrite Hst.
  - unfold after_init, init_reply, acks_after_init.
    destruct (bool_decide_reflect (connected_rover_id_ (app_ w) = rid)) as [<-|]; cbn [andb];
      [destruct (bool_decide_reflect (rover_endpoint_ (app_ w) = e)) as [<-|]; cbn [negb]|].
    + apply (session_effect_intro w w _ _ (Some _)); try done. unfold session_of. by rewrite Hst.
    + by apply (session_effect_intro w (set_protocol _ (set_app _ w)) _ _ (Some _)).
    + apply (session_effect_intro w (set_protocol _ w) _ _ None); try done.
      unfold session_of; simpl. by rewrite Hst.
Qed.

(** The state a confirmation leads to. *)
Definition confirmed w : World BaseStation :=
  set_protocol (set_session_active true (protocol_ w)) (set_app (set_session_state ACTIVE (app_ w)) w).

Lemma session_confirm_run rid e w : session_inv w ->
  handle_session_confirm rid e w =
  (Ok tt, if bool_decide (session_of (app_ w) = Pending rid e)
          then run_state (send_command "SESSION_ESTABLISHED" (station_id_ (app_ w))) (confirmed w)
          else w).
Proof.
  intros Hinv. unfold handle_session_confirm. rewrite run_bind. unfold ask_base. rewrite run_gets.
  cbv beta. unfold id.
  assert (negb (bool_decide (session_state_ (app_ w) = HANDSHAKE_ACCEPT)) ||
     negb (bool_decide (connected_rover_id_ (app_ w) = rid)) ||
     negb (bool_decide (rover_endpoint_ (app_ w) = e)) =
     negb (bool_decide (session_of (app_ w) = Pending rid e))) as ->.
  { rewrite <- !negb_andb. f_equal. rewrite <- !bool_decide_and. apply bool_decide_ext.
    unfold session_of. pose proof (inv_init w Hinv).
    destruct (session_state_ (app_ w)); try (split; [by intros [[? _] _]|done]).
    split; [intros [[_ ->] ->]; done|intros [= -> ->]; done]. }
  destruct (bool_decide _); [|done]. cbn [negb].
  rewrite run_bind, on_base_run. cbv iota. rewrite run_bind.
  change (on_protocol _ _) with (Ok tt, confirmed w). cbv iota. apply no_throw_unit, _.
Qed.

Lemma session_confirm_effect rid e w : session_inv w ->
  session_effect (after_confirm rid e (session_of (app_ w)))
    (session_active_ (protocol_ w) || bool_decide (session_of (app_ w) = Pending rid e))
    (if bool_decide (session_of (app_ w) = Pending rid e) then Some "SESSION_ESTABLISHED"%string else None)
    w (run_state (handle_session_confirm rid e) w).
Proof.
  intros Hinv. unfold run_state at 1. rewrite session_confirm_run by done. cbn [snd].
  destruct (bool_decide_reflect (session_of (app_ w) = Pending rid e)) as [Hs|Hs].
  - rewrite Hs. cbn [after_confirm]. rewrite !bool_decide_true by done. cbn [andb].
    apply (session_effect_intro w (confirmed w) _ _ (Some _)); [|by rewrite orb_true_r|done|done].
    revert Hs. unfold session_of, confirmed. simpl.
    destruct (session_state_ (app_ w)); [done|by intros [= -> ->]..|done].
  - rewrite orb_false_r. apply (session_effect_intro w w _ _ None); try done.
    destruct (session_of (app_ w)) as [|rid' e'|] eqn:E; [done| |done]. cbn [after_confirm].
    destruct (bool_decide_reflect (rid' = rid)) as [->|]; [|done].
    destruct (bool_decide_reflect (e' = e)) as [->|]; done.
Qed.

(** *** The invariant is preserved *)

#[global] Instance session_init_inv rid e : Preserves session_inv (handle_session_init rid e).
Proof.
  intros w Hinv. pose proof (session_init_run rid e w Hinv) as Hrun. cbv zeta in Hrun.
  unfold run_state. rewrite Hrun. cbn [snd]. destruct Hinv as [H1 H2 H3 H4].
  destruct (session_state_ (app_ w)) eqn:Hst.
  - apply send_command_inv. split; try done; simpl; intros Ha; by specialize (H2 Ha).
  - done.
  - destruct (bool_decide _); [|by split; rewrite ?Hst].
    apply send_command_inv. split; try done; simpl; intros Ha; by specialize (H2 Ha).
  - destruct (bool_decide (connected_rover_id_ _ = _)); [destruct (bool_decide _)|].
    + apply send_command_inv. by split; rewrite ?Hst.
    + apply send_command_inv. by split.
    + split; try done; simpl; by rewrite Hst.
Qed.

#[global] Instance session_confirm_inv rid e : Preserves session_inv (handle_session_confirm rid e).
Proof.
  intros w Hinv. unfold run_state. rewrite session_confirm_run by done. cbn [snd].
  destruct (bool_decide _); [|done]. apply send_command_inv. destruct Hinv. by split.
Qed.

Lemma post_inv p : Preserves session_inv (post p).
Proof. apply preserves_modify. intros w [H1 H2 H3 H4]. by split. Qed.
#[local] Existing Instance post_inv.

#[global] Instance route_application_inv m e : Preserves session_inv (route_application m e).
Proof.
  unfold route_application, ask_base, handle_internal_status, handle_internal_telemetry. apply _.
Qed.

#[global] Instance route_message_inv m e : Preserves session_inv (route_message m e).
Proof. unfold route_message, handle_internal_command. apply _. Qed.
End Session.

(** ** Runs *)

Section Runs.
Context {A : AsioAddress} {J : Json} {C : Chrono}.
Implicit Types w : World BaseStation.

(** What happens to a base station: calls of its public functions, completions of
    its asynchronous operations, the clocks moving, and the next posted handler
    leaving the queue for the application. *)
Inductive base_event :=
| BaseStart
| BaseStop
| BaseReceive (ec : error_code) (data : bytes) (sender : endpoint)
| BaseRetransmitTimer (error : bool)
| BaseCleanupTimer (error : bool)
| BaseSendCommand (command params : string)
| BaseSendMessage (message : Message) (recipient : endpoint)
| BaseSendRawMessage (message : Message) (recipient : endpoint)
| BaseSetLowPowerMode (enable : bool)
| BaseSetRoverTarget (latitude longitude : double)
| BaseSetStatusCallback
| BaseSetApplicationHandler
| BaseRunPosted
| BaseClock (steady system : Z).

Definition base_exec (ev : base_event) : M (World BaseStation) unit :=
  match ev with
  | BaseStart => BaseStation.start
  | BaseStop => BaseStation.stop
  | BaseReceive ec data sender => server_received ec data sender
  | BaseRetransmitTimer error => retransmit_timer_event (fun _ => mret tt) error
  | BaseCleanupTimer error => cleanup_timer_event error
  | BaseSendCommand command params => send_command command params
  | BaseSendMessage message recipient => BaseStation.send_message message recipient
  | BaseSendRawMessage message recipient => BaseStation.send_raw_message message recipient
  | BaseSetLowPowerMode enable => set_low_power_mode enable
  | BaseSetRoverTarget latitude longitude => set_rover_target latitude longitude
  | BaseSetStatusCallback => set_status_callback
  | BaseSetApplicationHandler => set_application_message_handler
  | BaseRunPosted => on_base (fun b => mkBaseStation (message_manager_ b)
      (application_message_handler_ b) (status_callback_ b) (session_state_ b)
      (connected_rover_id_ b) (rover_endpoint_ b) (station_id_ b) (tail (posted_ b)))
  | BaseClock steady system =>
    modify (fun w => mkWorld (transport_ w) (protocol_ w) (sent_ w) steady system (app_ w))
  end.

(** A run: an exception that leaves one handler does not undo the others. *)
Definition base_run (evs : list base_event) (w : World BaseStation) : World BaseStation :=
  foldl (fun w ev => run_state (base_exec ev) w) w evs.

#[global] Instance session_inv_stable : Stable session_inv.
Proof. intros w w' [Ht Hs Ha] [H1 H2 H3 H4]. split; unfold mode_ in *; by rewrite ?Ht, ?Hs, ?Ha. Qed.

(** Changes that keep the session. *)
Lemma session_inv_modify (f : World BaseStation -> World BaseStation) :
  (forall w, mode_ (f w) = mode_ w /\ session_active_ (protocol_ (f w)) = session_active_ (protocol_ w) /\
    session_state_ (app_ (f w)) = session_state_ (app_ w) /\
    connected_rover_id_ (app_ (f w)) = connected_rover_id_ (app_ w) /\
    rover_endpoint_ (app_ (f w)) = rover_endpoint_ (app_ w)) ->
  Preserves session_inv (modify f).
Proof.
  intros Hf. apply preserves_modify. intros w [H1 H2 H3 H4].
  destruct (Hf w) as (E1 & E2 & E3 & E4 & E5). split; by rewrite ?E1, ?E2, ?E3, ?E4, ?E5.
Qed.

#[local] Hint Extern 4 (Preserves session_inv (modify _)) =>
  (apply session_inv_modify; intros; split_and!; reflexivity) : typeclass_instances.

Lemma on_server_inv f : Preserves session_inv (on_server f).
Proof.
  apply session_inv_modify. intros w. unfold mode_. by destruct (transport_ w) eqn:E; rewrite ?E.
Qed.
#[local] Existing Instance on_server_inv.

Lemma inactive_inv : Preserves session_inv (on_protocol (set_session_active false)).
Proof. apply preserves_modify. intros w [H1 H2 H3 H4]. by split. Qed.
#[local] Existing Instance inactive_inv.

(** Stopping clears the session when the protocol's flag is already down. *)
Lemma base_stop_inv : Preserves session_inv BaseStation.stop.
Proof.
  intros w Hw. set (J0 w := session_inv w /\ session_active_ (protocol_ w) = false).
  assert (Stable J0) as HJ.
  { intros w1 w2 Hs [Hw1 Hf]. split; [by apply (stable _ _ Hs)|]. by rewrite (session_flag _ _ Hs). }
  unfold run_state, BaseStation.stop. rewrite run_bind. unfold on_protocol at 1. rewrite run_modify.
  cbv iota. set (w1 := set_protocol _ w).
  assert (J0 w1) as Hw1 by (split; [by apply (inactive_inv w Hw)|done]).
  match goal with |- session_inv (snd (?m w1)) => enough (J0 (run_state m w1)) as [H _]; [exact H|] end.
  clearbody w1. revert w1 Hw1. match goal with |- forall w1, J0 w1 -> J0 (run_state ?m w1) =>
    change (Preserves J0 m) end.
  apply preserves_bind.
  { apply preserves_modify. intros w1 [Hw1 Hf]. split; [by apply (on_server_inv UdpServer.stop w1 Hw1)|].
    by destruct (transport_ w1). }
  intros _. apply preserves_bind; [by apply stop_stable|]. intros _. apply preserves_bind.
  { unfold MessageManager.stop. apply preserves_bind; [apply preserves_gets|]. intros [].
    - apply preserves_modify. intros w1 [[H1 H2 H3 H4] Hf]. by split.
    - apply preserves_ret. }
  intros _. apply preserves_modify. intros w1 [[H1 H2 H3 H4] Hf]. split; [|done].
  split; try done. simpl. intros Ha. by rewrite Hf in Ha.
Qed.
#[local] Existing Instance base_stop_inv.

Lemma on_manager_inv f : Preserves session_inv (on_manager (U:=BaseStation) f).
Proof. apply session_inv_modify. by intros w. Qed.
#[local] Existing Instance on_manager_inv.

#[global] Instance on_datagram_inv data e : Preserves session_inv (on_datagram data e).
Proof. unfold on_datagram. apply _. Qed.

Lemma server_received_inv ec data sender : Preserves session_inv (server_received ec data sender).
Proof.
  apply receive_completed_preserves; [|apply _]. intros s w _ [H1 H2 H3 H4].
  unfold set_node_server, mode_ in *. by destruct (transport_ w) eqn:E; split; unfold mode_; rewrite ?E.
Qed.
#[local] Existing Instance server_received_inv.

#[global] Instance base_exec_inv ev : Preserves session_inv (base_exec ev).
Proof.
  destruct ev; cbn [base_exec]; unfold BaseStation.start, MessageManager.start,
    MessageManager.set_message_callback, BaseStation.send_message, BaseStation.send_raw_message,
    set_low_power_mode, set_rover_target, set_status_callback, set_application_message_handler,
    on_base, ask_manager, on_protocol; try apply _.
Qed.
End Runs.

(** ** Sending commands *)

Section Commands.
Context {A : AsioAddress} {J : Json} {C : Chrono}.
Implicit Types w : World BaseStation.

(** When [send_command] sends. *)
Definition may_send (command : string) (s : session) : option endpoint :=
  match s with
  | Active _ e => if ep_unspecified e then None else Some e
  | Pending _ e =>
    if bool_decide (command = "SESSION_ACCEPT"%string) && negb (ep_unspecified e) then Some e else None
  | NoSession => None
  end.

Lemma send_command_decided c p w : session_inv w ->
  send_command c p w =
  match may_send c (session_of (app_ w)) with
  | Some e => MessageManager.send_message (CommandMessage c p (station_id_ (app_ w)) (system_now w)) e w
  | None => (Ok tt, w)
  end.
Proof.
  intros Hinv. pose proof (inv_init w Hinv) as Hi. unfold send_command. rewrite run_bind.
  unfold ask_base. rewrite run_gets. cbv beta zeta. unfold id. rewrite run_bind, run_gets.
  unfold may_send, session_of. destruct (session_state_ (app_ w)); [done|done|..].
  - rewrite (bool_decide_false (HANDSHAKE_ACCEPT = ACTIVE)),
      (bool_decide_true (HANDSHAKE_ACCEPT = HANDSHAKE_ACCEPT)) by done.
    destruct (bool_decide (c = "SESSION_ACCEPT"%string)); [|done]. cbn [orb andb negb].
    by destruct (ep_unspecified _).
  - rewrite (bool_decide_true (ACTIVE = ACTIVE)) by done. cbn [orb andb negb].
    destruct (ep_unspecified _); [done|]. cbn [negb]. by rewrite andb_false_r.
Qed.
End Commands.

(** ** Theorems *)

Section Theorems.
Context {A : AsioAddress} {J : Json} {C : Chrono}.
Implicit Types w : World BaseStation.

(** C14: Whatever happens to a base station, in any order, its protocol acknowledges
    packets only while the session is active, the state [HANDSHAKE_INIT] is never
    entered, and without a session no rover is stored. *)
Theorem base_session_invariant evs steady system station_id :
  session_inv (base_run evs (make_BaseStation steady system station_id)).
Proof.
  assert (session_inv (make_BaseStation steady system station_id)) as Hw by (by split).
  revert Hw. generalize (make_BaseStation steady system station_id). unfold base_run.
  induction evs as [|ev evs IH]; intros w Hw; [done|]. by apply IH, base_exec_inv.
Qed.

(** C16: The two session commands do to the base station what they do to the abstract
    session: the new session, whether packets are acknowledged, and the one command
    the rover is answered with are as the abstract session says, and the application
    sees nothing of them. *)
Theorem session_commands_refine p rid t e w :
  session_inv w ->
  let s := session_of (app_ w) in
  session_effect (after_init rid e s) (acks_after_init rid e s (session_active_ (protocol_ w)))
    (init_reply rid e s) w
    (run_state (route_message (CommandMessage "SESSION_INIT" p rid t) e) w) /\
  session_effect (after_confirm rid e s)
    (session_active_ (protocol_ w) || bool_decide (s = Pending rid e))
    (if bool_decide (s = Pending rid e) then Some "SESSION_ESTABLISHED"%string else None) w
    (run_state (route_message (CommandMessage "SESSION_CONFIRM" p rid t) e) w).
Proof.
  intros Hinv s. split; [by apply session_init_effect|by apply session_confirm_effect].
Qed.

(** What a message from the rover in the session posts for the application. *)
Definition posts (m : Message) (e : endpoint) (b : BaseStation) : list posted :=
  (if status_callback_ b then
     match m with
     | StatusMessage level _ sender _ =>
       [PostStatus sender {[ "status_level"%string := d_of_Z (StatusLevel_val level) ]}]
     | TelemetryMessage readings sender _ => [PostStatus sender readings]
     | _ => []
     end
   else []) ++
  (if application_message_handler_ b then [PostApplication m e] else []).

Definition session_command (m : Message) : bool :=
  match m with
  | CommandMessage c _ _ _ =>
    bool_decide (c = "SESSION_INIT"%string) || bool_decide (c = "SESSION_CONFIRM"%string)
  | _ => false
  end.

Lemma route_other_run m e w :
  session_inv w -> session_command m = false ->
  route_message m e w =
  (Ok tt, if bool_decide (session_of (app_ w) = Active (get_sender m) e)
          then set_app (foldl (fun b p => add_posted p b) (app_ w) (posts m e (app_ w))) w
          else w).
Proof.
  intros Hinv Hm.
  assert (route_message m e w = route_application m e w) as ->.
  { destruct m; try done. unfold route_message. unfold session_command in Hm. by rewrite Hm. }
  unfold route_application. rewrite run_bind. unfold ask_base. rewrite run_gets. cbv beta.
  unfold id.
  assert (allow_message m e (app_ w) = bool_decide (session_of (app_ w) = Active (get_sender m) e)) as ->.
  { unfold allow_message, session_of. pose proof (inv_init w Hinv).
    destruct (session_state_ (app_ w)); try done.
    - destruct m; try done. unfold session_command in Hm. apply orb_false_iff in Hm as [_ ->]. done.
    - rewrite <- bool_decide_and. apply bool_decide_ext. split; [by intros [-> ->]|by intros [= -> ->]]. }
  destruct (bool_decide _); [|done]. cbn [negb]. rewrite run_bind. unfold posts.
  destruct (status_callback_ (app_ w)) eqn:Hsc; cbn [when].
  - destruct m; cbn [app foldl]; (destruct (application_message_handler_ (app_ w)); [done|];
      by destruct w).
  - rewrite run_ret. destruct (application_message_handler_ (app_ w)); [done|]. by destruct w.
Qed.

(** C31: Only the rover in the active session is heard: another message than a session
    command posts handlers exactly when its sender is the connected rover's identifier
    and endpoint in an active session, and changes nothing else; from anyone else it
    changes nothing at all. *)
Theorem only_the_rover_is_heard m e w :
  session_inv w -> session_command m = false ->
  route_message m e w =
  (Ok tt, if bool_decide (session_of (app_ w) = Active (get_sender m) e)
          then set_app (foldl (fun b p => add_posted p b) (app_ w) (posts m e (app_ w))) w
          else w).
Proof. apply route_other_run. Qed.

(** C32: Commands are gated by the session: [send_command] sends only to the endpoint
    of the rover in an active session, or the acceptance to the rover whose
    confirmation is awaited; then one datagram leaves, a packet of type [CMD] and
    high priority with the command's JSON, and otherwise not even a sequence number
    is used. *)
Theorem commands_gated c p w :
  session_inv w ->
  match may_send c (session_of (app_ w)) with
  | None => send_command c p w = (Ok tt, w)
  | Some e => forall s, operational w -> reachable (transport_ w) e ->
      serialise (CommandMessage c p (station_id_ (app_ w)) (system_now w)) = Ok s ->
      sent_ (run_state (send_command c p) w) =
      sent_ w ++ [carries e (next_packet CMD HIGH (string_to_binary s) w)]
  end.
Proof.
  intros Hinv. pose proof (send_command_decided c p w Hinv) as Hrun.
  destruct (may_send c _) as [e|]; [|exact Hrun]. intros s Ho He Hs.
  unfold run_state at 1. rewrite Hrun. by apply (manager_send_reachable _ e w s Ho He Hs).
Qed.

(** The session and the flag after a session command. *)
Lemma session_effect_state s acks reply w w' :
  session_effect s acks reply w w' -> session_of (app_ w') = s /\ session_active_ (protocol_ w') = acks.
Proof. by intros (H1 & H2 & _). Qed.

Lemma session_of_posts ps b : session_of (foldl (fun b p => add_posted p b) b ps) = session_of b.
Proof. revert b. induction ps as [|p ps IH]; intros b; [done|]. cbn [foldl]. by rewrite IH. Qed.

(** A session whose packets are no longer acknowledged. *)
Definition unacknowledged (rid : string) (e : endpoint) w : Prop :=
  session_inv w /\ session_of (app_ w) = Active rid e /\ session_active_ (protocol_ w) = false.

Lemma unacknowledged_route rid e m : get_sender m = rid ->
  Preserves (unacknowledged rid e) (route_message m e).
Proof.
  intros Hm w (Hinv & Hs & Ha). split; [by apply route_message_inv|].
  destruct (session_command m) eqn:Hc.
  - destruct m as [|c p rid' t| |]; try done. simpl in Hm. subst rid'. cbn [session_command] in Hc.
    apply orb_true_iff in Hc as [Hc|Hc]; apply bool_decide_eq_true in Hc as ->.
    + pose proof (session_effect_state _ _ _ _ _ (session_init_effect rid e w Hinv)) as [H1 H2].
      rewrite Hs in H1, H2. cbn [after_init acks_after_init] in H1, H2.
      rewrite !bool_decide_true in H1, H2 by done. cbn [andb negb] in H1, H2.
      split; [exact H1|]. etransitivity; [exact H2|exact Ha].
    + pose proof (session_effect_state _ _ _ _ _ (session_confirm_effect rid e w Hinv)) as [H1 H2].
      rewrite Hs in H1, H2. cbn [after_confirm] in H1. rewrite Ha in H2.
      split; [exact H1|]. etransitivity; [exact H2|]. by apply bool_decide_false.
  - unfold run_state. rewrite route_other_run by done. cbn [snd].
    destruct (bool_decide _); [|done]. simpl. by rewrite session_of_posts.
Qed.

(** C33: A [SESSION_INIT] from a stranger does not take an active session over, and is
    not answered, but it stops the acknowledgements for good: the session stays
    active for its rover and nothing the rover sends from its endpoint, session
    commands included, makes the base station acknowledge again. *)
Theorem stranger_stops_acknowledgements rid e rid' e' p t ms w :
  session_inv w -> session_of (app_ w) = Active rid e -> rid' <> rid ->
  Forall (fun m => get_sender m = rid) ms ->
  let w1 := run_state (route_message (CommandMessage "SESSION_INIT" p rid' t) e') w in
  let w2 := run_state (for_each (fun m => route_message m e) ms) w1 in
  sent_ w1 = sent_ w /\
  session_of (app_ w1) = Active rid e /\ session_active_ (protocol_ w1) = false /\
  session_of (app_ w2) = Active rid e /\ session_active_ (protocol_ w2) = false.
Proof.
  intros Hinv Hs Hne Hms w1 w2.
  assert (unacknowledged rid e w1 /\ sent_ w1 = sent_ w) as [Hw1 Hsent].
  { destruct (session_init_effect rid' e' w Hinv) as (H1 & H2 & _ & w0 & _ & H4 & H5).
    change (run_state (handle_session_init rid' e') w) with w1 in *.
    rewrite Hs in H1, H2, H5. cbn [after_init acks_after_init init_reply] in H1, H2, H5.
    rewrite bool_decide_false in H1, H2, H5 by done. cbn [andb] in H1, H2.
    split; [split; [by apply route_message_inv|done]|]. by rewrite H5. }
  assert (unacknowledged rid e w2) as Hw2.
  { unfold w2. clearbody w1. clear w2 Hsent. revert w1 Hw1.
    induction Hms as [|m ms Hm Hms IH]; intros w1 Hw1; [done|].
    unfold run_state. cbn [for_each]. rewrite run_bind, (no_throw_unit (route_message m e)).
    apply IH. by apply unacknowledged_route. }
  destruct Hw1 as (_ & ? & ?), Hw2 as (_ & ? & ?). done.
Qed.

(** An initiation without a session, and a confirmation that is awaited. *)
Lemma init_accepted rid e p t s w :
  session_inv w -> operational w -> session_of (app_ w) = NoSession -> reachable (transport_ w) e ->
  let station := station_id_ (app_ w) in
  serialise (CommandMessage "SESSION_ACCEPT" station station (system_now w)) = Ok s ->
  let w' := run_state (route_message (CommandMessage "SESSION_INIT" p rid t) e) w in
  let packet := next_packet CMD HIGH (string_to_binary s) w in
  same_but_sending (set_app (set_session HANDSHAKE_ACCEPT rid e (app_ w)) w) w' /\
  sent_ w' = sent_ w ++ [carries e packet] /\
  current_sequence_ (protocol_ w') = u8 (current_sequence_ (protocol_ w) + 1) /\
  rm w' = add_send_packet (steady_now w) (current_sequence_ (protocol_ w)) packet e (rm w).
Proof.
  intros Hinv Ho Hs He station Hser w' packet.
  pose proof (session_init_run rid e w Hinv) as Hrun. cbv zeta in Hrun.
  assert (session_state_ (app_ w) = INACTIVE) as Hst.
  { revert Hs. unfold session_of. by destruct (session_state_ (app_ w)). }
  rewrite Hst in Hrun. set (w0 := set_app (set_session HANDSHAKE_ACCEPT rid e (app_ w)) w) in *.
  assert (w' = run_state (send_command "SESSION_ACCEPT" station) w0) as ->.
  { unfold w', run_state at 1. change (route_message _ e) with (handle_session_init rid e).
    by rewrite Hrun. }
  assert (session_inv w0) as Hinv0.
  { destruct Hinv as [H1 H2 H3 H4]. split; try done. simpl. intros Ha. specialize (H2 Ha).
    by rewrite Hst in H2. }
  split; [apply send_command_same|].
  pose proof (send_command_decided "SESSION_ACCEPT" station w0 Hinv0) as H.
  cbn [session_of w0 app_ set_app set_session session_state_ may_send connected_rover_id_
    rover_endpoint_] in H.
  rewrite bool_decide_true, (proj1 He) in H by done. cbn [andb negb] in H.
  assert (operational w0) as Ho0 by (by destruct Ho).
  pose proof (manager_send_reachable (CommandMessage "SESSION_ACCEPT" station station
    (system_now w)) e w0 s Ho0 He Hser) as Hsent. cbv zeta in Hsent.
  unfold run_state in *. rewrite H. exact Hsent.
Qed.

Lemma confirm_established rid e p t s w :
  session_inv w -> operational w -> session_of (app_ w) = Pending rid e -> reachable (transport_ w) e ->
  let station := station_id_ (app_ w) in
  serialise (CommandMessage "SESSION_ESTABLISHED" station station (system_now w)) = Ok s ->
  let w' := run_state (route_message (CommandMessage "SESSION_CONFIRM" p rid t) e) w in
  same_but_sending (confirmed w) w' /\ session_of (app_ w') = Active rid e /\
  sent_ w' = sent_ w ++ [carries e (next_packet CMD HIGH (string_to_binary s) w)] /\
  current_sequence_ (protocol_ w') = u8 (current_sequence_ (protocol_ w) + 1).
Proof.
  intros Hinv Ho Hp He station Hser w'.
  assert (w' = run_state (send_command "SESSION_ESTABLISHED" station) (confirmed w)) as ->.
  { unfold w', run_state at 1. change (route_message _ e) with (handle_session_confirm rid e).
    rewrite session_confirm_run by done. by rewrite Hp, bool_decide_true. }
  assert (session_inv (confirmed w)) as Hinv2 by (by destruct Hinv).
  assert (operational (confirmed w)) as Ho2 by (by destruct Ho).
  assert (session_of (app_ (confirmed w)) = Active rid e) as Ha.
  { revert Hp. unfold session_of, confirmed. simpl.
    destruct (session_state_ (app_ w)); [done|by intros [= -> ->]..|done]. }
  pose proof (send_command_same "SESSION_ESTABLISHED" station (confirmed w)) as S.
  split; [exact S|]. split; [by rewrite (same_app _ _ S)|].
  pose proof (send_command_decided "SESSION_ESTABLISHED" station (confirmed w) Hinv2) as H.
  rewrite Ha in H. cbn [may_send] in H. rewrite (proj1 He) in H.
  destruct (manager_send_reachable (CommandMessage "SESSION_ESTABLISHED" station station
    (system_now w)) e (confirmed w) s Ho2 He Hser) as (H1 & H2 & _).
  unfold run_state in *. rewrite H. by split.
Qed.

(** The handshake from the base station's side: without a session, an initiation
    and a confirmation by the same rover from the same endpoint lead to an active
    session with it, in which packets are acknowledged; the rover was sent the
    acceptance and the establishment, in that order. *)
Theorem handshake_accepted rid e p p' t t' s1 s2 w :
  session_inv w -> operational w -> session_of (app_ w) = NoSession -> reachable (transport_ w) e ->
  let station := station_id_ (app_ w) in
  serialise (CommandMessage "SESSION_ACCEPT" station station (system_now w)) = Ok s1 ->
  serialise (CommandMessage "SESSION_ESTABLISHED" station station (system_now w)) = Ok s2 ->
  let w1 := run_state (route_message (CommandMessage "SESSION_INIT" p rid t) e) w in
  let w2 := run_state (route_message (CommandMessage "SESSION_CONFIRM" p' rid t') e) w1 in
  session_of (app_ w1) = Pending rid e /\ session_of (app_ w2) = Active rid e /\
  session_active_ (protocol_ w2) = true /\
  sent_ w2 = sent_ w ++ [carries e (next_packet CMD HIGH (string_to_binary s1) w);
                         carries e (next_packet CMD HIGH (string_to_binary s2) w1)].
Proof.
  intros Hinv Ho Hs He station Hs1 Hs2 w1 w2.
  destruct (init_accepted rid e p t s1 w) as (S1 & Hsent1 & _); [done..|].
  fold station w1 in S1, Hsent1.
  assert (session_of (app_ w1) = Pending rid e) as Hp by (by rewrite (same_app _ _ S1)).
  destruct (confirm_established rid e p' t' s2 w1) as (S2 & Ha & Hsent2 & _).
  - by apply route_message_inv.
  - by apply (operational_same _ _ S1); destruct Ho.
  - done.
  - by rewrite (same_transport _ _ S1).
  - by rewrite (same_app _ _ S1), (same_system _ _ S1).
  - fold w2 in S2, Ha, Hsent2. split_and!; [done|done| |].
    + by rewrite (same_session _ _ S2).
    + by rewrite Hsent2, Hsent1, <- app_assoc.
Qed.
End Theorems.

(** ** Base stations to evaluate on *)

Module SampleBase.
Import Ipv4 SampleLibraries Sample.

Definition station (st : SessionState) (rid : string) (e : endpoint) : BaseStation :=
  mkBaseStation (mkMessageManager "base" true true) true true st rid e "base" [].

Definition station_node (st : SessionState) (rid : string) (e : endpoint) : World BaseStation :=
  let w := base_of (station st rid e) in
  set_protocol (set_session_active (bool_decide (st = ACTIVE)) (protocol_ w)) w.

Definition idle_station : World BaseStation := station_node INACTIVE "" endpoint_default.
Definition active_station : World BaseStation := station_node ACTIVE "grp18-rover" rover_ep.

Lemma idle_inv : session_inv idle_station.
Proof. by split. Qed.
Lemma active_inv : session_inv active_station.
Proof. by split. Qed.

Definition text_of (m : Message) : string := match serialise m with Ok s => s | Throw _ => "" end.
End SampleBase.

Section Witnesses.
Import Ipv4 SampleLibraries Sample SampleBase.

Lemma session_commands_refine_witness :
  session_of (app_ (run_state (route_message
    (CommandMessage "SESSION_INIT" "" "grp18-rover" 0) rover_ep) idle_station)) =
  Pending "grp18-rover" rover_ep.
Proof.
  by destruct (session_commands_refine "" "grp18-rover" 0 rover_ep idle_station idle_inv) as [[H _] _].
Defined.

Lemma only_the_rover_is_heard_witness :
  posted_ (app_ (run_state (route_message (BasicMessage "hi" "grp18-rover" 0) rover_ep)
    active_station)) = [PostApplication (BasicMessage "hi" "grp18-rover" 0) rover_ep].
Proof.
  unfold run_state.
  by rewrite (only_the_rover_is_heard (BasicMessage "hi" "grp18-rover" 0) rover_ep active_station
    active_inv eq_refl).
Defined.

Lemma commands_gated_witness : send_command "SET_LOW_POWER" "1" idle_station = (Ok tt, idle_station).
Proof. exact (commands_gated "SET_LOW_POWER" "1" idle_station idle_inv). Defined.

Lemma stranger_stops_acknowledgements_witness :
  session_active_ (protocol_ (run_state (route_message
    (CommandMessage "SESSION_INIT" "" "stranger" 0) base_ep) active_station)) = false.
Proof.
  by destruct (stranger_stops_acknowledgements "grp18-rover" rover_ep "stranger" base_ep "" 0 []
    active_station active_inv eq_refl ltac:(done) (Forall_nil_2 _)) as (_ & _ & H & _).
Defined.

Lemma handshake_accepted_witness :
  length (sent_ (run_state (route_message (CommandMessage "SESSION_CONFIRM" "" "grp18-rover" 0) rover_ep)
    (run_state (route_message (CommandMessage "SESSION_INIT" "" "grp18-rover" 0) rover_ep)
      idle_station))) = 2%nat.
Proof.
  destruct (handshake_accepted "grp18-rover" rover_ep "" "" 0 0
    (text_of (CommandMessage "SESSION_ACCEPT" "base" "base" 0))
    (text_of (CommandMessage "SESSION_ESTABLISHED" "base" "base" 0)) idle_station) as (_ & _ & _ & ->);
    [apply idle_inv|by split|reflexivity|by split|reflexivity|reflexivity|reflexivity].
Defined.
End Witnesses.
