(* ===== verification/Discovery.v ===== *)
(** * The scans of the subnet

    [UdpServer::scan_for_rovers] of [src/base/udp_server.cpp], with the addresses that
    it and [Rover::scan_for_rovers] of [src/rover/rover.cpp] probe.  The parser of
    address literals is Boost.Asio's and is an argument. *)
From stdpp Require Import pretty.
From S2P Require Import Prelude Configs LumenHeader LumenPacket Asio UdpServer Libraries Messages.

Section Scan.
Context {A : AsioAddress} {J : Json} {C : Chrono}.
Context (make_address_v4 : string -> option address).

(** ["10.237.0." + std::to_string(i)] *)
Definition subnet_ip (i : Z) : string := "10.237.0." +:+ pretty i.

(** The endpoints of the loop [for (int i = first; i <= last; ++i)]; an address that
    is not parsed is skipped.  The port is converted to [unsigned short]. *)
Definition scan_targets (first last port : Z) : list endpoint :=
  omap (fun i => a ← make_address_v4 (subnet_ip i); Some (mkEndpoint a (u16 port)))
    (seqZ first (last - first + 1)).

(** [UdpServer::scan_for_rovers]; [now] is the time the message is made at. *)
Definition scan_for_rovers (now discovery_port : Z) (message sender_id : string) (s : UdpServer)
    : list datagram :=
  if negb (running_ s) then []
  else match serialise (CommandMessage "ROVER_DISCOVER" message sender_id now) with
       | Throw _ => []
       | Ok json_payload =>
         let data_to_send := string_to_binary json_payload in
         flat_map (fun target_endpoint => send_data data_to_send target_endpoint s)
           (scan_targets 2 120 discovery_port)
       end.
End Scan.
