(* ===== verification/Rover.v ===== *)
(** * The rover: [include/rover/rover.hpp], [src/rover/rover.cpp]

    The session state machine of the rover, its timers, its stored packets, its
    discovery of other rovers and its simulated movement, on top of the message
    manager.  What is posted to the [io_context] is a queue of the state; the
    mutexes are not modelled, since every function runs on the one thread of the
    [io_context]. *)
From Stdlib Require Import Ascii.
From stdpp Require Import pretty.
From S2P Require Import Prelude Configs Crc8 LumenHeader LumenPacket Asio ReliabilityManager.
From S2P Require Import UdpServer UdpClient Libraries Messages LumenProtocol ProtocolFacts Framing.
From S2P Require Import Delivery MessageManager Doubles Discovery.

(** ** State *)

Inductive SessionState := INACTIVE | HANDSHAKE_INIT | HANDSHAKE_ACCEPT | ACTIVE | DISCONNECTED.

#[export] Instance SessionState_eq_dec : EqDecision SessionState.
Proof. solve_decision. Defined.

(** Durations in milliseconds, distances and rates as doubles. *)
Definition MAX_HANDSHAKE_RETRIES : Z := 5.
Definition STATUS_INTERVAL : Z := 15000.
Definition HANDSHAKE_TIMEOUT : Z := 5000.
Definition POSITION_TELEMETRY_INTERVAL : Z := 10000.
Definition MOVEMENT_INTERVAL : Z := 1000.
Definition PROBE_INTERVAL : Z := 5000.
Definition MOVE_RATE_METERS_PER_SECOND : double := d_one.
Definition TARGET_REACHED_THRESHOLD_METERS : double := d_one.

Definition Coordinate : Type := double * double.

Section Rover.
Context {A : AsioAddress} {J : Json} {C : Chrono}.

(** A serialised message with what is needed to send it later. *)
Definition StoredPacketData : Type := bytes * MessageType * Priority * endpoint.

(** A handler posted to the [io_context]. *)
Inductive posted :=
| PostApplication (message : Message) (sender : endpoint)
| PostDiscovery (id : string) (e : endpoint)
| PostPacketTimeout (recipient : endpoint)
| PostResetSequence
| PostStartProbing
| PostArmHandshake.

(** The two handlers of the application are recorded as set or not set. *)
Record Rover := mkRover {
  message_manager_ : MessageManager;
  application_message_handler_ : bool;
  discovery_message_handler_ : bool;
  status_timer_ : steady_timer;
  handshake_timer_ : steady_timer;
  position_telemetry_timer_ : steady_timer;
  probe_timer_ : steady_timer;
  movement_timer_ : steady_timer;
  session_state_ : SessionState;
  rover_id_ : string;
  current_status_level_ : StatusLevel;
  current_status_description_ : string;
  handshake_retry_count_ : Z;
  discovered_rovers_ : gmap string endpoint;
  low_power_mode_ : bool;
  target_coordinate_ : option Coordinate;
  current_coordinate_ : Coordinate;
  stored_packets_ : list StoredPacketData;
  posted_ : list posted;
}.

#[global] Instance rover_has_manager : HasManager Rover := {|
  manager := message_manager_;
  set_manager v r := mkRover v (application_message_handler_ r) (discovery_message_handler_ r) (status_timer_ r)
      (handshake_timer_ r) (position_telemetry_timer_ r) (probe_timer_ r) (movement_timer_ r)
      (session_state_ r) (rover_id_ r) (current_status_level_ r) (current_status_description_ r)
      (handshake_retry_count_ r) (discovered_rovers_ r) (low_power_mode_ r) (target_coordinate_ r)
      (current_coordinate_ r) (stored_packets_ r) (posted_ r);
|}.

#[global] Instance rover_manager_laws : ManagerLaws Rover rover_has_manager.
Proof. split; [done|done|by intros []]. Qed.

(** *** Field updates *)

Definition set_application_message_handler (v : bool) (r : Rover) : Rover :=
  mkRover (message_manager_ r) v (discovery_message_handler_ r) (status_timer_ r)
    (handshake_timer_ r) (position_telemetry_timer_ r) (probe_timer_ r) (movement_timer_ r)
    (session_state_ r) (rover_id_ r) (current_status_level_ r) (current_status_description_ r)
    (handshake_retry_count_ r) (discovered_rovers_ r) (low_power_mode_ r) (target_coordinate_ r)
    (current_coordinate_ r) (stored_packets_ r) (posted_ r).
Definition set_discovery_message_handler (v : bool) (r : Rover) : Rover :=
  mkRover (message_manager_ r) (application_message_handler_ r) v (status_timer_ r)
    (handshake_timer_ r) (position_telemetry_timer_ r) (probe_timer_ r) (movement_timer_ r)
    (session_state_ r) (rover_id_ r) (current_status_level_ r) (current_status_description_ r)
    (handshake_retry_count_ r) (discovered_rovers_ r) (low_power_mode_ r) (target_coordinate_ r)
    (current_coordinate_ r) (stored_packets_ r) (posted_ r).
Definition set_status_timer (v : steady_timer) (r : Rover) : Rover :=
  mkRover (message_manager_ r) (application_message_handler_ r) (discovery_message_handler_ r) v
    (handshake_timer_ r) (position_telemetry_timer_ r) (probe_timer_ r) (movement_timer_ r)
    (session_state_ r) (rover_id_ r) (current_status_level_ r) (current_status_description_ r)
    (handshake_retry_count_ r) (discovered_rovers_ r) (low_power_mode_ r) (target_coordinate_ r)
    (current_coordinate_ r) (stored_packets_ r) (posted_ r).
Definition set_handshake_timer (v : steady_timer) (r : Rover) : Rover :=
  mkRover (message_manager_ r) (application_message_handler_ r) (discovery_message_handler_ r)
    (status_timer_ r) v (position_telemetry_timer_ r) (probe_timer_ r) (movement_timer_ r)
    (session_state_ r) (rover_id_ r) (current_status_level_ r) (current_status_description_ r)
    (handshake_retry_count_ r) (discovered_rovers_ r) (low_power_mode_ r) (target_coordinate_ r)
    (current_coordinate_ r) (stored_packets_ r) (posted_ r).
Definition set_position_telemetry_timer (v : steady_timer) (r : Rover) : Rover :=
  mkRover (message_manager_ r) (application_message_handler_ r) (discovery_message_handler_ r)
    (status_timer_ r) (handshake_timer_ r) v (probe_timer_ r) (movement_timer_ r) (session_state_ r)
    (rover_id_ r) (current_status_level_ r) (current_status_description_ r)
    (handshake_retry_count_ r) (discovered_rovers_ r) (low_power_mode_ r) (target_coordinate_ r)
    (current_coordinate_ r) (stored_packets_ r) (posted_ r).
Definition set_probe_timer (v : steady_timer) (r : Rover) : Rover :=
  mkRover (message_manager_ r) (application_message_handler_ r) (discovery_message_handler_ r)
    (status_timer_ r) (handshake_timer_ r) (position_telemetry_timer_ r) v (movement_timer_ r)
    (session_state_ r) (rover_id_ r) (current_status_level_ r) (current_status_description_ r)
    (handshake_retry_count_ r) (discovered_rovers_ r) (low_power_mode_ r) (target_coordinate_ r)
    (current_coordinate_ r) (stored_packets_ r) (posted_ r).
Definition set_movement_timer (v : steady_timer) (r : Rover) : Rover :=
  mkRover (message_manager_ r) (application_message_handler_ r) (discovery_message_handler_ r)
    (status_timer_ r) (handshake_timer_ r) (position_telemetry_timer_ r) (probe_timer_ r) v
    (session_state_ r) (rover_id_ r) (current_status_level_ r) (current_status_description_ r)
    (handshake_retry_count_ r) (discovered_rovers_ r) (low_power_mode_ r) (target_coordinate_ r)
    (current_coordinate_ r) (stored_packets_ r) (posted_ r).
Definition set_session_state (v : SessionState) (r : Rover) : Rover :=
  mkRover (message_manager_ r) (application_message_handler_ r) (discovery_message_handler_ r)
    (status_timer_ r) (handshake_timer_ r) (position_telemetry_timer_ r) (probe_timer_ r)
    (movement_timer_ r) v (rover_id_ r) (current_status_level_ r) (current_status_description_ r)
    (handshake_retry_count_ r) (discovered_rovers_ r) (low_power_mode_ r) (target_coordinate_ r)
    (current_coordinate_ r) (stored_packets_ r) (posted_ r).
Definition set_current_status_level (v : StatusLevel) (r : Rover) : Rover :=
  mkRover (message_manager_ r) (application_message_handler_ r) (discovery_message_handler_ r)
    (status_timer_ r) (handshake_timer_ r) (position_telemetry_timer_ r) (probe_timer_ r)
    (movement_timer_ r) (session_state_ r) (rover_id_ r) v (current_status_description_ r)
    (handshake_retry_count_ r) (discovered_rovers_ r) (low_power_mode_ r) (target_coordinate_ r)
    (current_coordinate_ r) (stored_packets_ r) (posted_ r).
Definition set_current_status_description (v : string) (r : Rover) : Rover :=
  mkRover (message_manager_ r) (application_message_handler_ r) (discovery_message_handler_ r)
    (status_timer_ r) (handshake_timer_ r) (position_telemetry_timer_ r) (probe_timer_ r)
    (movement_timer_ r) (session_state_ r) (rover_id_ r) (current_status_level_ r) v
    (handshake_retry_count_ r) (discovered_rovers_ r) (low_power_mode_ r) (target_coordinate_ r)
    (current_coordinate_ r) (stored_packets_ r) (posted_ r).
Definition set_handshake_retry_count (v : Z) (r : Rover) : Rover :=
  mkRover (message_manager_ r) (application_message_handler_ r) (discovery_message_handler_ r)
    (status_timer_ r) (handshake_timer_ r) (position_telemetry_timer_ r) (probe_timer_ r)
    (movement_timer_ r) (session_state_ r) (rover_id_ r) (current_status_level_ r)
    (current_status_description_ r) v (discovered_rovers_ r) (low_power_mode_ r)
    (target_coordinate_ r) (current_coordinate_ r) (stored_packets_ r) (posted_ r).
Definition set_discovered_rovers (v : gmap string endpoint) (r : Rover) : Rover :=
  mkRover (message_manager_ r) (application_message_handler_ r) (discovery_message_handler_ r)
    (status_timer_ r) (handshake_timer_ r) (position_telemetry_timer_ r) (probe_timer_ r)
    (movement_timer_ r) (session_state_ r) (rover_id_ r) (current_status_level_ r)
    (current_status_description_ r) (handshake_retry_count_ r) v (low_power_mode_ r)
    (target_coordinate_ r) (current_coordinate_ r) (stored_packets_ r) (posted_ r).
Definition set_low_power_mode (v : bool) (r : Rover) : Rover :=
  mkRover (message_manager_ r) (application_message_handler_ r) (discovery_message_handler_ r)
    (status_timer_ r) (handshake_timer_ r) (position_telemetry_timer_ r) (probe_timer_ r)
    (movement_timer_ r) (session_state_ r) (rover_id_ r) (current_status_level_ r)
    (current_status_description_ r) (handshake_retry_count_ r) (discovered_rovers_ r) v
    (target_coordinate_ r) (current_coordinate_ r) (stored_packets_ r) (posted_ r).
Definition set_target_coordinate (v : option Coordinate) (r : Rover) : Rover :=
  mkRover (message_manager_ r) (application_message_handler_ r) (discovery_message_handler_ r)
    (status_timer_ r) (handshake_timer_ r) (position_telemetry_timer_ r) (probe_timer_ r)
    (movement_timer_ r) (session_state_ r) (rover_id_ r) (current_status_level_ r)
    (current_status_description_ r) (handshake_retry_count_ r) (discovered_rovers_ r)
    (low_power_mode_ r) v (current_coordinate_ r) (stored_packets_ r) (posted_ r).
Definition set_current_coordinate (v : Coordinate) (r : Rover) : Rover :=
  mkRover (message_manager_ r) (application_message_handler_ r) (discovery_message_handler_ r)
    (status_timer_ r) (handshake_timer_ r) (position_telemetry_timer_ r) (probe_timer_ r)
    (movement_timer_ r) (session_state_ r) (rover_id_ r) (current_status_level_ r)
    (current_status_description_ r) (handshake_retry_count_ r) (discovered_rovers_ r)
    (low_power_mode_ r) (target_coordinate_ r) v (stored_packets_ r) (posted_ r).
Definition set_stored_packets (v : list StoredPacketData) (r : Rover) : Rover :=
  mkRover (message_manager_ r) (application_message_handler_ r) (discovery_message_handler_ r)
    (status_timer_ r) (handshake_timer_ r) (position_telemetry_timer_ r) (probe_timer_ r)
    (movement_timer_ r) (session_state_ r) (rover_id_ r) (current_status_level_ r)
    (current_status_description_ r) (handshake_retry_count_ r) (discovered_rovers_ r)
    (low_power_mode_ r) (target_coordinate_ r) (current_coordinate_ r) v (posted_ r).
Definition set_posted (v : list posted) (r : Rover) : Rover :=
  mkRover (message_manager_ r) (application_message_handler_ r) (discovery_message_handler_ r)
    (status_timer_ r) (handshake_timer_ r) (position_telemetry_timer_ r) (probe_timer_ r)
    (movement_timer_ r) (session_state_ r) (rover_id_ r) (current_status_level_ r)
    (current_status_description_ r) (handshake_retry_count_ r) (discovered_rovers_ r)
    (low_power_mode_ r) (target_coordinate_ r) (current_coordinate_ r) (stored_packets_ r) v.

Abbreviation Node := (World Rover).
Abbreviation MR := (M Node).

Definition ask_rover {X} (f : Rover -> X) : MR X := gets (fun w => f (app_ w)).
Definition on_rover (f : Rover -> Rover) : MR unit := modify (fun w => set_app (f (app_ w)) w).
Definition post (p : posted) : MR unit := on_rover (fun r => set_posted (posted_ r ++ [p]) r).

(** The node's client. *)
Definition on_client (f : UdpClient -> UdpClient) : MR unit :=
  modify (fun w => match transport_ w with
                   | Client c => set_transport (Client (f c)) w
                   | Server _ => w
                   end).

(** A timer armed to fire at a point in time. *)
Definition armed (t : Z) (tm : steady_timer) : steady_timer := async_wait (expires_at t tm).

(** ** Operations *)

(** The constructor; [resolve] is the resolver's answer for the base.  The timers are
    created with no wait. *)
Definition make_Rover (resolve : result (list endpoint)) (base_host rover_id : string)
    (steady system : Z) : result Node :=
  let '(r, client) := register_base resolve base_host make_UdpClient in
  match r with
  | Throw e => Throw e
  | Ok _ =>
    let '(protocol, t) := make_LumenProtocol steady (Client client) in
    let tm := mkTimer steady false in
    Ok (mkWorld t protocol [] steady system
      (mkRover (make_MessageManager rover_id) false false tm tm tm tm tm INACTIVE rover_id
        OK "System OK" 0 ∅ false None (d_zero, d_zero) [] []))
  end.

Definition is_low_power_mode : MR bool := ask_rover low_power_mode_.

(** [get_base_endpoint]; without a client it throws itself. *)
Definition get_base_endpoint : MR endpoint :=
  t ← gets transport_;
  match t with
  | Client c => of_result (UdpClient.get_base_endpoint c)
  | Server _ => throw (RuntimeError "[ROVER] Error: UdpClient is not initialized.")
  end.

(** The base endpoint, or that a [runtime_error] was thrown. *)
Definition base_endpoint : MR (option endpoint) :=
  try_runtime (e ← get_base_endpoint; mret (Some e)) (fun _ => mret None).

Definition update_current_position (lat lon : double) : MR unit :=
  on_rover (set_current_coordinate (lat, lon)).

(** [store_message_for_later] *)
Definition store_message_for_later (message : Message) (intended_recipient : endpoint) : MR unit :=
  try_catch
    (json_str ← of_result (serialise message);
     let payload := string_to_binary json_str in
     on_rover (fun r => set_stored_packets (stored_packets_ r ++
       [(payload, get_lumen_type message, get_lumen_priority message, intended_recipient)]) r))
    (fun _ => mret tt).

(** What low power mode suppresses. *)
Definition suppressed (lp_mode : bool) (message : Message) : bool :=
  lp_mode && negb (bool_decide (get_lumen_priority message = HIGH)).

(** The common end of [send_telemetry] and [send_status]: a message to the base. *)
Definition report (message : Message) (base_ep : endpoint) (current_state : SessionState) : MR unit :=
  lp_mode ← is_low_power_mode;
  if suppressed lp_mode message then mret tt
  else if bool_decide (current_state = DISCONNECTED) then store_message_for_later message base_ep
  else when (bool_decide (current_state = ACTIVE)) (MessageManager.send_message message base_ep).

(** [send_telemetry] *)
Definition send_telemetry (readings : gmap string double) : MR unit :=
  base ← base_endpoint;
  match base with
  | None => mret tt
  | Some base_ep =>
    current_state ← ask_rover session_state_;
    rover_id ← ask_rover rover_id_;
    now ← gets system_now;
    report (TelemetryMessage readings rover_id now) base_ep current_state
  end.

(** [send_status] *)
Definition send_status : MR unit :=
  r ← ask_rover id;
  base ← base_endpoint;
  match base with
  | None => mret tt
  | Some base_ep =>
    now ← gets system_now;
    report (StatusMessage (current_status_level_ r) (current_status_description_ r) (rover_id_ r) now)
      base_ep (session_state_ r)
  end.

Definition update_status (level : StatusLevel) (description : string) : MR unit :=
  on_rover (fun r => set_current_status_description description (set_current_status_level level r)).

(** [send_message] *)
Definition send_message (message : Message) (recipient : endpoint) : MR unit :=
  current_state ← ask_rover session_state_;
  base ← base_endpoint;
  let target :=
    match base with
    | Some base_ep =>
      if ep_unspecified recipient || bool_decide (recipient = base_ep)
      then Some (base_ep, true) else Some (recipient, false)
    | None => if ep_unspecified recipient then None else Some (recipient, false)
    end in
  match target with
  | None => mret tt
  | Some (target_endpoint, target_is_base) =>
    lp_mode ← is_low_power_mode;
    if suppressed lp_mode message then mret tt
    else if bool_decide (current_state = DISCONNECTED) && target_is_base
    then store_message_for_later message target_endpoint
    else if bool_decide (current_state = ACTIVE) || negb target_is_base
    then if lp_mode && negb target_is_base then mret tt
         else MessageManager.send_message message target_endpoint
    else mret tt
  end.

(** [send_raw_message] *)
Definition send_raw_message (message : Message) (recipient : endpoint) : MR unit :=
  if ep_unspecified recipient || (ep_port recipient =? 0) then mret tt
  else
    lp_mode ← is_low_power_mode;
    if suppressed lp_mode message then mret tt
    else
      target_is_base ← try_catch
        (base ← get_base_endpoint; mret (bool_decide (recipient = base))) (fun _ => mret false);
      if lp_mode && negb target_is_base then mret tt
      else MessageManager.send_raw_message message recipient.

(** [send_command] *)
Definition send_command (command params : string) : MR unit :=
  rover_id ← ask_rover rover_id_;
  now ← gets system_now;
  let cmd_msg := CommandMessage command params rover_id now in
  lp_mode ← is_low_power_mode;
  if suppressed lp_mode cmd_msg then mret tt
  else
    base ← base_endpoint;
    match base with
    | None => mret tt
    | Some base_ep =>
      current_state ← ask_rover session_state_;
      if bool_decide (current_state = DISCONNECTED) && bool_decide (command = "SESSION_INIT")
      then MessageManager.send_message cmd_msg base_ep
      else if negb (bool_decide (current_state = DISCONNECTED))
      then MessageManager.send_message cmd_msg base_ep
      else mret tt
    end.

(** *** Session *)

(** [initiate_handshake] *)
Definition initiate_handshake : MR unit :=
  r ← ask_rover id;
  let st := session_state_ r in
  if negb (bool_decide (st = INACTIVE)) && negb (bool_decide (st = DISCONNECTED)) then mret tt
  else
    when (bool_decide (st = DISCONNECTED))
      (on_rover (fun r => set_probe_timer (cancel (probe_timer_ r)) r)) ;;
    on_rover (fun r => set_handshake_retry_count 0 (set_session_state HANDSHAKE_INIT r)) ;;
    send_command "SESSION_INIT" (rover_id_ r) ;;
    now ← gets steady_now;
    on_rover (fun r => set_handshake_timer (armed (now + ms HANDSHAKE_TIMEOUT) (handshake_timer_ r)) r).

(** [handle_base_disconnect] *)
Definition handle_base_disconnect : MR unit :=
  st ← ask_rover session_state_;
  if negb (bool_decide (st = ACTIVE)) then mret tt
  else
    on_rover (set_session_state DISCONNECTED) ;;
    on_rover (fun r => set_probe_timer (cancel (probe_timer_ r))
      (set_handshake_timer (cancel (handshake_timer_ r)) r)) ;;
    post PostResetSequence ;;
    post PostStartProbing.

(** [handle_handshake_timer] *)
Definition handle_handshake_timer : MR unit :=
  r ← ask_rover id;
  let current_state := session_state_ r in
  if bool_decide (current_state = HANDSHAKE_INIT) || bool_decide (current_state = HANDSHAKE_ACCEPT)
  then
    if handshake_retry_count_ r <? MAX_HANDSHAKE_RETRIES then
      on_rover (set_handshake_retry_count (handshake_retry_count_ r + 1)) ;;
      (if bool_decide (current_state = HANDSHAKE_INIT)
       then send_command "SESSION_INIT" (rover_id_ r)
       else send_command "SESSION_CONFIRM" (rover_id_ r)) ;;
      now ← gets steady_now;
      on_rover (fun r =>
        set_handshake_timer (armed (now + ms HANDSHAKE_TIMEOUT) (handshake_timer_ r)) r)
    else handle_base_disconnect
  else mret tt.

(** [send_stored_packets]: a packet leaves the queue whether it could be sent or not. *)
Definition send_stored_packets : MR unit :=
  stored ← ask_rover stored_packets_;
  for_each (fun sp : StoredPacketData =>
    let '(payload, type, priority, recipient) := sp in
    try_catch (LumenProtocol.send_message payload type priority recipient) (fun _ => mret tt) ;;
    on_rover (fun r => set_stored_packets (tail (stored_packets_ r)) r)) stored.

(** [handle_status_timer] and [handle_position_telemetry_timer] *)
Definition handle_status_timer : MR unit :=
  send_status ;;
  now ← gets steady_now;
  on_rover (fun r => set_status_timer (armed (now + ms STATUS_INTERVAL) (status_timer_ r)) r).

Definition handle_position_telemetry_timer : MR unit :=
  current_pos ← ask_rover current_coordinate_;
  send_telemetry (<["latitude"%string := current_pos.1]>
    (<["longitude"%string := current_pos.2]> ∅)) ;;
  now ← gets steady_now;
  on_rover (fun r => set_position_telemetry_timer
    (armed (now + ms POSITION_TELEMETRY_INTERVAL) (position_telemetry_timer_ r)) r).

(** [handle_session_accept] *)
Definition handle_session_accept : MR unit :=
  r ← ask_rover id;
  let previous_state := session_state_ r in
  if bool_decide (previous_state = HANDSHAKE_INIT) || bool_decide (previous_state = DISCONNECTED)
  then
    on_rover (set_session_state HANDSHAKE_ACCEPT) ;;
    on_rover (fun r => set_handshake_timer (cancel (handshake_timer_ r)) r) ;;
    when (bool_decide (previous_state = DISCONNECTED))
      (on_rover (fun r => set_probe_timer (cancel (probe_timer_ r)) r)) ;;
    send_command "SESSION_CONFIRM" (rover_id_ r) ;;
    post PostArmHandshake
  else mret tt.

(** [handle_session_established] *)
Definition handle_session_established : MR unit :=
  st ← ask_rover session_state_;
  if negb (bool_decide (st = ACTIVE)) then
    on_rover (fun r => set_handshake_retry_count 0 (set_session_state ACTIVE r)) ;;
    on_rover (fun r => set_probe_timer (cancel (probe_timer_ r))
      (set_handshake_timer (cancel (handshake_timer_ r)) r)) ;;
    send_stored_packets ;;
    handle_status_timer ;;
    handle_position_telemetry_timer
  else mret tt.

(** [handle_probe_timer] *)
Definition handle_probe_timer : MR unit :=
  r ← ask_rover id;
  if bool_decide (session_state_ r = DISCONNECTED) then
    send_command "SESSION_INIT" (rover_id_ r) ;;
    on_rover (fun r => set_probe_timer
      (armed (expiry (probe_timer_ r) + ms PROBE_INTERVAL) (probe_timer_ r)) r)
  else mret tt.

(** [handle_packet_timeout] *)
Definition handle_packet_timeout (recipient : endpoint) : MR unit :=
  current_state ← ask_rover session_state_;
  base ← base_endpoint;
  let is_base_target :=
    match base with Some base_ep => bool_decide (recipient = base_ep) | None => false end in
  when (bool_decide (current_state = ACTIVE) && is_base_target) handle_base_disconnect.

(** *** Movement *)

Definition calculate_distance (x1 y1 x2 y2 : double) : double :=
  let dx := d_sub x2 x1 in
  let dy := d_sub y2 y1 in
  d_sqrt (d_add (d_mul dx dx) (d_mul dy dy)).

(** One step towards the target from a distance above the threshold. *)
Definition next_position (current target : Coordinate) : Coordinate :=
  let distance_to_target :=
    calculate_distance current.1 current.2 target.1 target.2 in
  let time_step_sec := d_div (d_of_Z MOVEMENT_INTERVAL) (d_of_Z 1000) in
  let step_distance := d_mul MOVE_RATE_METERS_PER_SECOND time_step_sec in
  let step_distance :=
    if d_ltb distance_to_target step_distance then distance_to_target else step_distance in
  let vector_x := d_sub target.1 current.1 in
  let vector_y := d_sub target.2 current.2 in
  let direction_x := d_div vector_x distance_to_target in
  let direction_y := d_div vector_y distance_to_target in
  (d_add current.1 (d_mul direction_x step_distance),
   d_add current.2 (d_mul direction_y step_distance)).

(** [handle_movement_timer] *)
Definition handle_movement_timer : MR unit :=
  r ← ask_rover id;
  match target_coordinate_ r with
  | None => mret tt
  | Some target_pos =>
    let current_pos := current_coordinate_ r in
    let distance_to_target :=
      calculate_distance current_pos.1 current_pos.2 target_pos.1 target_pos.2 in
    if d_leb distance_to_target TARGET_REACHED_THRESHOLD_METERS then
      on_rover (set_target_coordinate None) ;;
      now ← gets system_now;
      let reached_msg := BasicMessage
        ("Rover " +:+ rover_id_ r +:+ " reached target coordinates.") (rover_id_ r) now in
      try_catch (base ← get_base_endpoint; send_message reached_msg base) (fun _ => mret tt)
    else
      let next := next_position current_pos target_pos in
      update_current_position next.1 next.2 ;;
      on_rover (fun r => set_movement_timer
        (armed (expiry (movement_timer_ r) + ms MOVEMENT_INTERVAL) (movement_timer_ r)) r)
  end.

(** *** Commands *)

(** [std::getline(ss, segment, ',')] until it fails, from the stream's string. *)
Definition cons_first (c : ascii) (segments : list string) : list string :=
  match segments with
  | [] => [String c EmptyString]
  | segment :: rest => String c segment :: rest
  end.

Fixpoint split_commas (s : string) : list string :=
  match s with
  | EmptyString => []
  | String c s' =>
    if bool_decide (c = ","%char) then EmptyString :: split_commas s'
    else cons_first c (split_commas s')
  end.

Example split_commas_1 : split_commas "1.5,-2" = ["1.5"; "-2"]%string.
Proof. reflexivity. Qed.
Example split_commas_2 : split_commas ",1,,2," = [""; "1"; ""; "2"]%string.
Proof. reflexivity. Qed.

(** The loop that fills [coords]: emptied when a segment is not parsed. *)
Definition parse_coords (params : string) : list double :=
  default [] (mapM (fun segment => match stod segment with Ok d => Some d | Throw _ => None end)
    (split_commas params)).

(** The line logged for a command; the exceptions of the serialisation are not caught. *)
Definition print_command (cmd_msg : Message) : MR unit :=
  text ← of_result (serialise cmd_msg);
  of_result (pretty_print text) ;;
  mret tt.

Definition handle_set_low_power (params : string) : MR unit :=
  let enable := bool_decide (params = "1"%string) in
  low_power ← ask_rover low_power_mode_;
  when (negb (bool_decide (low_power = enable))) (on_rover (set_low_power_mode enable)).

Definition handle_set_target (params : string) : MR unit :=
  match parse_coords params with
  | [target_lat; target_lon] =>
    on_rover (set_target_coordinate (Some (target_lat, target_lon))) ;;
    current ← ask_rover current_coordinate_;
    let dist := calculate_distance current.1 current.2 target_lat target_lon in
    if d_ltb TARGET_REACHED_THRESHOLD_METERS dist then
      on_rover (fun r => set_movement_timer (cancel (movement_timer_ r)) r) ;;
      now ← gets steady_now;
      on_rover (fun r => set_movement_timer (armed (now + ms 10) (movement_timer_ r)) r)
    else on_rover (set_target_coordinate None)
  | _ => mret tt
  end.

(** [handle_internal_command] *)
Definition handle_internal_command (cmd_msg : Message) (command params : string) : MR unit :=
  if bool_decide (command = "SESSION_ACCEPT"%string) then handle_session_accept
  else if bool_decide (command = "SESSION_ESTABLISHED"%string) then handle_session_established
  else if bool_decide (command = "SET_LOW_POWER"%string) then
    print_command cmd_msg ;; handle_set_low_power params
  else if bool_decide (command = "SET_TARGET_COORD"%string) then
    print_command cmd_msg ;; handle_set_target params
  else mret tt.

(** *** Discovery *)

(** [handle_discovery_command] *)
Definition handle_discovery_command (command sender_id : string) (sender : endpoint) : MR unit :=
  rover_id ← ask_rover rover_id_;
  if bool_decide (sender_id = rover_id) then mret tt
  else if bool_decide (command = "ROVER_ANNOUNCE"%string) then
    rovers ← ask_rover discovered_rovers_;
    on_rover (set_discovered_rovers (<[sender_id := sender]> rovers)) ;;
    handler ← ask_rover discovery_message_handler_;
    when (bool_decide (rovers !! sender_id = None) && handler)
      (post (PostDiscovery sender_id sender))
  else if bool_decide (command = "ROVER_DISCOVER"%string) then
    lp_mode ← is_low_power_mode;
    if negb lp_mode then
      now ← gets system_now;
      send_raw_message (CommandMessage "ROVER_ANNOUNCE" "Responding to probe" rover_id now) sender
    else mret tt
  else mret tt.

(** [scan_for_rovers] *)
Definition scan_for_rovers (make_address_v4 : string -> option address) (discovery_port : Z)
    (message : string) : MR unit :=
  lp_mode ← is_low_power_mode;
  if lp_mode : bool then mret tt
  else try_catch
    (rover_id ← ask_rover rover_id_;
     now ← gets system_now;
     json_payload ← of_result (serialise (CommandMessage "ROVER_DISCOVER" message rover_id now));
     let data_to_send := string_to_binary json_payload in
     for_each (fun target_endpoint => emit (send_data_to data_to_send target_endpoint))
       (scan_targets make_address_v4 2 150 discovery_port))
    (fun _ => mret tt).

Definition get_discovered_rovers : MR (gmap string endpoint) := ask_rover discovered_rovers_.
Definition get_session_state : MR SessionState := ask_rover session_state_.

(** *** Routing *)

Definition session_command (command : string) : bool :=
  bool_decide (command = "SESSION_ACCEPT"%string) ||
  bool_decide (command = "SESSION_ESTABLISHED"%string) ||
  bool_decide (command = "SET_LOW_POWER"%string) ||
  bool_decide (command = "SET_TARGET_COORD"%string).

Definition discovery_command (command : string) : bool :=
  bool_decide (command = "ROVER_ANNOUNCE"%string) ||
  bool_decide (command = "ROVER_DISCOVER"%string).

(** The end of [route_message]: the application's handler, if there is one. *)
Definition route_application (message : Message) (sender : endpoint) : MR unit :=
  handler ← ask_rover application_message_handler_;
  when handler (post (PostApplication message sender)).

(** [route_message], of a message that is not null. *)
Definition route_message (message : Message) (sender : endpoint) : MR unit :=
  rover_id ← ask_rover rover_id_;
  if bool_decide (get_sender message = rover_id) then mret tt
  else
    base ← base_endpoint;
    let from_base_station :=
      match base with Some base_ep => bool_decide (sender = base_ep) | None => false end in
    match message with
    | CommandMessage command params sender_id _ =>
      if session_command command then
        when from_base_station (handle_internal_command message command params)
      else if discovery_command command then
        lp_mode ← is_low_power_mode;
        when (negb lp_mode) (handle_discovery_command command sender_id sender)
      else route_application message sender
    | _ => route_application message sender
    end.

(** ** Start and stop *)

(** The callback of [set_timeout_callback]. *)
Definition on_timeout (recipient : endpoint) : MR unit := post (PostPacketTimeout recipient).

(** The receive callback of the client. *)
Definition on_datagram : bytes -> endpoint -> MR unit :=
  handle_udp_data (handle_lumen_message route_message).

(** [start] *)
Definition start : MR unit :=
  MessageManager.start ;;
  LumenProtocol.start on_timeout ;;
  on_rm ReliabilityManager.set_timeout_callback ;;
  on_client start_receive ;;
  MessageManager.set_message_callback ;;
  initiate_handshake.

(** [stop] *)
Definition stop : MR unit :=
  on_rover (fun r => set_status_timer (cancel (status_timer_ r)) r) ;;
  on_rover (fun r => set_handshake_timer (cancel (handshake_timer_ r)) r) ;;
  on_rover (fun r => set_position_telemetry_timer (cancel (position_telemetry_timer_ r)) r) ;;
  on_rover (fun r => set_probe_timer (cancel (probe_timer_ r)) r) ;;
  on_rover (fun r => set_movement_timer (cancel (movement_timer_ r)) r) ;;
  on_client stop_receive ;;
  LumenProtocol.stop ;;
  MessageManager.stop ;;
  on_rover (set_session_state INACTIVE) ;;
  on_rover (set_discovered_rovers ∅) ;;
  on_rover (set_stored_packets []).

(** [set_application_message_handler] and [set_discovery_message_handler] *)
Definition register_application_handler : MR unit :=
  on_rover (set_application_message_handler true).
Definition register_discovery_handler : MR unit :=
  on_rover (set_discovery_message_handler true).

(** ** The events of a rover *)

(** The completion of a receive and of the client's retry timer. *)
Definition client_received (error : error_code) (data : bytes) (sender : endpoint) : MR unit :=
  client_receive (handle_lumen_message route_message) error data sender.

Definition client_retry (error : error_code) : MR unit :=
  retry_timer_completed node_client set_node_client error.

(** What the [io_context] runs of what was posted; the application's handlers are not
    part of the program, and the one to run is the result of [run_posted]. *)
Definition run_handler (p : posted) : MR unit :=
  now ← gets steady_now;
  match p with
  | PostApplication _ _ | PostDiscovery _ _ => mret tt
  | PostPacketTimeout recipient => handle_packet_timeout recipient
  | PostResetSequence => LumenProtocol.reset_sequence_number
  | PostStartProbing => on_rover (fun r => set_probe_timer (armed now (probe_timer_ r)) r)
  | PostArmHandshake =>
    on_rover (fun r => set_handshake_timer (armed (now + ms HANDSHAKE_TIMEOUT) (handshake_timer_ r)) r)
  end.

Definition run_posted : MR (option posted) :=
  queue ← ask_rover posted_;
  match queue with
  | [] => mret None
  | p :: rest =>
    on_rover (set_posted rest) ;;
    run_handler p ;;
    mret (Some p)
  end.

(** The timers of the rover, and their completion handlers. *)
Inductive rover_timer := StatusTimer | HandshakeTimer | PositionTimer | ProbeTimer | MovementTimer.

(** The wait of a timer is over.  The completion of a wait that was cancelled says
    nothing of the timer, which may have been armed again. *)
Definition disarm (t : rover_timer) (r : Rover) : Rover :=
  match t with
  | StatusTimer => set_status_timer (cancel (status_timer_ r)) r
  | HandshakeTimer => set_handshake_timer (cancel (handshake_timer_ r)) r
  | PositionTimer => set_position_telemetry_timer (cancel (position_telemetry_timer_ r)) r
  | ProbeTimer => set_probe_timer (cancel (probe_timer_ r)) r
  | MovementTimer => set_movement_timer (cancel (movement_timer_ r)) r
  end.

Definition timer_handler (t : rover_timer) : MR unit :=
  match t with
  | StatusTimer => handle_status_timer
  | HandshakeTimer => handle_handshake_timer
  | PositionTimer => handle_position_telemetry_timer
  | ProbeTimer => handle_probe_timer
  | MovementTimer => handle_movement_timer
  end.

Definition timer_completed (t : rover_timer) (error : error_code) : MR unit :=
  when (negb (bool_decide (error = OperationAborted))) (on_rover (disarm t)) ;;
  when (bool_decide (error = NoError)) (timer_handler t).
End Rover.
