(* ===== verification/RoverEffects.v ===== *)
(** * The handlers of the rover as functions on its state

    Every handler of [Rover] that does not touch the sockets is a function on the
    rover, up to what it sends: it returns, changes [app_] by that function and
    otherwise only sends.  The functions are what the invariant and the theorems of
    [RoverSession] are proved about. *)
From S2P Require Import Prelude Configs Crc8 LumenHeader LumenPacket Asio ReliabilityManager.
From S2P Require Import UdpServer UdpClient Libraries Messages LumenProtocol ProtocolFacts Framing.
From S2P Require Import Delivery MessageManager Doubles BaseStation BaseSession Discovery Rover.

(** ** Handlers as functions on the rover *)

Section Effects.
Context {A : AsioAddress} {J : Json} {C : Chrono}.
Implicit Types (w : World Rover) (r : Rover).

(** [m] returns, changes the rover by [f] and otherwise only sends. *)
Definition runs (m : M (World Rover) unit) (f : Rover -> Rover) w : Prop :=
  exists w', m w = (Ok tt, w') /\ same_but_sending (set_app (f (app_ w)) w) w'.

Lemma set_app_id w : set_app (app_ w) w = w.
Proof. by destruct w. Qed.

Lemma same_set_app r w w' : same_but_sending w w' -> same_but_sending (set_app r w) (set_app r w').
Proof. intros []. by split. Qed.

(** What does not change when only the rover changes. *)
Lemma steady_after r w w' : same_but_sending (set_app r w) w' -> steady_now w' = steady_now w.
Proof. intros H. exact (same_steady _ _ H). Qed.
Lemma system_after r w w' : same_but_sending (set_app r w) w' -> system_now w' = system_now w.
Proof. intros H. exact (same_system _ _ H). Qed.
Lemma transport_after r w w' : same_but_sending (set_app r w) w' -> transport_ w' = transport_ w.
Proof. intros H. exact (same_transport _ _ H). Qed.
Lemma app_after r w w' : same_but_sending (set_app r w) w' -> app_ w' = r.
Proof. intros H. exact (same_app _ _ H). Qed.

Lemma runs_ret w : runs (mret tt) (fun r => r) w.
Proof. exists w. by rewrite set_app_id. Qed.

Lemma runs_on_rover f w : runs (on_rover f) f w.
Proof. by exists (set_app (f (app_ w)) w). Qed.

Lemma runs_bind m1 m2 f g w : runs m1 f w ->
  (forall w', same_but_sending (set_app (f (app_ w)) w) w' -> runs m2 g w') ->
  runs (m1 ;; m2) (fun r => g (f r)) w.
Proof.
  intros (w1 & H1 & S1) H2. destruct (H2 w1 S1) as (w2 & H2' & S2). exists w2.
  rewrite run_bind, H1. split; [done|]. etransitivity; [|exact S2].
  rewrite (same_app _ _ S1). by apply (same_set_app (g (f (app_ w))) _ _ S1).
Qed.

Lemma runs_bind_all m1 m2 f g w : (forall w, runs m1 f w) -> (forall w, runs m2 g w) ->
  runs (m1 ;; m2) (fun r => g (f r)) w.
Proof. intros H1 H2. by apply runs_bind. Qed.

Lemma runs_ext m f g w : runs m f w -> f (app_ w) = g (app_ w) -> runs m g w.
Proof. intros (w' & H & S) E. exists w'. by rewrite <- E. Qed.

(** A read of the rover, of the clocks. *)
Lemma runs_ask {X} (h : Rover -> X) k g w :
  runs (k (h (app_ w))) g w -> runs (ask_rover h ≫= k) g w.
Proof. intros (w' & H & S). by exists w'. Qed.

Lemma runs_gets {X} (h : World Rover -> X) k g w :
  runs (k (h w)) g w -> runs (gets h ≫= k) g w.
Proof. intros (w' & H & S). by exists w'. Qed.

Lemma runs_when b m f w : (b = true -> runs m f w) -> runs (when b m) (fun r => if b then f r else r) w.
Proof. intros H. destruct b; [by apply H|apply runs_ret]. Qed.

Lemma runs_sending m w : NoThrow m -> same_but_sending w (run_state m w) -> runs m (fun r => r) w.
Proof.
  intros Hm Hs. exists (run_state m w). split; [by apply no_throw_unit|]. by rewrite set_app_id.
Qed.

Lemma runs_manager_send m e w : runs (MessageManager.send_message m e) (fun r => r) w.
Proof. apply runs_sending; [apply _|apply manager_send_same]. Qed.

Lemma runs_manager_send_raw m e w : runs (MessageManager.send_raw_message m e) (fun r => r) w.
Proof. apply runs_sending; [apply _|apply manager_send_raw_same]. Qed.

Lemma runs_preserves (I : World Rover -> Prop) m f :
  (forall w w', same_but_sending w w' -> I w -> I w') ->
  (forall w, I w -> I (set_app (f w (app_ w)) w)) ->
  (forall w, I w -> runs m (f w) w) -> Preserves I m.
Proof.
  intros HI Hf Hm w Hw. destruct (Hm w Hw) as (w' & H & S). unfold run_state. rewrite H.
  by apply (HI _ _ S), Hf.
Qed.

(** *** Sending *)

(** The base's endpoint, when it was resolved. *)
Definition base_of_node w : option endpoint :=
  match transport_ w with
  | Client c => if ep_unspecified (base_endpoint_ c) then None else Some (base_endpoint_ c)
  | Server _ => None
  end.

Lemma base_endpoint_run w : base_endpoint w = (Ok (base_of_node w), w).
Proof.
  unfold base_endpoint, base_of_node, Rover.get_base_endpoint, try_runtime, try_catch.
  rewrite run_bind, run_bind, run_gets. destruct (transport_ w) as [s|c]; [done|].
  unfold UdpClient.get_base_endpoint. by destruct (ep_unspecified _).
Qed.

Lemma runs_base k g w :
  runs (k (base_of_node w)) g w -> runs (base_endpoint ≫= k) g w.
Proof. intros (w' & H & S). exists w'. by rewrite run_bind, base_endpoint_run. Qed.

Lemma base_of_node_same w w' : transport_ w' = transport_ w -> base_of_node w' = base_of_node w.
Proof. unfold base_of_node. by intros ->. Qed.

(** Commands have high priority: low power mode does not hold them back. *)
Lemma command_not_suppressed lp c p s t : suppressed lp (CommandMessage c p s t) = false.
Proof. unfold suppressed. simpl. by destruct lp. Qed.

(** [send_command] *)
Lemma rover_command_run c p w :
  Rover.send_command c p w =
  match base_of_node w with
  | Some be =>
    if bool_decide (session_state_ (app_ w) = DISCONNECTED) && negb (bool_decide (c = "SESSION_INIT"%string))
    then (Ok tt, w)
    else MessageManager.send_message
           (CommandMessage c p (rover_id_ (app_ w)) (system_now w)) be w
  | None => (Ok tt, w)
  end.
Proof.
  unfold Rover.send_command, is_low_power_mode, ask_rover.
  rewrite run_bind, run_gets, run_bind, run_gets. cbv beta zeta. rewrite run_bind, run_gets.
  rewrite command_not_suppressed, run_bind, base_endpoint_run.
  destruct (base_of_node w) as [be|]; [|done]. rewrite run_bind, run_gets.
  destruct (bool_decide (session_state_ (app_ w) = DISCONNECTED)),
    (bool_decide (c = "SESSION_INIT"%string)); done.
Qed.

Lemma runs_command c p w : runs (Rover.send_command c p) (fun r => r) w.
Proof.
  destruct (runs_manager_send (CommandMessage c p (rover_id_ (app_ w)) (system_now w))
    (default endpoint_default (base_of_node w)) w) as (w' & H & S).
  destruct (runs_ret w) as (w0 & H0 & S0).
  assert (Rover.send_command c p w = (Ok tt, w') \/ Rover.send_command c p w = (Ok tt, w0)) as [E|E];
    [|by exists w'|by exists w0].
  rewrite rover_command_run. destruct (base_of_node w) as [be|]; [|by right].
  destruct (_ && _); [by right|by left].
Qed.

(** *** Reports *)

(** What [store_message_for_later] appends. *)
Definition stored_as (m : Message) (e : endpoint) : list StoredPacketData :=
  match serialise m with
  | Ok s => [(string_to_binary s, get_lumen_type m, get_lumen_priority m, e)]
  | Throw _ => []
  end.

Definition add_stored (l : list StoredPacketData) r : Rover :=
  set_stored_packets (stored_packets_ r ++ l) r.

Lemma add_stored_nil r : add_stored [] r = r.
Proof. unfold add_stored. rewrite app_nil_r. by destruct r. Qed.

Lemma runs_store m e w : runs (store_message_for_later m e) (add_stored (stored_as m e)) w.
Proof.
  unfold store_message_for_later, stored_as, runs, try_catch. rewrite run_bind.
  destruct (serialise m) as [s|x]; cbn [of_result].
  - by exists (set_app (add_stored [(string_to_binary s, get_lumen_type m, get_lumen_priority m, e)]
      (app_ w)) w).
  - exists w. by rewrite add_stored_nil, set_app_id.
Qed.

(** What sending a message to the base does to the rover. *)
Definition report_effect (m : Message) (be : option endpoint) r : Rover :=
  match be with
  | Some be =>
    if bool_decide (session_state_ r = DISCONNECTED) && negb (suppressed (low_power_mode_ r) m)
    then add_stored (stored_as m be) r else r
  | None => r
  end.

Lemma runs_report m be w :
  runs (report m be (session_state_ (app_ w))) (report_effect m (Some be)) w.
Proof.
  unfold report, is_low_power_mode. apply runs_ask. unfold report_effect.
  destruct (suppressed (low_power_mode_ (app_ w)) m) eqn:Hs.
  { apply (runs_ext _ _ _ _ (runs_ret w)). by rewrite Hs, andb_false_r. }
  destruct (bool_decide (session_state_ (app_ w) = DISCONNECTED)) eqn:Hd.
  { apply (runs_ext _ _ _ _ (runs_store m be w)). by rewrite Hd, Hs. }
  apply (runs_ext _ (fun r => if bool_decide (session_state_ (app_ w) = ACTIVE) then r else r)).
  - apply (runs_when _ _ (fun r => r)). intros _. apply runs_manager_send.
  - rewrite Hd. by destruct (session_state_ (app_ w)).
Qed.

Definition telemetry_now (readings : gmap string double) w : Message :=
  TelemetryMessage readings (rover_id_ (app_ w)) (system_now w).
Definition status_now w : Message :=
  StatusMessage (current_status_level_ (app_ w)) (current_status_description_ (app_ w))
    (rover_id_ (app_ w)) (system_now w).

Lemma runs_telemetry readings w :
  runs (send_telemetry readings) (report_effect (telemetry_now readings w) (base_of_node w)) w.
Proof.
  unfold send_telemetry. apply runs_base. destruct (base_of_node w) as [be|]; [|apply runs_ret].
  apply runs_ask, runs_ask, runs_gets, runs_report.
Qed.

Lemma runs_status w : runs send_status (report_effect (status_now w) (base_of_node w)) w.
Proof.
  unfold send_status. apply runs_ask, runs_base.
  destruct (base_of_node w) as [be|]; [|apply runs_ret]. apply runs_gets, runs_report.
Qed.

Definition rearm_status (now : Z) r : Rover :=
  set_status_timer (armed (now + ms STATUS_INTERVAL) (status_timer_ r)) r.
Definition rearm_position (now : Z) r : Rover :=
  set_position_telemetry_timer
    (armed (now + ms POSITION_TELEMETRY_INTERVAL) (position_telemetry_timer_ r)) r.

Definition position_readings (pos : Coordinate) : gmap string double :=
  <["latitude"%string := pos.1]> (<["longitude"%string := pos.2]> ∅).

Lemma runs_status_timer w :
  runs handle_status_timer
    (fun r => rearm_status (steady_now w) (report_effect (status_now w) (base_of_node w) r)) w.
Proof.
  unfold handle_status_timer. apply runs_bind; [apply runs_status|]. intros w' S.
  apply runs_gets. rewrite (steady_after _ _ _ S). apply runs_on_rover.
Qed.

Lemma runs_position_timer w :
  runs handle_position_telemetry_timer
    (fun r => rearm_position (steady_now w) (report_effect
       (telemetry_now (position_readings (current_coordinate_ (app_ w))) w) (base_of_node w) r)) w.
Proof.
  unfold handle_position_telemetry_timer. apply runs_ask. apply runs_bind; [apply runs_telemetry|].
  intros w' S. apply runs_gets. rewrite (steady_after _ _ _ S). apply runs_on_rover.
Qed.

(** *** The session *)

Definition cancel_handshake r : Rover := set_handshake_timer (cancel (handshake_timer_ r)) r.
Definition cancel_probe r : Rover := set_probe_timer (cancel (probe_timer_ r)) r.
Definition add_posted (ps : list posted) r : Rover := set_posted (posted_ r ++ ps) r.
Definition rearm_handshake (now : Z) r : Rover :=
  set_handshake_timer (armed (now + ms HANDSHAKE_TIMEOUT) (handshake_timer_ r)) r.

Definition init_effect (now : Z) r : Rover :=
  match session_state_ r with
  | INACTIVE => rearm_handshake now
      (set_handshake_retry_count 0 (set_session_state HANDSHAKE_INIT r))
  | DISCONNECTED => rearm_handshake now
      (set_handshake_retry_count 0 (set_session_state HANDSHAKE_INIT (cancel_probe r)))
  | _ => r
  end.

Definition disconnect_effect r : Rover :=
  match session_state_ r with
  | ACTIVE => add_posted [PostResetSequence; PostStartProbing]
      (cancel_probe (cancel_handshake (set_session_state DISCONNECTED r)))
  | _ => r
  end.

Definition handshake_effect (now : Z) r : Rover :=
  match session_state_ r with
  | HANDSHAKE_INIT | HANDSHAKE_ACCEPT =>
    if handshake_retry_count_ r <? MAX_HANDSHAKE_RETRIES
    then rearm_handshake now (set_handshake_retry_count (handshake_retry_count_ r + 1) r)
    else r
  | _ => r
  end.

Definition accept_effect r : Rover :=
  match session_state_ r with
  | HANDSHAKE_INIT =>
    add_posted [PostArmHandshake] (cancel_handshake (set_session_state HANDSHAKE_ACCEPT r))
  | DISCONNECTED => add_posted [PostArmHandshake]
      (cancel_probe (cancel_handshake (set_session_state HANDSHAKE_ACCEPT r)))
  | _ => r
  end.

(** The rover as a session starts. *)
Definition activated (now : Z) r : Rover :=
  rearm_position now (rearm_status now (set_stored_packets []
    (cancel_probe (cancel_handshake (set_handshake_retry_count 0 (set_session_state ACTIVE r)))))).

Definition established_effect (now : Z) r : Rover :=
  match session_state_ r with ACTIVE => r | _ => activated now r end.

Definition probe_effect r : Rover :=
  match session_state_ r with
  | DISCONNECTED => set_probe_timer
      (armed (expiry (probe_timer_ r) + ms PROBE_INTERVAL) (probe_timer_ r)) r
  | _ => r
  end.

Definition timeout_effect (be : option endpoint) (recipient : endpoint) r : Rover :=
  if bool_decide (Some recipient = be) then disconnect_effect r else r.

Lemma runs_initiate w : runs initiate_handshake (init_effect (steady_now w)) w.
Proof.
  unfold initiate_handshake. apply runs_ask. unfold id, init_effect.
  destruct (session_state_ (app_ w)) eqn:Hst; try (apply (runs_ext _ _ _ _ (runs_ret w)); by rewrite Hst).
  all: cbn [bool_decide decide_rel SessionState_eq_dec negb andb when].
  all: eapply runs_ext; [apply (runs_bind _ _ (fun r => if bool_decide (session_state_ (app_ w) = DISCONNECTED)
         then cancel_probe r else r)
       (fun r => rearm_handshake (steady_now w) (set_handshake_retry_count 0
         (set_session_state HANDSHAKE_INIT r))))|by rewrite Hst].
  all: rewrite ?Hst; try apply runs_ret; try apply runs_on_rover; intros w1 S1.
  all: apply (runs_bind _ _ (fun r => set_handshake_retry_count 0 (set_session_state HANDSHAKE_INIT r))
    (rearm_handshake (steady_now w))); [apply runs_on_rover|intros w2 S2].
  all: apply (runs_bind _ _ (fun r => r)); [apply runs_command|intros w3 S3].
  all: apply runs_gets; rewrite (steady_after _ _ _ S3), (steady_after _ _ _ S2), (steady_after _ _ _ S1).
  all: apply runs_on_rover.
Qed.

Lemma runs_disconnect w : runs handle_base_disconnect disconnect_effect w.
Proof.
  unfold handle_base_disconnect. apply runs_ask. unfold disconnect_effect.
  destruct (session_state_ (app_ w)) eqn:Hst; try (apply (runs_ext _ _ _ _ (runs_ret w)); by rewrite Hst).
  eexists. split; [reflexivity|]. rewrite Hst. split; try done. simpl. unfold add_posted, set_posted. simpl.
  by rewrite <- app_assoc.
Qed.

Lemma runs_handshake_timer w :
  runs handle_handshake_timer (handshake_effect (steady_now w)) w.
Proof.
  unfold handle_handshake_timer. apply runs_ask. unfold id.
  assert (forall c p n, runs
    (on_rover (set_handshake_retry_count n) ;;
     Rover.send_command c p ;;
     now ← gets steady_now;
     on_rover (fun r => set_handshake_timer (armed (now + ms HANDSHAKE_TIMEOUT) (handshake_timer_ r)) r))
    (fun r => rearm_handshake (steady_now w) (set_handshake_retry_count n r)) w) as Hretry.
  { intros c p n. apply (runs_bind _ _ (set_handshake_retry_count n) (rearm_handshake (steady_now w)));
      [apply runs_on_rover|]. intros w1 S1. apply (runs_bind _ _ (fun r => r)); [apply runs_command|].
    intros w2 S2. apply runs_gets. rewrite (steady_after _ _ _ S2), (steady_after _ _ _ S1).
    apply runs_on_rover. }
  destruct (session_state_ (app_ w)) eqn:Hst; cbn [bool_decide decide_rel SessionState_eq_dec orb];
    try (apply (runs_ext _ _ _ _ (runs_ret w)); unfold handshake_effect; by rewrite Hst).
  all: destruct (handshake_retry_count_ (app_ w) <? MAX_HANDSHAKE_RETRIES) eqn:Hn.
  1,3: eapply runs_ext; [apply Hretry|]; unfold handshake_effect; by rewrite Hst, Hn.
  all: eapply runs_ext; [apply runs_disconnect|]; unfold handshake_effect, disconnect_effect;
    by rewrite Hst, Hn.
Qed.

Lemma runs_flush w : runs send_stored_packets (set_stored_packets []) w.
Proof.
  unfold send_stored_packets. apply runs_ask.
  remember (stored_packets_ (app_ w)) as l eqn:Hl. revert w Hl.
  induction l as [|[[[pl ty] pr] e] l IH]; intros w Hl; cbn [for_each].
  { apply (runs_ext _ _ _ _ (runs_ret w)). destruct (app_ w); simpl in *. by subst. }
  set (pop r := set_stored_packets (tail (stored_packets_ r)) r).
  eapply runs_ext; [apply (runs_bind _ _ pop (set_stored_packets []))|by destruct (app_ w)].
  - apply (runs_bind _ _ (fun r => r)); [|intros w' S; apply runs_on_rover].
    unfold runs, try_catch. pose proof (lumen_send_same pl ty pr e w) as Hs. unfold run_state in Hs.
    destruct (LumenProtocol.send_message pl ty pr e w) as [[[]|x] w']; exists w'; rewrite set_app_id;
      done.
  - intros w' S. apply IH. rewrite (app_after _ _ _ S). unfold pop. simpl. by rewrite <- Hl.
Qed.

Lemma report_effect_active m be r : session_state_ r = ACTIVE -> report_effect m be r = r.
Proof. intros H. unfold report_effect. rewrite H. by destruct be. Qed.

Lemma runs_established w :
  runs handle_session_established (established_effect (steady_now w)) w.
Proof.
  unfold handle_session_established. apply runs_ask.
  destruct (decide (session_state_ (app_ w) = ACTIVE)) as [Hst|Hst].
  { rewrite bool_decide_true by done. apply (runs_ext _ _ _ _ (runs_ret w)).
    unfold established_effect. by rewrite Hst. }
  rewrite (bool_decide_false (session_state_ (app_ w) = ACTIVE)) by done. cbn [negb].
  set (f1 r := set_handshake_retry_count 0 (set_session_state ACTIVE r)).
  set (f2 r := cancel_probe (cancel_handshake r)).
  set (now := steady_now w).
  apply (runs_ext _ (fun r => rearm_position now (rearm_status now (set_stored_packets [] (f2 (f1 r)))))).
  2: { unfold established_effect. by destruct (session_state_ (app_ w)). }
  apply (runs_bind _ _ f1 (fun r => rearm_position now (rearm_status now (set_stored_packets [] (f2 r)))));
    [apply runs_on_rover|intros w1 S1].
  apply (runs_bind _ _ f2 (fun r => rearm_position now (rearm_status now (set_stored_packets [] r))));
    [apply runs_on_rover|intros w2 S2].
  apply (runs_bind _ _ (set_stored_packets []) (fun r => rearm_position now (rearm_status now r)));
    [apply runs_flush|intros w3 S3].
  assert (session_state_ (app_ w3) = ACTIVE) as H3.
  { by rewrite (app_after _ _ _ S3), (app_after _ _ _ S2), (app_after _ _ _ S1). }
  assert (steady_now w3 = now) as N3.
  { by rewrite (steady_after _ _ _ S3), (steady_after _ _ _ S2), (steady_after _ _ _ S1). }
  apply (runs_bind _ _ (rearm_status now) (rearm_position now)).
  - apply (runs_ext _ _ _ _ (runs_status_timer w3)). by rewrite report_effect_active, N3.
  - intros w4 S4. apply (runs_ext _ _ _ _ (runs_position_timer w4)).
    rewrite report_effect_active, (steady_after _ _ _ S4), N3; [done|].
    by rewrite (app_after _ _ _ S4).
Qed.

Lemma runs_accept w : runs handle_session_accept accept_effect w.
Proof.
  unfold handle_session_accept. apply runs_ask. unfold id.
  set (f1 := set_session_state HANDSHAKE_ACCEPT).
  assert (forall (b : bool), runs
    (on_rover f1 ;;
     on_rover cancel_handshake ;;
     when b (on_rover cancel_probe) ;;
     Rover.send_command "SESSION_CONFIRM" (rover_id_ (app_ w)) ;;
     post PostArmHandshake)
    (fun r => add_posted [PostArmHandshake] (if b then cancel_probe (cancel_handshake (f1 r))
                                             else cancel_handshake (f1 r))) w) as H.
  { intros b. set (g r := if b then cancel_probe r else r).
    apply (runs_ext _ (fun r => add_posted [PostArmHandshake] (g (cancel_handshake (f1 r)))));
      [|by destruct b].
    apply (runs_bind _ _ f1 (fun r => add_posted [PostArmHandshake] (g (cancel_handshake r))));
      [apply runs_on_rover|intros w1 _].
    apply (runs_bind _ _ cancel_handshake (fun r => add_posted [PostArmHandshake] (g r)));
      [apply runs_on_rover|intros w2 _].
    apply (runs_bind _ _ g (add_posted [PostArmHandshake]));
      [apply (runs_when _ _ cancel_probe); intros _; apply runs_on_rover|intros w3 _].
    apply (runs_bind _ _ (fun r => r)); [apply runs_command|intros w4 _]. apply runs_on_rover. }
  destruct (session_state_ (app_ w)) eqn:Hst; cbn [bool_decide decide_rel SessionState_eq_dec orb];
    try (apply (runs_ext _ _ _ _ (runs_ret w)); unfold accept_effect; by rewrite Hst).
  - apply (runs_ext _ _ _ _ (H false)). unfold accept_effect. by rewrite Hst.
  - apply (runs_ext _ _ _ _ (H true)). unfold accept_effect. by rewrite Hst.
Qed.

Lemma runs_probe w : runs handle_probe_timer probe_effect w.
Proof.
  unfold handle_probe_timer. apply runs_ask. unfold id, probe_effect.
  destruct (session_state_ (app_ w)) eqn:Hst; cbn [bool_decide decide_rel SessionState_eq_dec];
    try (apply (runs_ext _ _ _ _ (runs_ret w)); by rewrite Hst).
  eapply runs_ext; [apply (runs_bind _ _ (fun r => r)); [apply runs_command|intros w' _; apply runs_on_rover]|].
  by rewrite Hst.
Qed.

Lemma runs_packet_timeout recipient w :
  runs (handle_packet_timeout recipient) (timeout_effect (base_of_node w) recipient) w.
Proof.
  unfold handle_packet_timeout. apply runs_ask, runs_base. unfold timeout_effect.
  assert ((match base_of_node w with Some base_ep => bool_decide (recipient = base_ep) | None => false end) =
    bool_decide (Some recipient = base_of_node w)) as ->.
  { destruct (base_of_node w); [|done]. apply bool_decide_ext. naive_solver. }
  destruct (bool_decide (Some recipient = base_of_node w)) eqn:Hb; cycle 1.
  { rewrite andb_false_r. apply runs_ret. }
  rewrite andb_true_r. eapply runs_ext; [apply runs_when; intros _; apply runs_disconnect|].
  cbv beta. unfold disconnect_effect. by destruct (session_state_ (app_ w)).
Qed.
End Effects.

(** *** Messages *)

Section Messages.
Context {A : AsioAddress} {J : Json} {C : Chrono}.
Implicit Types (w : World Rover) (r : Rover).

(** What [send_message] does to the rover. *)
Definition send_effect (m : Message) (recipient : endpoint) (be : option endpoint) r : Rover :=
  match be with
  | Some be =>
    if ep_unspecified recipient || bool_decide (recipient = be) then report_effect m (Some be) r else r
  | None => r
  end.

Lemma runs_send_message m e w :
  runs (Rover.send_message m e) (send_effect m e (base_of_node w)) w.
Proof.
  unfold Rover.send_message. apply runs_ask, runs_base.
  assert (forall (b : bool) e', runs (if b then mret tt else MessageManager.send_message m e')
    (fun r => r) w) as Hsend by (intros [] e'; [apply runs_ret|apply runs_manager_send]).
  assert (forall e', runs
    (lp_mode ← is_low_power_mode;
     if suppressed lp_mode m then mret tt
     else if bool_decide (session_state_ (app_ w) = DISCONNECTED) && false
     then store_message_for_later m e'
     else if bool_decide (session_state_ (app_ w) = ACTIVE) || negb false
     then if lp_mode && negb false then mret tt else MessageManager.send_message m e'
     else mret tt) (fun r => r) w) as Hother.
  { intros e'. apply runs_ask. destruct (suppressed _ m); [apply runs_ret|].
    rewrite andb_false_r, orb_true_r. apply Hsend. }
  destruct (base_of_node w) as [be|]; unfold send_effect; cycle 1.
  { destruct (ep_unspecified e); [apply runs_ret|]. apply Hother. }
  destruct (ep_unspecified e || bool_decide (e = be)); [|apply Hother].
  apply runs_ask. unfold report_effect.
  destruct (suppressed (low_power_mode_ (app_ w)) m) eqn:Hs.
  { apply (runs_ext _ _ _ _ (runs_ret w)). by rewrite Hs, andb_false_r. }
  rewrite andb_true_r. destruct (bool_decide (session_state_ (app_ w) = DISCONNECTED)) eqn:Hd.
  { apply (runs_ext _ _ _ _ (runs_store m be w)). by rewrite Hd, Hs. }
  rewrite orb_false_r, andb_false_r.
  apply (runs_ext _ (fun r => r)); [|by rewrite Hd].
  destruct (bool_decide (session_state_ (app_ w) = ACTIVE)); [apply runs_manager_send|apply runs_ret].
Qed.
End Messages.
