(* ===== verification/RoverSession.v ===== *)
(** * Sessions of the rover

    The invariant of every run, with what is scheduled next in every session state;
    the session as an abstract state machine; the handshake and its retries, the loss
    of the base and the recovery from it. *)
From S2P Require Import Prelude Configs Crc8 LumenHeader LumenPacket Asio ReliabilityManager.
From S2P Require Import UdpServer UdpClient Libraries Messages LumenProtocol ProtocolFacts Framing.
From S2P Require Import Delivery MessageManager Doubles BaseStation BaseSession Discovery Rover.
From S2P Require Import RoverEffects.

(** ** The invariant *)

Section Invariant.
Context {A : AsioAddress} {J : Json} {C : Chrono}.
Implicit Types (w : World Rover) (r : Rover).

(** What is scheduled in a session state, so that the rover goes on: the next
    attempt of the handshake unless all were made, the next probe of a lost base,
    the periodic reports of a session. *)
Definition scheduled r : Prop :=
  match session_state_ r with
  | INACTIVE => True
  | HANDSHAKE_INIT =>
    pending (handshake_timer_ r) = true \/ handshake_retry_count_ r = MAX_HANDSHAKE_RETRIES
  | HANDSHAKE_ACCEPT =>
    pending (handshake_timer_ r) = true \/ PostArmHandshake ∈ posted_ r \/
    handshake_retry_count_ r = MAX_HANDSHAKE_RETRIES
  | ACTIVE =>
    pending (status_timer_ r) = true /\ pending (position_telemetry_timer_ r) = true
  | DISCONNECTED => pending (probe_timer_ r) = true \/ PostStartProbing ∈ posted_ r
  end.

(** Messages are stored for the base only, and only while its session is lost. *)
Record rover_ok (be : endpoint) r : Prop := {
  ok_retries : 0 <= handshake_retry_count_ r <= MAX_HANDSHAKE_RETRIES;
  ok_stored : Forall (fun sp : StoredPacketData => sp.2 = be) (stored_packets_ r);
  ok_empty : session_state_ r = ACTIVE \/ session_state_ r = INACTIVE -> stored_packets_ r = [];
  ok_scheduled : scheduled r;
}.

Definition client_of (be : endpoint) w : Prop :=
  exists c, transport_ w = Client c /\ base_endpoint_ c = be.

Definition rover_inv (be : endpoint) w : Prop := client_of be w /\ rover_ok be (app_ w).

#[global] Instance rover_inv_stable be : Stable (rover_inv be).
Proof. intros w w' [Ht _ Ha] [Hc Hr]. split; [by unfold client_of; rewrite Ht|by rewrite Ha]. Qed.

Lemma rover_inv_same be w w' : same_but_sending w w' -> rover_inv be w -> rover_inv be w'.
Proof. intros []. by apply rover_inv_stable. Qed.

Context (be : endpoint).

Lemma base_of_client w : client_of be w -> base_of_node w = if ep_unspecified be then None else Some be.
Proof. intros (c & Hc & <-). unfold base_of_node. by rewrite Hc. Qed.

(** A handler preserves the invariant when its function does. *)
Lemma runs_inv m f : (forall w, runs m (f w) w) ->
  (forall w r, rover_inv be w -> rover_ok be r -> rover_ok be (f w r)) -> Preserves (rover_inv be) m.
Proof.
  intros Hm Hf. apply (runs_preserves _ m f); [apply rover_inv_same| |by intros].
  intros w Hw. split; [exact (proj1 Hw)|]. by apply (Hf w), Hw.
Qed.

Lemma on_rover_inv f : (forall r, rover_ok be r -> rover_ok be (f r)) -> Preserves (rover_inv be) (on_rover f).
Proof. intros Hf. apply (runs_inv _ (fun _ => f)); [apply runs_on_rover|intros w r _; apply Hf]. Qed.

(** Changes of the rest of the rover. *)
Lemma rover_ok_other r r' :
  handshake_retry_count_ r' = handshake_retry_count_ r -> stored_packets_ r' = stored_packets_ r ->
  session_state_ r' = session_state_ r -> handshake_timer_ r' = handshake_timer_ r ->
  probe_timer_ r' = probe_timer_ r -> status_timer_ r' = status_timer_ r ->
  position_telemetry_timer_ r' = position_telemetry_timer_ r -> posted_ r ⊆ posted_ r' ->
  rover_ok be r -> rover_ok be r'.
Proof.
  intros E1 E2 E3 E4 E5 E6 E7 E8 [H1 H2 H3 H4]. split; rewrite ?E1, ?E2, ?E3; try done.
  unfold scheduled in *. rewrite E1, E3, E4, E5, E6, E7.
  pose proof (E8 PostArmHandshake). pose proof (E8 PostStartProbing).
  destruct (session_state_ r); tauto.
Qed.

#[local] Hint Extern 3 (Preserves (rover_inv _) (on_rover _)) =>
  (apply on_rover_inv; intros ?; apply rover_ok_other; done) : typeclass_instances.

Lemma post_rover_inv p : Preserves (rover_inv be) (post p).
Proof. apply on_rover_inv. intros r. apply rover_ok_other; try done. set_solver. Qed.

(** ** The functions preserve it *)

Lemma report_ok m b r : (forall b', b = Some b' -> b' = be) -> rover_ok be r -> rover_ok be (report_effect m b r).
Proof.
  intros Hb Hr. unfold report_effect. destruct b as [b|]; [|done]. rewrite (Hb b) by done.
  destruct (bool_decide_reflect (session_state_ r = DISCONNECTED)) as [Hd|]; [|done].
  destruct (suppressed _ m); [done|]. cbn [negb andb]. destruct Hr as [H1 H2 H3 H4].
  split; try done; cbn; [|by rewrite Hd; intros []].
  apply Forall_app. split; [done|]. unfold stored_as. destruct (serialise m); [|done]. by constructor.
Qed.

Lemma base_of_inv w b : rover_inv be w -> base_of_node w = Some b -> b = be.
Proof. intros [Hc _]. rewrite base_of_client by done. destruct (ep_unspecified be); naive_solver. Qed.

Ltac cases_ok := 
  intros [H1 H2 H3 H4]; split; cbn in *; try done; try (intros [?|?]; done); unfold scheduled in *; cbn in *.

Lemma init_ok now r : rover_ok be r -> rover_ok be (init_effect now r).
Proof. unfold init_effect. destruct (session_state_ r) eqn:Hst; [|done..|]; cases_ok; auto. Qed.

Lemma disconnect_ok r : rover_ok be r -> rover_ok be (disconnect_effect r).
Proof.
  unfold disconnect_effect. destruct (session_state_ r) eqn:Hst; try done. cases_ok.
  right. apply elem_of_app. right. by right; left.
Qed.

Lemma handshake_ok now r : rover_ok be r -> rover_ok be (handshake_effect now (disarm HandshakeTimer r)).
Proof.
  destruct r as [mm ah dh ts th tp tb tm st ? ? ? n ? ? ? ? sps ps]. unfold handshake_effect. cbn.
  destruct st; cbn; [cases_ok| | |cases_ok..].
  all: destruct (Z.ltb_spec n MAX_HANDSHAKE_RETRIES); cases_ok; auto.
  all: lia || (right; lia) || (right; right; lia).
Qed.

Lemma accept_ok r : rover_ok be r -> rover_ok be (accept_effect r).
Proof.
  unfold accept_effect. destruct (session_state_ r) eqn:Hst; try done; cases_ok; right; left;
    apply elem_of_app; right; by left.
Qed.

Lemma activated_ok now r : rover_ok be (activated now r).
Proof.
  assert (session_state_ (activated now r) = ACTIVE) as Hst by reflexivity.
  assert (handshake_retry_count_ (activated now r) = 0) as Hn by reflexivity.
  assert (stored_packets_ (activated now r) = []) as Hs by reflexivity.
  split; rewrite ?Hn, ?Hs; [unfold MAX_HANDSHAKE_RETRIES; lia|constructor|done|].
  unfold scheduled. rewrite Hst. split; reflexivity.
Qed.

Lemma established_ok now r : rover_ok be r -> rover_ok be (established_effect now r).
Proof.
  intros Hr. unfold established_effect. destruct (session_state_ r); [apply activated_ok..|exact Hr|].
  apply activated_ok.
Qed.

Lemma probe_ok r : rover_ok be r -> rover_ok be (probe_effect (disarm ProbeTimer r)).
Proof.
  unfold probe_effect. cbn [disarm session_state_ set_probe_timer].
  destruct (session_state_ r) eqn:Hst; cases_ok; rewrite ?Hst in *; auto.
Qed.

Lemma timeout_ok b e r : rover_ok be r -> rover_ok be (timeout_effect b e r).
Proof. intros Hr. unfold timeout_effect. destruct (bool_decide _); [by apply disconnect_ok|done]. Qed.

(** The two periodic reports; the wait that completed does not matter. *)
Lemma rearm_status_ok now r : rover_ok be r -> rover_ok be (rearm_status now r).
Proof. cases_ok. destruct (session_state_ r); try done. split; [done|apply H4]. Qed.

Lemma rearm_position_ok now r : rover_ok be r -> rover_ok be (rearm_position now r).
Proof. cases_ok. destruct (session_state_ r); try done. split; [apply H4|done]. Qed.

Lemma rearm_status_disarm now m b r :
  rearm_status now (report_effect m b (disarm StatusTimer r)) = rearm_status now (report_effect m b r).
Proof.
  destruct r. unfold report_effect. destruct b; [|done]. cbn. by destruct (bool_decide _ && _).
Qed.

Lemma rearm_position_disarm now m b r :
  rearm_position now (report_effect m b (disarm PositionTimer r)) =
  rearm_position now (report_effect m b r).
Proof.
  destruct r. unfold report_effect. destruct b; [|done]. cbn. by destruct (bool_decide _ && _).
Qed.

(** ** The operations preserve it *)

#[local] Existing Instance post_rover_inv.

#[local] Hint Extern 3 (Preserves (rover_inv _) (on_rover _)) =>
  (apply on_rover_inv; intros ?; apply rover_ok_other; done) : typeclass_instances.

#[global] Instance base_endpoint_inv : Preserves (rover_inv be) base_endpoint.
Proof. intros w Hw. unfold run_state. by rewrite base_endpoint_run. Qed.

#[global] Instance get_base_inv : Preserves (rover_inv be) Rover.get_base_endpoint.
Proof.
  unfold Rover.get_base_endpoint. apply _.
Qed.

#[global] Instance initiate_inv : Preserves (rover_inv be) initiate_handshake.
Proof. apply (runs_inv _ _ runs_initiate). intros w r _. apply init_ok. Qed.
#[global] Instance packet_timeout_inv e : Preserves (rover_inv be) (handle_packet_timeout e).
Proof. apply (runs_inv _ _ (runs_packet_timeout e)). intros w r _. apply timeout_ok. Qed.
#[global] Instance accept_inv : Preserves (rover_inv be) handle_session_accept.
Proof. apply (runs_inv _ _ runs_accept). intros w r _. apply accept_ok. Qed.
#[global] Instance established_inv : Preserves (rover_inv be) handle_session_established.
Proof. apply (runs_inv _ _ runs_established). intros w r _. apply established_ok. Qed.
#[global] Instance rover_command_inv c p : Preserves (rover_inv be) (Rover.send_command c p).
Proof. by apply (runs_inv _ _ (runs_command c p)). Qed.
#[global] Instance telemetry_inv readings : Preserves (rover_inv be) (send_telemetry readings).
Proof.
  apply (runs_inv _ _ (runs_telemetry readings)). intros w r Hw. apply report_ok.
  intros b. by apply base_of_inv.
Qed.
#[global] Instance status_inv : Preserves (rover_inv be) send_status.
Proof.
  apply (runs_inv _ _ runs_status). intros w r Hw. apply report_ok. intros b. by apply base_of_inv.
Qed.
#[global] Instance rover_send_inv m e : Preserves (rover_inv be) (Rover.send_message m e).
Proof.
  apply (runs_inv _ _ (runs_send_message m e)). intros w r Hw Hr. unfold send_effect.
  destruct (base_of_node w) as [b|] eqn:Hb; [|done]. destruct (_ || _); [|done].
  apply report_ok; [|done]. intros b' [= <-]. by apply (base_of_inv w).
Qed.
#[global] Instance manager_send_inv m e : Preserves (rover_inv be) (MessageManager.send_message m e).
Proof. by apply (runs_inv _ _ (runs_manager_send m e)). Qed.
#[global] Instance manager_send_raw_inv m e : Preserves (rover_inv be) (MessageManager.send_raw_message m e).
Proof. by apply (runs_inv _ _ (runs_manager_send_raw m e)). Qed.
#[global] Instance rover_send_raw_inv m e : Preserves (rover_inv be) (Rover.send_raw_message m e).
Proof. unfold Rover.send_raw_message, is_low_power_mode, ask_rover. apply _. Qed.
#[global] Instance position_timer_inv : Preserves (rover_inv be) handle_position_telemetry_timer.
Proof.
  apply (runs_inv _ _ runs_position_timer). intros w r Hw Hr. apply rearm_position_ok, report_ok; [|done].
  intros b. by apply base_of_inv.
Qed.

(** A timer and its handler. *)
Lemma runs_timer t m f w :
  runs m f (set_app (disarm t (app_ w)) w) -> runs (on_rover (disarm t) ;; m) (fun r => f (disarm t r)) w.
Proof. intros (w' & H & S). by exists w'. Qed.

#[global] Instance timer_inv t error : error <> OtherError -> Preserves (rover_inv be) (timer_completed t error).
Proof.
  intros He. unfold timer_completed. destruct error; [|apply _|done].
  rewrite bool_decide_true, bool_decide_false by done. cbn [when negb].
  unfold timer_handler. destruct t.
  - apply (runs_inv _ _ (fun w => runs_timer StatusTimer _ _ w (runs_status_timer _))).
    intros w r Hw Hr. rewrite rearm_status_disarm. apply rearm_status_ok, report_ok; [|done].
    intros b Hb. by apply (base_of_inv w).
  - apply (runs_inv _ _ (fun w => runs_timer HandshakeTimer _ _ w (runs_handshake_timer _))).
    intros w r _. apply handshake_ok.
  - apply (runs_inv _ _ (fun w => runs_timer PositionTimer _ _ w (runs_position_timer _))).
    intros w r Hw Hr. rewrite rearm_position_disarm. apply rearm_position_ok, report_ok; [|done].
    intros b Hb. by apply (base_of_inv w).
  - apply (runs_inv _ _ (fun w => runs_timer ProbeTimer _ _ w (runs_probe _))).
    intros w r _. apply probe_ok.
  - unfold handle_movement_timer, update_current_position, ask_rover, disarm. cbv zeta. apply _.
Qed.

#[global] Instance route_rover_inv m e : Preserves (rover_inv be) (Rover.route_message m e).
Proof.
  unfold Rover.route_message, Rover.handle_internal_command, print_command, handle_set_low_power,
    handle_set_target, handle_discovery_command, Rover.route_application, is_low_power_mode, ask_rover.
  cbv zeta. apply _.
Qed.

#[global] Instance rover_datagram_inv data e : Preserves (rover_inv be) (Rover.on_datagram data e).
Proof. unfold Rover.on_datagram. apply _. Qed.

Lemma client_of_set c w : base_endpoint_ c = base_endpoint_ (node_client w) ->
  client_of be w -> client_of be (set_node_client c w).
Proof.
  intros Hc (c' & Ht & Hbe). unfold set_node_client, node_client in *. rewrite Ht in *.
  exists c. split; [done|]. by rewrite Hc.
Qed.

Lemma set_client_inv c w : same_socket (node_client w) c ->
  rover_inv be w -> rover_inv be (set_node_client c w).
Proof.
  intros [Hc _] [Hw Hr]. split; [by apply client_of_set|].
  unfold set_node_client. by destruct (transport_ w).
Qed.

#[global] Instance client_received_inv error data sender :
  Preserves (rover_inv be) (client_received error data sender).
Proof.
  unfold client_received. apply preserves_bind; [apply _|]. intros now.
  apply handle_receive_preserves; [apply set_client_inv|apply _].
Qed.

#[global] Instance client_retry_inv error : Preserves (rover_inv be) (client_retry error).
Proof. apply retry_timer_completed_preserves, set_client_inv. Qed.

(** What was posted leaves the queue as it is run. *)
Lemma pop_ok r p rest : posted_ r = p :: rest -> rover_ok be r ->
  p <> PostArmHandshake -> p <> PostStartProbing -> rover_ok be (set_posted rest r).
Proof.
  intros Hp [H1 H2 H3 H4] Hn1 Hn2. split; try done. unfold scheduled in *. cbn. rewrite Hp in H4.
  destruct (session_state_ r); try done; rewrite elem_of_cons in H4; intuition congruence.
Qed.

Lemma pop_handshake_ok now r rest : posted_ r = PostArmHandshake :: rest -> rover_ok be r ->
  rover_ok be (rearm_handshake now (set_posted rest r)).
Proof.
  intros Hp [H1 H2 H3 H4]. split; try done. unfold scheduled in *. cbn. rewrite Hp in H4.
  destruct (session_state_ r); auto. rewrite elem_of_cons in H4. intuition congruence.
Qed.

Lemma pop_probing_ok t r rest : posted_ r = PostStartProbing :: rest -> rover_ok be r ->
  rover_ok be (set_probe_timer (armed t (probe_timer_ r)) (set_posted rest r)).
Proof.
  intros Hp [H1 H2 H3 H4]. split; try done. unfold scheduled in *. cbn. rewrite Hp in H4.
  destruct (session_state_ r); auto. rewrite elem_of_cons in H4. intuition congruence.
Qed.

Lemma run_posted_cons w p rest : posted_ (app_ w) = p :: rest ->
  run_state run_posted w = run_state (run_handler p) (set_app (set_posted rest (app_ w)) w).
Proof.
  intros Hp. unfold run_state, run_posted. rewrite run_bind. unfold ask_rover.
  rewrite run_gets, Hp, run_bind. unfold on_rover at 1. rewrite run_modify. cbv iota. rewrite run_bind.
  by destruct (run_handler p _) as [[] ?].
Qed.

#[global] Instance run_posted_inv : Preserves (rover_inv be) run_posted.
Proof.
  intros w Hw. destruct (posted_ (app_ w)) as [|p rest] eqn:Hp.
  { unfold run_state, run_posted, ask_rover. by rewrite run_bind, run_gets, Hp. }
  rewrite (run_posted_cons w p rest Hp). destruct Hw as [Hc Hr].
  set (w0 := set_app (set_posted rest (app_ w)) w).
  assert (p <> PostArmHandshake -> p <> PostStartProbing -> rover_inv be w0) as Hpop.
  { intros. split; [exact Hc|]. by apply (pop_ok _ p). }
  destruct p; try specialize (Hpop ltac:(done) ltac:(done)).
  - exact Hpop.
  - exact Hpop.
  - exact (packet_timeout_inv recipient w0 Hpop).
  - exact (reset_sequence_number_stable (rover_inv be) w0 Hpop).
  - split; [exact Hc|]. exact (pop_probing_ok (steady_now w) _ rest Hp Hr).
  - split; [exact Hc|]. exact (pop_handshake_ok (steady_now w) _ rest Hp Hr).
Qed.

(** *** Starting and stopping *)

Lemma on_client_client f : (forall c, base_endpoint_ (f c) = base_endpoint_ c) ->
  forall w, client_of be w -> client_of be (run_state (on_client f) w).
Proof.
  intros Hf w (c & Ht & Hbe). unfold run_state, on_client. cbn. rewrite Ht. exists (f c).
  by rewrite Hf.
Qed.

Lemma start_receive_base c : base_endpoint_ (start_receive c) = base_endpoint_ c.
Proof. unfold start_receive. destruct (UdpClient.running_ c); [done|]. by rewrite do_receive_base. Qed.

Lemma stop_receive_base c : base_endpoint_ (stop_receive c) = base_endpoint_ c.
Proof. unfold stop_receive. by destruct (UdpClient.running_ c). Qed.

Lemma on_manager_rover_inv f : Preserves (rover_inv be) (on_manager (U:=Rover) f).
Proof.
  apply preserves_modify. intros w [Hc Hr]. split; [exact Hc|].
  by apply (rover_ok_other (app_ w)).
Qed.
#[local] Existing Instance on_manager_rover_inv.

#[global] Instance rover_start_inv : Preserves (rover_inv be) Rover.start.
Proof.
  assert (Preserves (rover_inv be) (on_client start_receive)) as Hcl.
  { intros w [Hc Hr]. split; [by apply (on_client_client _ start_receive_base)|].
    unfold run_state, on_client. cbn. by destruct (transport_ w). }
  assert (Preserves (rover_inv be) (on_protocol LumenProtocol.set_message_callback)) as Hcb.
  { apply preserves_modify. by intros w. }
  unfold Rover.start, MessageManager.start, MessageManager.set_message_callback, ask_manager,
    on_timeout. apply _.
Qed.

(** What holds while the rover stops, whatever its session. *)
Definition stopping w : Prop :=
  client_of be w /\ 0 <= handshake_retry_count_ (app_ w) <= MAX_HANDSHAKE_RETRIES.

#[global] Instance stopping_stable : Stable stopping.
Proof. intros w w' [Ht _ Ha] [Hc Hr]. split; [by unfold client_of; rewrite Ht|by rewrite Ha]. Qed.

#[global] Instance rover_stop_inv : Preserves (rover_inv be) Rover.stop.
Proof.
  intros w [Hc Hr]. assert (stopping w) as Hw by (split; [done|apply Hr]). clear Hc Hr.
  assert (forall f, (forall r, handshake_retry_count_ (f r) = handshake_retry_count_ r) ->
    Preserves stopping (on_rover f)) as Hon.
  { intros f Hf. apply preserves_modify. intros w' [Hc Hr]. split; [done|]. cbn. by rewrite Hf. }
  assert (Preserves stopping (on_client stop_receive)) as Hcl.
  { intros w' [Hc Hr]. split; [by apply on_client_client; [apply stop_receive_base|]|].
    unfold run_state, on_client. cbn. by destruct (transport_ w'). }
  assert (Preserves stopping MessageManager.stop) as Hm.
  { unfold MessageManager.stop, ask_manager. apply preserves_bind; [apply _|]. intros [].
    - cbn [negb]. apply preserves_modify. by intros w'.
    - apply _. }
  unfold Rover.stop. do 8 (rewrite run_state_then by apply _).
  match goal with |- rover_inv _ (run_state _ ?w1) => assert (stopping w1) as [Hc Hr] end.
  { apply Hm, (stop_stable stopping), Hcl. do 5 (apply Hon; [done|]). exact Hw. }
  match goal with |- rover_inv _ (run_state _ ?w1) => generalize dependent w1 end.
  intros w1 Hc Hr. split; [exact Hc|]. split; cbn; try done.
Qed.
End Invariant.

(** ** Runs *)

Section Runs.
Context {A : AsioAddress} {J : Json} {C : Chrono}.
Implicit Types w : World Rover.

(** What happens to a rover: calls of its public functions, completions of its
    asynchronous operations, the clocks moving, and the next posted handler. *)
Inductive rover_event :=
| RoverStart
| RoverStop
| RoverReceive (error : error_code) (data : bytes) (sender : endpoint)
| RoverReceiveRetry (error : error_code)
| RoverRetransmitTimer (error : bool)
| RoverCleanupTimer (error : bool)
| RoverTimer (t : rover_timer) (aborted : bool)
| RoverPosted
| RoverSendTelemetry (readings : gmap string double)
| RoverSendStatus
| RoverSendPosition
| RoverUpdateStatus (level : StatusLevel) (description : string)
| RoverUpdatePosition (lat lon : double)
| RoverSendMessage (message : Message) (recipient : endpoint)
| RoverSendRawMessage (message : Message) (recipient : endpoint)
| RoverSendCommand (command params : string)
| RoverScan (make_address_v4 : string -> option address) (discovery_port : Z) (message : string)
| RoverSetApplicationHandler
| RoverSetDiscoveryHandler
| RoverClock (steady system : Z).

Definition rover_exec (ev : rover_event) : M (World Rover) unit :=
  match ev with
  | RoverStart => Rover.start
  | RoverStop => Rover.stop
  | RoverReceive error data sender => client_received error data sender
  | RoverReceiveRetry error => client_retry error
  | RoverRetransmitTimer error => retransmit_timer_event on_timeout error
  | RoverCleanupTimer error => cleanup_timer_event error
  | RoverTimer t aborted => timer_completed t (if aborted then OperationAborted else NoError)
  | RoverPosted => run_posted ;; mret tt
  | RoverSendTelemetry readings => send_telemetry readings
  | RoverSendStatus => send_status
  | RoverSendPosition => handle_position_telemetry_timer
  | RoverUpdateStatus level description => update_status level description
  | RoverUpdatePosition lat lon => update_current_position lat lon
  | RoverSendMessage message recipient => Rover.send_message message recipient
  | RoverSendRawMessage message recipient => Rover.send_raw_message message recipient
  | RoverSendCommand command params => Rover.send_command command params
  | RoverScan make port message => Rover.scan_for_rovers make port message
  | RoverSetApplicationHandler => register_application_handler
  | RoverSetDiscoveryHandler => register_discovery_handler
  | RoverClock steady system =>
    modify (fun w => mkWorld (transport_ w) (protocol_ w) (sent_ w) steady system (app_ w))
  end.

(** A run: an exception that leaves one handler does not undo the others. *)
Definition rover_run (evs : list rover_event) (w : World Rover) : World Rover :=
  foldl (fun w ev => run_state (rover_exec ev) w) w evs.

Lemma rover_exec_inv be ev : Preserves (rover_inv be) (rover_exec ev).
Proof.
  destruct ev; cbn [rover_exec]; try apply _.
  - unfold on_timeout. apply retransmit_timer_event_stable; [apply _|]. intros e. apply post_rover_inv.
  - by apply timer_inv; destruct aborted.
  - unfold update_status. apply on_rover_inv. intros r. by apply rover_ok_other.
  - unfold update_current_position. apply on_rover_inv. intros r. by apply rover_ok_other.
  - apply on_rover_inv. intros r. by apply rover_ok_other.
  - apply on_rover_inv. intros r. by apply rover_ok_other.
Qed.

Lemma rover_run_inv be evs w : rover_inv be w -> rover_inv be (rover_run evs w).
Proof.
  revert w. induction evs as [|ev evs IH]; intros w Hw; [done|]. apply IH. by apply rover_exec_inv.
Qed.

(** ** The abstract session *)

(** What the session of a rover depends on, and how it moves. *)
Inductive signal := Started | Accepted | Established | BaseTimedOut | Stopped.

Definition next_session (sg : signal) (st : SessionState) : SessionState :=
  match sg, st with
  | Started, (INACTIVE | DISCONNECTED) => HANDSHAKE_INIT
  | Accepted, (HANDSHAKE_INIT | DISCONNECTED) => HANDSHAKE_ACCEPT
  | Established, _ => ACTIVE
  | BaseTimedOut, ACTIVE => DISCONNECTED
  | Stopped, _ => INACTIVE
  | _, _ => st
  end.

(** The signal a message is, to a rover with its identifier and its base. *)
Definition signal_of (rover_id : string) (base : option endpoint) (m : Message) (e : endpoint)
    : option signal :=
  match m with
  | CommandMessage command _ sender _ =>
    if bool_decide (sender = rover_id) || negb (bool_decide (Some e = base)) then None
    else if bool_decide (command = "SESSION_ACCEPT"%string) then Some Accepted
    else if bool_decide (command = "SESSION_ESTABLISHED"%string) then Some Established
    else None
  | _ => None
  end.

Definition in_session (st : SessionState) w : Prop := session_state_ (app_ w) = st.

#[global] Instance in_session_stable st : Stable (in_session st).
Proof. intros w w' [_ _ Ha]. unfold in_session. by rewrite Ha. Qed.

#[local] Hint Extern 3 (Preserves (in_session _) (on_rover _)) =>
  (apply preserves_modify; let H := fresh in intros ? H; exact H) : typeclass_instances.

(** Handlers whose function keeps the session. *)
Lemma runs_in_session st m f : (forall w, runs m (f w) w) ->
  (forall w r, session_state_ (f w r) = session_state_ r) -> Preserves (in_session st) m.
Proof.
  intros Hm Hf. apply (runs_preserves _ m f); [| |by intros].
  - intros w w' S Hw. unfold in_session. by rewrite (same_app _ _ S).
  - intros w Hw. unfold in_session. cbn. by rewrite Hf.
Qed.

Lemma report_session m b r : session_state_ (report_effect m b r) = session_state_ r.
Proof. unfold report_effect. destruct b; [|done]. by destruct (bool_decide _ && _). Qed.

Lemma send_session m e b r : session_state_ (send_effect m e b r) = session_state_ r.
Proof. unfold send_effect. destruct b; [|done]. destruct (_ || _); [apply report_session|done]. Qed.

(** The session after a handler. *)
Lemma runs_session m f w : runs m f w -> session_state_ (app_ (run_state m w)) = session_state_ (f (app_ w)).
Proof. intros (w' & H & S). unfold run_state. rewrite H. cbn [snd]. by rewrite (same_app _ _ S). Qed.

Section Keeps.
Context (st : SessionState).

#[local] Instance command_session c p : Preserves (in_session st) (Rover.send_command c p).
Proof. by apply (runs_in_session _ _ _ (runs_command c p)). Qed.
#[local] Instance message_session m e : Preserves (in_session st) (Rover.send_message m e).
Proof. apply (runs_in_session _ _ _ (runs_send_message m e)). intros w r. apply send_session. Qed.
#[local] Instance raw_session m e : Preserves (in_session st) (MessageManager.send_raw_message m e).
Proof. by apply (runs_in_session _ _ _ (runs_manager_send_raw m e)). Qed.
#[local] Instance base_session : Preserves (in_session st) base_endpoint.
Proof. intros w Hw. unfold run_state. by rewrite base_endpoint_run. Qed.

#[global] Instance other_command_session m c p :
  c <> "SESSION_ACCEPT"%string -> c <> "SESSION_ESTABLISHED"%string ->
  Preserves (in_session st) (Rover.handle_internal_command m c p).
Proof.
  intros H1 H2. unfold Rover.handle_internal_command. rewrite !bool_decide_false by done.
  unfold print_command, handle_set_low_power, handle_set_target, ask_rover. cbv zeta. apply _.
Qed.

#[global] Instance discovery_session c i e : Preserves (in_session st) (handle_discovery_command c i e).
Proof.
  unfold handle_discovery_command, Rover.send_raw_message, Rover.get_base_endpoint, is_low_power_mode,
    ask_rover, post. cbv zeta. apply _.
Qed.

#[global] Instance application_session m e : Preserves (in_session st) (Rover.route_application m e).
Proof. unfold Rover.route_application, ask_rover, post. apply _. Qed.

#[global] Instance timer_session t error : Preserves (in_session st) (timer_completed t error).
Proof.
  unfold timer_completed. apply preserves_bind; [apply preserves_when; destruct t; apply _|intros _].
  apply preserves_when. unfold timer_handler. destruct t.
  - apply (runs_in_session _ _ _ runs_status_timer). intros w r. apply report_session.
  - apply (runs_in_session _ _ _ runs_handshake_timer). intros w r. unfold handshake_effect.
    destruct (session_state_ r) eqn:E; try done; by destruct (_ <? _).
  - apply (runs_in_session _ _ _ runs_position_timer). intros w r. apply report_session.
  - apply (runs_in_session _ _ _ runs_probe). intros w r. unfold probe_effect.
    by destruct (session_state_ r) eqn:E.
  - unfold handle_movement_timer, Rover.get_base_endpoint, update_current_position, ask_rover.
    cbv zeta. apply _.
Qed.

(** The part of [start] before the handshake, and all of [stop] but its end. *)
#[local] Hint Extern 3 (Preserves (in_session _) (on_client _)) =>
  (apply preserves_modify; let w0 := fresh in let H := fresh in intros w0 H; unfold in_session in *;
   by destruct (transport_ w0)) : typeclass_instances.
#[local] Hint Extern 3 (Preserves (in_session _) (on_manager _)) =>
  (apply preserves_modify; let H := fresh in intros ? H; exact H) : typeclass_instances.
#[local] Hint Extern 3 (Preserves (in_session _) (on_protocol _)) =>
  (apply preserves_modify; let H := fresh in intros ? H; exact H) : typeclass_instances.

Lemma start_session w : session_state_ (app_ w) = st ->
  session_state_ (app_ (run_state Rover.start w)) = next_session Started st.
Proof.
  intros Hw. unfold Rover.start. rewrite run_state_then by apply _.
  rewrite run_state_then by (unfold on_timeout, post, on_rover; apply _).
  do 3 (rewrite run_state_then by apply _).
  assert (Preserves (in_session st) MessageManager.set_message_callback) as P1.
  { unfold MessageManager.set_message_callback. apply _. }
  assert (Preserves (in_session st) (LumenProtocol.start on_timeout)) as P2.
  { apply start_stable; [apply _|]. intros e. unfold on_timeout, post. apply _. }
  assert (Preserves (in_session st) MessageManager.start) as P3.
  { unfold MessageManager.start, ask_manager. apply _. }
  assert (Preserves (in_session st) (on_client start_receive)) as P4 by apply _.
  match goal with |- context [run_state initiate_handshake ?w1] => assert (in_session st w1) as H end.
  { by apply P1, P4, (on_rm_stable (in_session st)), P2, P3. }
  match goal with |- context [run_state initiate_handshake ?w1] => generalize dependent w1 end.
  intros w1 H. rewrite (runs_session _ _ _ (runs_initiate w1)). unfold init_effect.
  unfold in_session in H. rewrite H. by destruct st.
Qed.
End Keeps.
End Runs.

(** ** Theorems *)

Section Theorems.
Context {A : AsioAddress} {J : Json} {C : Chrono}.
Implicit Types w : World Rover.

(** C10: Whatever happens to a rover, in any order, it never stalls silently: in every
    session state what comes next is scheduled.  While a handshake runs the next
    attempt is (or all attempts were made), while the base is lost the next probe is,
    and in a session the periodic reports are.  Messages are stored for the base only,
    and are kept only while its session is lost. *)
Theorem rover_never_stalls evs be addresses host id steady system w0 :
  make_Rover (Ok (be :: addresses)) host id steady system = Ok w0 ->
  rover_inv be (rover_run evs w0).
Proof.
  intros [= <-]. apply rover_run_inv. split; [by eexists|].
  split; cbn; [unfold MAX_HANDSHAKE_RETRIES; lia|constructor|done|done].
Qed.

Lemma stop_session w : session_state_ (app_ (run_state Rover.stop w)) = INACTIVE.
Proof. unfold Rover.stop. do 8 (rewrite run_state_then by apply _). done. Qed.

(** Session commands that do not come from the base, and messages of the rover's own. *)
Lemma route_ignored c p i t e w :
  Rover.session_command c = true -> i = rover_id_ (app_ w) \/ Some e <> base_of_node w ->
  Rover.route_message (CommandMessage c p i t) e w = (Ok tt, w).
Proof.
  intros Hc Hi. unfold Rover.route_message, ask_rover. rewrite run_bind, run_gets. cbn [get_sender].
  destruct (bool_decide_reflect (i = rover_id_ (app_ w))) as [|Hne]; [done|].
  destruct Hi as [?|He]; [done|]. rewrite run_bind, base_endpoint_run, Hc.
  destruct (base_of_node w) as [be|]; [|done]. rewrite bool_decide_false by congruence. done.
Qed.

Lemma route_from_base m e w c p i t :
  m = CommandMessage c p i t -> Rover.session_command c = true ->
  i <> rover_id_ (app_ w) -> base_of_node w = Some e ->
  Rover.route_message m e w = Rover.handle_internal_command m c p w.
Proof.
  intros -> Hc Hi He. unfold Rover.route_message, ask_rover. rewrite run_bind, run_gets. cbn [get_sender].
  rewrite bool_decide_false by done. rewrite run_bind, base_endpoint_run, Hc, He.
  by rewrite bool_decide_true.
Qed.

(** Messages that are not for the session. *)
Lemma route_session_other m e w :
  (forall c p i t, m = CommandMessage c p i t ->
     c <> "SESSION_ACCEPT"%string /\ c <> "SESSION_ESTABLISHED"%string) ->
  session_state_ (app_ (run_state (Rover.route_message m e) w)) = session_state_ (app_ w).
Proof.
  intros Hm. enough (Preserves (in_session (session_state_ (app_ w))) (Rover.route_message m e)) as HP
    by (by apply HP).
  unfold Rover.route_message, is_low_power_mode, ask_rover.
  apply preserves_bind; [apply _|intros rid]. destruct (bool_decide _); [apply _|].
  apply preserves_bind; [apply base_session|intros b]. destruct m as [|c p i t| |]; try apply _.
  destruct (Hm c p i t eq_refl) as [H1 H2].
  pose proof (other_command_session (session_state_ (app_ w)) (CommandMessage c p i t) c p H1 H2).
  cbv zeta. apply _.
Qed.

(** C15: The session of a rover refines the abstract one: the acceptance and the
    establishment move it when they come from the base and not from the rover itself,
    a packet given up on moves it when it was for the base, starting and stopping move
    it, and no timer does.  A session command from anyone else changes nothing of the
    state at all. *)
Theorem rover_session_refines w :
  let st := session_state_ (app_ w) in
  let after m := session_state_ (app_ (run_state m w)) in
  (forall m e, after (Rover.route_message m e) =
    from_option (fun sg => next_session sg st) st
      (signal_of (rover_id_ (app_ w)) (base_of_node w) m e)) /\
  (forall c p i t e, Rover.session_command c = true ->
    i = rover_id_ (app_ w) \/ Some e <> base_of_node w ->
    Rover.route_message (CommandMessage c p i t) e w = (Ok tt, w)) /\
  (forall e, after (handle_packet_timeout e) =
    if bool_decide (Some e = base_of_node w) then next_session BaseTimedOut st else st) /\
  after Rover.start = next_session Started st /\
  after Rover.stop = next_session Stopped st /\
  (forall t error, after (timer_completed t error) = st).
Proof.
  intros st after. split_and!.
  - intros m e. unfold after.
    destruct m as [|c p i t| |]; [by apply route_session_other| |by apply route_session_other..].
    cbn [signal_of].
    destruct (bool_decide_reflect (i = rover_id_ (app_ w))) as [Hi|Hi].
    { destruct (Rover.session_command c) eqn:Hc; [unfold run_state; rewrite route_ignored by auto; done|].
      apply route_session_other. intros ? ? ? ? [= <- <- <- <-].
      split; intros ->; done. }
    destruct (bool_decide_reflect (Some e = base_of_node w)) as [He|He]; cbn [orb negb]; cycle 1.
    { destruct (Rover.session_command c) eqn:Hc; [unfold run_state; rewrite route_ignored by auto; done|].
      apply route_session_other. intros ? ? ? ? [= <- <- <- <-].
      split; intros ->; done. }
    destruct (bool_decide_reflect (c = "SESSION_ACCEPT"%string)) as [->|H1]; [|
      destruct (bool_decide_reflect (c = "SESSION_ESTABLISHED"%string)) as [->|H2]].
    + unfold run_state. rewrite (route_from_base _ e w _ _ _ _ eq_refl) by done.
      change (session_state_ (app_ (run_state handle_session_accept w)) = next_session Accepted st).
      rewrite (runs_session _ _ _ (runs_accept w)). unfold accept_effect. fold st.
      destruct st eqn:E; try reflexivity; exact E.
    + unfold run_state. rewrite (route_from_base _ e w _ _ _ _ eq_refl) by done.
      change (session_state_ (app_ (run_state handle_session_established w)) = next_session Established st).
      rewrite (runs_session _ _ _ (runs_established w)). unfold established_effect. fold st.
      destruct st eqn:E; try reflexivity; exact E.
    + apply route_session_other. by intros ? ? ? ? [= <- <- <- <-].
  - intros c p i t e. apply route_ignored.
  - intros e. unfold after. rewrite (runs_session _ _ _ (runs_packet_timeout e w)). unfold timeout_effect.
    destruct (bool_decide _); [|done]. unfold disconnect_effect. fold st. by destruct st eqn:E.
  - by apply start_session.
  - apply stop_session.
  - intros t error. by apply (timer_session st t error w).
Qed.
End Theorems.

(** ** Rovers to evaluate on *)

Module SampleRover.
Import Ipv4 SampleLibraries Sample.

(** A rover in a session state, with the messages it has stored. *)
Definition sample_rover (st : SessionState) (stored : list StoredPacketData) : Rover :=
  let tm b := mkTimer 0 b in
  mkRover (mkMessageManager "grp18-rover" true true) true true
    (tm (bool_decide (st = ACTIVE))) (tm (bool_decide (st = HANDSHAKE_INIT)))
    (tm (bool_decide (st = ACTIVE))) (tm (bool_decide (st = DISCONNECTED))) (tm false)
    st "grp18-rover" OK "System OK" 0 ∅ false None (d_zero, d_zero) stored [].

Definition rover_in (st : SessionState) : World Rover := rover_of (sample_rover st []).
End SampleRover.

Section Witnesses.
Import Ipv4 SampleLibraries Sample SampleRover.

Lemma rover_never_stalls_witness : exists w0,
  make_Rover (Ok [base_ep]) "base.local" "grp18-rover" 0 0 = Ok w0 /\
  session_state_ (app_ (rover_run [RoverStart; RoverTimer HandshakeTimer false] w0)) = HANDSHAKE_INIT /\
  rover_inv base_ep (rover_run [RoverStart; RoverTimer HandshakeTimer false] w0).
Proof.
  eexists. split; [reflexivity|]. split; [reflexivity|].
  by apply (rover_never_stalls _ base_ep [] "base.local" "grp18-rover" 0 0).
Defined.

Lemma rover_session_refines_witness :
  session_state_ (app_ (run_state (Rover.route_message
    (CommandMessage "SESSION_ACCEPT" "" "base" 0) base_ep) (rover_in DISCONNECTED))) = HANDSHAKE_ACCEPT.
Proof. by rewrite (proj1 (rover_session_refines (rover_in DISCONNECTED))). Defined.
End Witnesses.
