(* ===== verification/RoverRecovery.v ===== *)
(** * A rover that loses its base, and what it sends

    The retries of the handshake, the loss of the base and its probes, the messages
    stored meanwhile, and the silence of low power mode. *)
From S2P Require Import Prelude Configs Crc8 LumenHeader LumenPacket Asio ReliabilityManager.
From S2P Require Import UdpServer UdpClient Libraries Messages LumenProtocol ProtocolFacts Framing.
From S2P Require Import Delivery MessageManager Doubles BaseStation BaseSession Discovery Rover.
From S2P Require Import RoverEffects RoverSession.

Section Sending.
Context {A : AsioAddress} {J : Json} {C : Chrono}.
Implicit Types (w : World Rover) (r : Rover).

(** A rover whose layers run and whose base is known. *)
Record connected (be : endpoint) w : Prop := {
  connected_layers : operational w;
  connected_base : client_of be w;
  connected_known : ep_unspecified be = false;
}.

Lemma connected_reachable be w : connected be w -> reachable (transport_ w) be.
Proof. intros [_ (c & Hc & <-) Hu]. rewrite Hc. by split; [|left]. Qed.

Lemma connected_base_of be w : connected be w -> base_of_node w = Some be.
Proof. intros [_ Hc Hu]. by rewrite (base_of_client be w Hc), Hu. Qed.

(** What keeps a rover connected. *)
Lemma connected_app be r w : connected be w ->
  message_manager_ r = message_manager_ (app_ w) -> connected be (set_app r w).
Proof. intros [[H1 H2] H3 H4] Hr. split; try done. split; [|done]. cbn in *. by rewrite Hr. Qed.

Lemma connected_same be w w' : same_but_sending w w' -> connected be w -> connected be w'.
Proof.
  intros S [H1 H2 H3]. split; [by apply (operational_same w)| |done].
  unfold client_of. by rewrite (same_transport _ _ S).
Qed.

(** The packet of a command's text. *)
Definition command_packet (now seq : Z) (text : string) : LumenPacket :=
  let payload := string_to_binary text in
  make_packet (mkLumenHeader CMD HIGH seq (timestamp_of now) (u16 (vec_size payload))) payload.

(** The text of a command the rover sends at a point in time. *)
Definition command_text (c p : string) w (text : string) : Prop :=
  serialise (CommandMessage c p (rover_id_ (app_ w)) (system_now w)) = Ok text.

Lemma command_sends be c p text w :
  connected be w -> session_state_ (app_ w) <> DISCONNECTED \/ c = "SESSION_INIT"%string ->
  command_text c p w text ->
  let w' := run_state (Rover.send_command c p) w in
  sent_ w' = sent_ w ++
    [carries be (command_packet (system_now w) (current_sequence_ (protocol_ w)) text)] /\
  current_sequence_ (protocol_ w') = u8 (current_sequence_ (protocol_ w) + 1) /\
  same_but_sending w w'.
Proof.
  intros Hw Hc Ht. cbn zeta. pose proof (rover_command_run c p w) as Hrun.
  rewrite (connected_base_of be w Hw) in Hrun.
  assert (bool_decide (session_state_ (app_ w) = DISCONNECTED) &&
    negb (bool_decide (c = "SESSION_INIT"%string)) = false) as Hgo.
  { destruct Hc as [Hc|Hc]; [by rewrite bool_decide_false|].
    rewrite (bool_decide_true (c = _)) by done. apply andb_false_r. }
  rewrite Hgo in Hrun.
  destruct (manager_send_reachable _ be w text (connected_layers _ _ Hw)
    (connected_reachable _ _ Hw) Ht) as (H1 & H2 & _).
  pose proof (manager_send_same (CommandMessage c p (rover_id_ (app_ w)) (system_now w)) be w) as H3.
  unfold run_state in *. rewrite Hrun. done.
Qed.

(** Any message of the rover leaves as at most one datagram. *)
Lemma manager_sends_one m e w : exists ds,
  sent_ (run_state (MessageManager.send_message m e) w) = sent_ w ++ ds /\ (length ds <= 1)%nat.
Proof.
  assert (exists ds : list datagram, sent_ w = sent_ w ++ ds /\ (length ds <= 1)%nat) as Hnone.
  { exists []. rewrite app_nil_r. simpl. auto with arith. }
  unfold run_state, MessageManager.send_message. rewrite run_bind. unfold ask_manager. rewrite run_gets.
  destruct (MessageManager.running_ _); [|exact Hnone]. cbn [negb].
  unfold try_catch. destruct (serialise m) as [s|]; [|exact Hnone]. rewrite run_bind. cbn [of_result].
  rewrite send_message_run. destruct (LumenProtocol.running_ (protocol_ w)); [|exact Hnone]. cbn [negb].
  destruct (target_of (transport_ w) e) as [[e'|]|]; [|exact Hnone..]. cbn [snd].
  eexists. split; [by destruct (tracked (get_lumen_type m))|].
  replace (transport_ _) with (transport_ w) by (by destruct (tracked (get_lumen_type m))).
  unfold packet_datagrams, UdpServer.send_data, send_data_to. repeat case_match; simpl; auto with arith.
Qed.
End Sending.

(** ** Repeated attempts *)

Section Attempts.
Context {A : AsioAddress} {J : Json} {C : Chrono}.
Implicit Types (w : World Rover) (r : Rover).

(** The timer fires [n] times. *)
Definition fires (n : nat) (t : rover_timer) w : World Rover :=
  Nat.iter n (run_state (timer_completed t NoError)) w.

(** The first [n] packets of a repeated command, from a sequence number on. *)
Definition attempts (n : nat) (be : endpoint) (now seq : Z) (text : string) : list datagram :=
  (fun i => carries be (command_packet now (u8 (seq + Z.of_nat i)) text)) <$> List.seq 0 n.

Lemma attempts_S n be now seq text :
  attempts (S n) be now seq text =
  attempts n be now seq text ++ [carries be (command_packet now (u8 (seq + Z.of_nat n)) text)].
Proof. unfold attempts. by rewrite seq_S, fmap_app. Qed.

(** A handler that changes the rover, sends a command and schedules what is next. *)
Definition attempt (c p : string) (f : Rover -> Rover) (g : Z -> Rover -> Rover)
    : M (World Rover) unit :=
  on_rover f ;; Rover.send_command c p ;; now ← gets steady_now; on_rover (g now).

Lemma attempt_sends be c p f g text w :
  connected be w -> command_text c p (set_app (f (app_ w)) w) text ->
  session_state_ (f (app_ w)) <> DISCONNECTED \/ c = "SESSION_INIT"%string ->
  message_manager_ (f (app_ w)) = message_manager_ (app_ w) ->
  let w' := run_state (attempt c p f g) w in
  sent_ w' = sent_ w ++
    [carries be (command_packet (system_now w) (current_sequence_ (protocol_ w)) text)] /\
  current_sequence_ (protocol_ w') = u8 (current_sequence_ (protocol_ w) + 1) /\
  same_but_sending (set_app (g (steady_now w) (f (app_ w))) w) w'.
Proof.
  intros Hw Ht Hgo Hm. set (w1 := set_app (f (app_ w)) w).
  destruct (command_sends be c p text w1) as (H1 & H2 & S); [by apply connected_app|done|done|].
  set (w2 := run_state (Rover.send_command c p) w1) in *.
  assert (run_state (attempt c p f g) w = set_app (g (steady_now w2) (app_ w2)) w2) as ->.
  { destruct (runs_command c p w1) as (w2' & E & _). subst w2. unfold run_state, attempt.
    rewrite run_bind. unfold on_rover at 1. rewrite run_modify. cbv iota. fold w1.
    by rewrite run_bind, E. }
  split; [exact H1|]. split; [exact H2|].
  rewrite (same_steady _ _ S), (same_app _ _ S).
  exact (same_set_app (g (steady_now w) (f (app_ w))) _ _ S).
Qed.

Lemma timer_fires t w :
  run_state (timer_completed t NoError) w =
  run_state (timer_handler t) (set_app (disarm t (app_ w)) w).
Proof. unfold timer_completed. by rewrite run_state_then by apply _. Qed.

(** The handshake timer in [HANDSHAKE_INIT] with an attempt left. *)
Definition next_attempt (r : Rover) : Rover :=
  set_handshake_retry_count (handshake_retry_count_ r + 1) (disarm HandshakeTimer r).

Lemma handshake_attempt w :
  session_state_ (app_ w) = HANDSHAKE_INIT ->
  handshake_retry_count_ (app_ w) < MAX_HANDSHAKE_RETRIES ->
  run_state (timer_completed HandshakeTimer NoError) w =
  run_state (attempt "SESSION_INIT" (rover_id_ (app_ w)) next_attempt rearm_handshake) w.
Proof.
  intros Hst Hn. apply Z.ltb_lt in Hn. rewrite timer_fires. unfold attempt.
  unfold run_state, timer_handler, handle_handshake_timer. rewrite run_bind. unfold ask_rover. rewrite run_gets.
  unfold id. cbn [app_ set_app disarm session_state_ set_handshake_timer handshake_retry_count_ rover_id_].
  rewrite Hst, Hn. done.
Qed.

(** The handshake timer when all attempts were made. *)
Lemma handshake_given_up w :
  session_state_ (app_ w) = HANDSHAKE_INIT ->
  handshake_retry_count_ (app_ w) = MAX_HANDSHAKE_RETRIES ->
  run_state (timer_completed HandshakeTimer NoError) w = set_app (disarm HandshakeTimer (app_ w)) w.
Proof.
  intros Hst Hn. rewrite timer_fires.
  unfold run_state, timer_handler, handle_handshake_timer. rewrite run_bind. unfold ask_rover. rewrite run_gets.
  unfold id. cbn [app_ set_app disarm session_state_ set_handshake_timer handshake_retry_count_ rover_id_].
  rewrite Hst, Hn. change (snd (handle_base_disconnect (set_app (disarm HandshakeTimer (app_ w)) w)) =
    set_app (disarm HandshakeTimer (app_ w)) w).
  unfold handle_base_disconnect, ask_rover. rewrite run_bind, run_gets.
  cbn [app_ set_app disarm session_state_ set_handshake_timer]. by rewrite Hst.
Qed.

(** The probe timer of a lost base. *)
Lemma probe_attempt w :
  session_state_ (app_ w) = DISCONNECTED ->
  run_state (timer_completed ProbeTimer NoError) w =
  run_state (attempt "SESSION_INIT" (rover_id_ (app_ w)) (disarm ProbeTimer)
    (fun _ r => set_probe_timer (armed (expiry (probe_timer_ r) + ms PROBE_INTERVAL) (probe_timer_ r)) r)) w.
Proof.
  intros Hst. rewrite timer_fires. unfold attempt.
  unfold run_state, timer_handler, handle_probe_timer. rewrite run_bind. unfold ask_rover. rewrite run_gets.
  unfold id. cbn [app_ set_app disarm session_state_ set_probe_timer rover_id_].
  rewrite Hst. done.
Qed.

Lemma fires_S n t w : fires (S n) t w = run_state (timer_completed t NoError) (fires n t w).
Proof. done. Qed.

Lemma fires_add n m t w : fires (n + m) t w = fires n t (fires m t w).
Proof. apply Nat.iter_add. Qed.

(** What the attempts of a command leave as they were. *)
Record attempting (be : endpoint) (st : SessionState) (seq : Z) w w' : Prop := {
  att_connected : connected be w';
  att_session : session_state_ (app_ w') = st;
  att_id : rover_id_ (app_ w') = rover_id_ (app_ w);
  att_system : system_now w' = system_now w;
  att_sequence : current_sequence_ (protocol_ w') = seq;
  att_posted : posted_ (app_ w') = posted_ (app_ w);
}.

Lemma attempting_text be st seq w w' c text :
  attempting be st seq w w' -> command_text c (rover_id_ (app_ w)) w text ->
  command_text c (rover_id_ (app_ w')) w' text.
Proof. intros [_ _ Hi Hs _ _]. unfold command_text. by rewrite Hi, Hs. Qed.

(** One more attempt. *)
Lemma attempting_step be st seq n f g text w w' :
  is_u8 seq -> attempting be st (u8 (seq + Z.of_nat n)) w w' ->
  sent_ w' = sent_ w ++ attempts n be (system_now w) seq text ->
  command_text "SESSION_INIT" (rover_id_ (app_ w)) w text ->
  (forall r, session_state_ (f r) = session_state_ r /\ rover_id_ (f r) = rover_id_ r /\
    message_manager_ (f r) = message_manager_ r /\ posted_ (f r) = posted_ r) ->
  (forall t r, session_state_ (g t r) = session_state_ r /\ rover_id_ (g t r) = rover_id_ r /\
    message_manager_ (g t r) = message_manager_ r /\ posted_ (g t r) = posted_ r) ->
  let w2 := run_state (attempt "SESSION_INIT" (rover_id_ (app_ w')) f g) w' in
  attempting be st (u8 (seq + Z.of_nat (S n))) w w2 /\
  sent_ w2 = sent_ w ++ attempts (S n) be (system_now w) seq text /\
  app_ w2 = g (steady_now w') (f (app_ w')) /\ steady_now w2 = steady_now w'.
Proof.
  intros Hseq Hw' Hsent Ht Hf Hg.
  destruct (Hf (app_ w')) as (F1 & F2 & F3 & F4).
  destruct (Hg (steady_now w') (f (app_ w'))) as (G1 & G2 & G3 & G4).
  destruct (attempt_sends be "SESSION_INIT" (rover_id_ (app_ w')) f g text w') as (H1 & H2 & S);
    [by destruct Hw'| |by right|done|].
  { pose proof (attempting_text _ _ _ _ _ _ _ Hw' Ht) as H. unfold command_text in *. cbn. by rewrite F2. }
  cbv zeta. set (w2 := run_state _ w') in *. destruct Hw' as [K1 K2 K3 K4 K5 K6].
  split_and!.
  - split.
    + apply (connected_same _ _ _ S), connected_app; [done|congruence].
    + by rewrite (app_after _ _ _ S), G1, F1.
    + by rewrite (app_after _ _ _ S), G2, F2.
    + by rewrite (system_after _ _ _ S).
    + rewrite H2, K5. ilia.
    + by rewrite (app_after _ _ _ S), G4, F4.
  - by rewrite H1, Hsent, K4, K5, attempts_S, <- app_assoc.
  - apply (app_after _ _ _ S).
  - apply (steady_after _ _ _ S).
Qed.

Lemma attempting_start be w : connected be w -> is_u8 (current_sequence_ (protocol_ w)) ->
  attempting be (session_state_ (app_ w)) (u8 (current_sequence_ (protocol_ w) + Z.of_nat 0)) w w.
Proof. intros Hw Hs. split; try done. rewrite Z.add_0_r. by rewrite u8_small. Qed.

(** The handshake timer, up to the last attempt. *)
Lemma handshake_attempts n text be w :
  connected be w -> session_state_ (app_ w) = HANDSHAKE_INIT -> handshake_retry_count_ (app_ w) = 0 ->
  is_u8 (current_sequence_ (protocol_ w)) ->
  command_text "SESSION_INIT" (rover_id_ (app_ w)) w text -> (n <= 5)%nat ->
  let seq := current_sequence_ (protocol_ w) in
  attempting be HANDSHAKE_INIT (u8 (seq + Z.of_nat n)) w (fires n HandshakeTimer w) /\
  sent_ (fires n HandshakeTimer w) = sent_ w ++ attempts n be (system_now w) seq text /\
  handshake_retry_count_ (app_ (fires n HandshakeTimer w)) = Z.of_nat n /\
  (n <> 0%nat -> pending (handshake_timer_ (app_ (fires n HandshakeTimer w))) = true).
Proof.
  intros Hw Hst Hr Hs Ht Hn seq. induction n as [|n IH].
  { split_and!; [rewrite <- Hst; by apply attempting_start|by rewrite app_nil_r|done|done]. }
  destruct IH as (H1 & H2 & H3 & _); [lia|]. rewrite fires_S. set (w' := fires n HandshakeTimer w) in *.
  rewrite handshake_attempt; [|by destruct H1|rewrite H3; unfold MAX_HANDSHAKE_RETRIES; lia].
  destruct (attempting_step be HANDSHAKE_INIT seq n next_attempt rearm_handshake text w w')
    as (K1 & K2 & K3 & _); try done.
  split_and!; [done|done| |]; rewrite K3; [|done].
  change (handshake_retry_count_ (app_ w') + 1 = Z.of_nat (S n)). lia.
Qed.

(** The probe timer. *)
Lemma probe_attempts n text be w :
  connected be w -> session_state_ (app_ w) = DISCONNECTED ->
  is_u8 (current_sequence_ (protocol_ w)) ->
  command_text "SESSION_INIT" (rover_id_ (app_ w)) w text ->
  pending (probe_timer_ (app_ w)) = true ->
  let seq := current_sequence_ (protocol_ w) in
  attempting be DISCONNECTED (u8 (seq + Z.of_nat n)) w (fires n ProbeTimer w) /\
  sent_ (fires n ProbeTimer w) = sent_ w ++ attempts n be (system_now w) seq text /\
  probe_timer_ (app_ (fires n ProbeTimer w)) =
    mkTimer (expiry (probe_timer_ (app_ w)) + Z.of_nat n * ms PROBE_INTERVAL) true.
Proof.
  intros Hw Hst Hs Ht Hp seq. induction n as [|n IH].
  { split_and!; [rewrite <- Hst; by apply attempting_start|by rewrite app_nil_r|].
    cbn. destruct (probe_timer_ (app_ w)) as [x y]. simpl in *. subst. f_equal. lia. }
  destruct IH as (H1 & H2 & H3). rewrite fires_S. set (w' := fires n ProbeTimer w) in *.
  rewrite probe_attempt by (by destruct H1).
  destruct (attempting_step be DISCONNECTED seq n (disarm ProbeTimer) (fun _ r =>
    set_probe_timer (armed (expiry (probe_timer_ r) + ms PROBE_INTERVAL) (probe_timer_ r)) r) text w w')
    as (K1 & K2 & K3 & _); try done.
  split_and!; [done|done|]. rewrite K3. cbn [disarm probe_timer_ set_probe_timer]. rewrite H3.
  unfold armed, cancel, async_wait, expires_at. cbn [expiry]. f_equal. lia.
Qed.
End Attempts.

(** ** Stored messages *)

Section Stored.
Context {A : AsioAddress} {J : Json} {C : Chrono}.
Implicit Types (w : World Rover) (r : Rover).

(** The protocol does not look at the layers above. *)
#[global] Instance lumen_send_set_app pl ty pr e r :
  Commutes (set_app r) (LumenProtocol.send_message pl ty pr e).
Proof.
  intros w. unfold run_state, run_result. rewrite !send_message_run. cbn [protocol_ transport_ set_app].
  destruct (LumenProtocol.running_ (protocol_ w)); [|done]. cbn [negb].
  destruct (target_of (transport_ w) e) as [[e'|]|]; [|done..]. by destruct (tracked ty).
Qed.

#[global] Instance send_all_set_app ms e r : Commutes (set_app r) (send_all ms e).
Proof. unfold send_all. apply _. Qed.

Lemma flush_is_send_all be l w :
  LumenProtocol.running_ (protocol_ w) = true -> reachable (transport_ w) be ->
  stored_packets_ (app_ w) = l -> Forall (fun sp : StoredPacketData => sp.2 = be) l ->
  run_state send_stored_packets w =
  set_app (set_stored_packets [] (app_ w)) (run_state (send_all (fst <$> l) be) w).
Proof.
  intros Hr He Hl Hbe. unfold run_state at 1, send_stored_packets. rewrite run_bind. unfold ask_rover.
  rewrite run_gets, Hl. revert w Hr He Hl.
  induction Hbe as [|[[[pl ty] pr] e] l Heq Hbe IH]; intros w Hr He Hl.
  { cbn. destruct w as [? ? ? ? ? []]; simpl in *. by subst. }
  simpl in Heq. subst e. cbn [for_each].
  destruct (send_message_reachable pl ty pr be w Hr He) as (w' & Hw' & _ & _ & S & _).
  set (r1 := set_stored_packets l (app_ w)).
  match goal with |- context [((?m ;; ?rest) w).2] => assert (m w = (Ok tt, set_app r1 w')) as Hstep end.
  { rewrite run_bind. unfold try_catch. rewrite Hw'. unfold r1. rewrite <- (same_app _ _ S) in Hl |- *.
    unfold on_rover. rewrite run_modify. by rewrite Hl. }
  rewrite run_bind, Hstep. rewrite (IH (set_app r1 w')); [|by cbn; rewrite (same_running _ _ S)
    |by cbn; rewrite (same_transport _ _ S)|done].
  rewrite (run_state_commutes (set_app r1)) by apply _.
  match goal with |- _ = set_app _ ?x => assert (x = run_state (send_all (fst <$> l) be) w') as -> end;
    [|done].
  unfold send_all, run_state. cbn [fmap list_fmap for_each fst snd]. by rewrite run_bind, Hw'.
Qed.

(** A report leaves as at most one datagram. *)
Definition sends_at_most (n : nat) (m : M (World Rover) unit) : Prop :=
  forall w, exists ds, sent_ (run_state m w) = sent_ w ++ ds /\ (length ds <= n)%nat.

Lemma sends_ret : sends_at_most 0 (mret tt).
Proof. intros w. exists []. by rewrite app_nil_r. Qed.

Lemma sends_weaken n n' m : (n <= n')%nat -> sends_at_most n m -> sends_at_most n' m.
Proof. intros Hn Hm w. destruct (Hm w) as (ds & ? & ?). exists ds. split; [done|lia]. Qed.

Lemma sends_on_rover f : sends_at_most 0 (on_rover f).
Proof. intros w. exists []. by rewrite app_nil_r. Qed.

Lemma sends_gets {X} n (h : World Rover -> X) k :
  (forall x, sends_at_most n (k x)) -> sends_at_most n (gets h ≫= k).
Proof. intros Hk w. apply (Hk (h w) w). Qed.

Lemma sends_then n n' m m' `{!NoThrow m} :
  sends_at_most n m -> sends_at_most n' m' -> sends_at_most (n + n') (m ;; m').
Proof.
  intros Hm Hm' w. rewrite run_state_then by apply _. destruct (Hm w) as (ds & H1 & H2).
  destruct (Hm' (run_state m w)) as (ds' & H3 & H4). exists (ds ++ ds').
  rewrite H3, H1, length_app, <- app_assoc. split; [done|lia].
Qed.

Lemma sends_report m be st : sends_at_most 1 (report m be st).
Proof.
  unfold report, is_low_power_mode, ask_rover. apply sends_gets. intros lp.
  destruct (suppressed lp m); [by eapply sends_weaken, sends_ret; lia|]. destruct (bool_decide _).
  - apply (sends_weaken 0); [lia|]. intros w. destruct (runs_store m be w) as (w' & H & S). exists [].
    unfold store_message_for_later, run_state, try_catch in *. rewrite app_nil_r.
    rewrite run_bind in *. destruct (serialise m); [|done]. done.
  - destruct (bool_decide _); [intros w; apply manager_sends_one|].
    apply (sends_weaken 0); [lia|apply sends_ret].
Qed.

Lemma sends_base n k : (forall b, sends_at_most n (k b)) -> sends_at_most n (base_endpoint ≫= k).
Proof.
  intros Hk w. unfold run_state. rewrite run_bind, base_endpoint_run. apply (Hk (base_of_node w) w).
Qed.

Lemma sends_status : sends_at_most 1 send_status.
Proof.
  unfold send_status, ask_rover. apply sends_gets. intros r. apply sends_base. intros [be|].
  - apply sends_gets. intros now. apply sends_report.
  - apply (sends_weaken 0); [lia|apply sends_ret].
Qed.

Lemma sends_telemetry readings : sends_at_most 1 (send_telemetry readings).
Proof.
  unfold send_telemetry, ask_rover. apply sends_base. intros [be|].
  - do 3 (apply sends_gets; intros ?). apply sends_report.
  - apply (sends_weaken 0); [lia|apply sends_ret].
Qed.

Lemma runs_no_throw m f : (forall w, runs m (f w) w) -> NoThrow m.
Proof. intros Hm w. destruct (Hm w) as (w' & H & _). exists tt. unfold run_result. by rewrite H. Qed.

#[global] Instance flush_no_throw : NoThrow send_stored_packets.
Proof. apply (runs_no_throw _ (fun _ => set_stored_packets [])), runs_flush. Qed.
#[global] Instance status_no_throw : NoThrow send_status.
Proof. apply (runs_no_throw _ _ runs_status). Qed.
#[global] Instance status_timer_no_throw : NoThrow handle_status_timer.
Proof. apply (runs_no_throw _ _ runs_status_timer). Qed.
#[global] Instance telemetry_no_throw readings : NoThrow (send_telemetry readings).
Proof. apply (runs_no_throw _ _ (runs_telemetry readings)). Qed.

Lemma sends_status_timer : sends_at_most 1 handle_status_timer.
Proof.
  apply (sends_then 1 0 send_status); [apply _|apply sends_status|].
  apply sends_gets. intros now. apply sends_on_rover.
Qed.

Lemma sends_position_timer : sends_at_most 1 handle_position_telemetry_timer.
Proof.
  unfold handle_position_telemetry_timer, ask_rover. apply sends_gets. intros pos.
  apply (sends_then 1 0); [apply _|apply sends_telemetry|]. apply sends_gets. intros now. apply sends_on_rover.
Qed.

(** The handler of the establishment, step by step. *)
Lemma established_steps w : session_state_ (app_ w) <> ACTIVE ->
  let r := cancel_probe (cancel_handshake
    (set_handshake_retry_count 0 (set_session_state ACTIVE (app_ w)))) in
  run_state handle_session_established w =
  run_state (handle_status_timer ;; handle_position_telemetry_timer)
    (run_state send_stored_packets (set_app r w)).
Proof.
  intros Hst r. unfold run_state at 1, handle_session_established. rewrite run_bind. unfold ask_rover.
  rewrite run_gets, bool_decide_false by done. cbn [negb].
  change (snd (?m w)) with (run_state m w). do 2 (rewrite run_state_then by apply _).
  by rewrite run_state_then by apply _.
Qed.
End Stored.

(** ** Theorems *)

Section Theorems.
Context {A : AsioAddress} {J : Json} {C : Chrono}.
Implicit Types (w : World Rover) (r : Rover).

Lemma given_up_stays m w :
  session_state_ (app_ w) = HANDSHAKE_INIT -> handshake_retry_count_ (app_ w) = MAX_HANDSHAKE_RETRIES ->
  fires (S m) HandshakeTimer w = set_app (disarm HandshakeTimer (app_ w)) w.
Proof.
  intros Hst Hr. induction m as [|m IH]; [by apply handshake_given_up|].
  rewrite fires_S, IH. by rewrite handshake_given_up.
Qed.

Lemma given_up_after n w :
  (5 < n)%nat -> session_state_ (app_ (fires 5 HandshakeTimer w)) = HANDSHAKE_INIT ->
  handshake_retry_count_ (app_ (fires 5 HandshakeTimer w)) = Z.of_nat 5 ->
  exists w', fires n HandshakeTimer w = set_app (disarm HandshakeTimer (app_ w')) w' /\
    w' = fires 5 HandshakeTimer w.
Proof.
  remember (fires 5 HandshakeTimer w) as w5 eqn:E. intros Hn Hst Hr. exists w5. split; [|done].
  assert (exists m, n = S m + 5)%nat as [m ->] by (exists (n - 6)%nat; lia).
  rewrite fires_add, <- E. by apply given_up_stays.
Qed.

(** C22: The handshake without an answer: each time its timer fires the rover sends one
    more [SESSION_INIT], under the next sequence number, for [MAX_HANDSHAKE_RETRIES]
    times.  The next firing gives up, but the rover does not become disconnected: it
    stays in [HANDSHAKE_INIT] with no timer armed and nothing posted. *)
Theorem handshake_retries n text be w :
  connected be w -> session_state_ (app_ w) = HANDSHAKE_INIT -> handshake_retry_count_ (app_ w) = 0 ->
  is_u8 (current_sequence_ (protocol_ w)) ->
  command_text "SESSION_INIT" (rover_id_ (app_ w)) w text ->
  let w' := fires n HandshakeTimer w in
  sent_ w' = sent_ w ++
    attempts (n `min` 5) be (system_now w) (current_sequence_ (protocol_ w)) text /\
  session_state_ (app_ w') = HANDSHAKE_INIT /\ posted_ (app_ w') = posted_ (app_ w) /\
  (0 < n <= 5 -> pending (handshake_timer_ (app_ w')) = true)%nat /\
  (5 < n -> pending (handshake_timer_ (app_ w')) = false)%nat.
Proof.
  intros Hw Hst Hr Hs Ht w'. subst w'. destruct (decide (n <= 5)%nat) as [Hn|Hn].
  - destruct (handshake_attempts n text be w) as ([_ H1 _ _ _ H2] & H3 & _ & H4); try done.
    rewrite Nat.min_l by done. split; [exact H3|]. split; [exact H1|]. split; [exact H2|].
    split; [intros ?; apply H4; lia|lia].
  - destruct (handshake_attempts 5 text be w) as ([_ H1 _ _ _ H2] & H3 & H4 & _);
      [assumption..|lia|].
    destruct (given_up_after n w) as (w5 & -> & E); [lia|exact H1|exact H4|].
    rewrite <- E in H1, H2, H3. rewrite Nat.min_r by lia. clear H4 E.
    split; [exact H3|]. split; [exact H1|]. split; [exact H2|].
    split; [lia|reflexivity].
Qed.

(** What the three posted handlers of a disconnection leave. *)
Definition forgotten w : World Rover :=
  set_protocol (set_frame_buffers ∅ (with_rm reset_state (set_current_sequence 0 (protocol_ w)))) w.

Definition disconnected (now : Z) r : Rover :=
  set_probe_timer (mkTimer now true) (set_posted []
    (cancel_handshake (set_session_state DISCONNECTED r))).

Lemma run_posted_is w p rest w' : posted_ (app_ w) = p :: rest ->
  run_state (run_handler p) (set_app (set_posted rest (app_ w)) w) = w' ->
  run_state run_posted w = w'.
Proof. intros Hp <-. by apply run_posted_cons. Qed.

Lemma disconnection_run be w :
  base_of_node w = Some be -> session_state_ (app_ w) = ACTIVE ->
  posted_ (app_ w) = [PostPacketTimeout be] ->
  Nat.iter 3 (run_state run_posted) w = set_app (disconnected (steady_now w) (app_ w)) (forgotten w).
Proof.
  intros Hb Hst Hp. cbn [Nat.iter nat_rect].
  set (w1 := set_app (add_posted [PostResetSequence; PostStartProbing]
    (cancel_probe (cancel_handshake (set_session_state DISCONNECTED (set_posted [] (app_ w)))))) w).
  assert (run_state run_posted w = w1) as ->.
  { apply (run_posted_is w _ _ _ Hp). set (w0 := set_app _ w).
    change (run_state (run_handler (PostPacketTimeout be)) w0) with
      (run_state (handle_packet_timeout be) w0).
    unfold run_state, handle_packet_timeout. rewrite run_bind. unfold ask_rover. rewrite run_gets.
    rewrite run_bind, base_endpoint_run. change (base_of_node w0) with (base_of_node w). rewrite Hb.
    change (session_state_ (app_ w0)) with (session_state_ (app_ w)). rewrite Hst.
    rewrite (bool_decide_true (be = be)), (bool_decide_true (ACTIVE = ACTIVE)) by done. cbn [andb when].
    unfold handle_base_disconnect. rewrite run_bind. unfold ask_rover. rewrite run_gets.
    change (session_state_ (app_ w0)) with (session_state_ (app_ w)). by rewrite Hst. }
  rewrite (run_posted_cons w1 PostResetSequence [PostStartProbing] eq_refl).
  set (w2 := run_state (run_handler PostResetSequence) _).
  rewrite (run_posted_cons w2 PostStartProbing [] eq_refl).
  unfold disconnected, cancel_handshake, cancel_probe. by destruct w as [? [] ? ? ? []].
Qed.

(** C21: A packet for the base that is given up on in a session loses the session: when
    what was posted has run, the rover is disconnected, its sequence numbers start
    from zero with an empty reliability state and no partial frame, what it had stored is
    kept, and a probe is due.  From then on it sends one [SESSION_INIT] each time the
    probe timer fires, every [PROBE_INTERVAL], as often as it takes. *)
Theorem base_lost n text be w :
  connected be w -> session_state_ (app_ w) = ACTIVE -> posted_ (app_ w) = [PostPacketTimeout be] ->
  command_text "SESSION_INIT" (rover_id_ (app_ w)) w text ->
  let w1 := Nat.iter 3 (run_state run_posted) w in
  let w2 := fires n ProbeTimer w1 in
  protocol_ w1 = set_frame_buffers ∅ (with_rm reset_state (set_current_sequence 0 (protocol_ w))) /\
  sent_ w1 = sent_ w /\ stored_packets_ (app_ w1) = stored_packets_ (app_ w) /\
  session_state_ (app_ w2) = DISCONNECTED /\
  sent_ w2 = sent_ w ++ attempts n be (system_now w) 0 text /\
  probe_timer_ (app_ w2) = mkTimer (steady_now w + Z.of_nat n * ms PROBE_INTERVAL) true.
Proof.
  intros Hw Hst Hp Ht w1 w2.
  assert (w1 = set_app (disconnected (steady_now w) (app_ w)) (forgotten w)) as Hw1.
  { apply (disconnection_run be); [by apply connected_base_of|done|done]. }
  assert (connected be w1) as Hc1.
  { rewrite Hw1. destruct Hw as [[H1 H2] H3 H4]. by split. }
  destruct (probe_attempts n text be w1) as ([_ H1 _ _ _ _] & H2 & H3); [done|by rewrite Hw1..|].
  fold w2 in H1, H2, H3. rewrite Hw1 in H2, H3. rewrite Hw1.
  split; [reflexivity|]. split; [reflexivity|]. split; [reflexivity|].
  split; [exact H1|]. split; [exact H2|exact H3].
Qed.

(** C20: What was stored for a lost base is sent when the session is established again:
    first, in the order it was stored, under consecutive sequence numbers, with the
    payloads, types and priorities it was stored with, one datagram each; after it the
    two periodic reports, at most.  Nothing stays stored, and the session is active. *)
Theorem stored_messages_flushed be w :
  connected be w -> rover_ok be (app_ w) -> session_state_ (app_ w) <> ACTIVE ->
  is_u8 (current_sequence_ (protocol_ w)) ->
  Forall (fun sp : StoredPacketData => bytes_ok sp.1.1.1 /\ vec_size sp.1.1.1 < 65536)
    (stored_packets_ (app_ w)) ->
  let w' := run_state handle_session_established w in
  exists ps ds, sent_ w' = sent_ w ++ (carries be <$> ps) ++ ds /\ (length ds <= 2)%nat /\
    length ps = length (stored_packets_ (app_ w)) /\
    (forall i payload type priority e,
       stored_packets_ (app_ w) !! i = Some (payload, type, priority, e) ->
       exists p, ps !! i = Some p /\ LumenPacket.from_bytes (dg_data (carries be p)) = Some p /\
         payload_ p = payload /\ type_ (header_ p) = type /\ priority_ (header_ p) = priority /\
         sequence_ (header_ p) = u8 (current_sequence_ (protocol_ w) + Z.of_nat i)) /\
    stored_packets_ (app_ w') = [] /\ session_state_ (app_ w') = ACTIVE.
Proof.
  intros Hw Hok Hst Hs Hall w'.
  destruct (runs_established w) as (w2 & Hrun & S).
  assert (app_ w' = activated (steady_now w) (app_ w)) as Happ.
  { unfold w', run_state. rewrite Hrun. cbn [snd]. rewrite (app_after _ _ _ S). unfold established_effect.
    by destruct (session_state_ (app_ w)). }
  rewrite Happ. set (l := stored_packets_ (app_ w)) in *.
  unfold w'. rewrite established_steps by done. set (r := cancel_probe _). set (w0 := set_app r w).
  rewrite (flush_is_send_all be l w0);
    [|apply Hw|by apply (connected_reachable be w)|done|apply Hok].
  destruct (send_all_numbered (fst <$> l) be w0) as (ps & H1 & H2 & H3 & _);
    [apply Hw|by apply (connected_reachable be w)|exact Hs| |].
  { apply Forall_fmap. exact Hall. }
  set (w1 := set_app _ _).
  destruct (sends_then 1 1 _ _ sends_status_timer sends_position_timer w1) as (ds & Hds & Hlen).
  exists ps, ds. rewrite Hds. change (sent_ w1) with (sent_ (run_state (send_all (fst <$> l) be) w0)).
  rewrite H1, <- app_assoc. split; [done|]. split; [done|]. split; [by rewrite H2, length_fmap|].
  split; [|split; reflexivity].
  intros i payload ty pr e Hi. apply (H3 i (payload, ty, pr)). rewrite list_lookup_fmap.
  exact (f_equal (fmap (M:=option) fst) Hi).
Qed.

(** The same rover with the mode changed. *)
Definition with_power (b : bool) w : World Rover := set_app (set_low_power_mode b (app_ w)) w.

(** Sending what was stored does not look at the mode. *)
Lemma flush_any_power b : Commutes (with_power b) send_stored_packets.
Proof.
  assert (forall pl ty pr e, Commutes (with_power b) (LumenProtocol.send_message pl ty pr e)) as Hsend.
  { intros. unfold LumenProtocol.send_message, next_sequence, generate_timestamp, choose_target, send_packet.
    cbv zeta. apply _. }
  assert (forall f, (forall r, f (set_low_power_mode b r) = set_low_power_mode b (f r)) ->
    Commutes (with_power b) (on_rover f)) as Hon.
  { intros f Hf. apply commutes_modify. intros w. unfold with_power. cbn. by rewrite Hf. }
  unfold send_stored_packets, ask_rover. apply commutes_bind; [by apply commutes_gets|]. intros stored.
  apply commutes_for_each. intros [[[pl ty] pr] e]. apply commutes_bind; [apply _|]. intros _.
  by apply Hon.
Qed.

(** C25: In low power mode a rover is silent but for messages of high priority to its base.
    [send_message] neither sends nor stores one below high priority, or one of any
    priority to another node; nor does [send_raw_message]; telemetry is silent, so is the
    status unless it is an error; no scan is made and no discovery command handled.  None
    of this changes anything of the state.  The exception is what was stored before: the
    flush when the session is established again does not look at the mode. *)
Theorem low_power_silence w :
  low_power_mode_ (app_ w) = true ->
  (forall m e, get_lumen_priority m <> HIGH \/ ep_unspecified e = false /\ Some e <> base_of_node w ->
     Rover.send_message m e w = (Ok tt, w)) /\
  (forall m e, get_lumen_priority m <> HIGH \/ Some e <> base_of_node w ->
     Rover.send_raw_message m e w = (Ok tt, w)) /\
  (forall readings, send_telemetry readings w = (Ok tt, w)) /\
  (current_status_level_ (app_ w) = OK \/ current_status_level_ (app_ w) = WARNING ->
     send_status w = (Ok tt, w)) /\
  (forall make port text, Rover.scan_for_rovers make port text w = (Ok tt, w)) /\
  (forall c p i t e, discovery_command c = true ->
     Rover.route_message (CommandMessage c p i t) e w = (Ok tt, w)) /\
  (forall b, send_stored_packets (with_power b w) =
     (run_result send_stored_packets w, with_power b (run_state send_stored_packets w))).
Proof.
  intros Hlp. assert (forall m, get_lumen_priority m <> HIGH -> suppressed true m = true) as Hsup.
  { intros m Hm. unfold suppressed. by rewrite bool_decide_false. }
  assert (forall m be st, get_lumen_priority m <> HIGH -> report m be st w = (Ok tt, w)) as Hreport.
  { intros m be st Hm. unfold report, is_low_power_mode, ask_rover. by rewrite run_bind, run_gets, Hlp, Hsup. }
  split_and!.
  - intros m e Hm. unfold Rover.send_message, ask_rover. rewrite run_bind, run_gets, run_bind, base_endpoint_run.
    destruct (decide (get_lumen_priority m = HIGH)) as [Hh|Hh].
    + destruct Hm as [?|[Hu He]]; [done|]. rewrite Hu.
      assert (match base_of_node w with
        | Some be => if false || bool_decide (e = be) then Some (be, true) else Some (e, false)
        | None => Some (e, false) end = Some (e, false)) as ->.
      { destruct (base_of_node w) as [be|]; [|done]. by rewrite bool_decide_false by congruence. }
      unfold is_low_power_mode, ask_rover. rewrite run_bind, run_gets, Hlp.
      unfold suppressed. rewrite (bool_decide_true _ Hh). cbn [negb andb]. rewrite andb_false_r, orb_true_r. done.
    + match goal with |- context [match ?x with Some _ => _ | None => mret tt end] =>
        destruct x as [[e' b]|]; [|done] end.
      unfold is_low_power_mode, ask_rover. by rewrite run_bind, run_gets, Hlp, Hsup.
  - intros m e Hm. unfold Rover.send_raw_message. destruct (_ || _); [done|].
    unfold is_low_power_mode, ask_rover. rewrite run_bind, run_gets, Hlp.
    destruct (decide (get_lumen_priority m = HIGH)) as [Hh|Hh]; [|by rewrite Hsup].
    destruct Hm as [?|He]; [done|]. unfold suppressed. rewrite bool_decide_true by done. cbn [negb andb].
    unfold try_catch, Rover.get_base_endpoint. unfold base_of_node in He.
    rewrite run_bind, run_bind, run_bind, run_gets. destruct (transport_ w) as [s|c]; [done|].
    unfold UdpClient.get_base_endpoint. destruct (ep_unspecified (base_endpoint_ c)); [done|].
    cbn [of_result mret M_ret]. rewrite bool_decide_false by congruence. done.
  - intros readings. unfold send_telemetry, ask_rover. rewrite run_bind, base_endpoint_run.
    destruct (base_of_node w) as [be|]; [|done]. do 3 rewrite run_bind, run_gets. by apply Hreport.
  - intros Hl. unfold send_status, ask_rover. rewrite run_bind, run_gets, run_bind, base_endpoint_run.
    destruct (base_of_node w) as [be|]; [|done]. rewrite run_bind, run_gets. apply Hreport.
    unfold id. cbn [get_lumen_priority]. by destruct Hl as [-> | ->].
  - intros make port text. unfold Rover.scan_for_rovers, is_low_power_mode, ask_rover.
    by rewrite run_bind, run_gets, Hlp.
  - intros c p i t e Hc. unfold Rover.route_message, ask_rover. rewrite run_bind, run_gets. cbn [get_sender].
    destruct (bool_decide _); [done|]. rewrite run_bind, base_endpoint_run.
    assert (Rover.session_command c = false) as ->.
    { apply orb_true_iff in Hc as [Hc|Hc]; by apply bool_decide_eq_true in Hc as ->. }
    rewrite Hc. unfold is_low_power_mode, ask_rover. by rewrite run_bind, run_gets, Hlp.
  - intros b. apply (flush_any_power b).
Qed.
End Theorems.

Section Witnesses.
Import Ipv4 SampleLibraries Sample SampleBase SampleRover.

Definition init_text : string := text_of (CommandMessage "SESSION_INIT" "grp18-rover" "grp18-rover" 0).

Lemma rover_connected st stored : connected base_ep (rover_of (sample_rover st stored)).
Proof. split; [by split|by eexists|done]. Qed.

Lemma handshake_retries_witness :
  length (sent_ (fires 7 HandshakeTimer (rover_in HANDSHAKE_INIT))) = 5%nat /\
  pending (handshake_timer_ (app_ (fires 7 HandshakeTimer (rover_in HANDSHAKE_INIT)))) = false.
Proof.
  destruct (handshake_retries 7 init_text base_ep (rover_in HANDSHAKE_INIT)) as (H1 & _ & _ & _ & H2);
    [apply rover_connected|reflexivity|reflexivity|done|reflexivity|].
  rewrite H1. split; [reflexivity|apply H2; lia].
Defined.

(** The rover whose packets the manager gave up on. *)
Definition timed_out : World Rover :=
  rover_of (set_posted [PostPacketTimeout base_ep] (sample_rover ACTIVE [])).

Lemma base_lost_witness :
  length (sent_ (fires 9 ProbeTimer (Nat.iter 3 (run_state run_posted) timed_out))) = 9%nat.
Proof.
  destruct (base_lost 9 init_text base_ep timed_out) as (_ & _ & _ & _ & -> & _);
    [split; [by split|by eexists|done]|reflexivity..].
Defined.

Definition two_stored : list StoredPacketData :=
  [([1; 2], DATA, MEDIUM, base_ep); ([3], STATUS, LOW, base_ep)].

Lemma stored_messages_flushed_witness : exists ps ds,
  sent_ (run_state handle_session_established (rover_of (sample_rover DISCONNECTED two_stored))) =
  (carries base_ep <$> ps) ++ ds /\ length ps = 2%nat.
Proof.
  destruct (stored_messages_flushed base_ep (rover_of (sample_rover DISCONNECTED two_stored)))
    as (ps & ds & H1 & _ & H2 & _).
  - apply rover_connected.
  - split; [by split| |by intros []|by left]. by apply Forall_cons; split; [|apply Forall_singleton].
  - done.
  - done.
  - repeat first [apply Forall_cons; split | apply Forall_nil; exact I | split];
      unfold is_u8, vec_size; simpl; lia.
  - exists ps, ds. exact (conj H1 H2).
Defined.

Definition low_power_rover : World Rover :=
  rover_of (set_low_power_mode true (sample_rover ACTIVE [])).

Lemma low_power_silence_witness :
  Rover.send_message (BasicMessage "hi" "grp18-rover" 0) base_ep low_power_rover = (Ok tt, low_power_rover) /\
  Rover.send_message (StatusMessage ERROR "hot" "grp18-rover" 0) rover_ep low_power_rover =
    (Ok tt, low_power_rover).
Proof.
  split; apply (proj1 (low_power_silence low_power_rover eq_refl)).
  - left. discriminate.
  - right. split; [reflexivity|]. intros H. assert (rover_ep = base_ep) as E by (by injection H).
    vm_compute in E. discriminate E.
Defined.
End Witnesses.
