(* ===== verification/Handshake.v ===== *)
(** * The handshake between a rover and a base station

    The two nodes together: every datagram is what the other node sent last, nothing is
    lost, and the session of both becomes active. *)
From S2P Require Import Prelude Configs Crc8 LumenHeader LumenPacket Asio ReliabilityManager.
From S2P Require Import UdpServer UdpClient Libraries Messages LumenProtocol ProtocolFacts Framing.
From S2P Require Import Delivery MessageManager Doubles BaseStation BaseSession Discovery Rover.
From S2P Require Import RoverEffects RoverSession RoverRecovery.

(** ** Receiving a message *)

Section Receiving.
Context {A : AsioAddress} `{!AsioAddressLaws A} {J : Json} {C : Chrono}.
Context `{!JsonLaws J} `{!ChronoLaws C} {U : Type}.
Implicit Types w : World U.

(** What receiving a packet leaves for the layers above, whatever it sent itself. *)
Record heard (e : endpoint) w w' : Prop := {
  heard_transport : same_node (transport_ w) (transport_ w');
  heard_running : LumenProtocol.running_ (protocol_ w') = LumenProtocol.running_ (protocol_ w);
  heard_callback : LumenProtocol.message_callback_ (protocol_ w') =
    LumenProtocol.message_callback_ (protocol_ w);
  heard_session : session_active_ (protocol_ w') = session_active_ (protocol_ w);
  heard_app : app_ w' = app_ w;
  heard_steady : steady_now w' = steady_now w;
  heard_system : system_now w' = system_now w;
  heard_buffer : frame_buffer (get_endpoint_key e) w' = [];
  heard_seq : is_u8 (current_sequence_ (protocol_ w'));
}.

(** A node that can hear [e]: it and its socket run, they have their callbacks, and
    between it and [e] there is no partial packet. *)
Record listens `{HasManager U} (e : endpoint) w : Prop := {
  listens_running : LumenProtocol.running_ (protocol_ w) = true;
  listens_callback : LumenProtocol.message_callback_ (protocol_ w) = true;
  listens_socket : socket_up (transport_ w);
  listens_attached : attached w;
  listens_buffer : frame_buffer (get_endpoint_key e) w = [];
  listens_seq : is_u8 (current_sequence_ (protocol_ w));
}.

Lemma frame_buffer_noted e w : frame_buffer (get_endpoint_key e) (noted_clear e w) = [].
Proof. unfold frame_buffer, noted_clear. simpl. by rewrite lookup_insert_eq. Qed.

(** The node as a packet of [e] is processed. *)
Lemma noted_heard e w : is_u8 (current_sequence_ (protocol_ w)) ->
  heard e w (noted_clear e (hearing e w)).
Proof.
  intros Hs. pose proof (hearing_same e w) as [S1 S2 S3 S4 S5 S6].
  split; try done; try apply frame_buffer_noted; unfold noted_clear; cbn; by rewrite S2.
Qed.

Lemma noted_rm e w : rm (noted_clear e (hearing e w)) = rm w.
Proof. unfold noted_clear, rm. cbn. by rewrite (socket_protocol _ _ (hearing_same e w)). Qed.

Lemma noted_mode e w : mode_ (noted_clear e (hearing e w)) = mode_ w.
Proof. apply (socket_mode _ _ (hearing_same e w)). Qed.

(** The base station, outside a session. *)
Lemma base_hears `{HasManager U} (cb : Message -> endpoint -> M (World U) unit)
    `{!forall m e fb, Commutes (with_buffers fb) (cb m e)} `{!forall m e, NoThrow (cb m e)}
    p m s e w :
  listens e w -> mode_ w = LumenProtocol.BASE_STATION -> session_active_ (protocol_ w) = false ->
  has_acked_sequence (sequence_ (header_ p)) e (rm w) = false ->
  packet_ok p -> tracked (type_ (header_ p)) = true -> packet_fits SERVER_SOCK_BUF_SIZE p ->
  payload_ p = string_to_binary s -> written m s ->
  exists w', heard e w w' /\ sent_ w' = sent_ w /\
    (forall n, has_acked_sequence n e (rm w') = has_acked_sequence n e (rm w)) /\
    run_state (server_receive (handle_lumen_message cb) NoError (LumenPacket.to_bytes p) e) w =
    server_rearmed (run_state (cb m e) w').
Proof.
  intros [Hr Hcb Hup Hat Hb Hs] Hm Hact Hdup Hp Hty Hf Hpl Hw.
  pose proof (noted_heard e w Hs) as Hh. pose proof (noted_rm e w) as Hrm.
  pose proof (noted_mode e w) as Hmode. set (w0 := noted_clear e (hearing e w)) in *.
  set (w' := recorded (sequence_ (header_ p)) e w0).
  exists w'. split; [destruct Hh; by split|]. split; [exact (socket_sent _ _ (hearing_same e w))|].
  split; [intros n; unfold w'; by rewrite has_acked_recorded, Hrm|].
  unfold run_state at 1.
  rewrite (server_gets_packet (handle_lumen_message cb) p e w) by done. fold w0. cbn [snd]. f_equal.
  unfold run_state. rewrite (process_base_run (handle_lumen_message cb) p e w0) by (done || by rewrite Hmode).
  rewrite (heard_session _ _ _ Hh), Hact, Hrm, Hdup. cbn [negb when]. fold w'.
  unfold forward. rewrite run_bind. unfold ask. rewrite run_gets.
  change (LumenProtocol.message_callback_ (protocol_ w')) with (LumenProtocol.message_callback_ (protocol_ w0)).
  rewrite (heard_callback _ _ _ Hh), Hcb, Hpl. cbn [when].
  rewrite (handle_written cb m s _ e w'); [|by unfold attached; change (app_ w') with (app_ w0); rewrite (heard_app _ _ _ Hh)|done].
  unfold guarded, try_catch. by rewrite (no_throw_unit (cb m e)).
Qed.

(** *** The rover: counting a packet may send NAKs *)

Definition only_sent w0 w : Prop :=
  same_but_sending w0 w /\ is_u8 (current_sequence_ (protocol_ w)).

#[local] Hint Extern 3 (Preserves (only_sent _) (modify _)) =>
  (apply preserves_modify; let S := fresh in let H := fresh in intros ? [S H]; split;
   [etransitivity; [exact S|split; reflexivity]|first [exact H|apply u8_range]]) : typeclass_instances.

#[local] Instance send_packet_only w0 p e : Preserves (only_sent w0) (send_packet p e).
Proof. unfold send_packet, emit. apply _. Qed.

#[local] Instance send_nak_only w0 s e : Preserves (only_sent w0) (send_nak s e).
Proof.
  unfold send_nak, next_sequence, generate_timestamp, on_rm, on_protocol, ask. cbv zeta. apply _.
Qed.

#[local] Instance send_naks_only w0 l n e : Preserves (only_sent w0) (send_naks l n e).
Proof.
  revert n. induction l; intros n; cbn [send_naks]; unfold on_rm, on_protocol, ask; apply _.
Qed.

Lemma count_packet_run e w : is_u8 (current_sequence_ (protocol_ w)) ->
  exists w', count_packet e w = (Ok tt, w') /\ only_sent w w'.
Proof.
  intros Hs. exists (run_state (count_packet e) w). split.
  - apply no_throw_unit. unfold count_packet. apply _.
  - assert (Preserves (only_sent w) (count_packet e)) as H.
    { unfold count_packet, check_sequence_gaps, on_protocol, ask. cbv zeta. apply _. }
    by apply H.
Qed.

Lemma rover_hears `{HasManager U} (cb : Message -> endpoint -> M (World U) unit)
    `{!forall m e fb, Commutes (with_buffers fb) (cb m e)}
    p m s e w :
  listens e w -> mode_ w = LumenProtocol.ROVER ->
  packet_ok p -> tracked (type_ (header_ p)) = true -> packet_fits CLIENT_SOCK_BUF_SIZE p ->
  payload_ p = string_to_binary s -> written m s ->
  exists w', heard e w w' /\
    run_state (client_receive (handle_lumen_message cb) NoError (LumenPacket.to_bytes p) e) w =
    client_rearmed (run_state (cb m e) w').
Proof.
  intros [Hr Hcb Hup Hat Hb Hs] Hm Hp Hty Hf Hpl Hw.
  pose proof (noted_heard e w Hs) as Hh. pose proof (noted_mode e w) as Hmode.
  set (w0 := noted_clear e (hearing e w)) in *.
  set (w1 := recorded (sequence_ (header_ p)) e w0).
  destruct (count_packet_run e w1) as (w' & Hc & [S Hs']); [apply (heard_seq _ _ _ Hh)|].
  assert (heard e w w') as Hh'.
  { destruct Hh. split; rewrite ?(same_transport _ _ S), ?(same_running _ _ S), ?(same_callback _ _ S),
      ?(same_session _ _ S), ?(same_app _ _ S), ?(same_steady _ _ S), ?(same_system _ _ S); try done.
    unfold frame_buffer. by rewrite (same_buffers _ _ S). }
  exists w'. split; [exact Hh'|].
  apply tracked_ack in Hty as [H1 H2]. unfold run_state at 1.
  rewrite (client_gets_packet (handle_lumen_message cb) p e w) by done. fold w0. cbn [snd]. f_equal.
  unfold run_state, process_complete_packet. rewrite run_bind, run_gets, run_bind, on_rm_run. cbv iota zeta.
  fold (recorded (sequence_ (header_ p)) e w0). fold w1. rewrite run_bind, run_gets, H1, H2.
  change (mode_ w1) with (mode_ w0). rewrite Hmode, Hm.
  rewrite (bool_decide_true (LumenProtocol.ROVER = LumenProtocol.ROVER)) by done.
  rewrite (bool_decide_false (LumenProtocol.ROVER = LumenProtocol.BASE_STATION)) by done.
  rewrite run_bind. change ((mret true : M (World U) bool) w1) with (Ok true : result bool, w1).
  cbv iota. rewrite run_bind. cbn [when]. rewrite Hc. cbn [when]. unfold forward.
  rewrite run_bind. unfold ask. rewrite run_gets, (heard_callback _ _ _ Hh').
  rewrite Hcb, Hpl. cbn [when].
  rewrite (handle_written cb m s _ e w'); [|by unfold attached; rewrite (heard_app _ _ _ Hh')|done].
  unfold guarded. by rewrite caught.
Qed.
End Receiving.

(** ** The rover does not look at the frame buffers *)

Section Buffers.
Context {A : AsioAddress} {J : Json} {C : Chrono} (fb : gmap string bytes).

#[local] Abbreviation T := (with_buffers fb).

#[global] Instance on_rover_buffers f : Commutes T (on_rover f).
Proof. by apply commutes_modify. Qed.
#[global] Instance ask_rover_buffers {X} (f : Rover -> X) : Commutes T (ask_rover f).
Proof. by apply commutes_gets. Qed.
#[global] Instance get_base_buffers : Commutes T Rover.get_base_endpoint.
Proof. unfold Rover.get_base_endpoint. apply _. Qed.
#[global] Instance base_endpoint_buffers : Commutes T base_endpoint.
Proof. unfold base_endpoint. apply _. Qed.
#[global] Instance rover_command_buffers c p : Commutes T (Rover.send_command c p).
Proof. unfold Rover.send_command, is_low_power_mode. cbv zeta. apply _. Qed.
#[global] Instance report_buffers m be st : Commutes T (report m be st).
Proof. unfold report, is_low_power_mode, store_message_for_later. cbv zeta. apply _. Qed.
#[global] Instance status_timer_buffers : Commutes T handle_status_timer.
Proof. unfold handle_status_timer, send_status. apply _. Qed.
#[global] Instance position_timer_buffers : Commutes T handle_position_telemetry_timer.
Proof. unfold handle_position_telemetry_timer, send_telemetry. cbv zeta. apply _. Qed.
#[global] Instance flush_buffers : Commutes T send_stored_packets.
Proof. unfold send_stored_packets. apply _. Qed.

#[global] Instance internal_command_buffers m c p : Commutes T (Rover.handle_internal_command m c p).
Proof.
  unfold Rover.handle_internal_command, handle_session_accept, handle_session_established,
    print_command, handle_set_low_power, handle_set_target, post. cbv zeta. apply _.
Qed.

#[global] Instance rover_route_buffers m e : Commutes T (Rover.route_message m e).
Proof.
  unfold Rover.route_message, handle_discovery_command, Rover.send_raw_message,
    Rover.route_application, is_low_power_mode, post. cbv zeta. apply _.
Qed.
End Buffers.

(** ** What each step of the handshake sends *)

Section Steps.
Context {A : AsioAddress} {J : Json} {C : Chrono}.
Implicit Types w : World Rover.

Definition handshaking (r : Rover) : Rover :=
  set_handshake_retry_count 0 (set_session_state HANDSHAKE_INIT
    (if bool_decide (session_state_ r = DISCONNECTED) then cancel_probe r else r)).

Lemma initiate_attempt w :
  session_state_ (app_ w) = INACTIVE \/ session_state_ (app_ w) = DISCONNECTED ->
  run_state initiate_handshake w =
  run_state (attempt "SESSION_INIT" (rover_id_ (app_ w)) handshaking rearm_handshake) w.
Proof.
  intros Hst. unfold run_state, initiate_handshake, attempt. rewrite run_bind. unfold ask_rover.
  rewrite run_gets. unfold id, handshaking.
  assert (negb (bool_decide (session_state_ (app_ w) = INACTIVE)) &&
    negb (bool_decide (session_state_ (app_ w) = DISCONNECTED)) = false) as ->.
  { by destruct Hst as [-> | ->]. }
  cbv iota. rewrite run_bind, (run_bind (on_rover _)). unfold on_rover at 1 4. rewrite run_modify. cbv iota.
  destruct Hst as [Hst|Hst]; rewrite Hst.
  - rewrite (bool_decide_false (INACTIVE = DISCONNECTED)) by done. cbn [when]. rewrite run_ret. reflexivity.
  - rewrite (bool_decide_true (DISCONNECTED = DISCONNECTED)) by done. reflexivity.
Qed.

Definition accepting (r : Rover) : Rover := cancel_handshake (set_session_state HANDSHAKE_ACCEPT r).

Lemma accept_attempt w : session_state_ (app_ w) = HANDSHAKE_INIT ->
  run_state handle_session_accept w =
  run_state (attempt "SESSION_CONFIRM" (rover_id_ (app_ w)) accepting
    (fun _ => add_posted [PostArmHandshake])) w.
Proof.
  intros Hst. unfold run_state, handle_session_accept, attempt. rewrite run_bind. unfold ask_rover.
  rewrite run_gets. unfold id. rewrite Hst.
  rewrite (bool_decide_true (HANDSHAKE_INIT = HANDSHAKE_INIT)) by done.
  rewrite (bool_decide_false (HANDSHAKE_INIT = DISCONNECTED)) by done. cbn [orb when]. cbv iota.
  rewrite !run_bind. reflexivity.
Qed.

(** What a rover does on a command of its base. *)
Lemma rover_routes c p i t be w :
  base_of_node w = Some be -> i <> rover_id_ (app_ w) -> Rover.session_command c = true ->
  Rover.route_message (CommandMessage c p i t) be w =
  Rover.handle_internal_command (CommandMessage c p i t) c p w.
Proof. intros Hb Hi Hc. by apply (route_from_base _ be w c p i t). Qed.
End Steps.

(** ** The exchange *)

Section Exchange.
Context {A : AsioAddress} `{!AsioAddressLaws A} {J : Json} {C : Chrono}.
Context `{!JsonLaws J} `{!ChronoLaws C}.
Implicit Types (r : World Rover) (b : World BaseStation).

(** The datagram a node sent last arrives at the socket of the other node, if it is for
    it. *)
Definition to_base (be re : endpoint) r b : World BaseStation :=
  match last (sent_ r) with
  | Some d => if bool_decide (dg_to d = be)
              then run_state (server_received NoError (dg_data d) re) b else b
  | None => b
  end.

Definition to_rover (be re : endpoint) b r : World Rover :=
  match last (sent_ b) with
  | Some d => if bool_decide (dg_to d = re)
              then run_state (client_received NoError (dg_data d) be) r else r
  | None => r
  end.

Lemma to_base_carries be re p ds r b : sent_ r = ds ++ [carries be p] ->
  to_base be re r b = run_state (server_received NoError (LumenPacket.to_bytes p) re) b.
Proof. intros H. unfold to_base. rewrite H, last_snoc. cbn [dg_to carries]. by rewrite bool_decide_true. Qed.

Lemma to_rover_carries be re p ds r b : sent_ b = ds ++ [carries re p] ->
  to_rover be re b r = run_state (client_received NoError (LumenPacket.to_bytes p) be) r.
Proof. intros H. unfold to_rover. rewrite H, last_snoc. cbn [dg_to carries]. by rewrite bool_decide_true. Qed.

(** The handshake: initiation, acceptance, confirmation, establishment. *)
Definition handshake (be re : endpoint) r b : World Rover * World BaseStation :=
  let r1 := run_state initiate_handshake r in
  let b1 := to_base be re r1 b in
  let r2 := to_rover be re b1 r1 in
  let b2 := to_base be re r2 b1 in
  let r3 := to_rover be re b2 r2 in
  (r3, b2).

(** Listening survives what is heard and what is sent. *)
Lemma listens_after {U} `{HasManager U} e (a : U) (w w1 w2 : World U) :
  listens e w -> heard e w w1 -> same_but_sending (set_app a w1) w2 ->
  manager a = manager (app_ w1) -> is_u8 (current_sequence_ (protocol_ w2)) -> listens e w2.
Proof.
  intros [L1 L2 L7 [L3 L4] L5 L6] [H1 H2 H3 H4 H5 H6 H7 H8 H9] S Hm Hs. split; [| | | | |done].
  - rewrite (same_running _ _ S). cbn. by rewrite H2.
  - rewrite (same_callback _ _ S). cbn. by rewrite H3.
  - rewrite (same_transport _ _ S). cbn. by apply (same_node_up (transport_ w)).
  - unfold attached. rewrite (same_app _ _ S). cbn. by rewrite Hm, H5.
  - unfold frame_buffer. rewrite (same_buffers _ _ S). exact H8.
Qed.

Lemma listens_operational {U} `{HasManager U} e (w : World U) : listens e w -> operational w.
Proof. by intros [H1 _ _ [H2 _] _ _]. Qed.

Lemma heard_refl {U} `{HasManager U} e (w : World U) : listens e w -> heard e w w.
Proof. intros [_ _ _ _ H1 H2]. by split. Qed.

(** And what the socket does around a handler. *)
Lemma listens_socketed {U} `{HasManager U} e (w w' : World U) :
  same_but_socket w w' -> listens e w -> listens e w'.
Proof.
  intros S [L1 L2 L3 L4 L5 L6]. pose proof S as [_ S2 S3 S4 S5 S6].
  split; rewrite ?S2; try done; [by apply (socket_still_up w)| |].
  - unfold attached. by rewrite S6.
  - unfold frame_buffer. by rewrite S2.
Qed.

(** A command's packet. *)
Lemma command_packet_ok now seq text :
  is_u8 seq -> vec_size (string_to_binary text) < 65536 -> packet_ok (command_packet now seq text).
Proof.
  intros Hs Hsz. apply make_packet_ok; [|auto using string_to_binary_ok..].
  split_and!; cbn; [done|unfold timestamp_of; auto with lumen..].
Qed.

(** *** The five steps *)

(** A base station that hears a rover outside a session. *)
Record awaiting (re : endpoint) (st : session) b : Prop := {
  await_inv : session_inv b;
  await_listens : listens re b;
  await_session : session_of (app_ b) = st;
  await_reach : reachable (transport_ b) re;
  await_acked : forall n, has_acked_sequence n re (rm b) = false;
}.

Lemma awaiting_silent re st b : awaiting re st b -> (forall i e, st <> BaseSession.Active i e) ->
  session_active_ (protocol_ b) = false.
Proof.
  intros [Hi _ Hs _ _] Hst. destruct (session_active_ (protocol_ b)) eqn:E; [|done].
  pose proof (inv_active b Hi E) as Ha. exfalso. revert Hs. unfold session_of. rewrite Ha.
  intros <-. by eapply Hst.
Qed.

Lemma awaiting_heard re st b b' : awaiting re st b -> heard re b b' ->
  (forall n, has_acked_sequence n re (rm b') = has_acked_sequence n re (rm b)) -> awaiting re st b'.
Proof.
  intros [[I1 I2 I3 I4] L S R K] Hh Hk. pose proof Hh as [H1 H2 H3 H4 H5 H6 H7 H8 H9].
  split; rewrite ?H5; try done.
  - split; rewrite ?H4, ?H5; try done. unfold mode_ in *. by rewrite (same_node_mode _ _ H1).
  - destruct L as [L1 L2 L3 L4 L5 L6]. split; unfold attached in *; rewrite ?H2, ?H3, ?H5; try done.
    by apply (same_node_up (transport_ b)).
  - by apply (same_node_reachable (transport_ b)).
  - intros n. by rewrite Hk.
Qed.

(** The command a node sent last, and a text that fits a receive buffer with the packet
    around it. *)
Definition commanded {U} (e : endpoint) (now : Z) (text : string) (w : World U) : Prop :=
  exists ds seq, is_u8 seq /\ sent_ w = ds ++ [carries e (command_packet now seq text)].

Definition fits (buffer_size : Z) (m : Message) (text : string) : Prop :=
  written m text /\ vec_size (string_to_binary text) + 12 <= buffer_size.

Lemma commanded_socketed {U} e now text (w w' : World U) :
  same_but_socket w w' -> commanded e now text w -> commanded e now text w'.
Proof. intros S (ds & seq & H1 & H2). exists ds, seq. by rewrite (socket_sent _ _ S). Qed.

Lemma command_packet_fits n now seq text : vec_size (string_to_binary text) + 12 <= n ->
  packet_fits n (command_packet now seq text).
Proof. intros H. unfold packet_fits, total_size, LUMEN_HEADER_SIZE. cbn. lia. Qed.

Lemma awaiting_socketed re st b b' : same_but_socket b b' -> awaiting re st b -> awaiting re st b'.
Proof.
  intros S [[I1 I2 I3 I4] L R E K]. pose proof S as [S1 S2 S3 S4 S5 S6].
  split; [|by apply (listens_socketed re b)|by rewrite S6|by apply (same_node_reachable (transport_ b))|].
  - split; rewrite ?S2, ?S6; try done. by rewrite (socket_mode _ _ S).
  - intros n. unfold rm. by rewrite S2, <- (K n).
Qed.

(** A command of the rover arrives at the base station. *)
Lemma base_gets be re st now c p rid t text r b :
  awaiting re st b -> (forall i e, st <> BaseSession.Active i e) ->
  commanded be now text r -> fits SERVER_SOCK_BUF_SIZE (CommandMessage c p rid t) text ->
  exists b', awaiting re st b' /\ app_ b' = app_ b /\ system_now b' = system_now b /\
    to_base be re r b =
    server_rearmed (run_state (BaseStation.route_message (CommandMessage c p rid t) re) b').
Proof.
  intros Hb Hst (ds & seq & Hseq & Hsent) [Hw Hsz].
  rewrite (to_base_carries be re _ _ _ _ Hsent). unfold server_received.
  destruct (base_hears BaseStation.route_message (command_packet now seq text)
    (CommandMessage c p rid t) text re b) as (b' & H1 & H2 & H3 & H4);
    [apply Hb|apply Hb|by apply (awaiting_silent re st)|apply Hb
    |apply command_packet_ok; [done|unfold SERVER_SOCK_BUF_SIZE in Hsz; lia]|done
    |by apply command_packet_fits|done..|].
  exists b'. split; [by apply (awaiting_heard re st b)|]. destruct H1. done.
Qed.

(** *** The rover's side *)

Record rover_at (be : endpoint) (st : SessionState) (rid : string) (now : Z) r : Prop := {
  at_connected : connected be r;
  at_listens : listens be r;
  at_session : session_state_ (app_ r) = st;
  at_id : rover_id_ (app_ r) = rid;
  at_system : system_now r = now;
}.

Lemma same_node_client be r r' : same_node (transport_ r) (transport_ r') ->
  client_of be r -> client_of be r'.
Proof.
  intros H (c & Hc & Hb). revert H. rewrite Hc. unfold client_of.
  destruct (transport_ r') as [s|c']; [done|]. intros [[H1 _] _]. exists c'. split; [done|]. by rewrite H1.
Qed.

Lemma rover_at_heard be st rid now r r' :
  rover_at be st rid now r -> heard be r r' -> rover_at be st rid now r'.
Proof.
  intros [[[C1 C2] C3 C4] [L1 L2 L6 L3 L4 L5] S I T] [H1 H2 H3 H4 H5 H6 H7 H8 H9].
  unfold attached in *. split; unfold attached; rewrite ?H5, ?H7; try done.
  - split; [split; by rewrite ?H5, ?H2|by apply (same_node_client be r)|done].
  - split; unfold attached; rewrite ?H5, ?H2, ?H3; try done. by apply (same_node_up (transport_ r)).
Qed.

Lemma rover_at_socketed be st rid now r r' :
  same_but_socket r r' -> rover_at be st rid now r -> rover_at be st rid now r'.
Proof.
  intros Sk [[[C1 C2] C3 C4] L S I T]. pose proof Sk as [S1 S2 S3 S4 S5 S6].
  split; [|by apply (listens_socketed be r)|by rewrite S6..|by rewrite S5].
  split; [split; by rewrite ?S6, ?S2|by apply (same_node_client be r)|done].
Qed.

Lemma rover_attempts be st st' rid now c f g text r :
  rover_at be st rid now r -> serialise (CommandMessage c rid rid now) = Ok text ->
  let r0 := g (steady_now r) (f (app_ r)) in
  rover_id_ (f (app_ r)) = rid -> rover_id_ r0 = rid -> session_state_ r0 = st' ->
  session_state_ (f (app_ r)) <> DISCONNECTED \/ c = "SESSION_INIT"%string ->
  message_manager_ (f (app_ r)) = message_manager_ (app_ r) ->
  message_manager_ r0 = message_manager_ (app_ r) ->
  let r' := run_state (attempt c rid f g) r in
  rover_at be st' rid now r' /\ commanded be now text r'.
Proof.
  intros [Hc Hl _ _ Ht] Hs r0 Hi Hi' Hst Hgo Hm Hm' r'.
  destruct (attempt_sends be c rid f g text r) as (H1 & H2 & S); [done| |done|done|].
  { unfold command_text. cbn. by rewrite Hi, Ht. }
  fold r' r0 in H1, H2, S. rewrite Ht in H1. split.
  - split; rewrite ?(app_after _ _ _ S), ?(system_after _ _ _ S); try done.
    + by apply (connected_same _ _ _ S), connected_app.
    + apply (listens_after be r0 r r r'); [done|by apply heard_refl|exact S|exact Hm'|].
      rewrite H2. apply u8_range.
  - eexists _, _. split; [apply (listens_seq _ _ Hl)|exact H1].
Qed.

(** A command of the base station arrives at the rover. *)
Lemma rover_gets be re st rid now bnow c p sid t text r b :
  rover_at be st rid now r -> sid <> rid -> Rover.session_command c = true ->
  commanded re bnow text b -> fits CLIENT_SOCK_BUF_SIZE (CommandMessage c p sid t) text ->
  exists r', rover_at be st rid now r' /\ app_ r' = app_ r /\ steady_now r' = steady_now r /\
    to_rover be re b r =
    client_rearmed (run_state (Rover.handle_internal_command (CommandMessage c p sid t) c p) r').
Proof.
  intros Hr Hid Hcmd (ds & seq & Hseq & Hsent) [Hw Hsz]. pose proof Hr as [Hc Hl _ Hi _].
  rewrite (to_rover_carries be re _ _ _ _ Hsent). unfold client_received.
  destruct (rover_hears Rover.route_message (command_packet bnow seq text)
    (CommandMessage c p sid t) text be r) as (r' & H1 & H2); [done| |apply command_packet_ok; [done|unfold CLIENT_SOCK_BUF_SIZE in Hsz; lia]|done
    |by apply command_packet_fits|done..|].
  { destruct Hc as [_ (cl & Ht & _) _]. unfold mode_. by rewrite Ht. }
  pose proof (rover_at_heard be st rid now r r' Hr H1) as Hr'.
  exists r'. split; [done|]. split; [by destruct H1|]. split; [by destruct H1|].
  rewrite H2. f_equal. unfold run_state. rewrite rover_routes; [done| |by rewrite (at_id _ _ _ _ _ Hr')|done].
  apply connected_base_of, (at_connected _ _ _ _ _ Hr').
Qed.

(** The initiation, the confirmation, and what the rover does last. *)
Lemma rover_initiates be st rid now text r :
  rover_at be st rid now r -> st = INACTIVE \/ st = DISCONNECTED ->
  serialise (CommandMessage "SESSION_INIT" rid rid now) = Ok text ->
  let r' := run_state initiate_handshake r in
  rover_at be HANDSHAKE_INIT rid now r' /\ commanded be now text r'.
Proof.
  intros Hr Hst Ht r'. pose proof Hr as [_ _ S I _]. unfold r'.
  rewrite initiate_attempt by (by rewrite S). rewrite I.
  apply (rover_attempts be st); try done; unfold handshaking; try by destruct (bool_decide _).
  by right.
Qed.

Lemma rover_confirms be re rid now bnow p sid t text text' r b :
  rover_at be HANDSHAKE_INIT rid now r -> sid <> rid ->
  commanded re bnow text b -> fits CLIENT_SOCK_BUF_SIZE (CommandMessage "SESSION_ACCEPT" p sid t) text ->
  serialise (CommandMessage "SESSION_CONFIRM" rid rid now) = Ok text' ->
  let r' := to_rover be re b r in
  rover_at be HANDSHAKE_ACCEPT rid now r' /\ commanded be now text' r'.
Proof.
  intros Hr Hne Hb Hf Ht r'.
  destruct (rover_gets be re _ _ _ _ "SESSION_ACCEPT" _ _ _ _ _ _ Hr Hne eq_refl Hb Hf) as (r1 & Hr1 & _ & _ & E).
  unfold r'. rewrite E. pose proof Hr1 as [_ _ S I _].
  change (Rover.handle_internal_command _ _ _) with handle_session_accept.
  rewrite accept_attempt by done. rewrite I.
  match goal with |- context [client_rearmed ?r2] => pose proof (client_rearmed_same r2) as Sk;
    assert (rover_at be HANDSHAKE_ACCEPT rid now r2 /\ commanded be now text' r2) as [H1 H2] end.
  { by apply (rover_attempts be HANDSHAKE_INIT); try left. }
  split; [by eapply rover_at_socketed|by eapply commanded_socketed].
Qed.

Lemma rover_establishes be re rid now bnow p sid t text r b :
  rover_at be HANDSHAKE_ACCEPT rid now r -> sid <> rid ->
  commanded re bnow text b -> fits CLIENT_SOCK_BUF_SIZE (CommandMessage "SESSION_ESTABLISHED" p sid t) text ->
  let r' := to_rover be re b r in
  session_state_ (app_ r') = ACTIVE /\ stored_packets_ (app_ r') = [].
Proof.
  intros Hr Hne Hb Hf r'.
  destruct (rover_gets be re _ _ _ _ "SESSION_ESTABLISHED" _ _ _ _ _ _ Hr Hne eq_refl Hb Hf) as (r1 & Hr1 & _ & _ & E).
  unfold r'. rewrite E. pose proof Hr1 as [_ _ S _ _].
  change (Rover.handle_internal_command _ _ _) with handle_session_established.
  destruct (runs_established r1) as (r2 & H & Hs). unfold run_state. rewrite H. cbn [snd].
  rewrite (socket_app _ _ (client_rearmed_same r2)).
  rewrite (app_after _ _ _ Hs). unfold established_effect. by rewrite S.
Qed.

(** *** The base station's side *)

Lemma awaiting_after re st st' a b b' :
  awaiting re st b -> same_but_sending a b' ->
  transport_ a = transport_ b -> frame_buffers_ (protocol_ a) = frame_buffers_ (protocol_ b) ->
  LumenProtocol.running_ (protocol_ a) = LumenProtocol.running_ (protocol_ b) ->
  LumenProtocol.message_callback_ (protocol_ a) = LumenProtocol.message_callback_ (protocol_ b) ->
  manager (app_ a) = manager (app_ b) -> session_of (app_ a) = st' ->
  session_inv b' -> is_u8 (current_sequence_ (protocol_ b')) ->
  (forall n, has_acked_sequence n re (rm b') = has_acked_sequence n re (rm b)) ->
  awaiting re st' b'.
Proof.
  intros [I [L1 L2 L6 L3 L4 L5] S R K] H Ht Hf Hr Hc Hm Hs Hi Hseq Hk.
  split; [done| |by rewrite (same_app _ _ H)|by rewrite (same_transport _ _ H), Ht|].
  - split; [by rewrite (same_running _ _ H), Hr|by rewrite (same_callback _ _ H), Hc
      |by rewrite (same_transport _ _ H), Ht| | |done].
    + unfold attached in *. by rewrite (same_app _ _ H), Hm.
    + unfold frame_buffer in *. by rewrite (same_buffers _ _ H), Hf.
  - intros n. by rewrite Hk.
Qed.

Lemma base_accepts be re rid now p t text text' r b :
  awaiting re NoSession b -> commanded be now text r ->
  fits SERVER_SOCK_BUF_SIZE (CommandMessage "SESSION_INIT" p rid t) text ->
  let sid := station_id_ (app_ b) in
  serialise (CommandMessage "SESSION_ACCEPT" sid sid (system_now b)) = Ok text' ->
  let b' := to_base be re r b in
  awaiting re (Pending rid re) b' /\ station_id_ (app_ b') = sid /\ system_now b' = system_now b /\
  commanded re (system_now b) text' b'.
Proof.
  intros Hb Hr Hf sid Ht b'.
  destruct (base_gets be re _ _ _ _ _ _ _ _ _ Hb ltac:(done) Hr Hf) as (b1 & Hb1 & Ha & Hn & E).
  pose proof Hb1 as [I L S R K]. unfold sid in *. rewrite <- Ha, <- Hn in *.
  destruct (init_accepted rid re p t text' b1) as (H1 & H2 & H3 & H4);
    [done|by apply (listens_operational re)|done..|].
  unfold b'. rewrite E. set (b2 := run_state _ b1) in *.
  pose proof (server_rearmed_same b2) as Sk. split; [|split; [|split]].
  - apply (awaiting_socketed re _ b2 _ Sk), (awaiting_after re NoSession _ _ b1 b2 Hb1 H1); try done.
    + by apply route_message_inv.
    + rewrite H3. apply u8_range.
    + intros n. rewrite H4. apply has_acked_add.
  - by rewrite (socket_app _ _ Sk), (same_app _ _ H1).
  - by rewrite (socket_system _ _ Sk), (same_system _ _ H1).
  - apply (commanded_socketed _ _ _ b2 _ Sk). eexists _, _. split; [apply (listens_seq _ _ L)|exact H2].
Qed.

Lemma base_establishes be re rid now p t text text' r b :
  awaiting re (Pending rid re) b -> commanded be now text r ->
  fits SERVER_SOCK_BUF_SIZE (CommandMessage "SESSION_CONFIRM" p rid t) text ->
  let sid := station_id_ (app_ b) in
  serialise (CommandMessage "SESSION_ESTABLISHED" sid sid (system_now b)) = Ok text' ->
  let b' := to_base be re r b in
  session_of (app_ b') = BaseSession.Active rid re /\ session_active_ (protocol_ b') = true /\
  commanded re (system_now b) text' b'.
Proof.
  intros Hb Hr Hf sid Ht b'.
  destruct (base_gets be re _ _ _ _ _ _ _ _ _ Hb ltac:(done) Hr Hf) as (b1 & Hb1 & Ha & Hn & E).
  pose proof Hb1 as [I L S R K]. unfold sid in *. rewrite <- Ha, <- Hn in *.
  destruct (confirm_established rid re p t text' b1) as (H1 & H2 & H3 & H4);
    [done|by apply (listens_operational re)|done..|].
  unfold b'. rewrite E. set (b2 := run_state _ b1) in *.
  pose proof (server_rearmed_same b2) as Sk. split; [|split].
  - by rewrite (socket_app _ _ Sk).
  - by rewrite (socket_protocol _ _ Sk), (same_session _ _ H1).
  - apply (commanded_socketed _ _ _ b2 _ Sk). eexists _, _. split; [apply (listens_seq _ _ L)|exact H3].
Qed.

(** *** The handshake *)

(** C8: A rover that starts a handshake, and the base station it knows, which has no
    session: when the four datagrams of the handshake arrive at the sockets of the two,
    their texts fitting into the receive buffers, both nodes have an active session, the
    base with this rover at this endpoint and acknowledging its packets, the rover with
    nothing stored any more. *)
Theorem session_established_end_to_end be re r b t1 t2 t3 t4 :
  connected be r -> listens be r ->
  session_state_ (app_ r) = INACTIVE \/ session_state_ (app_ r) = DISCONNECTED ->
  awaiting re NoSession b -> station_id_ (app_ b) <> rover_id_ (app_ r) ->
  let rid := rover_id_ (app_ r) in
  let sid := station_id_ (app_ b) in
  fits SERVER_SOCK_BUF_SIZE (CommandMessage "SESSION_INIT" rid rid (system_now r)) t1 ->
  fits CLIENT_SOCK_BUF_SIZE (CommandMessage "SESSION_ACCEPT" sid sid (system_now b)) t2 ->
  fits SERVER_SOCK_BUF_SIZE (CommandMessage "SESSION_CONFIRM" rid rid (system_now r)) t3 ->
  fits CLIENT_SOCK_BUF_SIZE (CommandMessage "SESSION_ESTABLISHED" sid sid (system_now b)) t4 ->
  let '(r', b') := handshake be re r b in
  session_state_ (app_ r') = ACTIVE /\ stored_packets_ (app_ r') = [] /\
  session_of (app_ b') = BaseSession.Active rid re /\ session_active_ (protocol_ b') = true.
Proof.
  intros Hc Hl Hst Hb Hne rid sid F1 F2 F3 F4. unfold handshake.
  destruct (rover_initiates be (session_state_ (app_ r)) rid (system_now r) t1 r) as [R1 S1];
    [by split|exact Hst|apply F1|].
  destruct (base_accepts be re rid _ _ _ t1 t2 _ b Hb S1 F1) as (B1 & I1 & N1 & T1); [apply F2|].
  destruct (rover_confirms be re rid _ _ _ sid _ t2 t3 _ _ R1 Hne T1 F2) as [R2 S2]; [apply F3|].
  destruct (base_establishes be re rid _ _ _ t3 t4 _ _ B1 S2 F3) as (B2 & A2 & T2).
  { rewrite I1, N1. apply F4. }
  rewrite N1 in T2.
  destruct (rover_establishes be re rid _ _ _ sid _ t4 _ _ R2 Hne T2 F4) as [R3 S3].
  done.
Qed.
End Exchange.

Section Witnesses.
Import Ipv4 SampleLibraries Sample SampleBase SampleRover.

Lemma sample_fits n c i :
  (vec_size (string_to_binary (text_of (CommandMessage c i i 0))) + 12 <=? n) = true ->
  fits n (CommandMessage c i i 0) (text_of (CommandMessage c i i 0)).
Proof. intros H%Z.leb_le. split; [|exact H]. split; [done|]. split; [done|by eexists]. Qed.

(** A lost rover with two messages stored meets an idle base station. *)
Definition lost_rover : World Rover := rover_of (sample_rover DISCONNECTED two_stored).

Lemma lost_listens : listens base_ep lost_rover.
Proof. by split. Qed.

Lemma idle_awaiting : awaiting rover_ep NoSession idle_station.
Proof. split; [apply idle_inv|by split|done|by split|done]. Qed.

Lemma session_established_end_to_end_witness :
  let '(r', b') := handshake base_ep rover_ep lost_rover idle_station in
  session_state_ (app_ r') = ACTIVE /\ session_of (app_ b') = BaseSession.Active "grp18-rover" rover_ep.
Proof.
  pose proof (session_established_end_to_end base_ep rover_ep lost_rover idle_station
    (text_of (CommandMessage "SESSION_INIT" "grp18-rover" "grp18-rover" 0))
    (text_of (CommandMessage "SESSION_ACCEPT" "base" "base" 0))
    (text_of (CommandMessage "SESSION_CONFIRM" "grp18-rover" "grp18-rover" 0))
    (text_of (CommandMessage "SESSION_ESTABLISHED" "base" "base" 0))
    (rover_connected _ _) lost_listens (or_intror eq_refl) idle_awaiting ltac:(discriminate)
    (sample_fits 1024 "SESSION_INIT" "grp18-rover" eq_refl) (sample_fits 1024 "SESSION_ACCEPT" "base" eq_refl)
    (sample_fits 1024 "SESSION_CONFIRM" "grp18-rover" eq_refl)
    (sample_fits 1024 "SESSION_ESTABLISHED" "base" eq_refl)) as H.
  destruct (handshake _ _ _ _) as [r' b']. destruct H as (H1 & _ & H3 & _). exact (conj H1 H3).
Defined.
End Witnesses.
