(* ===== verification/Receiving.v ===== *)
(** * The sockets of the nodes over whole runs

    A node that runs keeps listening, whatever its handlers do with what it hears; the
    socket of a node that was stopped stays closed. *)
From S2P Require Import Prelude Configs Crc8 LumenHeader LumenPacket Asio ReliabilityManager.
From S2P Require Import UdpServer UdpClient Libraries Messages LumenProtocol ProtocolFacts Framing.
From S2P Require Import Delivery MessageManager Doubles BaseStation BaseSession Discovery Rover.
From S2P Require Import RoverEffects RoverSession.

(** ** Properties of a node's transport *)

Section Transport.
Context {A : AsioAddress} {J : Json} {C : Chrono} {U : Type}.

Definition on_transport (P : transport -> Prop) (w : World U) : Prop := P (transport_ w).

#[global] Instance on_transport_stable P : Stable (on_transport P).
Proof. intros w w' [Ht _ _] Hw. unfold on_transport in *. by rewrite Ht. Qed.
End Transport.

#[export] Hint Extern 3 (Preserves (on_transport _) (modify _)) =>
  (apply preserves_modify; let H := fresh in intros ? H; exact H) : typeclass_instances.

Section Runs.
Context {A : AsioAddress} {J : Json} {C : Chrono}.

(** What happens to a base station changes its server only when it starts, stops or
    receives. *)
Lemma base_exec_transport P ev :
  (forall s, P (Server s) -> P (Server (UdpServer.start s))) ->
  (forall s, P (Server s) -> P (Server (UdpServer.stop s))) ->
  (forall ec data sender, ev = BaseReceive ec data sender ->
     Preserves (on_transport P) (server_received ec data sender)) ->
  Preserves (on_transport P) (base_exec ev).
Proof.
  intros Hstart Hstop Hrecv.
  assert (forall f, (forall s, P (Server s) -> P (Server (f s))) -> Preserves (on_transport P) (on_server f)) as H.
  { intros f Hf. apply preserves_modify. unfold on_transport. intros w Hw.
    destruct (transport_ w) eqn:E; [by apply Hf|by rewrite E]. }
  pose proof (H _ Hstart). pose proof (H _ Hstop).
  destruct ev; cbn [base_exec]; [| |by apply Hrecv|..];
    unfold BaseStation.start, BaseStation.stop, MessageManager.start, MessageManager.stop,
      MessageManager.set_message_callback, BaseStation.send_message, BaseStation.send_raw_message,
      MessageManager.send_message, MessageManager.send_raw_message,
      set_low_power_mode, set_rover_target, BaseStation.send_command, set_status_callback,
      BaseStation.set_application_message_handler, on_manager, ask_manager, ask_base, on_base, on_protocol;
    cbv zeta; try apply _.
Qed.

(** The handlers of a rover do not change its client. *)
Lemma runs_transport P m f : (forall w, runs m (f w) w) -> Preserves (on_transport P) m.
Proof.
  intros Hm. apply (runs_preserves _ m f); [|done|by intros].
  intros w w' S. unfold on_transport. by rewrite (same_transport _ _ S).
Qed.

#[global] Instance initiate_transport P : Preserves (on_transport P) initiate_handshake.
Proof. apply (runs_transport _ _ _ runs_initiate). Qed.
#[global] Instance packet_timeout_transport P e : Preserves (on_transport P) (handle_packet_timeout e).
Proof. apply (runs_transport _ _ _ (runs_packet_timeout e)). Qed.
#[global] Instance accept_transport P : Preserves (on_transport P) handle_session_accept.
Proof. apply (runs_transport _ _ _ runs_accept). Qed.
#[global] Instance established_transport P : Preserves (on_transport P) handle_session_established.
Proof. apply (runs_transport _ _ _ runs_established). Qed.
#[global] Instance rover_command_transport P c p : Preserves (on_transport P) (Rover.send_command c p).
Proof. apply (runs_transport _ _ _ (runs_command c p)). Qed.
#[global] Instance telemetry_transport P readings : Preserves (on_transport P) (send_telemetry readings).
Proof. apply (runs_transport _ _ _ (runs_telemetry readings)). Qed.
#[global] Instance status_transport P : Preserves (on_transport P) send_status.
Proof. apply (runs_transport _ _ _ runs_status). Qed.
#[global] Instance rover_send_transport P m e : Preserves (on_transport P) (Rover.send_message m e).
Proof. apply (runs_transport _ _ _ (runs_send_message m e)). Qed.
#[global] Instance manager_send_transport P m e : Preserves (on_transport P) (MessageManager.send_message (U:=Rover) m e).
Proof. apply (runs_transport _ _ _ (runs_manager_send m e)). Qed.
#[global] Instance manager_send_raw_transport P m e : Preserves (on_transport P) (MessageManager.send_raw_message (U:=Rover) m e).
Proof. apply (runs_transport _ _ _ (runs_manager_send_raw m e)). Qed.
#[global] Instance status_timer_transport P : Preserves (on_transport P) handle_status_timer.
Proof. apply (runs_transport _ _ _ runs_status_timer). Qed.
#[global] Instance handshake_timer_transport P : Preserves (on_transport P) handle_handshake_timer.
Proof. apply (runs_transport _ _ _ runs_handshake_timer). Qed.
#[global] Instance position_timer_transport P : Preserves (on_transport P) handle_position_telemetry_timer.
Proof. apply (runs_transport _ _ _ runs_position_timer). Qed.
#[global] Instance probe_timer_transport P : Preserves (on_transport P) handle_probe_timer.
Proof. apply (runs_transport _ _ _ runs_probe). Qed.

#[global] Instance base_endpoint_transport P : Preserves (on_transport P) base_endpoint.
Proof. intros w Hw. unfold run_state. by rewrite base_endpoint_run. Qed.

#[global] Instance rover_send_raw_transport P m e : Preserves (on_transport P) (Rover.send_raw_message m e).
Proof.
  unfold Rover.send_raw_message, Rover.get_base_endpoint, is_low_power_mode, ask_rover. apply _.
Qed.

#[global] Instance route_transport P m e : Preserves (on_transport P) (Rover.route_message m e).
Proof.
  unfold Rover.route_message, Rover.handle_internal_command, print_command, handle_set_low_power,
    handle_set_target, handle_discovery_command, Rover.route_application, is_low_power_mode, Rover.post,
    on_rover, ask_rover.
  cbv zeta. apply _.
Qed.

#[global] Instance movement_transport P : Preserves (on_transport P) handle_movement_timer.
Proof.
  unfold handle_movement_timer, Rover.get_base_endpoint, update_current_position, on_rover, ask_rover.
  cbv zeta. apply _.
Qed.

(** The same of a rover and its client. *)
Lemma rover_exec_transport P ev :
  (forall c, P (Client c) -> P (Client (start_receive c))) ->
  (forall c, P (Client c) -> P (Client (stop_receive c))) ->
  (forall ec data sender, ev = RoverReceive ec data sender ->
     Preserves (on_transport P) (client_received ec data sender)) ->
  (forall ec, ev = RoverReceiveRetry ec -> Preserves (on_transport P) (client_retry ec)) ->
  Preserves (on_transport P) (rover_exec ev).
Proof.
  intros Hstart Hstop Hrecv Hretry.
  assert (forall f, (forall c, P (Client c) -> P (Client (f c))) -> Preserves (on_transport P) (on_client f)) as H.
  { intros f Hf. apply preserves_modify. unfold on_transport. intros w Hw.
    destruct (transport_ w) eqn:E; [by rewrite E|by apply Hf]. }
  pose proof (H _ Hstart). pose proof (H _ Hstop).
  destruct ev; cbn [rover_exec]; [| |by apply Hrecv|by apply Hretry|..];
    unfold Rover.start, Rover.stop, timer_completed, timer_handler, run_posted, run_handler,
      MessageManager.start, MessageManager.stop, MessageManager.set_message_callback, on_manager,
      ask_manager, on_timeout, Rover.post, Rover.scan_for_rovers, is_low_power_mode, update_status,
      update_current_position, register_application_handler, register_discovery_handler, on_rover,
      ask_rover, on_protocol; cbv zeta; try apply _.
Qed.
End Runs.

(** ** Listening *)

Section Listening.
Context {A : AsioAddress} {J : Json} {C : Chrono}.

(** A server that runs has a receive outstanding. *)
Definition server_listens (t : transport) : Prop :=
  exists s, t = Server s /\ (UdpServer.running_ s = true -> UdpServer.receiving_ s = true).

(** A client has one too, or, after an error, the timer armed that starts the next. *)
Definition client_listens (t : transport) : Prop :=
  exists c, t = Client c /\ (UdpClient.running_ c = true ->
    UdpClient.receiving_ c = true \/ exists tm, retry_timer_ c = Some tm /\ pending tm = true).

(** A receive is aborted only by closing the socket, which only stopping does. *)
Definition base_possible (ev : base_event) (w : World BaseStation) : Prop :=
  match ev with
  | BaseReceive OperationAborted _ _ => UdpServer.running_ (node_server w) = false
  | _ => True
  end.

(** Nor does anything cancel the retry timer. *)
Definition rover_possible (ev : rover_event) (w : World Rover) : Prop :=
  match ev with
  | RoverReceive OperationAborted _ _ => UdpClient.running_ (node_client w) = false
  | RoverReceiveRetry ec => ec = NoError
  | _ => True
  end.

Fixpoint base_possible_run (evs : list base_event) (w : World BaseStation) : Prop :=
  match evs with
  | [] => True
  | ev :: evs => base_possible ev w /\ base_possible_run evs (run_state (base_exec ev) w)
  end.

Fixpoint rover_possible_run (evs : list rover_event) (w : World Rover) : Prop :=
  match evs with
  | [] => True
  | ev :: evs => rover_possible ev w /\ rover_possible_run evs (run_state (rover_exec ev) w)
  end.

#[global] Instance base_datagram_transport P data e :
  Preserves (on_transport P) (BaseStation.on_datagram data e).
Proof.
  unfold BaseStation.on_datagram. apply handle_udp_data_stable; [apply _|]. intros pl h e'.
  apply handle_lumen_message_preserves. intros m e''.
  unfold BaseStation.route_message, BaseStation.route_application,
    BaseStation.handle_internal_command, handle_session_init, handle_session_confirm,
    handle_internal_status, handle_internal_telemetry, BaseStation.send_command,
    MessageManager.send_message, BaseStation.post, on_base, ask_base, ask_manager, on_protocol.
  cbv zeta. apply _.
Qed.

#[global] Instance rover_datagram_transport P data e :
  Preserves (on_transport P) (Rover.on_datagram data e).
Proof. unfold Rover.on_datagram. apply _. Qed.

Lemma then_modify {W} (m : M W unit) `{!NoThrow m} f w :
  run_state (m ;; modify f) w = f (run_state m w).
Proof. by rewrite run_state_then. Qed.

(** The completion of a receive, whatever the callback does. *)
Lemma server_received_listens ec data sender w :
  server_listens (transport_ w) -> base_possible (BaseReceive ec data sender) w ->
  server_listens (transport_ (run_state (server_received ec data sender) w)).
Proof.
  intros (s & Ht & Hl) Hp. unfold server_received, server_receive, receive_completed, node_server.
  change (handle_udp_data _) with BaseStation.on_datagram.
  rewrite run_state_then by apply _. set (w1 := run_state (modify _) w).
  assert (exists s1, transport_ w1 = Server s1 /\ UdpServer.running_ s1 = UdpServer.running_ s)
    as (s1 & Ht1 & Hr1).
  { unfold w1, run_state, set_node_server. rewrite run_modify. cbn [snd]. rewrite Ht. by eexists. }
  clearbody w1. unfold run_state at 1. rewrite run_bind, run_gets, Ht1.
  match goal with |- context [snd (?m w1)] => change (snd (m w1)) with (run_state m w1) end.
  destruct (bool_decide (ec = NoError) && UdpServer.running_ s1) eqn:Hok.
  - rewrite then_modify by apply _.
    match goal with |- context [run_state ?m w1] =>
      assert (on_transport (fun t => exists s, t = Server s) (run_state m w1)) as (s2 & Ht2) end.
    { apply preserves. by eexists. }
    match goal with H : transport_ ?x = Server s2 |- _ => set (w2 := x) in * end. clearbody w2.
    rewrite Ht2. destruct (UdpServer.running_ s2) eqn:Hs2.
    + unfold set_node_server. rewrite Ht2. eexists. split; [reflexivity|]. unfold receive_data.
      by rewrite Hs2.
    + exists s2. split; [exact Ht2|]. by rewrite Hs2.
  - destruct (bool_decide (ec = OperationAborted)) eqn:Ha.
    + apply bool_decide_eq_true in Ha as ->. exists s1. split; [exact Ht1|].
      revert Hp. cbn. unfold node_server. rewrite Ht, Hr1. by intros ->.
    + destruct (UdpServer.running_ s1) eqn:Hs1.
      * unfold run_state. rewrite run_modify. cbn [snd]. unfold set_node_server. rewrite Ht1.
        by eexists.
      * exists s1. split; [exact Ht1|]. by rewrite Hs1.
Qed.

Lemma client_received_listens ec data sender w :
  client_listens (transport_ w) -> rover_possible (RoverReceive ec data sender) w ->
  client_listens (transport_ (run_state (client_received ec data sender) w)).
Proof.
  intros (c & Ht & Hl) Hp. unfold client_received, client_receive.
  change (handle_udp_data _) with Rover.on_datagram. unfold run_state at 1. rewrite run_bind, run_gets.
  match goal with |- context [snd (?m w)] => change (snd (m w)) with (run_state m w) end.
  unfold handle_receive. rewrite run_state_then by apply _. set (w1 := run_state (modify _) w).
  assert (exists c1, transport_ w1 = Client c1 /\ UdpClient.running_ c1 = UdpClient.running_ c)
    as (c1 & Ht1 & Hr1).
  { unfold w1, run_state, set_node_client, node_client. rewrite run_modify. cbn [snd]. rewrite Ht.
    eexists. split; [reflexivity|]. by destruct (bool_decide _). }
  clearbody w1. unfold run_state at 1. rewrite run_bind, run_gets.
  assert (node_client w1 = c1) as -> by (unfold node_client; by rewrite Ht1).
  match goal with |- context [snd (?m w1)] => change (snd (m w1)) with (run_state m w1) end.
  destruct (bool_decide (ec = NoError) && UdpClient.running_ c1) eqn:Hok.
  - rewrite then_modify by apply _.
    match goal with |- context [run_state ?m w1] =>
      assert (on_transport (fun t => exists c, t = Client c) (run_state m w1)) as (c2 & Ht2) end.
    { apply preserves. by eexists. }
    match goal with H : transport_ ?x = Client c2 |- _ => set (w2 := x) in * end. clearbody w2.
    cbv beta. unfold set_node_client, node_client. rewrite Ht2. destruct (UdpClient.running_ c2) eqn:Hc2.
    + eexists. split; [reflexivity|]. unfold do_receive.
      rewrite Hc2. by left.
    + exists c2. split; [exact Ht2|]. by rewrite Hc2.
  - destruct (bool_decide (ec = OperationAborted)) eqn:Ha.
    + apply bool_decide_eq_true in Ha as ->. exists c1. split; [exact Ht1|].
      revert Hp. cbn. unfold node_client. rewrite Ht, Hr1. by intros ->.
    + destruct (UdpClient.running_ c1) eqn:Hc1.
      * unfold run_state. rewrite run_modify. cbn [snd]. unfold set_node_client, node_client. rewrite Ht1.
        eexists. split; [reflexivity|]. right. by eexists.
      * exists c1. split; [exact Ht1|]. by rewrite Hc1.
Qed.

Lemma client_retry_listens ec w : client_listens (transport_ w) ->
  rover_possible (RoverReceiveRetry ec) w ->
  client_listens (transport_ (run_state (client_retry ec) w)).
Proof.
  intros (c & Ht & _) ->. unfold client_retry, retry_timer_completed. rewrite run_state_then by apply _.
  unfold run_state. rewrite !run_modify. cbn [snd]. unfold set_node_client, node_client.
  rewrite Ht. cbn [transport_ set_transport]. rewrite bool_decide_true by done. cbn [andb].
  destruct (UdpClient.running_ (set_retry_timer None c)) eqn:Hr; cbn.
  - eexists. split; [reflexivity|]. unfold do_receive. rewrite Hr. by left.
  - eexists. split; [reflexivity|]. by rewrite Hr.
Qed.

Lemma base_exec_listens ev w : server_listens (transport_ w) -> base_possible ev w ->
  server_listens (transport_ (run_state (base_exec ev) w)).
Proof.
  intros Hw Hp.
  assert (forall s, server_listens (Server s) -> server_listens (Server (UdpServer.start s))) as H1.
  { intros s (s' & [= <-] & Hl). eexists. split; [reflexivity|]. unfold UdpServer.start.
    destruct (UdpServer.running_ s) eqn:Hr; [by intros; apply Hl|done]. }
  assert (forall s, server_listens (Server s) -> server_listens (Server (UdpServer.stop s))) as H2.
  { intros s _. eexists. by split. }
  destruct ev; lazymatch goal with
  | |- context [base_exec (BaseReceive _ _ _)] => by apply server_received_listens
  | _ => by apply (base_exec_transport server_listens)
  end.
Qed.

Lemma rover_exec_listens ev w : client_listens (transport_ w) -> rover_possible ev w ->
  client_listens (transport_ (run_state (rover_exec ev) w)).
Proof.
  intros Hw Hp.
  assert (forall c, client_listens (Client c) -> client_listens (Client (start_receive c))) as H1.
  { intros c (c' & [= <-] & Hl). eexists. split; [reflexivity|]. unfold start_receive.
    destruct (UdpClient.running_ c) eqn:Hr; [by intros; apply Hl|]. by left. }
  assert (forall c, client_listens (Client c) -> client_listens (Client (stop_receive c))) as H2.
  { intros c (c' & [= <-] & Hl). eexists. split; [reflexivity|]. unfold stop_receive.
    by destruct (UdpClient.running_ c) eqn:Hr; cbn; rewrite ?Hr. }
  destruct ev; lazymatch goal with
  | |- context [rover_exec (RoverReceive _ _ _)] => by apply client_received_listens
  | |- context [rover_exec (RoverReceiveRetry _)] => by apply client_retry_listens
  | _ => by apply (rover_exec_transport client_listens)
  end.
Qed.

(** ** Theorems *)

(** C12: A running base station always has a receive outstanding: after any sequence of
    events, whatever was received and whatever the handlers did with it, exceptions
    included.  An error of the socket other than the abort stops the server. *)
Theorem base_keeps_listening evs steady system station_id :
  let w0 := make_BaseStation steady system station_id in
  base_possible_run evs w0 -> server_listens (transport_ (base_run evs w0)).
Proof.
  intros w0. assert (server_listens (transport_ w0)) as Hw by (by eexists).
  clearbody w0. revert w0 Hw. unfold base_run. induction evs as [|ev evs IH]; intros w Hw; [done|].
  intros [Hp Hps]. by apply IH; [apply base_exec_listens|].
Qed.

(** C11: A running rover always has a receive outstanding, or after an error of the socket
    the timer armed that starts the next one: it recovers from every error. *)
Theorem rover_keeps_listening evs resolve host id steady system w0 :
  make_Rover resolve host id steady system = Ok w0 ->
  rover_possible_run evs w0 -> client_listens (transport_ (rover_run evs w0)).
Proof.
  intros Hmake. assert (client_listens (transport_ w0)) as Hw.
  { revert Hmake. unfold make_Rover, register_base.
    destruct resolve as [[|e l]|x]; [done| |done]. intros [= <-]. by eexists. }
  clear Hmake. revert w0 Hw. unfold rover_run. induction evs as [|ev evs IH]; intros w Hw; [done|].
  intros [Hp Hps]. by apply IH; [apply rover_exec_listens|].
Qed.

(** ** Stopping *)

Definition socket_closed (t : transport) : Prop :=
  match t with
  | Server s => UdpServer.socket_open_ s = false
  | Client c => UdpClient.socket_open_ c = false
  end.

Lemma base_exec_closed ev : Preserves (on_transport socket_closed) (base_exec ev).
Proof.
  apply base_exec_transport.
  - intros s Hs. unfold UdpServer.start. by destruct (UdpServer.running_ s).
  - done.
  - intros ec data sender _. apply receive_completed_preserves; [|apply _].
    unfold on_transport, set_node_server, node_server. intros s w Hs Hw.
    destruct (transport_ w) as [s'|c] eqn:E; [|by rewrite E]. cbn in *. by destruct Hs as [->|].
Qed.

Lemma rover_exec_closed ev : Preserves (on_transport socket_closed) (rover_exec ev).
Proof.
  assert (forall c (w : World Rover), same_socket (node_client w) c -> on_transport socket_closed w ->
    on_transport socket_closed (set_node_client c w)) as Hset.
  { unfold on_transport, set_node_client, node_client. intros c w [_ Hc] Hw.
    destruct (transport_ w) as [s|c'] eqn:E; [by rewrite E|]. cbn in *. by rewrite Hc. }
  apply rover_exec_transport.
  - intros c Hc. unfold start_receive, do_receive. by destruct (UdpClient.running_ c).
  - intros c Hc. unfold stop_receive. by destruct (UdpClient.running_ c).
  - intros ec data sender _. unfold client_received. apply preserves_bind; [apply _|]. intros now.
    apply handle_receive_preserves; [exact Hset|apply _].
  - intros ec _. apply retry_timer_completed_preserves, Hset.
Qed.

Lemma base_stop_closes w : mode_ w = LumenProtocol.BASE_STATION ->
  on_transport socket_closed (run_state BaseStation.stop w).
Proof.
  intros Hm. unfold BaseStation.stop. do 2 rewrite run_state_then by apply _.
  match goal with |- context [run_state ?m (run_state (on_server ?f) ?w1)] =>
    assert (on_transport socket_closed (run_state (on_server f) w1)) as Hw;
      [|generalize dependent (run_state (on_server f) w1)] end.
  { revert Hm. unfold on_transport, on_server, run_state, mode_. cbn. by destruct (transport_ w). }
  unfold MessageManager.stop, on_manager, ask_manager, on_base. intros w1. by apply preserves.
Qed.

Lemma rover_stop_closes w : mode_ w = LumenProtocol.ROVER -> UdpClient.running_ (node_client w) = true ->
  on_transport socket_closed (run_state Rover.stop w).
Proof.
  intros Hm Hr. set (P t := exists c, t = Client c /\ UdpClient.running_ c = true).
  assert (on_transport P w) as Hw.
  { unfold on_transport, node_client, mode_ in *. destruct (transport_ w) as [s|c]; [done|by exists c]. }
  clear Hm Hr. assert (forall f, Preserves (on_transport P) (on_rover f)) as Hf by (intros f w'; done).
  unfold Rover.stop. do 5 (rewrite run_state_then by apply _;
    match goal with |- context [run_state (on_rover ?f) ?w1] =>
      apply (Hf f) in Hw; generalize dependent (run_state (on_rover f) w1) end; clear w; intros w Hw).
  rewrite run_state_then by apply _. destruct Hw as (c & Ht & Hr).
  match goal with |- context [run_state (on_client ?f) ?w1] =>
    assert (on_transport socket_closed (run_state (on_client f) w1)) as Hc;
      [|generalize dependent (run_state (on_client f) w1)] end.
  { unfold on_transport, on_client, run_state. rewrite run_modify, Ht. cbn. unfold stop_receive. by rewrite Hr. }
  unfold MessageManager.stop, on_manager, ask_manager, on_rover. intros w1. by apply preserves.
Qed.

(** C39: A node that was stopped is not started again: whatever happens to it afterwards,
    [start] included, its socket stays closed, since only the constructors open it. *)
Theorem stopped_for_good :
  (forall evs w, mode_ w = LumenProtocol.BASE_STATION ->
     socket_closed (transport_ (base_run (BaseStop :: evs) w))) /\
  (forall evs w, mode_ w = LumenProtocol.ROVER -> UdpClient.running_ (node_client w) = true ->
     socket_closed (transport_ (rover_run (RoverStop :: evs) w))).
Proof.
  split.
  - intros evs w Hm. unfold base_run. cbn [foldl base_exec].
    pose proof (base_stop_closes w Hm) as Hw. revert Hw. generalize (run_state BaseStation.stop w).
    induction evs as [|ev evs IH]; intros w1 Hw; [exact Hw|]. by apply IH, base_exec_closed.
  - intros evs w Hm Hr. unfold rover_run. cbn [foldl rover_exec].
    pose proof (rover_stop_closes w Hm Hr) as Hw. revert Hw. generalize (run_state Rover.stop w).
    induction evs as [|ev evs IH]; intros w1 Hw; [exact Hw|]. by apply IH, rover_exec_closed.
Qed.
End Listening.

Section Witnesses.
Import Ipv4 SampleLibraries Sample SampleBase SampleRover.

(** A base station hears something, stops and gets its abort. *)
Definition base_day : list base_event :=
  [BaseStart; BaseReceive NoError [2; 0; 5] rover_ep; BaseReceive NoError [7] rover_ep; BaseStop;
   BaseReceive OperationAborted [] rover_ep].

Lemma base_keeps_listening_witness :
  server_listens (transport_ (base_run base_day (make_BaseStation 0 0 "base"))).
Proof. apply base_keeps_listening. repeat split. Defined.

(** A rover's socket fails, and it starts the next receive. *)
Definition rover_day : list rover_event :=
  [RoverStart; RoverReceive OtherError [] base_ep; RoverReceiveRetry NoError;
   RoverReceive NoError [7] base_ep].

Lemma rover_keeps_listening_witness : exists w0,
  make_Rover (Ok [base_ep]) "base.local" "grp18-rover" 0 0 = Ok w0 /\
  client_listens (transport_ (rover_run rover_day w0)).
Proof.
  eexists. split; [reflexivity|].
  apply (rover_keeps_listening rover_day (Ok [base_ep]) "base.local" "grp18-rover" 0 0); [reflexivity|].
  repeat split.
Defined.

Lemma stopped_for_good_witness :
  socket_closed (transport_ (base_run [BaseStop; BaseStart] idle_station)) /\
  socket_closed (transport_ (rover_run [RoverStop; RoverStart] (rover_in ACTIVE))).
Proof.
  split; [apply (proj1 stopped_for_good [BaseStart]); reflexivity
         |apply (proj2 stopped_for_good [RoverStart]); reflexivity].
Defined.
End Witnesses.
