(* ===== verification/Coordinates.v ===== *)
(** * Target coordinates, from the base station to the rover

    What [set_rover_target] writes into a command is what the rover reads out of it. *)
From Stdlib Require Import Ascii SpecFloat.
From S2P Require Import Prelude Configs Crc8 LumenHeader LumenPacket Asio ReliabilityManager.
From S2P Require Import UdpServer UdpClient Libraries Messages LumenProtocol ProtocolFacts Framing.
From S2P Require Import Delivery MessageManager Doubles Decimals BaseStation BaseSession Discovery Rover.
From S2P Require Import RoverEffects RoverSession RoverRecovery Handshake.

(** ** The parameters of the command *)

Definition not_comma (c : ascii) : bool := negb (bool_decide (c = ","%char)).

Lemma split_commas_last s : all_chars not_comma s = true -> s <> ""%string -> split_commas s = [s].
Proof.
  induction s as [|c s IH]; [done|]. simpl. intros [Hc Hs]%andb_true_iff _.
  apply negb_true_iff in Hc. rewrite Hc. destruct s as [|c' s]; [done|]. by rewrite IH.
Qed.

Lemma split_commas_first s t : all_chars not_comma s = true ->
  split_commas (s +:+ String "," t) = s :: split_commas t.
Proof.
  induction s as [|c s IH]; [done|]. simpl. intros [Hc Hs]%andb_true_iff.
  apply negb_true_iff in Hc. rewrite Hc. by rewrite IH.
Qed.

Lemma parse_coords_written lat lon : below (2 ^ 52) lat -> below (2 ^ 52) lon ->
  parse_coords (fixed6 lat +:+ "," +:+ fixed6 lon) = [written_value lat; written_value lon].
Proof.
  intros H1 H2. destruct (fixed6_chars lat H1) as [N1 _], (fixed6_chars lon H2) as [N2 E2].
  unfold parse_coords. change ("," +:+ fixed6 lon) with (String "," (fixed6 lon)).
  rewrite split_commas_first, split_commas_last by done. cbn [mapM].
  by rewrite !stod_fixed6.
Qed.

(** ** The command *)

Section Target.
Context {A : AsioAddress} `{!AsioAddressLaws A} {J : Json} {C : Chrono}.
Context `{!JsonLaws J} `{!ChronoLaws C}.
Implicit Types (r : World Rover) (b : World BaseStation).

(** A rover given a target: it starts to move in ten milliseconds, unless it is there. *)
Definition targeted (now : Z) (target : Coordinate) (r : Rover) : Rover :=
  let current := current_coordinate_ r in
  if d_ltb TARGET_REACHED_THRESHOLD_METERS
       (calculate_distance current.1 current.2 target.1 target.2)
  then set_movement_timer (armed (now + ms 10) (movement_timer_ r)) (set_target_coordinate (Some target) r)
  else set_target_coordinate None r.

Lemma set_target_run params lat lon r : parse_coords params = [lat; lon] ->
  handle_set_target params r =
  (Ok tt, set_app (targeted (steady_now r) (lat, lon) (app_ r)) r).
Proof.
  intros Hp. unfold handle_set_target. rewrite Hp. rewrite run_bind. unfold on_rover at 1.
  rewrite run_modify, run_bind. unfold ask_rover. rewrite run_gets.
  cbn [app_ set_app current_coordinate_ set_target_coordinate]. unfold targeted. cbn [fst snd].
  by destruct (d_ltb _ _).
Qed.

(** The command of an active base station. *)
Lemma target_commanded re rid lat lon text b :
  session_inv b -> operational b -> session_of (app_ b) = BaseSession.Active rid re ->
  reachable (transport_ b) re -> is_u8 (current_sequence_ (protocol_ b)) ->
  let sid := station_id_ (app_ b) in
  serialise (CommandMessage "SET_TARGET_COORD" (fixed6 lat +:+ "," +:+ fixed6 lon) sid (system_now b)) =
    Ok text ->
  commanded re (system_now b) text (run_state (set_rover_target lat lon) b).
Proof.
  intros Hi Ho Hs Hr Hseq sid Ht. unfold set_rover_target.
  pose proof (send_command_decided "SET_TARGET_COORD" (fixed6 lat +:+ "," +:+ fixed6 lon) b Hi) as H.
  rewrite Hs in H. cbn [may_send] in H. rewrite (proj1 Hr) in H.
  destruct (manager_send_reachable _ re b text Ho Hr Ht) as (H1 & _).
  unfold run_state in *. rewrite H. eexists _, _. split; [exact Hseq|exact H1].
Qed.

(** C13: A target set at the base station arrives at the rover of its session, through its
    socket, whose receive buffer the command fits into: below [2 ^ 52] in magnitude each
    coordinate becomes the double nearest to its value in millionths, and the rover starts
    to move unless it is within a metre of the target. *)
Theorem target_transmitted be re rid lat lon text r b :
  connected be r -> listens be r -> session_inv b -> operational b ->
  session_of (app_ b) = BaseSession.Active rid re -> reachable (transport_ b) re ->
  is_u8 (current_sequence_ (protocol_ b)) -> station_id_ (app_ b) <> rover_id_ (app_ r) ->
  below (2 ^ 52) lat -> below (2 ^ 52) lon ->
  let params := fixed6 lat +:+ "," +:+ fixed6 lon in
  fits CLIENT_SOCK_BUF_SIZE (CommandMessage "SET_TARGET_COORD" params (station_id_ (app_ b)) (system_now b)) text ->
  (exists shown, pretty_print text = Ok shown) ->
  app_ (to_rover be re (run_state (set_rover_target lat lon) b) r) =
  targeted (steady_now r) (written_value lat, written_value lon) (app_ r).
Proof.
  intros Hc Hl Hi Ho Hs Hr Hseq Hne Hlat Hlon params Hf [shown Hshown].
  pose proof (target_commanded re rid lat lon text b Hi Ho Hs Hr Hseq (proj1 (proj2 (proj1 Hf)))) as Hb.
  destruct (rover_gets be re (session_state_ (app_ r)) (rover_id_ (app_ r)) (system_now r) _
    "SET_TARGET_COORD" params (station_id_ (app_ b)) _ text r _ ltac:(by split) Hne eq_refl Hb Hf)
    as (r' & _ & Ha & Hn & ->).
  change (Rover.handle_internal_command _ _ _) with
    (print_command (CommandMessage "SET_TARGET_COORD" params (station_id_ (app_ b)) (system_now b)) ;;
     handle_set_target params).
  rewrite (socket_app _ _ (client_rearmed_same _)).
  unfold run_state, print_command. rewrite run_bind, run_bind.
  rewrite (proj1 (proj2 (proj1 Hf))). cbn [of_result]. rewrite run_bind, Hshown. cbn [of_result].
  rewrite run_ret. cbv iota. rewrite (set_target_run params (written_value lat) (written_value lon))
    by (by apply parse_coords_written).
  cbn [snd app_ set_app]. by rewrite Ha, Hn.
Qed.
End Target.

Section Witnesses.
Import Ipv4 SampleLibraries Sample SampleBase SampleRover.

Definition north : double := d_of_Z 3.
Definition east : double := d_div (d_of_Z (-1)) (d_of_Z 3).
Definition target_command : Message :=
  CommandMessage "SET_TARGET_COORD" (fixed6 north +:+ "," +:+ fixed6 east) "base" 0.

Lemma target_fits : fits CLIENT_SOCK_BUF_SIZE target_command (text_of target_command).
Proof.
  split; [|by apply (bool_decide_eq_true_1 _); vm_compute]. split; [done|].
  split; [reflexivity|by eexists].
Qed.

Lemma active_listens : listens base_ep (rover_in ACTIVE).
Proof. by split. Qed.

Lemma target_transmitted_witness :
  target_coordinate_ (app_ (to_rover base_ep rover_ep
    (run_state (set_rover_target north east) active_station) (rover_in ACTIVE))) =
  Some (d_of_Z 3, written_value east).
Proof.
  rewrite (target_transmitted base_ep rover_ep "grp18-rover" north east (text_of target_command)
    (rover_in ACTIVE) active_station (rover_connected _ _) active_listens active_inv).
  - by vm_compute.
  - by split.
  - done.
  - by split.
  - done.
  - discriminate.
  - by vm_compute.
  - by vm_compute.
  - exact target_fits.
  - eexists. vm_compute. reflexivity.
Defined.
End Witnesses.
