(* ===== verification/Meeting.v ===== *)
(** * How rovers find each other

    A scan of one rover and the answer of another, as their datagrams arrive. *)
From S2P Require Import Prelude Configs Crc8 LumenHeader LumenPacket Asio ReliabilityManager.
From S2P Require Import UdpServer UdpClient Libraries Messages LumenProtocol ProtocolFacts Framing.
From S2P Require Import Delivery MessageManager Doubles BaseStation BaseSession Discovery Rover.
From S2P Require Import RoverEffects RoverSession.

Section Meeting.
Context {A : AsioAddress} {J : Json} {C : Chrono} `{!JsonLaws J} `{!ChronoLaws C}.
Implicit Types w a b : World Rover.

(** A rover whose socket and layers run, not in low power mode. *)
Record awake w : Prop := {
  awake_running : LumenProtocol.running_ (protocol_ w) = true;
  awake_callback : LumenProtocol.message_callback_ (protocol_ w) = true;
  awake_attached : attached w;
  awake_power : low_power_mode_ (app_ w) = false;
  awake_client : exists c, transport_ w = Client c;
  awake_socket : socket_up (transport_ w);
}.

Lemma awake_same w w' : same_node (transport_ w) (transport_ w') -> protocol_ w' = protocol_ w ->
  app_ w' = app_ w -> awake w -> awake w'.
Proof.
  intros H1 H2 H3 [A1 A2 A3 A4 (c & A5) A6]. unfold attached in *.
  split; unfold attached; rewrite ?H2, ?H3; try done; [|by apply (same_node_up (transport_ w))].
  rewrite A5 in H1. destruct (transport_ w') as [|c']; [done|by exists c'].
Qed.

Lemma awake_hearing e w : awake w -> awake (hearing e w).
Proof. pose proof (hearing_same e w) as [S1 S2 S3 S4 S5 S6]. by apply awake_same. Qed.

(** A datagram that fits into the receive buffer arrives. *)
Lemma datagram_arrives data e w : awake w -> vec_size data <= CLIENT_SOCK_BUF_SIZE ->
  run_state (client_received NoError data e) w =
  client_rearmed (run_state (Rover.on_datagram data e) (hearing e w)).
Proof.
  intros [_ _ _ _ (c & Hc) Hup] Hsz. unfold run_state at 1, client_received.
  rewrite client_receive_run by (done || unfold mode_; by rewrite Hc).
  by rewrite received_data_all.
Qed.

Lemma send_data_to_valid data e : valid_endpoint e -> send_data_to data e = [mkDatagram data e].
Proof. intros [H1 H2]. unfold send_data_to. by rewrite H1, (proj2 (Z.eqb_neq _ _) H2). Qed.

(** Sending the scan: one datagram to each target. *)
Lemma emit_all data targets w :
  run_state (for_each (fun e => emit (send_data_to data e)) targets) w =
  LumenProtocol.set_sent (sent_ w ++ flat_map (send_data_to data) targets) w.
Proof.
  revert w. induction targets as [|e targets IH]; intros w.
  { cbn. rewrite app_nil_r. by destruct w. }
  cbn [for_each flat_map]. rewrite run_state_then by (unfold emit; apply _). rewrite IH.
  unfold emit, run_state. rewrite run_modify. cbn [snd sent_ LumenProtocol.set_sent]. by rewrite <- app_assoc.
Qed.

Definition probe_message (text : string) w : Message :=
  CommandMessage "ROVER_DISCOVER" text (rover_id_ (app_ w)) (system_now w).
Definition announcement w : Message :=
  CommandMessage "ROVER_ANNOUNCE" "Responding to probe" (rover_id_ (app_ w)) (system_now w).

Lemma scan_run make port text t w :
  low_power_mode_ (app_ w) = false -> serialise (probe_message text w) = Ok t ->
  run_state (Rover.scan_for_rovers make port text) w =
  LumenProtocol.set_sent (sent_ w ++ flat_map (send_data_to (string_to_binary t)) (scan_targets make 2 150 port)) w.
Proof.
  intros Hlp Ht. rewrite <- emit_all. unfold run_state at 1, Rover.scan_for_rovers, is_low_power_mode, ask_rover.
  rewrite run_bind, run_gets, Hlp. unfold try_catch. rewrite run_bind, run_gets, run_bind, run_gets.
  rewrite run_bind. unfold probe_message in Ht. rewrite Ht. cbn [of_result].
  match goal with |- context [for_each ?f ?l w] => assert (NoThrow (for_each f l)) as Hn end.
  { apply no_throw_for_each. intros e. unfold emit. apply _. }
  by rewrite (no_throw_unit _ w).
Qed.

(** A raw message to another rover, or the base, is one datagram. *)
Lemma send_raw_run m t e w :
  awake w -> valid_endpoint e -> serialise m = Ok t ->
  Rover.send_raw_message m e w =
  (Ok tt, LumenProtocol.set_sent (sent_ w ++ [mkDatagram (string_to_binary t) e]) w).
Proof.
  intros [Hr Hc [Hm Hm'] Hlp (c & Ht) _] [H1 H2] Hs. unfold Rover.send_raw_message.
  rewrite H1, (proj2 (Z.eqb_neq _ _) H2). cbn [orb]. unfold is_low_power_mode, ask_rover.
  rewrite run_bind, run_gets, Hlp. unfold suppressed. cbn [andb].
  assert (MessageManager.send_raw_message m e w =
    (Ok tt, LumenProtocol.set_sent (sent_ w ++ [mkDatagram (string_to_binary t) e]) w)) as Hsend.
  { unfold MessageManager.send_raw_message. rewrite run_bind. unfold ask_manager.
    rewrite run_gets, Hm. cbn [negb]. unfold try_catch. rewrite run_bind, Hs. cbn [of_result].
    rewrite run_bind, run_gets, Ht, H1. unfold try_runtime, try_catch, UdpClient.get_base_endpoint, UdpClient.send_data.
    rewrite run_bind, run_bind. destruct (ep_unspecified (base_endpoint_ c)); cbn [of_result is_runtime_error].
    - rewrite run_ret. cbv iota. unfold emit. rewrite run_modify.
      by rewrite send_data_to_valid.
    - rewrite run_ret. cbv iota. destruct (bool_decide_reflect (e = base_endpoint_ c)) as [->|].
      + done.
      + unfold emit. rewrite run_modify. by rewrite send_data_to_valid. }
  rewrite run_bind. unfold try_catch, Rover.get_base_endpoint. rewrite run_bind, run_bind, run_gets, Ht.
  unfold UdpClient.get_base_endpoint. destruct (ep_unspecified (base_endpoint_ c)); cbn [of_result];
    rewrite ?run_ret; exact Hsend.
Qed.

(** The answer to a probe of another rover. *)
Lemma probe_answered text t t' i now e w :
  awake w -> valid_endpoint e -> i <> rover_id_ (app_ w) ->
  written (CommandMessage "ROVER_DISCOVER" text i now) t -> serialise (announcement w) = Ok t' ->
  run_state (Rover.on_datagram (string_to_binary t) e) w =
  LumenProtocol.set_sent (sent_ w ++ [mkDatagram (string_to_binary t') e]) w.
Proof.
  intros Hw He Hi Ht Ht'. pose proof Hw as [Hr Hc Hat Hlp _ _].
  unfold run_state, Rover.on_datagram. rewrite (raw_message_run _ _ _ _ _ Hr Hc Hat Ht).
  unfold guarded, try_catch, Rover.route_message, ask_rover. rewrite run_bind, run_gets. cbn [get_sender].
  rewrite bool_decide_false by done. rewrite run_bind, base_endpoint_run.
  change (Rover.session_command "ROVER_DISCOVER") with false.
  change (discovery_command "ROVER_DISCOVER") with true. cbv iota.
  unfold is_low_power_mode, ask_rover. rewrite run_bind, run_gets, Hlp. cbn [negb when].
  unfold handle_discovery_command, ask_rover. rewrite run_bind, run_gets, bool_decide_false by done.
  change (bool_decide ("ROVER_DISCOVER" = "ROVER_ANNOUNCE")%string) with false.
  change (bool_decide ("ROVER_DISCOVER" = "ROVER_DISCOVER")%string) with true. cbv iota.
  unfold is_low_power_mode, ask_rover. rewrite run_bind, run_gets, Hlp. cbn [negb].
  rewrite run_bind, run_gets. fold (announcement w).
  by rewrite (send_raw_run _ t').
Qed.

(** A rover that hears an announcement. *)
Definition announced (i : string) (e : endpoint) (r : Rover) : Rover :=
  let r' := set_discovered_rovers (<[i := e]> (discovered_rovers_ r)) r in
  if bool_decide (discovered_rovers_ r !! i = None) && discovery_message_handler_ r
  then add_posted [PostDiscovery i e] r' else r'.

Lemma announcement_heard text i now t e w :
  awake w -> i <> rover_id_ (app_ w) -> written (CommandMessage "ROVER_ANNOUNCE" text i now) t ->
  run_state (Rover.on_datagram (string_to_binary t) e) w = set_app (announced i e (app_ w)) w.
Proof.
  intros [Hr Hc Hat Hlp _ _] Hi Ht.
  unfold run_state, Rover.on_datagram. rewrite (raw_message_run _ _ _ _ _ Hr Hc Hat Ht).
  unfold guarded, try_catch, Rover.route_message, ask_rover. rewrite run_bind, run_gets. cbn [get_sender].
  rewrite bool_decide_false by done. rewrite run_bind, base_endpoint_run.
  change (Rover.session_command "ROVER_ANNOUNCE") with false.
  change (discovery_command "ROVER_ANNOUNCE") with true. cbv iota.
  unfold is_low_power_mode, ask_rover. rewrite run_bind, run_gets, Hlp. cbn [negb when].
  unfold handle_discovery_command, ask_rover. rewrite run_bind, run_gets, bool_decide_false by done.
  change (bool_decide ("ROVER_ANNOUNCE" = "ROVER_ANNOUNCE")%string) with true. cbv iota.
  rewrite run_bind, run_gets, run_bind. unfold on_rover at 1. rewrite run_modify, run_bind, run_gets.
  unfold announced. cbn [app_ set_app set_discovered_rovers discovery_message_handler_].
  by destruct (bool_decide _ && _).
Qed.

(** C24: A scan finds the rovers it reaches: it sends one datagram to every address of the
    range; a rover whose socket it arrives at answers with its announcement, and nothing
    else; and when the answer arrives the rover that scanned records it under its name
    with the endpoint it answered from, telling the application of a name it did not
    know.  The texts have to fit into the receive buffers. *)
Theorem rovers_meet make port text a b ea eb t t' :
  awake a -> awake b -> rover_id_ (app_ a) <> rover_id_ (app_ b) ->
  valid_endpoint ea -> valid_endpoint eb -> eb ∈ scan_targets make 2 150 port ->
  written (probe_message text a) t -> written (announcement b) t' ->
  let probe := string_to_binary t in
  let answer := string_to_binary t' in
  vec_size probe <= CLIENT_SOCK_BUF_SIZE -> vec_size answer <= CLIENT_SOCK_BUF_SIZE ->
  let a1 := run_state (Rover.scan_for_rovers make port text) a in
  let b1 := run_state (client_received NoError probe ea) b in
  let a2 := run_state (client_received NoError answer eb) a1 in
  sent_ a1 = sent_ a ++ flat_map (send_data_to probe) (scan_targets make 2 150 port) /\
  mkDatagram probe eb ∈ sent_ a1 /\
  sent_ b1 = sent_ b ++ [mkDatagram answer ea] /\ app_ b1 = app_ b /\
  discovered_rovers_ (app_ a2) = <[rover_id_ (app_ b) := eb]> (discovered_rovers_ (app_ a)) /\
  posted_ (app_ a2) = posted_ (app_ a) ++
    (if bool_decide (discovered_rovers_ (app_ a) !! rover_id_ (app_ b) = None) &&
        discovery_message_handler_ (app_ a)
     then [PostDiscovery (rover_id_ (app_ b)) eb] else []).
Proof.
  intros Ha Hb Hne Hea Heb Hin Ht Ht' probe answer Hp Han a1 b1 a2.
  assert (a1 = LumenProtocol.set_sent (sent_ a ++ flat_map (send_data_to probe) (scan_targets make 2 150 port)) a)
    as Ha1 by (apply scan_run; [apply Ha|apply Ht]).
  assert (awake a1) as Haw1 by (by rewrite Ha1; apply (awake_same a)).
  pose proof (hearing_same ea b) as [S1 S2 S3 S4 S5 S6].
  pose proof (hearing_same eb a1) as [T1 T2 T3 T4 T5 T6].
  assert (announcement (hearing ea b) = announcement b) as Hann
    by (unfold announcement; by rewrite S5, S6).
  assert (b1 = client_rearmed (LumenProtocol.set_sent (sent_ b ++ [mkDatagram answer ea]) (hearing ea b)))
    as Hb1.
  { unfold b1. rewrite datagram_arrives by done. f_equal. rewrite <- S3.
    apply (probe_answered text t t' (rover_id_ (app_ a)) (system_now a)); try done.
    - by apply awake_hearing.
    - by rewrite S6.
    - rewrite Hann. apply Ht'. }
  assert (a2 = client_rearmed (set_app (announced (rover_id_ (app_ b)) eb (app_ a)) (hearing eb a1))) as Ha2.
  { unfold a2. rewrite datagram_arrives by done. f_equal.
    assert (app_ (hearing eb a1) = app_ a) as Happ by (rewrite T6, Ha1; done). rewrite <- Happ.
    apply (announcement_heard "Responding to probe" _ (system_now b)); [by apply awake_hearing| |done].
    rewrite Happ. by apply not_eq_sym. }
  split; [by rewrite Ha1|]. split.
  { rewrite Ha1. apply elem_of_app. right. apply list_elem_of_In, in_flat_map. exists eb.
    split; [by apply list_elem_of_In|]. rewrite send_data_to_valid by done. by left. }
  rewrite Hb1, (socket_sent _ _ (client_rearmed_same _)), (socket_app _ _ (client_rearmed_same _)).
  split; [done|]. split; [exact S6|].
  rewrite Ha2, (socket_app _ _ (client_rearmed_same _)). cbn [app_ set_app]. unfold announced.
  destruct (bool_decide _ && _); split; try done. by rewrite app_nil_r.
Qed.
End Meeting.

Section Witnesses.
Import Ipv4 SampleLibraries Sample SampleBase SampleRover.

Definition scanner : World Rover := rover_of (set_discovery_message_handler true (sample_rover ACTIVE [])).
Definition other_rover : World Rover :=
  rover_of (mkRover (message_manager_ (sample_rover ACTIVE [])) true true
    (status_timer_ (sample_rover ACTIVE [])) (handshake_timer_ (sample_rover ACTIVE []))
    (position_telemetry_timer_ (sample_rover ACTIVE [])) (probe_timer_ (sample_rover ACTIVE []))
    (movement_timer_ (sample_rover ACTIVE [])) ACTIVE "grp19-rover" OK "System OK" 0 ∅ false None
    (d_zero, d_zero) [] []).

Definition parse_subnet (s : string) : option address :=
  (fun p : nat * Z => (10, 237, 0, Z.to_N p.2)%N) <$> list_find (fun i => subnet_ip i = s) (seqZ 2 149).

Definition other_ep : endpoint := mkEndpoint (10, 237, 0, 19)%N 9001.

Lemma rovers_meet_witness :
  discovered_rovers_ (app_ (run_state
    (client_received NoError (string_to_binary (text_of (announcement other_rover))) other_ep)
    (run_state (Rover.scan_for_rovers parse_subnet 9001 "hello") scanner))) =
  {[ "grp19-rover"%string := other_ep ]}.
Proof.
  destruct (rovers_meet parse_subnet 9001 "hello" scanner other_rover rover_ep other_ep
    (text_of (probe_message "hello" scanner)) (text_of (announcement other_rover)))
    as (_ & _ & _ & _ & H & _).
  - split; try reflexivity; [by split|by eexists|by split].
  - split; try reflexivity; [by split|by eexists|by split].
  - discriminate.
  - by split.
  - by split.
  - apply (bool_decide_eq_true_1 _). vm_compute. reflexivity.
  - split; [done|]. split; [reflexivity|by eexists].
  - split; [done|]. split; [reflexivity|by eexists].
  - by vm_compute.
  - by vm_compute.
  - exact H.
Defined.
End Witnesses.
