(* ===== verification/Movement.v ===== *)
(** * The rover's movement

    A rover with a target keeps moving until it is there, unless it is stopped. *)
From Stdlib Require Import SpecFloat.
From S2P Require Import Prelude Configs Crc8 LumenHeader LumenPacket Asio ReliabilityManager.
From S2P Require Import UdpServer UdpClient Libraries Messages LumenProtocol ProtocolFacts Framing.
From S2P Require Import Delivery MessageManager Doubles BaseStation BaseSession Discovery Rover.
From S2P Require Import RoverEffects RoverSession RoverRecovery Coordinates.

Section Movement.
Context {A : AsioAddress} {J : Json} {C : Chrono}.
Implicit Types (w : World Rover) (r : Rover).

(** A rover that has a target has its movement timer armed. *)
Definition moving r : Prop := is_Some (target_coordinate_ r) -> pending (movement_timer_ r) = true.
Definition moves w : Prop := moving (app_ w).

#[global] Instance moves_stable : Stable moves.
Proof. intros w w' [_ _ Ha] Hw. unfold moves. by rewrite Ha. Qed.

(** A change of other members. *)
Definition apart_from_movement (f : Rover -> Rover) : Prop := forall r,
  target_coordinate_ (f r) = target_coordinate_ r /\ movement_timer_ (f r) = movement_timer_ r.

Lemma runs_moves m f : (forall w, runs m (f w) w) -> (forall w, apart_from_movement (f w)) -> Preserves moves m.
Proof.
  intros Hm Hf. apply (runs_preserves _ m f); [| |by intros].
  - intros w w' S. unfold moves. by rewrite (same_app _ _ S).
  - intros w Hw. unfold moves, moving in *. cbn. by destruct (Hf w (app_ w)) as [-> ->].
Qed.

Lemma on_rover_moves f : apart_from_movement f -> Preserves moves (on_rover f).
Proof. intros Hf. by apply (runs_moves _ (fun _ => f) (runs_on_rover f)). Qed.

#[local] Hint Extern 3 (Preserves moves (on_rover _)) =>
  (apply on_rover_moves; intros ?; split; reflexivity) : typeclass_instances.
#[local] Hint Extern 3 (Preserves moves (modify _)) =>
  (apply preserves_modify; let H := fresh in intros ? H; exact H) : typeclass_instances.

(** The effects of the handlers leave the movement alone. *)
Lemma report_apart m be : apart_from_movement (report_effect m be).
Proof. intros r. unfold report_effect. destruct be; [|done]. by destruct (bool_decide _ && _). Qed.
Lemma init_apart now : apart_from_movement (init_effect now).
Proof. intros r. unfold init_effect. by destruct (session_state_ r). Qed.
Lemma timeout_apart be e : apart_from_movement (timeout_effect be e).
Proof.
  intros r. unfold timeout_effect, disconnect_effect. destruct (bool_decide _); [|done].
  by destruct (session_state_ r).
Qed.
Lemma handshake_apart now : apart_from_movement (handshake_effect now).
Proof.
  intros r. unfold handshake_effect. destruct (session_state_ r); try done; by destruct (_ <? _).
Qed.
Lemma accept_apart : apart_from_movement accept_effect.
Proof. intros r. unfold accept_effect. by destruct (session_state_ r). Qed.
Lemma established_apart now : apart_from_movement (established_effect now).
Proof. intros r. unfold established_effect. by destruct (session_state_ r). Qed.
Lemma probe_apart : apart_from_movement probe_effect.
Proof. intros r. unfold probe_effect. by destruct (session_state_ r). Qed.
Lemma send_apart m e be : apart_from_movement (send_effect m e be).
Proof. intros r. unfold send_effect. destruct be; [|done]. destruct (_ || _); [apply report_apart|done]. Qed.

(** *** The handlers *)

Lemma apart_compose f g : apart_from_movement f -> apart_from_movement g ->
  apart_from_movement (fun r => g (f r)).
Proof. intros Hf Hg r. destruct (Hf r) as [<- <-]. apply Hg. Qed.

#[global] Instance initiate_moves : Preserves moves initiate_handshake.
Proof. apply (runs_moves _ _ runs_initiate). intros w. apply init_apart. Qed.
#[global] Instance packet_timeout_moves e : Preserves moves (handle_packet_timeout e).
Proof. apply (runs_moves _ _ (runs_packet_timeout e)). intros w. apply timeout_apart. Qed.
#[global] Instance accept_moves : Preserves moves handle_session_accept.
Proof. apply (runs_moves _ _ runs_accept). intros w. apply accept_apart. Qed.
#[global] Instance established_moves : Preserves moves handle_session_established.
Proof. apply (runs_moves _ _ runs_established). intros w. apply established_apart. Qed.
#[global] Instance rover_command_moves c p : Preserves moves (Rover.send_command c p).
Proof. by apply (runs_moves _ _ (runs_command c p)). Qed.
#[global] Instance telemetry_moves readings : Preserves moves (send_telemetry readings).
Proof. apply (runs_moves _ _ (runs_telemetry readings)). intros w. apply report_apart. Qed.
#[global] Instance status_moves : Preserves moves send_status.
Proof. apply (runs_moves _ _ runs_status). intros w. apply report_apart. Qed.
#[global] Instance rover_send_moves m e : Preserves moves (Rover.send_message m e).
Proof. apply (runs_moves _ _ (runs_send_message m e)). intros w. apply send_apart. Qed.
#[global] Instance manager_send_moves m e : Preserves moves (MessageManager.send_message m e).
Proof. by apply (runs_moves _ _ (runs_manager_send m e)). Qed.
#[global] Instance manager_send_raw_moves m e : Preserves moves (MessageManager.send_raw_message m e).
Proof. by apply (runs_moves _ _ (runs_manager_send_raw m e)). Qed.
#[global] Instance base_endpoint_moves : Preserves moves base_endpoint.
Proof. intros w Hw. unfold run_state. by rewrite base_endpoint_run. Qed.
#[global] Instance rover_send_raw_moves m e : Preserves moves (Rover.send_raw_message m e).
Proof.
  unfold Rover.send_raw_message, Rover.get_base_endpoint, is_low_power_mode, ask_rover. apply _.
Qed.
#[global] Instance position_timer_moves : Preserves moves handle_position_telemetry_timer.
Proof.
  apply (runs_moves _ _ runs_position_timer). intros w.
  apply (apart_compose (report_effect _ _) (rearm_position _)); [apply report_apart|by intros r].
Qed.

Lemma post_moves p : Preserves moves (post p).
Proof. by apply on_rover_moves. Qed.
#[local] Existing Instance post_moves.

(** A new target. *)
Lemma targeted_moving now target r : moving (targeted now target r).
Proof. unfold targeted, moving. destruct (d_ltb _ _); [done|by intros []]. Qed.

#[global] Instance set_target_moves params : Preserves moves (handle_set_target params).
Proof.
  intros w Hw. destruct (parse_coords params) as [|lat [|lon [|x l]]] eqn:Hp;
    try (unfold run_state, handle_set_target; by rewrite Hp).
  unfold run_state. rewrite (set_target_run params lat lon) by done. apply targeted_moving.
Qed.

#[global] Instance route_moves m e : Preserves moves (Rover.route_message m e).
Proof.
  unfold Rover.route_message, Rover.handle_internal_command, print_command, handle_set_low_power,
    handle_discovery_command, Rover.route_application, is_low_power_mode, ask_rover.
  cbv zeta. apply _.
Qed.

#[global] Instance rover_datagram_moves data e : Preserves moves (Rover.on_datagram data e).
Proof. unfold Rover.on_datagram. apply _. Qed.

(** *** The timers *)

Lemma get_base_run w :
  (exists be, base_of_node w = Some be /\ Rover.get_base_endpoint w = (Ok be, w)) \/
  (base_of_node w = None /\ exists e, Rover.get_base_endpoint w = (Throw e, w)).
Proof.
  unfold base_of_node, Rover.get_base_endpoint. rewrite run_bind, run_gets.
  destruct (transport_ w) as [srv|c]; [right; split; [done|by eexists]|].
  unfold UdpClient.get_base_endpoint. destruct (ep_unspecified _); [right|left]; [|by eexists].
  split; [done|by eexists].
Qed.

(** The message to the base that a target is reached. *)
Definition tell_base (m : Message) : M (World Rover) unit :=
  try_catch (base ← Rover.get_base_endpoint; Rover.send_message m base) (fun _ => mret tt).

Lemma tell_base_runs m w : runs (tell_base m)
  (match base_of_node w with Some be => send_effect m be (base_of_node w) | None => fun r => r end) w.
Proof.
  unfold tell_base, runs, try_catch. rewrite run_bind. destruct (get_base_run w) as [(be & Hb & ->)|(Hb & e & ->)]; rewrite Hb.
  - destruct (runs_send_message m be w) as (w' & H & S). rewrite H. rewrite Hb in S. by exists w'.
  - exists w. by rewrite set_app_id.
Qed.

Definition reached_message (r : Rover) (now : Z) : Message :=
  BasicMessage ("Rover " +:+ rover_id_ r +:+ " reached target coordinates.") (rover_id_ r) now.

Definition at_target (target : Coordinate) (r : Rover) : bool :=
  d_leb (calculate_distance (current_coordinate_ r).1 (current_coordinate_ r).2 target.1 target.2)
    TARGET_REACHED_THRESHOLD_METERS.

(** The rover one step further, its timer armed for the next. *)
Definition stepped (target : Coordinate) (r : Rover) : Rover :=
  let next := next_position (current_coordinate_ r) target in
  set_movement_timer (armed (expiry (movement_timer_ r) + ms MOVEMENT_INTERVAL) (movement_timer_ r))
    (set_current_coordinate (next.1, next.2) r).

(** The movement timer fires. *)
Lemma movement_fires w :
  let w0 := set_app (disarm MovementTimer (app_ w)) w in
  run_state (timer_completed MovementTimer NoError) w =
  match target_coordinate_ (app_ w) with
  | None => w0
  | Some target =>
    if at_target target (app_ w)
    then run_state (tell_base (reached_message (app_ w) (system_now w)))
           (set_app (set_target_coordinate None (app_ w0)) w0)
    else set_app (stepped target (app_ w0)) w0
  end.
Proof.
  intros w0. rewrite timer_fires. fold w0. unfold run_state, timer_handler, handle_movement_timer.
  rewrite run_bind. unfold ask_rover. rewrite run_gets. unfold id.
  change (target_coordinate_ (app_ w0)) with (target_coordinate_ (app_ w)).
  destruct (target_coordinate_ (app_ w)) as [target|]; [|done]. cbv zeta.
  change (current_coordinate_ (app_ w0)) with (current_coordinate_ (app_ w)). fold (at_target target (app_ w)).
  destruct (at_target target (app_ w)).
  - rewrite run_bind. unfold on_rover at 1. rewrite run_modify. cbv iota. by rewrite run_bind, run_gets.
  - done.
Qed.

#[global] Instance movement_timer_moves : Preserves moves (timer_completed MovementTimer NoError).
Proof.
  intros w Hw. rewrite movement_fires. destruct (target_coordinate_ (app_ w)) as [target|] eqn:Ht.
  - destruct (at_target target (app_ w)); [|done].
    set (w1 := set_app _ _). destruct (tell_base_runs (reached_message (app_ w) (system_now w)) w1) as (w2 & H & S).
    unfold run_state. rewrite H. unfold moves, moving. cbn [snd]. rewrite (app_after _ _ _ S).
    destruct (base_of_node w1) as [be|]; [|by intros []].
    destruct (send_apart (reached_message (app_ w) (system_now w)) be (Some be) (app_ w1)) as [-> ->]. by intros [].
  - unfold moves, moving. cbn. rewrite Ht. by intros [].
Qed.

(** Another timer, and its handler. *)
Lemma timer_moves t m f : t <> MovementTimer -> (forall w, runs m (f w) w) ->
  (forall w, apart_from_movement (f w)) -> Preserves moves (on_rover (disarm t) ;; m).
Proof.
  intros Ht Hm Hf. apply preserves_bind; [|intros _; by apply (runs_moves _ f)].
  apply on_rover_moves. intros r. by destruct t.
Qed.

#[global] Instance timer_completed_moves t error : error <> OtherError -> Preserves moves (timer_completed t error).
Proof.
  intros He. destruct error; [|unfold timer_completed; apply _|done].
  assert (t = MovementTimer \/ t <> MovementTimer) as [->|Ht] by (destruct t; auto); [apply _|].
  unfold timer_completed. rewrite bool_decide_true, bool_decide_false by done. cbn [when negb].
  unfold timer_handler. destruct t; [| | | |done].
  - apply (timer_moves _ _ _ Ht runs_status_timer). intros w.
    apply (apart_compose (report_effect _ _) (rearm_status _)); [apply report_apart|by intros r].
  - apply (timer_moves _ _ _ Ht runs_handshake_timer). intros w. apply handshake_apart.
  - apply (timer_moves _ _ _ Ht runs_position_timer). intros w.
    apply (apart_compose (report_effect _ _) (rearm_position _)); [apply report_apart|by intros r].
  - apply (timer_moves _ _ _ Ht runs_probe). intros w. apply probe_apart.
Qed.

(** The sockets, and what was posted. *)
Lemma set_client_moves c w : same_socket (node_client w) c -> moves w -> moves (set_node_client c w).
Proof. intros _ Hw. unfold set_node_client. by destruct (transport_ w). Qed.

Lemma on_client_moves f : Preserves moves (on_client f).
Proof. apply preserves_modify. unfold moves. intros w Hw. by destruct (transport_ w). Qed.
#[local] Existing Instance on_client_moves.

#[global] Instance client_received_moves error data sender : Preserves moves (client_received error data sender).
Proof.
  unfold client_received. apply preserves_bind; [apply _|]. intros now.
  apply handle_receive_preserves; [apply set_client_moves|apply _].
Qed.

#[global] Instance client_retry_moves error : Preserves moves (client_retry error).
Proof. apply retry_timer_completed_preserves, set_client_moves. Qed.

#[global] Instance run_posted_moves : Preserves moves run_posted.
Proof.
  assert (forall p, Preserves moves (run_handler p)) as Hp by (intros []; unfold run_handler; apply _).
  unfold run_posted, ask_rover. apply _.
Qed.

Lemma rover_exec_moves ev : ev <> RoverStop -> Preserves moves (rover_exec ev).
Proof.
  intros Hev. destruct ev; try done; cbn [rover_exec].
  all: unfold Rover.scan_for_rovers, is_low_power_mode, ask_rover, update_status,
    update_current_position, register_application_handler, register_discovery_handler; try apply _.
  - unfold Rover.start, MessageManager.start, MessageManager.set_message_callback, on_manager,
      ask_manager, on_timeout, on_protocol. apply _.
  - by apply timer_completed_moves; destruct aborted.
Qed.

Lemma rover_run_moves evs w : RoverStop ∉ evs -> moves w -> moves (rover_run evs w).
Proof.
  revert w. unfold rover_run. induction evs as [|ev evs IH]; intros w Hev Hw; [done|].
  apply not_elem_of_cons in Hev as [Hev Hevs]. apply IH; [done|]. by apply rover_exec_moves; [apply not_eq_sym|].
Qed.

(** Below is below or equal. *)
Lemma d_ltb_leb x y : d_leb x y = false -> d_ltb x y = false.
Proof. unfold d_leb, d_ltb, SFleb, SFltb. by destruct (SFcompare x y) as [[]|]. Qed.

(** A step is one metre long: a rover that is not at its target is further away. *)
Lemma next_position_metre (c t : Coordinate) :
  let d := calculate_distance c.1 c.2 t.1 t.2 in
  d_leb d d_one = false ->
  next_position c t = (d_add c.1 (d_mul (d_div (d_sub t.1 c.1) d) d_one),
                       d_add c.2 (d_mul (d_div (d_sub t.2 c.2) d) d_one)).
Proof.
  intros d Hd. unfold next_position. fold d.
  assert (d_mul MOVE_RATE_METERS_PER_SECOND (d_div (d_of_Z MOVEMENT_INTERVAL) (d_of_Z 1000)) = d_one)
    as -> by reflexivity.
  by rewrite (d_ltb_leb _ _ Hd).
Qed.

(** C23: A rover that is not stopped keeps moving until it reaches its target: in every
    state it can get to, if it has a target then its movement timer is armed, and each
    time it fires the rover makes one step, one metre in the direction of the target, and
    arms it again, an interval after its last expiry, or it is within a metre of the
    target, where it stays, and has no target any more. *)
Theorem rover_keeps_moving evs resolve host id steady system w0 target :
  make_Rover resolve host id steady system = Ok w0 -> RoverStop ∉ evs ->
  let w := rover_run evs w0 in
  target_coordinate_ (app_ w) = Some target ->
  let w' := run_state (timer_completed MovementTimer NoError) w in
  let r := app_ w in
  let r' := app_ w' in
  pending (movement_timer_ r) = true /\
  if at_target target r
  then target_coordinate_ r' = None /\ current_coordinate_ r' = current_coordinate_ r
  else target_coordinate_ r' = Some target /\
    current_coordinate_ r' = next_position (current_coordinate_ r) target /\
    (let c := current_coordinate_ r in
     let d := calculate_distance c.1 c.2 target.1 target.2 in
     current_coordinate_ r' =
       (d_add c.1 (d_mul (d_div (d_sub target.1 c.1) d) d_one),
        d_add c.2 (d_mul (d_div (d_sub target.2 c.2) d) d_one))) /\
    movement_timer_ r' = mkTimer (expiry (movement_timer_ r) + ms MOVEMENT_INTERVAL) true /\
    sent_ w' = sent_ w.
Proof.
  intros Hmake Hstop w Ht w' r r'.
  assert (moves w0) as Hw0.
  { revert Hmake. unfold make_Rover, register_base.
    destruct resolve as [[|e l]|x]; [done| |done]. intros [= <-]. by intros []. }
  pose proof (rover_run_moves evs w0 Hstop Hw0 : moves w) as Hw.
  split; [apply Hw; unfold moving; by rewrite Ht|]. unfold r', w'. rewrite movement_fires, Ht. fold r.
  destruct (at_target target r) eqn:Hat; cbv zeta.
  2: { split; [exact Ht|]. split; [symmetry; apply surjective_pairing|].
       split; [|by split]. rewrite <- next_position_metre by exact Hat.
       symmetry. apply surjective_pairing. }
  match goal with |- context [run_state (tell_base ?m) ?w1] =>
    destruct (tell_base_runs m w1) as (w2 & H & S) end.
  unfold run_state. rewrite H. cbn [snd]. rewrite (app_after _ _ _ S).
  destruct (base_of_node _) as [be|]; [|done]. unfold send_effect, report_effect.
  destruct (ep_unspecified be || bool_decide (be = be)); [|done].
  match goal with |- context [if ?c then add_stored _ _ else _] => by destruct c end.
Qed.
End Movement.

Section Witnesses.
Import Ipv4 SampleLibraries Sample SampleBase SampleRover.

(** A rover hears of a target a few metres away, and makes its first step. *)
Definition journey : list rover_event :=
  [RoverStart; RoverReceive NoError
     (string_to_binary (text_of (CommandMessage "SET_TARGET_COORD" "3.5,4" "base" 0))) base_ep].

Definition here : Coordinate := (d_div (d_of_Z 7) (d_of_Z 2), d_of_Z 4).

Definition fresh_rover : World Rover :=
  match make_Rover (Ok [base_ep]) "base.local" "grp18-rover" 0 0 with
  | Ok w => w
  | Throw _ => rover_in INACTIVE
  end.

Lemma journey_goes_on : RoverStop ∉ journey.
Proof. unfold journey. rewrite !elem_of_cons, elem_of_nil. by intros [|[|]]. Qed.

Lemma journey_target :
  target_coordinate_ (app_ (rover_run journey fresh_rover)) = Some here /\
  at_target here (app_ (rover_run journey fresh_rover)) = false /\
  current_coordinate_ (app_ (rover_run journey fresh_rover)) = (d_zero, d_zero).
Proof. vm_compute. by split_and!. Qed.

(** Its position to six digits. *)
Definition shown (w : World Rover) : string * string :=
  prod_map fixed6 fixed6 (current_coordinate_ (app_ w)).

Lemma rover_keeps_moving_witness :
  shown (run_state (timer_completed MovementTimer NoError) (rover_run journey fresh_rover)) =
  ("0.658505"%string, "0.752577"%string).
Proof.
  destruct journey_target as (H1 & H2 & H3).
  pose proof (rover_keeps_moving journey (Ok [base_ep]) "base.local" "grp18-rover" 0 0 fresh_rover here
    eq_refl journey_goes_on H1) as H. cbv zeta in H. rewrite H2, H3 in H.
  destruct H as (_ & _ & _ & H & _). unfold shown. rewrite H. vm_compute. reflexivity.
Defined.
End Witnesses.
